(* ===== verification/_CoqProject ===== *)
-Q . S2P
Prelude.v
RustStr.v
Protocol.v
Handle.v
Multiplexer.v
Registry.v
RegistryProofs.v
Overlap.v
RegistryTheorems.v
Config.v
Database.v
Auth.v
Address.v
Http.v
Upstream.v
Paths.v
Tls.v
Schema.v
SchemaTheorems.v
DatabaseInvariant.v
State.v
Access.v
Proxy.v
Cascade.v
ApiError.v
Tunnel.v
TunnelTheorems.v
UpstreamSession.v
UpstreamTheorems.v
Pinning.v
Mirror.v
Lifecycle.v
Views.v
Accounts.v
Enroll.v
AccountTheorems.v
Devices.v
DeviceTheorems.v
Console.v
Api.v
Server.v
Startup.v
StartupTheorems.v
PasswordTheorems.v
Main.v
MainTheorems.v
RelayInvariant.v
ApiTheorems.v
ServerTheorems.v
RelayTheorems.v
Interleaving.v
Conformance.v
RegistryTests.v
TunnelTests.v
AddressTests.v
StateTests.v
UpstreamTests.v
AuthTests.v
DatabaseTests.v
ProxyTests.v
ApiTests.v
Integration.v
EndToEndTests.v
RelayAccessTests.v
RelayCascadeTests.v
