(* ===== verification/Prelude.v ===== *)
(** * termexo-relay: a verification library

    ** The program

    [termexo-relay] (Rust, [src/]) is a relay service.  Desktop apps and downstream relays dial out to it
    and hold a tunnel (a WebSocket that carries control frames and multiplexed streams); browsers reach
    the devices behind those tunnels under [/d/<deviceId>/] or on a subdomain; accounts manage devices
    through a console and its API; and a relay may itself hold a tunnel to an upstream relay, so that
    relays form chains.  One database keeps accounts, devices, enrollment codes, sessions and an audit
    trail, one in-memory table keeps who is reachable and how.

    ** The files, from the bottom up

    - [Prelude] (this file): results, the state-and-error monad [SE] the handlers run in, machine
      integers, frames ([preserves R m]), the tactics and hint databases.  [RustStr]: the operations of
      Rust's [str] on byte strings.
    - [Protocol]: the wire crate [termexo-relay-protocol], which is not in the repository: the class
      [Protocol] names what the source uses of it, [ProtocolLaws] what the source relies on, and
      [sample_protocol] is an instance that satisfies the laws.
    - [Handle] ([tunnel/handle.rs]), [Multiplexer] (the task that opens a tunnel's streams, of
      [tunnel/session.rs]), [Registry] ([registry.rs]) with [RegistryProofs] (the invariant and the step
      relation), [Overlap] (calls that overlap) and [RegistryTheorems].  The half of an operation that runs
      under the mutex ([*_locked]) and the publication after it are separate definitions, because other
      operations may come in between: [overlapping] is any run of such halves, with the changes that have
      taken effect, those that are published and those still owed.
    - [Config] ([config.rs]), [Database] ([db/*.rs]: every statement as a transition on typed tables), [Auth]
      ([auth/*.rs]), [Address] ([address.rs], [forwarded::scheme]), [Http] (the crates [http] and [axum], a
      class with laws).
    - [Upstream] ([upstream/addresses.rs], [forward.rs], [settings.rs], [pinning.rs], the status and
      [next_step] of [mod.rs]); [Paths] ([paths.rs] over a file system with modes, a umask and refusals);
      [Tls] ([tls.rs]); [Schema] ([migrations/0001_initial.sql], [migrate] and [ensure_column], over the
      untyped rows of the file, and the reading of every table at the types of [Database]) with
      [SchemaTheorems].
    - [DatabaseInvariant]: the invariant of the typed tables and every operation of [Database] kept to it.
    - [State] ([state.rs], [audit.rs], [forwarded.rs]): [RelayState] is the source's struct with its
      environment - the channels into the tunnels, the clock, the random sources - as fields, and a handler
      is a computation in [SE RelayState].
    - [Access] ([access.rs]), [Proxy] ([proxy.rs]), [Cascade] (no file of its own: relays of a chain
      composed from [Proxy] and [Upstream], a request followed from relay to relay).
    - [ApiError] ([api/error.rs]), [Tunnel] ([tunnel/mod.rs], [session.rs]) with [TunnelTheorems],
      [UpstreamSession] ([upstream/session.rs], [enroll.rs], the rest of [mod.rs]) with
      [UpstreamTheorems], [Pinning] (a certificate from one relay's log to another's link), [Mirror] (two
      relays and the announcements between them) and [Lifecycle]
      (supervisors and the requests that replace them, interleaved at every [await]).
    - [Views], [Accounts], [Enroll], [Devices], [Api] ([api/*.rs]) with [AccountTheorems], [DeviceTheorems]
      and [ApiTheorems]: the extractors, every handler of the API and the table that picks one.
    - [Console] ([console.rs]), [Server] ([server.rs]: the layers, the routing and [dispatch] of one
      request) with [ServerTheorems], [Startup] ([bootstrap.rs], [prepare] and the [link] command once the
      database is open) with [StartupTheorems], [PasswordTheorems] (both ways to a new password), [Main]
      ([main.rs], [serve], [Database::open]: the subcommands over a machine with files, database files and a
      terminal) with [MainTheorems].
    - [RelayInvariant]: what every operation of the relay keeps, handler by handler; [RelayTheorems]: the
      events of a running relay and the theorems about every history of them.  There an event runs to its
      end before the next; [Interleaving] is the relay at the granularity of its locks, where every operation
      is a sequence of single calls that others may interrupt.
    - [Conformance] and the files [*Tests]: the tests at the end of the source's files, translated and
      evaluated on the model.  [Integration], [EndToEndTests], [RelayAccessTests] and [RelayCascadeTests] do
      the same for [src/tests/]: a started relay, its console, its tunnels and, for the cascade, two relays
      with a link between them.  They are no theorems about the program; they show that the definitions above
      answer what the code answers on the inputs its authors chose.

    Definitions carry the source's names; where two functions of the source share one, the second is
    named after what it does ([list] of [users.rs] is [list_accounts]).  Constructors are
    [Type_Constructor], fields have a two-letter prefix.  An [IpAddr] is its canonical text, a [HashMap]
    a [gmap], a clock reading and a drawn random value come from the state's environment by index, what
    the network does is an argument ([Network], [Exchange]) or a list of events in the order the
    [select!] meets them.

    ** How the proofs are organised

    [preserves R m] says that every run of [m] relates the state before and after by [R]; the tactic
    [frame] composes it.  [triple P m Q X] and [sound I X m] are pre- and postconditions with a condition on
    the errors; each operation's lemma [*_sound] is a hint of the database [sound] and the tactic of that
    name composes them.  Interfaces ([Protocol], [HttpCrate], [Argon2], [TlsCrates], [DigestCrates], ...)
    are classes; their laws are classes of their own, with an instance [sample_*] that satisfies them and
    that the witnesses run on.

    ** The theorems

    - The whole relay: C1 the invariant of every history of requests, tunnels, upstream sessions and
      restarts, C2 the errors an API request can answer, C3 every stored row is read back, C4 what no
      interleaving of the threads breaks.
    - Routing table: the lemma [registry_invariant] is the invariant of every reachable table; C6 the published changes refine
      the table for every device whose changes were published in the order they took effect, which calls that
      do not overlap always do; the lemma [subscribe_then_snapshot] is the same for a subscriber that takes its snapshot
      later; C8 a
      reconnect survives every stale clean-up, C9 the exact effect of a snapshot, a device named twice
      included; the lemma
      [disconnect_effect] is the exact effect of a disconnect.
    - The front door and the start: C10 what reaches a device or an endpoint and what a device's own host answers
      ([own_host_answer]), C11 what holds when a relay listens and what the start did to the rows it found
      ([start_keeps]), C12 that it gets there in every TLS mode, C13 the migration of any released database, C14 an interrupted
      migration, C15 the logged fingerprint and what a link pinned to it refuses, C40 the first administrator.
    - Sessions and access: C16 what a token resolves to and what resolving it stores, C17 a used session never runs out, C18 signing in,
      C20 the access gate, C39 the gate in front of the endpoints.
    - Addresses: C19 device hosts are built and read back; the lemma [upstream_addresses_exact] is the
      addresses above.
    - What crosses a tunnel: C21 the console's cookie, C22 the request's head, C23 the answer's; the lemma
      [forward_crosses_gated] is the exchange.
    - Chains of relays: C5 the table above mirrors the table below, through the announcements, under the condition of C6, C25 a request ends after at
      most the hop budget and its preface lists the relays it crossed ([crosses]), C26 it arrives where the
      table says.
    - Tunnels: C28 admission, C29 what frames can change, C30 a session leaves nothing behind, whatever happened while it ran, C27
      whoever asks for a stream is answered, C31 what a revocation puts on the wire, behind a queued close too.
    - The upstream link: C32 the loop guard, C33 nothing is announced back, C34 when the supervisor gives
      up and what the rounds before were ([waited_out]), C7 the link is one supervisor's at a time under every interleaving.
    - The console's operations: C35 redeeming a code, C36 a code is spent once under every interleaving,
      C37 closing an account, C38 revoking a device, C24 the operator's password reset; the lemma
      [change_password_effect] is an account's own.

    Some state what the code does where a comment says otherwise (C31, C38), and so do the lemmas
    [upstream_addresses_exact], [longer_chain_is_withdrawn], [publication_can_be_overtaken],
    [console_cookie_first_field_only], [access_policy_not_carried], [authority_is_not_read],
    [replaced_link_keeps_addresses], [revoked_link_forgets_the_next], [disconnect_forgets_the_next] and
    [abandoned_start_leaves_no_link].

    ** Bounds and fuel

    Sequence numbers are 64 bits wide and wrap ([wrapping_add_u64]); the theorems that compare them say
    how far from the wrap they hold.  A tunnel's queue holds [COMMAND_CAPACITY] commands.  [chunks_fuel]
    has the length of the string as fuel, and a chunk takes at least one byte.  A request's journey
    through a chain has fuel in [travel]; C25 proves that the hop budget is enough for every network of
    relays.  One poll of the multiplexer's task has fuel in
    [rounds], the streams that are ready; C27 proves that it is enough.  The loops over sockets recurse on
    their event lists, the supervisor on its rounds; a list
    that runs out is a loop still waiting, and the theorems about an end say that it ended.

    ** What is not modelled

    The console's TypeScript; sockets, TLS, yamux, axum, hyper, rusqlite, argon2 and serde beyond the
    classes named above; the copying of bytes ([TunnelIo]); clap's parsing of the
    arguments and logging.  A [Machine] keeps the database file's untyped rows as a start found and migrated
    them; what the relay writes afterwards, the start's own statements included, is in the typed tables of its
    state, and C11 relates the two.  A path is its text: that the absolute form of a data directory names the
    directory that was just made under the given one is [std::path::absolute]'s business. *)

From stdpp Require Export base tactics option list gmap strings fin_maps.
From Stdlib Require Export ZArith Lia.

Create HintDb relay.
Create HintDb frame.
Create Rewrite HintDb relay_str.

Declare Scope relay_scope.
Delimit Scope relay_scope with relay.
Open Scope relay_scope.

(** ** Fallible values: Rust's [Result] *)

Inductive result (E A : Type) : Type :=
| Ok (a : A)
| Err (e : E).

Arguments Ok {E A} a.
Arguments Err {E A} e.

#[export] Instance result_ret E : MRet (result E) := fun A a => Ok a.

#[export] Instance result_bind E : MBind (result E) := fun A B f m =>
  match m with
  | Ok a => f a
  | Err e => Err e
  end.

(** [map_err] and [ok_or] of the standard library. *)
Definition map_err {E F A : Type} (f : E -> F) (m : result E A) : result F A :=
  match m with
  | Ok a => Ok a
  | Err e => Err (f e)
  end.

Definition ok_or {E A : Type} (e : E) (o : option A) : result E A :=
  match o with
  | Some a => Ok a
  | None => Err e
  end.

(** [Result::ok]. *)
Definition ok {E A : Type} (m : result E A) : option A :=
  match m with
  | Ok a => Some a
  | Err _ => None
  end.

(** [Option::transpose] on an optional fallible value. *)
Definition transpose {E A : Type} (o : option (result E A)) : result E (option A) :=
  match o with
  | None => Ok None
  | Some (Ok a) => Ok (Some a)
  | Some (Err e) => Err e
  end.

(** Collecting an iterator of results into one result, stopping at the first error. *)
Fixpoint collect {E A : Type} (l : list (result E A)) : result E (list A) :=
  match l with
  | [] => Ok []
  | m :: l' => a ← m; rest ← collect l'; Ok (a :: rest)
  end.

Definition is_ok {E A : Type} (m : result E A) : bool :=
  match m with
  | Ok _ => true
  | Err _ => false
  end.

(** ** Stateful fallible computations

    A Rust function that mutates shared state through [&self] and returns a [Result]: the state
    reached so far survives an early return through [?]. *)

Definition SE (S E A : Type) : Type := S -> result E A * S.

#[export] Instance se_ret S E : MRet (SE S E) := fun A a s => (Ok a, s).

#[export] Instance se_bind S E : MBind (SE S E) := fun A B f m s =>
  match m s with
  | (Ok a, s') => f a s'
  | (Err e, s') => (Err e, s')
  end.

Definition se_fail {S E A : Type} (e : E) : SE S E A := fun s => (Err e, s).

(** Lifting a pure [Result] through [?]. *)
Definition se_lift {S E A : Type} (m : result E A) : SE S E A := fun s => (m, s).

Definition se_get {S E A : Type} (f : S -> A) : SE S E A := fun s => (Ok (f s), s).

Definition se_modify {S E : Type} (f : S -> S) : SE S E unit := fun s => (Ok tt, f s).

(** A call that answers a value and a new state and cannot fail. *)
Definition se_state {S E A : Type} (f : S -> A * S) : SE S E A :=
  fun s => let '(a, s') := f s in (Ok a, s').

(** [if let Err(_) = call { log }]: the outcome is looked at and the error goes no further. *)
Definition se_try {S E F A : Type} (m : SE S E A) : SE S F (result E A) :=
  fun s => let '(r, s') := m s in (Ok r, s').

Definition se_map_err {S E F A : Type} (f : E -> F) (m : SE S E A) : SE S F A :=
  fun s => let '(r, s') := m s in (map_err f r, s').

(** Running a computation on a component of a larger state. *)
Definition se_zoom {S T E A : Type} (get : S -> T) (put : T -> S -> S) (m : SE T E A) : SE S E A :=
  fun s => let '(r, t) := m (get s) in (r, put t s).

Fixpoint se_for {S E A : Type} (l : list A) (body : A -> SE S E unit) : SE S E unit :=
  match l with
  | [] => mret tt
  | a :: l' => body a ;; se_for l' body
  end.

(** ** Machine integers *)

Definition u16_max : Z := 65535.
Definition u32_max : Z := 4294967295.
Definition u64_modulus : N := 18446744073709551616.

(** [AtomicU64::fetch_add] wraps around. *)
Definition wrapping_add_u64 (a b : N) : N := ((a + b) mod u64_modulus)%N.

(** [u32::saturating_add]. *)
Definition saturating_add_u32 (a b : Z) : Z := Z.min (a + b) u32_max.

(** [i64] comparison helpers the source spells [max] and [clamp]. *)
Definition clamp (lo hi x : Z) : Z := Z.max lo (Z.min x hi).

(** ** Tactics of the development *)

(** Case analysis on the scrutinee of a [match] or [if] in the goal, keeping the equation. *)
Ltac case_on_goal :=
  match goal with
  | |- context [match ?x with _ => _ end] => destruct x eqn:?
  end.

Ltac case_on_hyp H :=
  match type of H with
  | context [match ?x with _ => _ end] => destruct x eqn:?
  end.

(** Closes goals left by case analysis on pairs, options and results. *)
Ltac crush_cases := repeat (case_on_goal; simplify_eq/=); auto.

(** Reduces a monadic run in a hypothesis until it branches. *)
Ltac run_in H := unfold mbind, mret, se_bind, se_ret, result_bind, result_ret in H; simpl in H.

Ltac run := unfold mbind, mret, se_bind, se_ret, result_bind, result_ret; simpl.

(** Evaluates the left side of a closed equation. *)
Ltac evaluate := match goal with |- _ = ?y => vm_cast_no_check (@eq_refl _ y) end.

(** ** Generic lemmas *)

(** A run is its answer and its final state; a witness evaluates only the answer. *)
Lemma run_answer {A B : Type} (p : A * B) (a : A) : fst p = a -> p = (a, snd p).
Proof. destruct p. by intros <-. Qed.

Section lists.
Context {A B : Type}.

Lemma existsb_false_iff (f : A -> bool) (l : list A) :
  existsb f l = false <-> (forall x, x ∈ l -> f x = false).
Proof.
  induction l as [|a l IH]; simpl.
  - split; [intros _ x Hx; by apply not_elem_of_nil in Hx | done].
  - rewrite orb_false_iff, IH. split.
    + intros [Ha Hl] x [->|Hx]%elem_of_cons; auto.
    + intros H. split; [apply H; left | intros x Hx; apply H; by right].
Qed.

Lemma existsb_true_iff (f : A -> bool) (l : list A) :
  existsb f l = true <-> (exists x, x ∈ l /\ f x = true).
Proof.
  rewrite List.existsb_exists. split; intros (x & Hx & Hf); exists x; split; auto;
    by apply list_elem_of_In.
Qed.

Lemma forallb_true_iff (f : A -> bool) (l : list A) :
  forallb f l = true <-> (forall x, x ∈ l -> f x = true).
Proof.
  rewrite List.forallb_forall. split; intros H x Hx; apply H; by apply list_elem_of_In.
Qed.

End lists.

Lemma filter_filter {A} (f g : A -> bool) (l : list A) :
  List.filter f (List.filter g l) = List.filter (fun x => g x && f x) l.
Proof.
  induction l as [|x l IH]; [done|]. simpl. destruct (g x); simpl; [|done]. destruct (f x); by rewrite IH.
Qed.

Lemma filter_all {A} (f : A -> bool) (l : list A) :
  (forall x, x ∈ l -> f x = true) -> List.filter f l = l.
Proof.
  induction l as [|x l IH]; intros Hl; [done|]. simpl. rewrite (Hl x) by left.
  f_equal. apply IH. intros. apply Hl. by right.
Qed.

Lemma elem_of_filter_b {A} (f : A -> bool) (l : list A) (x : A) :
  x ∈ List.filter f l <-> x ∈ l /\ f x = true.
Proof. rewrite !list_elem_of_In. apply List.filter_In. Qed.

(** The first pair of a filtered table is a row of it. *)
Lemma head_filter_lookup {R} (m : gmap string R) (keep : string * R -> bool) id row :
  head (List.filter keep (map_to_list m)) = Some (id, row) -> m !! id = Some row /\ keep (id, row) = true.
Proof.
  intros Hh. destruct (List.filter keep (map_to_list m)) as [|p l] eqn:E; [done|]. injection Hh as ->.
  assert (Hin : List.In (id, row) (List.filter keep (map_to_list m))) by (rewrite E; by left).
  apply List.filter_In in Hin as [Hin Hk]. split; [|done].
  by apply elem_of_map_to_list, list_elem_of_In.
Qed.

Lemma collect_ok {E A B : Type} (f : A -> result E B) (g : A -> B) (l : list A) :
  (forall a, a ∈ l -> f a = Ok (g a)) -> collect (f <$> l) = Ok (g <$> l).
Proof.
  induction l as [|a l IH]; intros H; [done|].
  rewrite !fmap_cons. simpl. rewrite (H a) by left. run.
  rewrite IH; [done|]. intros b Hb. apply H. by right.
Qed.

Lemma clamp_bounds (lo hi x : Z) : (lo <= hi -> lo <= clamp lo hi x <= hi)%Z.
Proof. unfold clamp. lia. Qed.

Lemma clamp_id (lo hi x : Z) : (lo <= x <= hi -> clamp lo hi x = x)%Z.
Proof. unfold clamp. lia. Qed.

Lemma saturating_add_u32_range (a b : Z) :
  (0 <= a -> 0 <= b -> 0 <= saturating_add_u32 a b <= u32_max)%Z.
Proof. unfold saturating_add_u32, u32_max. lia. Qed.

Lemma wrapping_add_u64_small (a b : N) :
  (a + b < u64_modulus)%N -> wrapping_add_u64 a b = (a + b)%N.
Proof. intros. unfold wrapping_add_u64. by rewrite N.mod_small. Qed.

#[export] Hint Resolve clamp_bounds : relay.

(** ** Running a computation step by step *)

Lemma se_bind_ok {S E A B} (m : SE S E A) (f : A -> SE S E B) s b s' :
  (a ← m; f a) s = (Ok b, s') -> exists a s1, m s = (Ok a, s1) /\ f a s1 = (Ok b, s').
Proof. unfold mbind, se_bind. destruct (m s) as [[a|e] s1]; [eauto|done]. Qed.

Lemma se_bind_eq {S E A B} (m : SE S E A) (f : A -> SE S E B) s a s1 :
  m s = (Ok a, s1) -> (a ← m; f a) s = f a s1.
Proof. unfold mbind, se_bind. by intros ->. Qed.

Lemma se_bind_err {S E A B} (m : SE S E A) (f : A -> SE S E B) s e s1 :
  m s = (Err e, s1) -> (a ← m; f a) s = (Err e, s1).
Proof. unfold mbind, se_bind. by intros ->. Qed.

Lemma zoom_ok {S T E A} (get : S -> T) put (m : SE T E A) s a s' :
  se_zoom get put m s = (Ok a, s') -> exists t, m (get s) = (Ok a, t) /\ s' = put t s.
Proof. unfold se_zoom. destruct (m (get s)) as [r t]. intros [= -> <-]. eauto. Qed.

Lemma zoom_run {S T E A} (get : S -> T) put (m : SE T E A) s r t :
  m (get s) = (r, t) -> se_zoom get put m s = (r, put t s).
Proof. unfold se_zoom. by intros ->. Qed.

Lemma map_err_ok {S E F A} (f : E -> F) (m : SE S E A) s a s' :
  se_map_err f m s = (Ok a, s') -> m s = (Ok a, s').
Proof. unfold se_map_err. destruct (m s) as [[b|e] t]; [|done]. by intros [= -> ->]. Qed.

Lemma map_err_run {S E F A} (f : E -> F) (m : SE S E A) s a s' :
  m s = (Ok a, s') -> se_map_err f m s = (Ok a, s').
Proof. unfold se_map_err. by intros ->. Qed.

(** ** Frames: what a computation leaves alone

    [preserves R m]: every run of [m], successful or not, relates the state before it and the state
    after it by [R].  For a preorder it is closed under the monad's operations. *)

Definition preserves {S E A : Type} (R : S -> S -> Prop) (m : SE S E A) : Prop :=
  forall s, R s (snd (m s)).

Section preserves.
Context {S E : Type} (R : S -> S -> Prop) `{!PreOrder R}.

Lemma preserves_ret {A} (a : A) : preserves R (mret a : SE S E A).
Proof. intros s. reflexivity. Qed.

Lemma preserves_fail {A} (e : E) : preserves R (se_fail e : SE S E A).
Proof. intros s. reflexivity. Qed.

Lemma preserves_lift {A} (r : result E A) : preserves R (se_lift r : SE S E A).
Proof. intros s. reflexivity. Qed.

Lemma preserves_get {A} (f : S -> A) : preserves R (se_get f : SE S E A).
Proof. intros s. reflexivity. Qed.

Lemma preserves_bind {A B} (m : SE S E A) (f : A -> SE S E B) :
  preserves R m -> (forall a, preserves R (f a)) -> preserves R (a ← m; f a).
Proof.
  intros Hm Hf s. unfold mbind, se_bind. specialize (Hm s). destruct (m s) as [[a|e] s']; [|done].
  simpl in Hm. etrans; [exact Hm|apply Hf].
Qed.

Lemma preserves_try {F A} (m : SE S E A) : preserves R m -> preserves R (se_try m : SE S F _).
Proof. intros Hm s. unfold se_try. specialize (Hm s). by destruct (m s). Qed.

Lemma preserves_map_err {F A} (f : E -> F) (m : SE S E A) :
  preserves R m -> preserves R (se_map_err f m).
Proof. intros Hm s. unfold se_map_err. specialize (Hm s). by destruct (m s). Qed.

Lemma preserves_for {A} (l : list A) (body : A -> SE S E unit) :
  (forall a, preserves R (body a)) -> preserves R (se_for l body).
Proof.
  intros Hb. induction l as [|a l IH]; [apply preserves_ret|].
  apply preserves_bind; [apply Hb|intros _; exact IH].
Qed.

End preserves.

(** Computations that leave one part of the state as it is. *)
Definition keeps {S A : Type} (part : S -> A) (s s' : S) : Prop := part s' = part s.

#[export] Instance keeps_preorder {S A : Type} (part : S -> A) : PreOrder (keeps part).
Proof. split; [done|]. intros s1 s2 s3. unfold keeps. congruence. Qed.

(** Proves a frame by following the computation. *)
Ltac frame :=
  repeat first
    [ progress intros
    | solve [auto 2 with frame]
    | apply preserves_ret; tc_solve
    | apply preserves_fail; tc_solve
    | apply preserves_lift; tc_solve
    | apply preserves_get; tc_solve
    | apply preserves_bind; [tc_solve|..]
    | apply preserves_try
    | apply preserves_map_err
    | apply preserves_for; [tc_solve|]
    | match goal with
      | |- preserves _ (match ?x with _ => _ end) => destruct x
      | |- preserves _ (let '_ := ?x in _) => destruct x
      end ].

(** ** Assertions: what a computation keeps true and how it may fail

    [triple P m Q X] is the total assertion on a run of [m]: from a state with [P] it answers with [Q], or
    fails with [X].  [sound I X m] is its everyday form: [m] keeps [I], and fails only with an error in
    [X]. *)

Definition triple {S E A : Type} (P : S -> Prop) (m : SE S E A) (Q : A -> S -> Prop) (X : E -> S -> Prop)
    : Prop :=
  forall s, P s ->
    match m s with
    | (Ok a, s') => Q a s'
    | (Err e, s') => X e s'
    end.

Definition sound {S E A : Type} (I : S -> Prop) (X : E -> Prop) (m : SE S E A) : Prop :=
  triple I m (fun _ => I) (fun e s => I s /\ X e).

Section triples.
Context {S E : Type}.
Implicit Types (P : S -> Prop) (X : E -> S -> Prop).

Lemma triple_bind {A B} P (m : SE S E A) (f : A -> SE S E B) Q R X :
  triple P m Q X -> (forall a, triple (Q a) (f a) R X) -> triple P (a ← m; f a) R X.
Proof.
  intros Hm Hf s Hs. unfold mbind, se_bind. specialize (Hm s Hs).
  destruct (m s) as [[a|e] s']; [by apply Hf|done].
Qed.

Lemma triple_weaken {A} P P' (m : SE S E A) Q Q' X X' :
  triple P m Q X -> (forall s, P' s -> P s) -> (forall a s, Q a s -> Q' a s) -> (forall e s, X e s -> X' e s) ->
  triple P' m Q' X'.
Proof.
  intros Hm HP HQ HX s Hs. specialize (Hm s (HP s Hs)). destruct (m s) as [[a|e] s']; auto.
Qed.

Lemma triple_map_err {F A} P (f : E -> F) (m : SE S E A) Q (Y : F -> S -> Prop) :
  triple P m Q (fun e => Y (f e)) -> triple P (se_map_err f m) Q Y.
Proof. intros Hm s Hs. unfold se_map_err. specialize (Hm s Hs). by destruct (m s) as [[a|e] s']. Qed.

End triples.

Section sound.
Context {S E : Type} (I : S -> Prop).
Implicit Types (X : E -> Prop).

Lemma sound_ret {A} X (a : A) : sound I X (mret a : SE S E A).
Proof. by intros s Hs. Qed.

Lemma sound_fail {A} X (e : E) : X e -> sound I X (se_fail e : SE S E A).
Proof. by intros He s Hs. Qed.

Lemma sound_lift {A} X (r : result E A) : (forall e, r = Err e -> X e) -> sound I X (se_lift r).
Proof. intros Hr s Hs. unfold se_lift. destruct r; auto. Qed.

Lemma sound_get {A} X (f : S -> A) : sound I X (se_get f).
Proof. by intros s Hs. Qed.

Lemma sound_modify X (f : S -> S) : (forall s, I s -> I (f s)) -> sound I X (se_modify f).
Proof. intros Hf s Hs. by apply Hf. Qed.

Lemma sound_bind {A B} X (m : SE S E A) (f : A -> SE S E B) :
  sound I X m -> (forall a, sound I X (f a)) -> sound I X (a ← m; f a).
Proof. intros Hm Hf. by apply (triple_bind I m f (fun _ => I)). Qed.

Lemma sound_weaken {A} X X' (m : SE S E A) : sound I X m -> (forall e, X e -> X' e) -> sound I X' m.
Proof. intros Hm HX. eapply triple_weaken; [exact Hm|done..|]. naive_solver. Qed.

Lemma sound_try {F A} X (Y : F -> Prop) (m : SE S E A) : sound I X m -> sound I Y (se_try (F := F) m).
Proof.
  intros Hm s Hs. unfold se_try. specialize (Hm s Hs). destruct (m s) as [[a|e] s']; [done|apply Hm].
Qed.

Lemma sound_map_err {F A} (Y : F -> Prop) (f : E -> F) (m : SE S E A) :
  sound I (fun e => Y (f e)) m -> sound I Y (se_map_err f m).
Proof. exact (triple_map_err I f m (fun _ => I) (fun e s => I s /\ Y e)). Qed.

Lemma sound_for {A} X (l : list A) (body : A -> SE S E unit) :
  (forall a, sound I X (body a)) -> sound I X (se_for l body).
Proof.
  intros Hb. induction l as [|a l IH]; [apply sound_ret|].
  apply sound_bind; [apply Hb|intros _; exact IH].
Qed.

(** What was known of a part the computation leaves alone is still known after it. *)
Lemma sound_keeps {A T} X (m : SE S E A) (part : S -> T) (P : T -> Prop) :
  sound I X m -> preserves (keeps part) m ->
  triple (fun s => I s /\ P (part s)) m (fun _ s => I s /\ P (part s)) (fun e s => I s /\ X e).
Proof.
  intros Hm Hk s [Hs Hp]. specialize (Hm s Hs). specialize (Hk s). unfold keeps in Hk.
  destruct (m s) as [[a|e] s']; [|done]. cbn in Hk. by rewrite Hk.
Qed.

(** What a sound computation leaves, however it ends. *)
Lemma sound_state {A} X (m : SE S E A) s : sound I X m -> I s -> I (snd (m s)).
Proof. intros Hm Hs. specialize (Hm s Hs). by destruct (m s) as [[a|e] s']; [|destruct Hm]. Qed.

Lemma sound_error {A} X (m : SE S E A) s e s' : sound I X m -> I s -> m s = (Err e, s') -> X e.
Proof. intros Hm Hs He. specialize (Hm s Hs). rewrite He in Hm. apply Hm. Qed.

End sound.

Create HintDb sound.

(** Proves soundness by following the computation; the errors it raises itself are left to the hints. *)
Ltac sound :=
  repeat first
    [ progress intros
    | solve [eauto 2 with sound]
    | apply sound_ret
    | apply sound_get
    | apply sound_fail; solve [eauto 3 with sound]
    | apply sound_lift; solve [intros; eauto 3 with sound]
    | apply sound_bind
    | eapply sound_try
    | apply sound_for
    | match goal with
      | |- sound _ _ (match ?x with _ => _ end) => destruct x
      | |- sound _ _ (let '_ := ?x in _) => destruct x
      end ].
