(* ===== verification/RustStr.v ===== *)
(** * Rust's [str] as the source uses it

    A Rust string is the [string] of its UTF-8 bytes.  Byte-level operations ([strip_prefix],
    [split_once], [len], ...) act on the bytes; the character-level ones ([trim], [chars().count()])
    decode exactly as much UTF-8 as they need. *)

From stdpp Require Export pretty.
From Stdlib Require Export Ascii.
From S2P Require Import Prelude.

Abbreviation slash := ("/"%char).
Abbreviation dot := ("."%char).
Abbreviation colon := (":"%char).
Abbreviation comma := (","%char).
Abbreviation semicolon := (";"%char).
Abbreviation equals := ("="%char).
Abbreviation dash := ("-"%char).
Abbreviation newline := ("010"%char).

Definition dquote : ascii := "034"%char.
Definition byte_val (c : ascii) : N := N_of_ascii c.
Definition in_range (lo hi : N) (c : ascii) : bool := ((lo <=? byte_val c) && (byte_val c <=? hi))%N.

(** ** Character classes of [u8] and ASCII [char] *)

Definition is_ascii_uppercase (c : ascii) : bool := in_range 65 90 c.
Definition is_ascii_lowercase (c : ascii) : bool := in_range 97 122 c.
Definition is_ascii_digit (c : ascii) : bool := in_range 48 57 c.
Definition is_ascii (c : ascii) : bool := in_range 0 127 c.

Definition is_ascii_alphanumeric (c : ascii) : bool :=
  is_ascii_uppercase c || is_ascii_lowercase c || is_ascii_digit c.

Definition is_ascii_hexdigit (c : ascii) : bool :=
  is_ascii_digit c || in_range 65 70 c || in_range 97 102 c.

Definition to_ascii_lowercase (c : ascii) : ascii :=
  if is_ascii_uppercase c then ascii_of_N (byte_val c + 32) else c.

Definition to_ascii_uppercase (c : ascii) : ascii :=
  if is_ascii_lowercase c then ascii_of_N (byte_val c - 32) else c.

(** ** Byte-wise traversals *)

Fixpoint str_all (f : ascii -> bool) (s : string) : bool :=
  match s with
  | EmptyString => true
  | String c s' => f c && str_all f s'
  end.

Fixpoint str_any (f : ascii -> bool) (s : string) : bool :=
  match s with
  | EmptyString => false
  | String c s' => f c || str_any f s'
  end.

Fixpoint str_map (f : ascii -> ascii) (s : string) : string :=
  match s with
  | EmptyString => EmptyString
  | String c s' => String (f c) (str_map f s')
  end.

Fixpoint str_filter (f : ascii -> bool) (s : string) : string :=
  match s with
  | EmptyString => EmptyString
  | String c s' => if f c then String c (str_filter f s') else str_filter f s'
  end.

Fixpoint str_flat_map (f : ascii -> string) (s : string) : string :=
  match s with
  | EmptyString => EmptyString
  | String c s' => f c +:+ str_flat_map f s'
  end.

Definition str_len (s : string) : nat := String.length s.

Definition is_empty (s : string) : bool :=
  match s with
  | EmptyString => true
  | String _ _ => false
  end.

Definition contains_char (s : string) (c : ascii) : bool := str_any (Ascii.eqb c) s.

Definition eq_ignore_ascii_case (a b : string) : bool :=
  String.eqb (str_map to_ascii_lowercase a) (str_map to_ascii_lowercase b).

(** [chars().count()] of valid UTF-8: every byte that does not continue a character. *)
Fixpoint chars_count (s : string) : nat :=
  match s with
  | EmptyString => 0
  | String c s' => (if in_range 128 191 c then 0 else 1) + chars_count s'
  end.

(** ** Prefixes, suffixes and splitting *)

Fixpoint strip_prefix (p s : string) : option string :=
  match p, s with
  | EmptyString, _ => Some s
  | String a p', String b s' => if Ascii.eqb a b then strip_prefix p' s' else None
  | String _ _, EmptyString => None
  end.

Fixpoint strip_suffix (x s : string) : option string :=
  if String.eqb s x then Some EmptyString
  else match s with
       | EmptyString => None
       | String c s' => String c <$> strip_suffix x s'
       end.

Definition starts_with (s p : string) : bool := bool_decide (is_Some (strip_prefix p s)).
Definition ends_with (s x : string) : bool := bool_decide (is_Some (strip_suffix x s)).

Fixpoint split_once (c : ascii) (s : string) : option (string * string) :=
  match s with
  | EmptyString => None
  | String a s' =>
      if Ascii.eqb a c then Some (EmptyString, s')
      else '(p, q) ← split_once c s'; Some (String a p, q)
  end.

Fixpoint rsplit_once (c : ascii) (s : string) : option (string * string) :=
  match s with
  | EmptyString => None
  | String a s' =>
      match rsplit_once c s' with
      | Some (p, q) => Some (String a p, q)
      | None => if Ascii.eqb a c then Some (EmptyString, s') else None
      end
  end.

(** [str::split] on one character: always at least one piece. *)
Fixpoint split (c : ascii) (s : string) : list string :=
  match s with
  | EmptyString => [EmptyString]
  | String a s' =>
      if Ascii.eqb a c then EmptyString :: split c s'
      else match split c s' with
           | [] => [String a EmptyString]
           | piece :: rest => String a piece :: rest
           end
  end.

Fixpoint str_join (sep : string) (l : list string) : string :=
  match l with
  | [] => EmptyString
  | [s] => s
  | s :: l' => s +:+ sep +:+ str_join sep l'
  end.

(** ** Trimming *)

Fixpoint trim_start_char (c : ascii) (s : string) : string :=
  match s with
  | EmptyString => EmptyString
  | String a s' => if Ascii.eqb a c then trim_start_char c s' else s
  end.

Definition trim_end_char (c : ascii) (s : string) : string :=
  String.rev (trim_start_char c (String.rev s)).

Definition trim_matches_char (c : ascii) (s : string) : string :=
  trim_end_char c (trim_start_char c s).

(** The code points with the Unicode property [White_Space], by the length of their encoding. *)
Definition ws1 (a : ascii) : bool := in_range 9 13 a || in_range 32 32 a.

Definition ws2 (a b : ascii) : bool :=
  in_range 194 194 a && (in_range 133 133 b || in_range 160 160 b).

Definition ws3 (a b c : ascii) : bool :=
  (in_range 225 225 a && in_range 154 154 b && in_range 128 128 c)
  || (in_range 226 226 a && in_range 128 128 b
      && (in_range 128 138 c || in_range 168 169 c || in_range 175 175 c))
  || (in_range 226 226 a && in_range 129 129 b && in_range 159 159 c)
  || (in_range 227 227 a && in_range 128 128 b && in_range 128 128 c).

Fixpoint trim_ws (w2 : ascii -> ascii -> bool) (w3 : ascii -> ascii -> ascii -> bool)
    (s : string) : string :=
  match s with
  | EmptyString => EmptyString
  | String a s1 =>
      if ws1 a then trim_ws w2 w3 s1
      else match s1 with
           | EmptyString => s
           | String b s2 =>
               if w2 a b then trim_ws w2 w3 s2
               else match s2 with
                    | EmptyString => s
                    | String c s3 => if w3 a b c then trim_ws w2 w3 s3 else s
                    end
           end
  end.

Definition trim_start (s : string) : string := trim_ws ws2 ws3 s.

Definition trim_end (s : string) : string :=
  String.rev (trim_ws (fun b a => ws2 a b) (fun c b a => ws3 a b c) (String.rev s)).

Definition trim (s : string) : string := trim_end (trim_start s).

(** Whether some character of [s] is white space ([chars().any(char::is_whitespace)]). *)
Fixpoint any_whitespace (s : string) : bool :=
  match s with
  | EmptyString => false
  | String a s1 =>
      ws1 a
      || match s1 with
         | EmptyString => false
         | String b s2 =>
             ws2 a b || match s2 with
                        | EmptyString => false
                        | String c _ => ws3 a b c
                        end
         end
      || any_whitespace s1
  end.

(** [split_whitespace().collect::<String>()]. *)
Fixpoint without_whitespace (s : string) : string :=
  match s with
  | EmptyString => EmptyString
  | String a s1 =>
      if ws1 a then without_whitespace s1
      else match s1 with
           | EmptyString => String a EmptyString
           | String b s2 =>
               if ws2 a b then without_whitespace s2
               else match s2 with
                    | EmptyString => String a (without_whitespace s1)
                    | String c s3 =>
                        if ws3 a b c then without_whitespace s3 else String a (without_whitespace s1)
                    end
           end
  end.

(** [str::from_utf8]: the well-formed byte sequences of the Unicode standard. *)
Definition is_continuation (c : ascii) : bool := in_range 128 191 c.

Definition two_bytes (a b : ascii) : bool := in_range 194 223 a && is_continuation b.

Definition three_bytes (a b c : ascii) : bool :=
  (in_range 224 224 a && in_range 160 191 b
   || in_range 225 236 a && is_continuation b
   || in_range 237 237 a && in_range 128 159 b
   || in_range 238 239 a && is_continuation b)
  && is_continuation c.

Definition four_bytes (a b c d : ascii) : bool :=
  (in_range 240 240 a && in_range 144 191 b
   || in_range 241 243 a && is_continuation b
   || in_range 244 244 a && in_range 128 143 b)
  && is_continuation c && is_continuation d.

Fixpoint is_utf8 (s : string) : bool :=
  match s with
  | EmptyString => true
  | String a s1 =>
      if is_ascii a then is_utf8 s1
      else match s1 with
           | String b s2 =>
               if two_bytes a b then is_utf8 s2
               else match s2 with
                    | String c s3 =>
                        if three_bytes a b c then is_utf8 s3
                        else match s3 with
                             | String d s4 => four_bytes a b c d && is_utf8 s4
                             | EmptyString => false
                             end
                    | EmptyString => false
                    end
           | EmptyString => false
           end
  end.

(** [str::find] with a string: the index of the first byte of its first occurrence. *)
Fixpoint str_find (p s : string) : option nat :=
  if starts_with s p then Some 0
  else match s with
       | EmptyString => None
       | String _ s' => S <$> str_find p s'
       end.

(** [str::to_lowercase]: ASCII is folded here; [unicode] is the Unicode case table, consulted only
    when the string leaves ASCII. *)
Definition to_lowercase (unicode : string -> string) (s : string) : string :=
  if str_all is_ascii s then str_map to_ascii_lowercase s else unicode s.

Fixpoint str_take (n : nat) (s : string) : string :=
  match n, s with
  | S n', String c s' => String c (str_take n' s')
  | _, _ => EmptyString
  end.

Fixpoint str_drop (n : nat) (s : string) : string :=
  match n, s with
  | O, _ => s
  | S n', String _ s' => str_drop n' s'
  | S _, EmptyString => EmptyString
  end.

(** [<[u8]>::chunks]; the number of bytes is enough fuel, since a chunk takes at least one. *)
Fixpoint chunks_fuel (fuel n : nat) (s : string) : list string :=
  match fuel with
  | O => []
  | S fuel' =>
      if is_empty s then [] else str_take n s :: chunks_fuel fuel' n (str_drop n s)
  end.

Definition chunks (n : nat) (s : string) : list string := chunks_fuel (str_len s) n s.

(** [{byte:02X}]. *)
Definition hex_digit (n : N) : ascii :=
  if (n <? 10)%N then ascii_of_N (48 + n) else ascii_of_N (55 + n).

Definition hex_byte (c : ascii) : string :=
  String (hex_digit (byte_val c / 16)) (String (hex_digit (byte_val c mod 16)) EmptyString).

(** ** Lemmas *)

Lemma append_String (c : ascii) (s t : string) : String c s +:+ t = String c (s +:+ t).
Proof. reflexivity. Qed.

Lemma append_nil_l (t : string) : EmptyString +:+ t = t.
Proof. reflexivity. Qed.

Lemma append_nil_r (s : string) : s +:+ EmptyString = s.
Proof. induction s as [|c s IH]; [done|]. by rewrite append_String, IH. Qed.

Lemma append_assoc (s t u : string) : (s +:+ t) +:+ u = s +:+ t +:+ u.
Proof. induction s as [|c s IH]; [done|]. by rewrite !append_String, IH. Qed.

Lemma append_length (s t : string) : str_len (s +:+ t) = str_len s + str_len t.
Proof.
  unfold str_len. induction s as [|c s IH]; [done|]. rewrite append_String. simpl. by rewrite IH.
Qed.

Lemma append_inj_l (s t u : string) : s +:+ t = s +:+ u -> t = u.
Proof. induction s as [|c s IH]; [done|]. rewrite !append_String. intros [=]. auto. Qed.

Lemma append_inj_r (s t u : string) : s +:+ u = t +:+ u -> s = t.
Proof.
  revert t. induction s as [|c s IH]; intros [|d t]; rewrite ?append_nil_l, ?append_String; [done|..].
  - intros H%(f_equal str_len). change (String d (t +:+ u)) with (String d t +:+ u) in H.
    rewrite append_length in H. unfold str_len in H. simpl in H. lia.
  - intros H%(f_equal str_len). change (String c (s +:+ u)) with (String c s +:+ u) in H.
    rewrite append_length in H. unfold str_len in H. simpl in H. lia.
  - intros [= -> H]. f_equal. auto.
Qed.

Lemma str_all_app (f : ascii -> bool) (s t : string) :
  str_all f (s +:+ t) = str_all f s && str_all f t.
Proof.
  induction s as [|c s IH]; [done|]. rewrite append_String. simpl. by rewrite IH, andb_assoc.
Qed.

Lemma str_any_app (f : ascii -> bool) (s t : string) :
  str_any f (s +:+ t) = str_any f s || str_any f t.
Proof.
  induction s as [|c s IH]; [done|]. rewrite append_String. simpl. by rewrite IH, orb_assoc.
Qed.

Lemma contains_char_app (s t : string) (c : ascii) :
  contains_char (s +:+ t) c = contains_char s c || contains_char t c.
Proof. apply str_any_app. Qed.

Lemma str_all_impl (f g : ascii -> bool) (s : string) :
  (forall c, f c = true -> g c = true) -> str_all f s = true -> str_all g s = true.
Proof.
  intros H. induction s as [|c s IH]; [done|]. simpl. rewrite !andb_true_iff. naive_solver.
Qed.

(** An occurrence begins with the first byte of what is looked for. *)
Lemma str_find_skip (c : ascii) (p prefix s : string) :
  contains_char prefix c = false ->
  str_find (String c p) (prefix +:+ s) = Nat.add (str_len prefix) <$> str_find (String c p) s.
Proof.
  induction prefix as [|d prefix IH]; intros Hd.
  - rewrite append_nil_l. cbn [str_len String.length]. by destruct (str_find (String c p) s).
  - rewrite append_String. unfold contains_char in Hd. cbn in Hd. apply orb_false_iff in Hd as [Hd Hp].
    cbn [str_find]. unfold starts_with at 1. cbn [strip_prefix]. rewrite Hd. cbn.
    rewrite IH by done. by destruct (str_find (String c p) s).
Qed.

Lemma str_find_step (c : ascii) (p s : string) :
  starts_with (String c s) p = false -> str_find p (String c s) = S <$> str_find p s.
Proof. intros Hs. cbn [str_find]. by rewrite Hs. Qed.

Lemma str_find_here (p s : string) : str_find p (p +:+ s) = Some 0.
Proof.
  assert (Hs : starts_with (p +:+ s) p = true).
  { apply bool_decide_eq_true. revert s. induction p as [|c p IH]; intros s; [by eexists|].
    rewrite append_String. cbn. by rewrite Ascii.eqb_refl. }
  destruct (p +:+ s) as [|c t]; cbn [str_find]; by rewrite Hs.
Qed.

Lemma is_utf8_ascii (s : string) : str_all is_ascii s = true -> is_utf8 s = true.
Proof.
  induction s as [|c s IH]; [done|]. cbn. intros [Hc Hs]%andb_true_iff. rewrite Hc. by apply IH.
Qed.

Lemma str_all_not_contains (f : ascii -> bool) (s : string) (c : ascii) :
  f c = false -> str_all f s = true -> contains_char s c = false.
Proof.
  intros Hc. induction s as [|d s IH]; [done|]. simpl. unfold contains_char. simpl.
  rewrite andb_true_iff, orb_false_iff. intros [Hd Hs]. split; [|auto].
  apply Ascii.eqb_neq. intros ->. congruence.
Qed.

Lemma strip_prefix_app (p s : string) : strip_prefix p (p +:+ s) = Some s.
Proof. induction p as [|c p IH]; [done|]. rewrite append_String. simpl. by rewrite Ascii.eqb_refl. Qed.

Lemma strip_prefix_Some (p s r : string) : strip_prefix p s = Some r <-> s = p +:+ r.
Proof.
  split; [|intros ->; apply strip_prefix_app].
  revert s. induction p as [|c p IH]; intros s; simpl; [by intros [= ->]|].
  destruct s as [|d s]; [done|]. destruct (Ascii.eqb_spec c d) as [->|]; [|done].
  intros ->%IH. reflexivity.
Qed.

Lemma strip_suffix_app (x s : string) : strip_suffix x (s +:+ x) = Some s.
Proof.
  induction s as [|c s IH].
  - rewrite append_nil_l. destruct x; simpl; [done|].
    by rewrite Ascii.eqb_refl, String.eqb_refl.
  - rewrite append_String. cbn [strip_suffix].
    destruct (String.eqb_spec (String c (s +:+ x)) x) as [H|_].
    + apply (f_equal str_len) in H. change (String c (s +:+ x)) with (String c s +:+ x) in H.
      rewrite append_length in H. unfold str_len in H. simpl in H. lia.
    + by rewrite IH.
Qed.

Lemma strip_suffix_Some (x s r : string) : strip_suffix x s = Some r <-> s = r +:+ x.
Proof.
  split; [|intros ->; apply strip_suffix_app].
  revert r. induction s as [|c s IH]; intros r; cbn [strip_suffix].
  - destruct (String.eqb_spec EmptyString x) as [<-|]; [by intros [= <-]|done].
  - destruct (String.eqb_spec (String c s) x) as [<-|]; [by intros [= <-]|].
    destruct (strip_suffix x s) as [r'|] eqn:E; [|done]. intros [= <-].
    by rewrite (IH r' eq_refl).
Qed.

Lemma split_once_Some (c : ascii) (s p q : string) :
  split_once c s = Some (p, q) <-> s = p +:+ String c q /\ contains_char p c = false.
Proof.
  revert p q. induction s as [|a s IH]; intros p q.
  - split; [done|]. destruct p; intros [? _]; discriminate.
  - cbn [split_once]. destruct (Ascii.eqb_spec a c) as [->|Hac].
    + split.
      * intros [= <- <-]. done.
      * intros [H1 H2]. destruct p as [|d p]; [rewrite append_nil_l in H1; congruence|].
        rewrite append_String in H1. injection H1 as -> _.
        unfold contains_char in H2. simpl in H2. by rewrite Ascii.eqb_refl in H2.
    + split.
      * destruct (split_once c s) as [[p' q']|] eqn:E; [|done]. intros [= <- <-].
        destruct (IH p' q') as [[Hs Hc] _]; [done|]. split; [by rewrite append_String, <- Hs|].
        unfold contains_char in *. simpl. apply orb_false_iff. split; [|done].
        apply Ascii.eqb_neq. congruence.
      * intros [H1 H2]. destruct p as [|d p]; [rewrite append_nil_l in H1; congruence|].
        rewrite append_String in H1. injection H1 as -> H1.
        unfold contains_char in H2. simpl in H2. apply orb_false_iff in H2 as [_ H2].
        destruct (IH p q) as [_ ->]; done.
Qed.

Lemma split_once_None (c : ascii) (s : string) :
  split_once c s = None <-> contains_char s c = false.
Proof.
  induction s as [|a s IH]; [done|]. cbn [split_once]. unfold contains_char in *. simpl.
  rewrite orb_false_iff, Ascii.eqb_neq. destruct (Ascii.eqb_spec a c) as [->|Hac].
  - split; [done|]. by intros [? _].
  - destruct (split_once c s) as [[p q]|]; simpl.
    + split; [done|]. intros [_ H]. by apply IH in H.
    + split; [|done]. intros _. split; [congruence|]. by apply IH.
Qed.

Lemma rsplit_once_Some (c : ascii) (s p q : string) :
  rsplit_once c s = Some (p, q) -> s = p +:+ String c q /\ contains_char q c = false.
Proof.
  assert (Hnone : forall s, rsplit_once c s = None -> contains_char s c = false).
  { clear. induction s as [|a s IH]; [done|]. cbn [rsplit_once]. unfold contains_char in *. simpl.
    destruct (rsplit_once c s) as [[??]|]; [done|].
    destruct (Ascii.eqb_spec a c); [done|]. intros _. rewrite IH by done.
    rewrite orb_false_r. apply Ascii.eqb_neq. congruence. }
  revert p q. induction s as [|a s IH]; intros p q; [done|]. cbn [rsplit_once].
  destruct (rsplit_once c s) as [[p' q']|] eqn:E.
  - intros [= <- <-]. destruct (IH p' q' eq_refl) as [-> H]. done.
  - destruct (Ascii.eqb_spec a c) as [->|]; [|done]. intros [= <- <-]. split; [done|]. auto.
Qed.

Lemma rsplit_once_None (c : ascii) (s : string) :
  contains_char s c = false -> rsplit_once c s = None.
Proof.
  induction s as [|a s IH]; [done|]. cbn [rsplit_once]. unfold contains_char in *. simpl.
  rewrite orb_false_iff, Ascii.eqb_neq. intros [Ha Hs]. rewrite IH by done.
  destruct (Ascii.eqb_spec a c); [congruence|done].
Qed.

Lemma rsplit_once_app (c : ascii) (p q : string) :
  contains_char q c = false -> rsplit_once c (p +:+ String c q) = Some (p, q).
Proof.
  intros Hq. induction p as [|a p IH].
  - rewrite append_nil_l. cbn [rsplit_once]. by rewrite rsplit_once_None, Ascii.eqb_refl.
  - rewrite append_String. cbn [rsplit_once]. by rewrite IH.
Qed.

Lemma split_not_nil (c : ascii) (s : string) : split c s <> [].
Proof. destruct s as [|a s]; simpl; [done|]. destruct (Ascii.eqb a c); [done|]. by destruct (split c s). Qed.

Lemma split_no_char (c : ascii) (s piece : string) :
  piece ∈ split c s -> contains_char piece c = false.
Proof.
  revert piece. induction s as [|a s IH]; intros piece; cbn [split].
  - intros ->%list_elem_of_singleton. done.
  - destruct (Ascii.eqb_spec a c) as [->|Hac].
    + intros [->|H]%elem_of_cons; auto.
    + destruct (split c s) as [|p rest] eqn:E; [by apply split_not_nil in E|].
      intros [->|H]%elem_of_cons; [|apply IH; by right].
      unfold contains_char. simpl. rewrite orb_false_iff, Ascii.eqb_neq. split; [congruence|].
      apply IH. left.
Qed.

Lemma split_single (c : ascii) (s : string) : contains_char s c = false -> split c s = [s].
Proof.
  induction s as [|a s IH]; [done|]. unfold contains_char in *. simpl.
  rewrite orb_false_iff, Ascii.eqb_neq. intros [Ha Hs]. rewrite IH by done.
  destruct (Ascii.eqb_spec a c); [congruence|done].
Qed.

Lemma split_cons (c : ascii) (s t : string) :
  contains_char s c = false -> split c (s +:+ String c t) = s :: split c t.
Proof.
  induction s as [|a s IH].
  - intros _. rewrite append_nil_l. simpl. by rewrite Ascii.eqb_refl.
  - unfold contains_char in *. rewrite append_String. simpl.
    rewrite orb_false_iff, Ascii.eqb_neq. intros [Ha Hs]. rewrite IH by done.
    destruct (Ascii.eqb_spec a c); [congruence|done].
Qed.

Lemma str_join_cons (sep s : string) (l : list string) :
  l <> [] -> str_join sep (s :: l) = s +:+ sep +:+ str_join sep l.
Proof. by destruct l. Qed.

Lemma str_join_split (c : ascii) (s : string) : str_join (String c EmptyString) (split c s) = s.
Proof.
  induction s as [|a s IH]; [done|]. cbn [split].
  pose proof (split_not_nil c s) as Hne. destruct (Ascii.eqb_spec a c) as [->|Hac].
  - by rewrite str_join_cons, IH, append_nil_l, append_String, append_nil_l by done.
  - destruct (split c s) as [|p rest]; [done|]. destruct rest as [|q rest].
    + cbn [str_join] in *. by rewrite IH.
    + rewrite str_join_cons in IH |- * by done. by rewrite append_String, IH.
Qed.

(** ** Reversal and trimming *)

Lemma rev_app_append (s t u : string) : String.rev_app s (t +:+ u) = String.rev_app s t +:+ u.
Proof. revert t. induction s as [|c s IH]; intros t; [done|]. simpl. by rewrite <- IH. Qed.

Lemma rev_String (c : ascii) (s : string) :
  String.rev (String c s) = String.rev s +:+ String c EmptyString.
Proof. unfold String.rev. simpl. by rewrite <- rev_app_append. Qed.

Lemma rev_append (s t : string) : String.rev (s +:+ t) = String.rev t +:+ String.rev s.
Proof.
  induction s as [|c s IH].
  - by rewrite append_nil_l, append_nil_r.
  - by rewrite append_String, !rev_String, IH, append_assoc.
Qed.

Lemma rev_involutive (s : string) : String.rev (String.rev s) = s.
Proof. induction s as [|c s IH]; [done|]. by rewrite rev_String, rev_append, IH. Qed.

Lemma str_all_rev (f : ascii -> bool) (s : string) : str_all f (String.rev s) = str_all f s.
Proof.
  induction s as [|c s IH]; [done|]. rewrite rev_String, str_all_app, IH. simpl.
  by rewrite andb_true_r, andb_comm.
Qed.

(** Whether the last byte of [s] is [c]. *)
Definition last_is (c : ascii) (s : string) : bool :=
  match String.rev s with
  | EmptyString => false
  | String d _ => Ascii.eqb d c
  end.

Lemma last_is_append (c d : ascii) (s : string) :
  last_is c (s +:+ String d EmptyString) = Ascii.eqb d c.
Proof. unfold last_is. by rewrite rev_append. Qed.

Lemma str_all_last (f : ascii -> bool) (c : ascii) (s : string) :
  str_all f s = true -> f c = false -> last_is c s = false.
Proof.
  intros Hs Hc. rewrite <- str_all_rev in Hs. unfold last_is. destruct (String.rev s) as [|d r]; [done|].
  simpl in Hs. apply andb_true_iff in Hs as [Hd _]. apply Ascii.eqb_neq. congruence.
Qed.

Lemma trim_end_char_id (c : ascii) (s : string) : last_is c s = false -> trim_end_char c s = s.
Proof.
  unfold last_is, trim_end_char. intros H. rewrite <- (rev_involutive s) at 2. f_equal.
  destruct (String.rev s) as [|d r]; [done|]. simpl. by rewrite H.
Qed.

Lemma trim_end_char_last (c : ascii) (s : string) : last_is c (trim_end_char c s) = false.
Proof.
  unfold last_is, trim_end_char. rewrite rev_involutive.
  induction (String.rev s) as [|d r IH]; [done|]. simpl. by destruct (Ascii.eqb d c) eqn:E.
Qed.

Lemma trim_end_char_app (c : ascii) (s : string) :
  trim_end_char c (s +:+ String c EmptyString) = trim_end_char c s.
Proof. unfold trim_end_char. rewrite rev_append. simpl. by rewrite Ascii.eqb_refl. Qed.

Lemma str_all_trim_end_char (f : ascii -> bool) (c : ascii) (s : string) :
  str_all f s = true -> str_all f (trim_end_char c s) = true.
Proof.
  unfold trim_end_char. rewrite str_all_rev, <- (str_all_rev f s).
  induction (String.rev s) as [|d r IH]; [done|]. simpl. intros [Hd Hr]%andb_true_iff.
  destruct (Ascii.eqb d c); [auto|]. simpl. by rewrite Hd, Hr.
Qed.

(** Printable ASCII: nothing [trim] would take off. *)
Definition is_graphic (c : ascii) : bool := in_range 33 126 c.

Lemma graphic_no_ws1 c : is_graphic c = true -> ws1 c = false.
Proof. by destruct c as [[] [] [] [] [] [] [] []]. Qed.

Lemma graphic_no_ws2 a b : is_graphic a = true \/ is_graphic b = true -> ws2 a b = false.
Proof.
  intros [Ha|Hb]; unfold ws2; destruct (in_range 194 194 a) eqn:Ea; try done.
  - by destruct a as [[] [] [] [] [] [] [] []].
  - by destruct b as [[] [] [] [] [] [] [] []].
Qed.

Lemma graphic_not_continuation c lo hi :
  (128 <= lo)%N -> is_graphic c = true -> in_range lo hi c = false.
Proof.
  unfold is_graphic, in_range. rewrite andb_true_iff, !N.leb_le. intros Hlo [_ Hc].
  apply andb_false_iff. left. apply N.leb_gt. lia.
Qed.

Lemma graphic_no_ws3 a b c : is_graphic a = true \/ is_graphic c = true -> ws3 a b c = false.
Proof.
  intros [H|H]; unfold ws3;
    repeat match goal with
    | |- context [in_range ?lo ?hi a] => rewrite (graphic_not_continuation a lo hi) by (done || lia)
    | |- context [in_range ?lo ?hi c] => rewrite (graphic_not_continuation c lo hi) by (done || lia)
    end; simpl; by rewrite ?andb_false_r.
Qed.

Lemma trim_ws_graphic w2 w3 (a : ascii) (s : string) :
  ws1 a = false -> (forall b, w2 a b = false) -> (forall b c, w3 a b c = false) ->
  trim_ws w2 w3 (String a s) = String a s.
Proof.
  intros H1 H2 H3. simpl. rewrite H1. destruct s as [|b s]; [done|]. rewrite H2.
  destruct s as [|c s]; [done|]. by rewrite H3.
Qed.

Lemma trim_graphic (s : string) : str_all is_graphic s = true -> trim s = s.
Proof.
  intros Hs. unfold trim. assert (Hstart : trim_start s = s).
  { destruct s as [|a s]; [done|]. simpl in Hs. apply andb_true_iff in Hs as [Ha _].
    apply trim_ws_graphic; intros; eauto using graphic_no_ws1, graphic_no_ws2, graphic_no_ws3. }
  rewrite Hstart. unfold trim_end. rewrite <- (rev_involutive s) at 2. f_equal.
  rewrite <- str_all_rev in Hs. destruct (String.rev s) as [|a r]; [done|].
  simpl in Hs. apply andb_true_iff in Hs as [Ha _].
  apply trim_ws_graphic; intros; eauto using graphic_no_ws1, graphic_no_ws2, graphic_no_ws3.
Qed.

(** ** Trimming white space *)

(** Whether [trim_ws] has something to take off. *)
Definition starts_ws (w2 : ascii -> ascii -> bool) (w3 : ascii -> ascii -> ascii -> bool)
    (s : string) : bool :=
  match s with
  | EmptyString => false
  | String a s1 =>
      ws1 a || match s1 with
               | EmptyString => false
               | String b s2 =>
                   w2 a b || match s2 with
                             | EmptyString => false
                             | String c _ => w3 a b c
                             end
               end
  end.

Lemma trim_ws_cases w2 w3 s :
  trim_ws w2 w3 s = s /\ starts_ws w2 w3 s = false
  \/ exists p s', s = p +:+ s' /\ str_len s' < str_len s /\ trim_ws w2 w3 s = trim_ws w2 w3 s'.
Proof.
  destruct s as [|a s1]; [by left|]. simpl. destruct (ws1 a) eqn:E1.
  { right. exists (String a EmptyString), s1. split_and!; [done|unfold str_len; simpl; lia|done]. }
  destruct s1 as [|b s2]; [by left|]. destruct (w2 a b) eqn:E2.
  { right. exists (String a (String b EmptyString)), s2.
    split_and!; [done|unfold str_len; simpl; lia|done]. }
  destruct s2 as [|c s3]; [by left|]. destruct (w3 a b c) eqn:E3.
  { right. exists (String a (String b (String c EmptyString))), s3.
    split_and!; [done|unfold str_len; simpl; lia|done]. }
  by left.
Qed.

Lemma trim_ws_spec w2 w3 s :
  (exists p, s = p +:+ trim_ws w2 w3 s) /\ starts_ws w2 w3 (trim_ws w2 w3 s) = false.
Proof.
  remember (str_len s) as n eqn:Hn. revert s Hn.
  induction (lt_wf n) as [n _ IH]. intros s ->.
  destruct (trim_ws_cases w2 w3 s) as [[-> Hs]|(p & s' & -> & Hlt & ->)].
  - split; [by exists EmptyString|done].
  - destruct (IH (str_len s') Hlt s' eq_refl) as [[q Hq] Hs]. split; [|done].
    exists (p +:+ q). by rewrite append_assoc, <- Hq.
Qed.

Lemma trim_ws_id w2 w3 s : starts_ws w2 w3 s = false -> trim_ws w2 w3 s = s.
Proof.
  destruct s as [|a [|b [|c s]]]; simpl; rewrite ?orb_false_iff; [done|intros [-> _]; done|..].
  - by intros (-> & -> & _).
  - by intros (-> & -> & ->).
Qed.

Lemma starts_ws_prefix w2 w3 s t : starts_ws w2 w3 (s +:+ t) = false -> starts_ws w2 w3 s = false.
Proof.
  destruct s as [|a [|b [|c s]]]; rewrite ?append_String; simpl; rewrite ?orb_false_iff; naive_solver.
Qed.

Lemma trim_start_spec s :
  (exists p, s = p +:+ trim_start s) /\ starts_ws ws2 ws3 (trim_start s) = false.
Proof. apply trim_ws_spec. Qed.

Lemma trim_end_prefix s : exists q, s = trim_end s +:+ q.
Proof.
  unfold trim_end. destruct (trim_ws_spec (fun b a => ws2 a b) (fun c b a => ws3 a b c) (String.rev s))
    as [[p Hp] _].
  exists (String.rev p). rewrite <- rev_append, <- Hp. by rewrite rev_involutive.
Qed.

Lemma trim_end_idemp s : trim_end (trim_end s) = trim_end s.
Proof. unfold trim_end. rewrite rev_involutive. f_equal. apply trim_ws_id, trim_ws_spec. Qed.

Lemma trim_infix s : exists p q, s = p +:+ trim s +:+ q.
Proof.
  destruct (trim_start_spec s) as [[p Hp] _]. destruct (trim_end_prefix (trim_start s)) as [q Hq].
  exists p, q. unfold trim. by rewrite <- Hq.
Qed.

Lemma trim_idemp s : trim (trim s) = trim s.
Proof.
  unfold trim. destruct (trim_start_spec s) as [_ Hs]. destruct (trim_end_prefix (trim_start s)) as [q Hq].
  rewrite Hq in Hs. apply starts_ws_prefix in Hs.
  unfold trim_start at 1. rewrite trim_ws_id by done. apply trim_end_idemp.
Qed.

Lemma trim_space s : trim (String " " s) = trim s.
Proof. reflexivity. Qed.

Lemma trim_contains s c : contains_char s c = false -> contains_char (trim s) c = false.
Proof.
  destruct (trim_infix s) as (p & q & Hs). rewrite Hs at 1. rewrite !contains_char_app, !orb_false_iff.
  naive_solver.
Qed.

(** Splitting what was joined with ["; "]: every piece but the first keeps the space. *)
Lemma split_str_join (c : ascii) (l : list string) :
  (forall s, s ∈ l -> contains_char s c = false) -> c <> " "%char ->
  trim <$> split c (str_join (String c (String " " EmptyString)) l)
  = match l with [] => [EmptyString] | _ => trim <$> l end.
Proof.
  intros Hl Hc. induction l as [|s l IH]; [done|]. destruct l as [|t l].
  - cbn [str_join]. rewrite split_single by (apply Hl; left). done.
  - rewrite str_join_cons by done.
    change (String c (String " " EmptyString) +:+ str_join (String c (String " " EmptyString)) (t :: l))
      with (String c (String " " (str_join (String c (String " " EmptyString)) (t :: l)))).
    rewrite split_cons by (apply Hl; left). rewrite fmap_cons.
    transitivity (trim s :: (trim <$> t :: l)); [f_equal|done].
    etrans; [|apply IH; intros; apply Hl; by right].
    generalize (str_join (String c (String " " EmptyString)) (t :: l)). intros rest.
    cbn [split]. destruct (Ascii.eqb_spec " " c); [congruence|].
    destruct (split c rest) as [|piece pieces] eqn:E; [by apply split_not_nil in E|].
    rewrite !fmap_cons. f_equal.
Qed.

Lemma str_all_split (f : ascii -> bool) (c : ascii) (s piece : string) :
  str_all f s = true -> piece ∈ split c s -> str_all f piece = true.
Proof.
  revert piece. induction s as [|a s IH]; intros piece; cbn [split].
  - intros _ ->%list_elem_of_singleton. done.
  - cbn [str_all]. intros [Ha Hs]%andb_true_iff. destruct (Ascii.eqb a c).
    + intros [->|Hin]%elem_of_cons; [done|auto].
    + destruct (split c s) as [|p rest] eqn:E; [by apply split_not_nil in E|].
      intros [->|Hin]%elem_of_cons; [|apply IH; [done|by right]]. cbn [str_all].
      rewrite Ha. apply IH; [done|left].
Qed.

Lemma str_all_trim (f : ascii -> bool) (s : string) : str_all f s = true -> str_all f (trim s) = true.
Proof.
  destruct (trim_infix s) as (p & q & Hs). rewrite Hs at 1. rewrite !str_all_app, !andb_true_iff. naive_solver.
Qed.

Lemma str_all_str_join (f : ascii -> bool) (sep : string) (l : list string) :
  str_all f sep = true -> (forall s, s ∈ l -> str_all f s = true) -> str_all f (str_join sep l) = true.
Proof.
  intros Hsep Hl. induction l as [|s l IH]; [done|]. destruct l as [|t l]; [apply Hl; left|].
  rewrite str_join_cons, !str_all_app, Hsep, (Hl s), IH by (done || left || (intros; apply Hl; by right)).
  done.
Qed.

Lemma ends_with_char (s : string) (c : ascii) :
  ends_with s (String c EmptyString) = last_is c s.
Proof.
  unfold ends_with. destruct (last_is c s) eqn:E; [apply bool_decide_eq_true | apply bool_decide_eq_false].
  - unfold last_is in E. destruct (String.rev s) as [|d r] eqn:Er; [done|]. apply Ascii.eqb_eq in E as ->.
    assert (s = String.rev r +:+ String c EmptyString) as ->
      by (rewrite <- (rev_involutive s), Er, rev_String; done).
    rewrite strip_suffix_app. by eexists.
  - intros [r Hr%strip_suffix_Some]. subst. by rewrite last_is_append, Ascii.eqb_refl in E.
Qed.

#[export] Hint Rewrite append_nil_l append_nil_r append_String append_assoc : relay_str.
#[export] Hint Resolve split_not_nil strip_prefix_app strip_suffix_app : relay.

(** Outside this file the operations are reasoned about through the lemmas above. *)
Arguments strip_prefix : simpl never.
Arguments strip_suffix : simpl never.
Arguments split_once : simpl never.
Arguments rsplit_once : simpl never.
Arguments split : simpl never.
Arguments trim : simpl never.
Arguments trim_end_char : simpl never.
Arguments trim_matches_char : simpl never.
Arguments contains_char : simpl never.
Arguments String.eqb : simpl never.
Arguments String.append : simpl never.

(** ** Filtering and chunks *)

Lemma str_filter_app (f : ascii -> bool) (s t : string) :
  str_filter f (s +:+ t) = str_filter f s +:+ str_filter f t.
Proof.
  induction s as [|c s IH]; [done|]. rewrite append_String. simpl.
  destruct (f c); [by rewrite append_String, IH|done].
Qed.

Lemma str_filter_all (f : ascii -> bool) (s : string) : str_all f s = true -> str_filter f s = s.
Proof.
  induction s as [|c s IH]; [done|]. simpl. intros [-> Hs]%andb_true_iff. by rewrite IH.
Qed.

Lemma str_map_id (f : ascii -> ascii) (s : string) :
  str_all (fun c => Ascii.eqb (f c) c) s = true -> str_map f s = s.
Proof.
  induction s as [|c s IH]; [done|]. simpl. intros [->%Ascii.eqb_eq Hs]%andb_true_iff. by rewrite IH.
Qed.

Lemma str_map_length (f : ascii -> ascii) (s : string) : str_len (str_map f s) = str_len s.
Proof. unfold str_len. induction s as [|c s IH]; [done|]. simpl. by rewrite IH. Qed.

Lemma str_all_map (f : ascii -> ascii) (g : ascii -> bool) (s : string) :
  (forall c, g (f c) = true) -> str_all g (str_map f s) = true.
Proof. intros Hf. induction s as [|c s IH]; [done|]. simpl. by rewrite Hf, IH. Qed.

Lemma str_take_drop (n : nat) (s : string) : str_take n s +:+ str_drop n s = s.
Proof.
  revert s. induction n as [|n IH]; intros [|c s]; try done. simpl. by rewrite append_String, IH.
Qed.

Lemma str_drop_length (n : nat) (s : string) : str_len (str_drop n s) = str_len s - n.
Proof.
  revert s. unfold str_len. induction n as [|n IH]; intros [|c s]; try done. simpl. by rewrite IH.
Qed.

Lemma chunks_fuel_join (n fuel : nat) (s : string) :
  0 < n -> str_len s <= fuel -> str_join EmptyString (chunks_fuel fuel n s) = s.
Proof.
  intros Hn. revert s. induction fuel as [|fuel IH]; intros s Hs.
  { destruct s; [done|]. unfold str_len in Hs. simpl in Hs. lia. }
  destruct s as [|c s]; [done|]. cbn [chunks_fuel is_empty].
  assert (Hd : str_join EmptyString (chunks_fuel fuel n (str_drop n (String c s)))
               = str_drop n (String c s)).
  { apply IH. rewrite str_drop_length. unfold str_len in *. simpl in *. lia. }
  destruct (chunks_fuel fuel n (str_drop n (String c s))) as [|piece rest] eqn:E.
  - simpl in Hd. cbn [str_join]. rewrite <- (str_take_drop n (String c s)) at 2.
    by rewrite <- Hd, append_nil_r.
  - rewrite str_join_cons, append_nil_l, Hd by done. apply str_take_drop.
Qed.

Lemma str_all_chunks (f : ascii -> bool) (n fuel : nat) (s piece : string) :
  str_all f s = true -> piece ∈ chunks_fuel fuel n s -> str_all f piece = true.
Proof.
  revert s. induction fuel as [|fuel IH]; intros s Hs; [by intros ?%not_elem_of_nil|].
  simpl. destruct (is_empty s); [by intros ?%not_elem_of_nil|].
  rewrite <- (str_take_drop n s), str_all_app, andb_true_iff in Hs. destruct Hs as [Ht Hd].
  intros [->|Hin]%elem_of_cons; [done|]. by apply (IH (str_drop n s)).
Qed.

Lemma str_filter_join (f : ascii -> bool) (c : ascii) (l : list string) :
  f c = false -> (forall s, s ∈ l -> str_all f s = true) ->
  str_filter f (str_join (String c EmptyString) l) = str_join EmptyString l.
Proof.
  intros Hc Hl. induction l as [|s l IH]; [done|]. destruct l as [|t l].
  - apply str_filter_all, Hl. left.
  - rewrite !str_join_cons, !str_filter_app by done. rewrite IH.
    + rewrite (str_filter_all f s) by (apply Hl; left). cbn [str_filter]. by rewrite Hc.
    + intros. apply Hl. by right.
Qed.

(** ** Taking and dropping *)

Lemma str_take_app (s t : string) : str_take (str_len s) (s +:+ t) = s.
Proof. induction s as [|c s IH]; [by destruct t|]. rewrite append_String. cbn. by f_equal. Qed.

Lemma str_drop_app (s t : string) : str_drop (str_len s) (s +:+ t) = t.
Proof. induction s as [|c s IH]; [by destruct t|]. rewrite append_String. cbn. exact IH. Qed.
