(* ===== verification/Protocol.v ===== *)
(** * The shared crate [termexo-relay-protocol], as this repository uses it

    The crate is not part of the repository, so nothing of it is defined here: its data types
    appear with the constructors and fields the source names, and its constants and functions are
    the fields of the class [Protocol].  What the source relies on is stated by [ProtocolLaws]; a
    theorem that needs a law takes it as a hypothesis, and [sample_protocol] shows that the laws can
    hold together. *)

From S2P Require Import Prelude.
From S2P Require Import RustStr.

(** ** Wire data *)

Inductive DeviceKind : Type :=
| DeviceKind_Desktop
| DeviceKind_Relay.

Record AnnouncedDevice : Type := mkAnnouncedDevice {
  ad_id : string;
  ad_name : string;
  ad_online : bool;
  ad_via : list string;
}.

Record RelayAddress : Type := mkRelayAddress {
  ra_relay_id : string;
  ra_relay_name : string;
  ra_url : string;
  (* u32 *)
  ra_hops : Z;
}.

Record StreamPreface : Type := mkStreamPreface {
  sp_v : Z;
  sp_target : string;
  sp_hops : list string;
}.

Record DeviceCredential : Type := mkDeviceCredential {
  dc_device_id : string;
  dc_secret : string;
}.

Inductive ControlFrame : Type :=
| ControlFrame_Hello (protocol : Z) (kind : DeviceKind) (version name : string)
    (relay_id : option string)
| ControlFrame_Welcome (device_id relay_id : string) (addresses : list RelayAddress)
    (chain : list string)
| ControlFrame_AuthFailed (reason : string)
| ControlFrame_Revoked (reason : string)
| ControlFrame_Ping
| ControlFrame_Pong
| ControlFrame_Announce (devices : list AnnouncedDevice)
| ControlFrame_DeviceOnline (id name : string) (via : list string)
| ControlFrame_DeviceOffline (id : string)
| ControlFrame_Addresses (addresses : list RelayAddress).

Inductive EnrollRequest : Type :=
| EnrollRequest_Code (code name : string)
| EnrollRequest_Password (username password name : string).

Record EnrollResponse : Type := mkEnrollResponse {
  er_credential : string;
  er_device_id : string;
  er_relay_id : string;
}.

#[export] Instance DeviceKind_eq_dec : EqDecision DeviceKind.
Proof. solve_decision. Defined.

#[export] Instance AnnouncedDevice_eq_dec : EqDecision AnnouncedDevice.
Proof. solve_decision. Defined.

#[export] Instance RelayAddress_eq_dec : EqDecision RelayAddress.
Proof. solve_decision. Defined.

#[export] Instance StreamPreface_eq_dec : EqDecision StreamPreface.
Proof. solve_decision. Defined.

#[export] Instance ControlFrame_eq_dec : EqDecision ControlFrame.
Proof. solve_decision. Defined.

(** ** Constants and functions of the crate *)

Class Protocol : Type := {
  MAX_HOPS : nat;
  PROTOCOL_VERSION : Z;
  DEVICE_PATH_PREFIX : string;
  ENROLL_PATH : string;
  HEALTH_PATH : string;
  TUNNEL_PATH : string;
  HEADER_FORWARDED_FOR : string;
  HEADER_FORWARDED_HOST : string;
  HEADER_FORWARDED_PROTO : string;
  HEADER_TERMEXO_BASE : string;
  CLOSE_GOING_AWAY : Z;
  CLOSE_REVOKED : Z;
  CLOSE_UNAUTHORIZED : Z;
  (* [DeviceId::parse(s).ok().map(|id| id.to_string())] *)
  DeviceId_parse : string -> option string;
  DeviceCredential_parse : string -> option DeviceCredential;
  DeviceCredential_to_string : DeviceCredential -> string;
  DeviceCredential_secret_hash : DeviceCredential -> string;
  hash_secret : string -> string;
  secret_matches_hash : string -> string -> bool;
  tokens_match : string -> string -> bool;
  StreamPreface_new : string -> StreamPreface;
  StreamPreface_with_hop : StreamPreface -> string -> StreamPreface;
  ControlFrame_encode : ControlFrame -> string;
  ControlFrame_decode : string -> option ControlFrame;
  (* reconnect backoff *)
  Backoff : Type;
  Backoff_new : Backoff;
  Backoff_reset : Backoff -> Backoff;
  Backoff_take : Backoff -> Z * Backoff;
  (* [FailureThrottle<IpAddr>]; the [Z] is the [Instant] *)
  FailureThrottle : Type;
  FailureThrottle_default : FailureThrottle;
  FailureThrottle_is_locked : FailureThrottle -> string -> Z -> bool;
  FailureThrottle_record_failure : FailureThrottle -> string -> Z -> bool * FailureThrottle;
  FailureThrottle_clear : FailureThrottle -> string -> FailureThrottle;
}.

(** ** What the source relies on *)

Class ProtocolLaws (P : Protocol) : Prop := {
  (* the address form every test and the README spell out *)
  device_path_prefix_shape : DEVICE_PATH_PREFIX = "/d/";
  (* the header names [address.rs], [forwarded.rs] and the README spell out, in lower case *)
  forwarding_header_names :
    HEADER_FORWARDED_FOR = "x-forwarded-for" /\ HEADER_FORWARDED_PROTO = "x-forwarded-proto"
    /\ HEADER_FORWARDED_HOST = "x-forwarded-host" /\ HEADER_TERMEXO_BASE = "x-termexo-base";
  (* the paths the README and the doc comments of [api/] and [tunnel/] spell out *)
  api_paths : ENROLL_PATH = "/api/enroll" /\ HEALTH_PATH = "/api/health" /\ TUNNEL_PATH = "/tunnel";
  (* a device id is one label of a host name: it sits in a URL path and in front of a base domain *)
  device_id_label : forall s id, DeviceId_parse s = Some id ->
    id = s /\ is_empty s = false /\ contains_char s slash = false /\ contains_char s dot = false;
  credential_roundtrip : forall c, contains_char (dc_device_id c) dot = false ->
    DeviceCredential_parse (DeviceCredential_to_string c) = Some c;
  secret_hash_matches : forall c,
    secret_matches_hash (dc_secret c) (DeviceCredential_secret_hash c) = true;
  preface_new_target : forall d, sp_target (StreamPreface_new d) = d;
  preface_new_hops : forall d, sp_hops (StreamPreface_new d) = [];
  preface_with_hop_target : forall p r, sp_target (StreamPreface_with_hop p r) = sp_target p;
  preface_with_hop_hops : forall p r, sp_hops (StreamPreface_with_hop p r) = sp_hops p ++ [r];
  tokens_match_spec : forall a b, tokens_match a b = true <-> a = b;
  frame_roundtrip : forall f, ControlFrame_decode (ControlFrame_encode f) = Some f;
  close_codes_distinct : CLOSE_REVOKED <> CLOSE_UNAUTHORIZED;
  throttle_clear_unlocks : forall t ip now,
    FailureThrottle_is_locked (FailureThrottle_clear t ip) ip now = false;
  throttle_clear_other : forall t ip ip' now, ip <> ip' ->
    FailureThrottle_is_locked (FailureThrottle_clear t ip) ip' now
    = FailureThrottle_is_locked t ip' now;
  throttle_failure_other : forall t ip ip' now now', ip <> ip' ->
    FailureThrottle_is_locked (snd (FailureThrottle_record_failure t ip now)) ip' now'
    = FailureThrottle_is_locked t ip' now';
}.

(** ** A concrete instance, for evaluating the model

    Frames are encoded through [Countable]; a source is locked after five failures; the digest
    only has to be a function.  Every law holds of it. *)

#[export] Instance DeviceKind_countable : Countable DeviceKind.
Proof.
  refine (inj_countable'
    (fun k => match k with DeviceKind_Desktop => true | DeviceKind_Relay => false end)
    (fun b : bool => if b then DeviceKind_Desktop else DeviceKind_Relay) _).
  by intros [].
Defined.

#[export] Instance AnnouncedDevice_countable : Countable AnnouncedDevice.
Proof.
  refine (inj_countable' (fun d => (ad_id d, ad_name d, ad_online d, ad_via d))
    (fun '(a, b, c, d) => mkAnnouncedDevice a b c d) _).
  by intros [].
Defined.

#[export] Instance RelayAddress_countable : Countable RelayAddress.
Proof.
  refine (inj_countable' (fun d => (ra_relay_id d, ra_relay_name d, ra_url d, ra_hops d))
    (fun '(a, b, c, d) => mkRelayAddress a b c d) _).
  by intros [].
Defined.

#[export] Instance ControlFrame_countable : Countable ControlFrame.
Proof.
  refine (inj_countable'
    (fun f => match f with
     | ControlFrame_Hello p k v n r => inl (inl (inl (p, k, v, n, r)))
     | ControlFrame_Welcome d r a c => inl (inl (inr (inl (d, r, a, c))))
     | ControlFrame_AuthFailed r => inl (inl (inr (inr r)))
     | ControlFrame_Revoked r => inl (inr (inl r))
     | ControlFrame_Ping => inl (inr (inr (inl tt)))
     | ControlFrame_Pong => inl (inr (inr (inr tt)))
     | ControlFrame_Announce d => inr (inl (inl d))
     | ControlFrame_DeviceOnline i n v => inr (inl (inr (i, n, v)))
     | ControlFrame_DeviceOffline i => inr (inr (inl i))
     | ControlFrame_Addresses a => inr (inr (inr a))
     end)
    (fun x => match x with
     | inl (inl (inl (p, k, v, n, r))) => ControlFrame_Hello p k v n r
     | inl (inl (inr (inl (d, r, a, c)))) => ControlFrame_Welcome d r a c
     | inl (inl (inr (inr r))) => ControlFrame_AuthFailed r
     | inl (inr (inl r)) => ControlFrame_Revoked r
     | inl (inr (inr (inl tt))) => ControlFrame_Ping
     | inl (inr (inr (inr tt))) => ControlFrame_Pong
     | inr (inl (inl d)) => ControlFrame_Announce d
     | inr (inl (inr (i, n, v))) => ControlFrame_DeviceOnline i n v
     | inr (inr (inl i)) => ControlFrame_DeviceOffline i
     | inr (inr (inr a)) => ControlFrame_Addresses a
     end) _).
  by intros [].
Defined.

Fixpoint bits_of_pos (p : positive) : string :=
  match p with
  | xH => EmptyString
  | xO p' => String "0" (bits_of_pos p')
  | xI p' => String "1" (bits_of_pos p')
  end.

Fixpoint pos_of_bits (s : string) : positive :=
  match s with
  | EmptyString => xH
  | String c s' => if Ascii.eqb c "1" then xI (pos_of_bits s') else xO (pos_of_bits s')
  end.

Definition sample_record_failure (t : gmap string nat) (ip : string) : bool * gmap string nat :=
  let n := S (default 0 (t !! ip)) in (bool_decide (n = 5), <[ip := n]> t).

Definition sample_device_id (s : string) : option string :=
  if is_empty s || contains_char s slash || contains_char s dot then None else Some s.

Definition sample_credential_parse (s : string) : option DeviceCredential :=
  '(a, b) ← split_once dot s; Some (mkDeviceCredential a b).

#[export] Instance sample_protocol : Protocol := {|
  MAX_HOPS := 8;
  PROTOCOL_VERSION := 1;
  DEVICE_PATH_PREFIX := "/d/";
  ENROLL_PATH := "/api/enroll";
  HEALTH_PATH := "/api/health";
  TUNNEL_PATH := "/tunnel";
  HEADER_FORWARDED_FOR := "x-forwarded-for";
  HEADER_FORWARDED_HOST := "x-forwarded-host";
  HEADER_FORWARDED_PROTO := "x-forwarded-proto";
  HEADER_TERMEXO_BASE := "x-termexo-base";
  CLOSE_GOING_AWAY := 1001;
  CLOSE_REVOKED := 4403;
  CLOSE_UNAUTHORIZED := 4401;
  DeviceId_parse := sample_device_id;
  DeviceCredential_parse := sample_credential_parse;
  DeviceCredential_to_string c := dc_device_id c +:+ String dot (dc_secret c);
  DeviceCredential_secret_hash c := "#" +:+ dc_secret c;
  hash_secret s := "#" +:+ s;
  secret_matches_hash s h := String.eqb ("#" +:+ s) h;
  tokens_match := String.eqb;
  StreamPreface_new d := mkStreamPreface 1 d [];
  StreamPreface_with_hop p r := mkStreamPreface (sp_v p) (sp_target p) (sp_hops p ++ [r]);
  ControlFrame_encode f := bits_of_pos (encode f);
  ControlFrame_decode s := decode (pos_of_bits s);
  Backoff := nat;
  Backoff_new := 0;
  Backoff_reset _ := 0;
  Backoff_take n := (Z.of_nat (2 ^ n), S n);
  FailureThrottle := gmap string nat;
  FailureThrottle_default := ∅;
  FailureThrottle_is_locked t ip _ := bool_decide (5 <= default 0 (t !! ip));
  FailureThrottle_record_failure t ip _ := sample_record_failure t ip;
  FailureThrottle_clear t ip := delete ip t;
|}.

Lemma pos_of_bits_of_pos (p : positive) : pos_of_bits (bits_of_pos p) = p.
Proof. induction p; simpl; by f_equal. Qed.

#[export] Instance sample_protocol_laws : ProtocolLaws sample_protocol.
Proof.
  split; simpl; try done.
  - intros s id. unfold sample_device_id. destruct (is_empty s), (contains_char s slash),
      (contains_char s dot); simpl; naive_solver.
  - intros [a b] Ha. simpl in *. unfold sample_credential_parse.
    destruct (split_once_Some dot (a +:+ String dot b) a b) as [_ ->]; done.
  - intros c. apply String.eqb_refl.
  - intros a b. apply String.eqb_eq.
  - intros f. rewrite pos_of_bits_of_pos. apply decode_encode.
  - intros t ip _. by rewrite lookup_delete_eq.
  - intros t ip ip' _ Hne. by rewrite lookup_delete_ne.
  - intros t ip ip' _ _ Hne. by rewrite lookup_insert_ne.
Qed.
