(* ===== verification/Handle.v ===== *)
(** * [src/tunnel/handle.rs]: the handle other modules use to talk to a live tunnel

    A handle is a name for the two channels into a tunnel's task.  The bounded [outgoing] channel is
    part of the world: [Channels] maps a channel to what is queued in it and whether its receiver,
    the writer task, is still there. *)

From S2P Require Import Prelude.
From S2P Require Import RustStr.
From S2P Require Import Protocol.

Definition COMMAND_CAPACITY : nat := 64.

(** 10 s, in milliseconds. *)
Definition OPEN_STREAM_TIMEOUT : Z := 10000.

Inductive TunnelError : Type :=
| TunnelError_Closed
| TunnelError_Offline
| TunnelError_InvalidTarget
| TunnelError_OpenTimeout
| TunnelError_Preface (error : string).

Inductive Outgoing : Type :=
| Outgoing_Control (frame : ControlFrame)
| Outgoing_Close (code : Z) (reason : string).

Record TunnelHandle : Type := mkTunnelHandle {
  th_device_id : string;
  (* names the tunnel's channels *)
  th_channel : nat;
}.

#[export] Instance Outgoing_eq_dec : EqDecision Outgoing.
Proof. solve_decision. Defined.

#[export] Instance TunnelHandle_eq_dec : EqDecision TunnelHandle.
Proof. solve_decision. Defined.

(** The queue of one tunnel's [outgoing] channel; a channel that is not in the map has lost its
    receiver. *)
Abbreviation Channels := (gmap nat (list Outgoing)).

(** [mpsc::Sender::try_send] on a channel of [COMMAND_CAPACITY]: refused when the receiver is gone
    or the queue is full. *)
Definition try_send (handle : TunnelHandle) (message : Outgoing) (chans : Channels)
    : bool * Channels :=
  match chans !! th_channel handle with
  | None => (false, chans)
  | Some queue =>
      if bool_decide (length queue < COMMAND_CAPACITY)
      then (true, <[th_channel handle := queue ++ [message]]> chans)
      else (false, chans)
  end.

Definition send_frame (handle : TunnelHandle) (frame : ControlFrame) (chans : Channels)
    : Channels :=
  snd (try_send handle (Outgoing_Control frame) chans).

Definition close (handle : TunnelHandle) (code : Z) (reason : string) (chans : Channels)
    : Channels :=
  snd (try_send handle (Outgoing_Close code reason) chans).

(** What the tunnel's driver task does with one request for a stream. *)
Inductive OpenAnswer : Type :=
| OpenAnswer_Stream
| OpenAnswer_Error
| OpenAnswer_Dropped
| OpenAnswer_Late.

(** [open_stream]: the bytes written on the new stream, positioned at the first byte of HTTP.  [sent]
    is whether the request could be queued, [answer] the driver's reply within
    [OPEN_STREAM_TIMEOUT], [written] the outcome of writing and flushing the preface. *)
Definition open_stream (encode : StreamPreface -> string) (preface : StreamPreface)
    (sent : bool) (answer : OpenAnswer) (written : result string unit) : result TunnelError string :=
  if negb sent then Err TunnelError_Closed
  else match answer with
       | OpenAnswer_Late => Err TunnelError_OpenTimeout
       | OpenAnswer_Dropped => Err TunnelError_Closed
       | OpenAnswer_Error => Err TunnelError_Closed
       | OpenAnswer_Stream =>
           match written with
           | Err error => Err (TunnelError_Preface error)
           | Ok _ => Ok (encode preface)
           end
       end.

(** ** Lemmas *)

(** The queue of a channel, empty when its receiver is gone. *)
Definition queued (chans : Channels) (channel : nat) : list Outgoing := default [] (chans !! channel).

Lemma try_send_other handle message (chans : Channels) channel :
  channel <> th_channel handle -> snd (try_send handle message chans) !! channel = chans !! channel.
Proof.
  intros Hne. unfold try_send. destruct (chans !! th_channel handle); [|done].
  case_bool_decide; [|done]. simpl. by rewrite lookup_insert_ne.
Qed.

Lemma try_send_room handle message (chans : Channels) queue :
  chans !! th_channel handle = Some queue -> length queue < COMMAND_CAPACITY ->
  try_send handle message chans = (true, <[th_channel handle := queue ++ [message]]> chans).
Proof. intros Hq Hlt. unfold try_send. rewrite Hq. by case_bool_decide. Qed.

Lemma try_send_full handle message (chans : Channels) queue :
  chans !! th_channel handle = Some queue -> COMMAND_CAPACITY <= length queue ->
  try_send handle message chans = (false, chans).
Proof. intros Hq Hlt. unfold try_send. rewrite Hq. case_bool_decide; [lia|done]. Qed.

(** A queue never outgrows its capacity. *)
Definition channels_bounded (chans : Channels) : Prop :=
  forall channel queue, chans !! channel = Some queue -> length queue <= COMMAND_CAPACITY.

Lemma try_send_bounded handle message (chans : Channels) :
  channels_bounded chans -> channels_bounded (snd (try_send handle message chans)).
Proof.
  intros Hb channel queue. unfold try_send. destruct (chans !! th_channel handle) as [q|] eqn:E;
    [|by apply Hb]. case_bool_decide; simpl; [|by apply Hb].
  destruct (decide (channel = th_channel handle)) as [->|Hne].
  - rewrite lookup_insert_eq. intros [= <-]. rewrite length_app. simpl. lia.
  - rewrite lookup_insert_ne by done. apply Hb.
Qed.

#[export] Hint Resolve try_send_bounded : relay.
