(* ===== verification/Multiplexer.v ===== *)
(** * [drive_multiplexer] of [src/tunnel/session.rs]: the task that opens a tunnel's streams

    [Sources] is what the three things the task polls have ready: a source with nothing left answers
    [Pending].  What becomes ready while the task runs is in the batch of its next wake. *)

From S2P Require Import Prelude.
From S2P Require Import RustStr.
From S2P Require Import Protocol.
From S2P Require Import Handle.

(** What [poll_new_outbound] has ready. *)
Inductive OutboundPoll : Type :=
| OutboundPoll_Stream
| OutboundPoll_Error.

(** What [poll_next_inbound] has ready: [Some(Ok(_))], or [Some(Err(_))] and [None]. *)
Inductive InboundPoll : Type :=
| InboundPoll_Stream
| InboundPoll_End.

Record Sources : Type := mkSources {
  (* the queued [OpenRequest]s, each named by a number *)
  so_requests : list nat;
  (* every sender of requests is gone *)
  so_dropped : bool;
  so_outbound : list OutboundPoll;
  so_inbound : list InboundPoll;
}.

Definition no_sources : Sources := mkSources [] false [] [].

(** What is ready after a batch has become ready on top of what was left. *)
Definition arrive (remaining batch : Sources) : Sources :=
  mkSources (so_requests remaining ++ so_requests batch) (so_dropped remaining || so_dropped batch)
    (so_outbound remaining ++ so_outbound batch) (so_inbound remaining ++ so_inbound batch).

(** The reply on a request's [oneshot]: a stream or [ConnectionError::Closed]. *)
Inductive Reply : Type :=
| Reply_Stream
| Reply_Closed.

(** The inner loop over the queue: the replies sent, the requests left, what [poll_new_outbound] has
    left, and whether the connection failed. *)
Fixpoint serve_pending (pending : list nat) (outbound : list OutboundPoll)
    : list (nat * Reply) * list nat * list OutboundPoll * bool :=
  match pending, outbound with
  | [], _ | _, [] => ([], pending, outbound, false)
  | request :: rest, OutboundPoll_Stream :: outbound' =>
      let '(replies, remaining, outbound'', failed) := serve_pending rest outbound' in
      ((request, Reply_Stream) :: replies, remaining, outbound'', failed)
  | _, OutboundPoll_Error :: outbound' =>
      ((fun request => (request, Reply_Closed)) <$> pending, [], outbound', true)
  end.

Inductive Turn : Type :=
| Turn_Again
| Turn_Pending
| Turn_Ready.

(** One round of the [poll_fn] loop: the replies sent and the queue and sources it leaves. *)
Definition turn (pending : list nat) (sources : Sources) : Turn * list (nat * Reply) * list nat * Sources :=
  let queue := pending ++ so_requests sources in
  if so_dropped sources then (Turn_Ready, [], queue, mkSources [] true (so_outbound sources) (so_inbound sources))
  else
    let '(replies, remaining, outbound, failed) := serve_pending queue (so_outbound sources) in
    let after := mkSources [] false outbound in
    if (failed : bool) then (Turn_Ready, replies, remaining, after (so_inbound sources))
    else match so_inbound sources with
         | InboundPoll_Stream :: inbound => (Turn_Again, replies, remaining, after inbound)
         | InboundPoll_End :: inbound => (Turn_Ready, replies, remaining, after inbound)
         | [] => (match replies with [] => Turn_Pending | _ :: _ => Turn_Again end, replies, remaining, after [])
         end.

Record Driver : Type := mkDriver {
  md_replies : list (nat * Reply);
  md_pending : list nat;
  md_sources : Sources;
  (* the task has returned: what is still queued is dropped without a reply *)
  md_ended : bool;
}.

(** One poll of the [poll_fn]: rounds until it answers [Pending] or [Ready]. *)
Fixpoint poll_driver (fuel : nat) (driver : Driver) : option Driver :=
  match fuel with
  | O => None
  | S fuel =>
      let '(next, replies, pending, sources) := turn (md_pending driver) (md_sources driver) in
      let driver' := mkDriver (md_replies driver ++ replies) pending sources in
      match next with
      | Turn_Again => poll_driver fuel (driver' false)
      | Turn_Pending => Some (driver' false)
      | Turn_Ready => Some (driver' true)
      end
  end.

(** A round that is not the last takes an outbound or an inbound stream. *)
Definition rounds (sources : Sources) : nat := S (length (so_outbound sources) + length (so_inbound sources)).

Definition wake (driver : Driver) (batch : Sources) : option Driver :=
  if md_ended driver then Some driver
  else
    let sources := arrive (md_sources driver) batch in
    poll_driver (rounds sources) (mkDriver (md_replies driver) (md_pending driver) sources false).

Definition idle_driver : Driver := mkDriver [] [] no_sources false.

(** The task over the batches of its wakes. *)
Definition drive_multiplexer (batches : list Sources) : option Driver :=
  foldl (fun driver batch => driver ← driver; wake driver batch) (Some idle_driver) batches.

(** What [open_stream] gets for a request that was queued, once [OPEN_STREAM_TIMEOUT] has passed. *)
Definition answer_to (driver : Driver) (request : nat) : OpenAnswer :=
  match List.find (fun '(replied, _) => Nat.eqb replied request) (md_replies driver) with
  | Some (_, Reply_Stream) => OpenAnswer_Stream
  | Some (_, Reply_Closed) => OpenAnswer_Error
  | None => if md_ended driver then OpenAnswer_Dropped else OpenAnswer_Late
  end.

(** ** What the task has done with the requests *)

Definition replied (reply : Reply) (requests : list nat) : list (nat * Reply) :=
  (fun request => (request, reply)) <$> requests.

Lemma replied_fst reply requests : fst <$> replied reply requests = requests.
Proof. unfold replied. rewrite <- list_fmap_compose. apply list_fmap_id. Qed.

(** [requests] and [outbound] are everything the sources have had ready so far: every request has had one
    reply, or is still queued, in the order of the requests; a stream went to one request each, and a
    [Closed] only follows the failure of the connection. *)
Definition accounted (requests : list nat) (outbound : list OutboundPoll) (driver : Driver) : Prop :=
  exists served failed rest,
    md_replies driver = replied Reply_Stream served ++ replied Reply_Closed failed
    /\ requests = served ++ failed ++ md_pending driver ++ so_requests (md_sources driver)
    /\ outbound = replicate (length served) OutboundPoll_Stream ++ rest
    /\ (failed <> [] -> md_ended driver = true /\ md_pending driver = [])
    /\ (md_ended driver = false -> rest = so_outbound (md_sources driver)).

(** Nothing the task polls is ready. *)
Definition parked (driver : Driver) : Prop :=
  so_requests (md_sources driver) = [] /\ so_dropped (md_sources driver) = false
  /\ so_inbound (md_sources driver) = []
  /\ (md_pending driver = [] \/ so_outbound (md_sources driver) = []).

Lemma serve_pending_spec pending outbound replies remaining outbound' failed :
  serve_pending pending outbound = (replies, remaining, outbound', failed) ->
  exists served closed,
    replies = replied Reply_Stream served ++ replied Reply_Closed closed
    /\ pending = served ++ closed ++ remaining
    /\ outbound = replicate (length served) OutboundPoll_Stream
                    ++ (if failed then [OutboundPoll_Error] else []) ++ outbound'
    /\ (if failed then remaining = [] else closed = [] /\ (remaining = [] \/ outbound' = [])).
Proof.
  revert outbound replies remaining outbound' failed.
  induction pending as [|request pending IH]; intros [|[] outbound] replies remaining outbound' failed;
    cbn [serve_pending].
  1-4: intros [= <- <- <- <-]; exists [], []; by repeat split; auto.
  - destruct (serve_pending pending outbound) as [[[replies' remaining''] out''] failed''] eqn:E.
    intros [= <- <- <- <-]. destruct (IH _ _ _ _ _ E) as (served & closed & -> & -> & -> & Hend).
    by exists (request :: served), closed.
  - intros [= <- <- <- <-]. exists [], (request :: pending). cbn. by rewrite app_nil_r.
Qed.

Lemma turn_spec pending sources next replies remaining after :
  turn pending sources = (next, replies, remaining, after) ->
  exists served closed,
    replies = replied Reply_Stream served ++ replied Reply_Closed closed
    /\ pending ++ so_requests sources = served ++ closed ++ remaining /\ so_requests after = []
    /\ (exists rest, so_outbound sources = replicate (length served) OutboundPoll_Stream ++ rest
                     /\ (next <> Turn_Ready -> rest = so_outbound after))
    /\ (closed <> [] -> next = Turn_Ready /\ remaining = [])
    /\ match next with
       | Turn_Again => rounds after < rounds sources
       | Turn_Pending => parked (mkDriver [] remaining after false)
       | Turn_Ready => True
       end.
Proof.
  unfold turn. destruct (so_dropped sources).
  { intros [= <- <- <- <-]. exists [], []. repeat split; try done. by eexists. }
  destruct (serve_pending _ _) as [[[sent kept] out] failed] eqn:E.
  destruct (serve_pending_spec _ _ _ _ _ _ E) as (served & closed & -> & Hq & Hout & Hend).
  assert (Hlen : length (so_outbound sources) = length served + length out + (if failed then 1 else 0))
    by (rewrite Hout, !length_app, length_replicate; destruct failed; cbn; lia).
  destruct failed.
  { intros [= <- <- <- <-]. exists served, closed. repeat split; try done. by eexists. }
  destruct Hend as [-> Hkept]. unfold rounds.
  destruct (so_inbound sources) as [|[] inbound] eqn:Ein; intros [= <- <- <- <-]; exists served, [].
  - repeat split; try done; [by eexists|]. destruct served as [|r served]; cbn; [|cbn in Hlen; lia].
    by repeat split.
  - repeat split; try done; [by eexists|]. cbn. lia.
  - repeat split; try done. by eexists.
Qed.

Lemma poll_driver_spec fuel requests outbound driver :
  rounds (md_sources driver) <= fuel -> md_ended driver = false -> accounted requests outbound driver ->
  exists driver', poll_driver fuel driver = Some driver' /\ accounted requests outbound driver'
    /\ so_requests (md_sources driver') = [] /\ (md_ended driver' = false -> parked driver').
Proof.
  revert driver. induction fuel as [|fuel IH]; intros driver Hfuel Hopen Hacc; [unfold rounds in Hfuel; lia|].
  cbn [poll_driver]. destruct (turn _ _) as [[[next replies] remaining] after] eqn:E.
  destruct (turn_spec _ _ _ _ _ _ E) as (served & closed & -> & Hq & Hdrained & (rest & Hout & Hrest) & Hc & Hnext).
  destruct Hacc as (served0 & failed0 & rest0 & Hrep & Hreq & Hob & Hf0 & Hr0).
  rewrite (Hr0 Hopen), Hout in Hob.
  assert (failed0 = []) as ->.
  { destruct failed0; [done|]. by destruct (Hf0 ltac:(done)) as [? _]; congruence. }
  assert (Hacc : forall ended, (next = Turn_Ready <-> ended = true) ->
    accounted requests outbound
      (mkDriver (md_replies driver ++ replied Reply_Stream served ++ replied Reply_Closed closed) remaining after ended)).
  { intros ended Hended. exists (served0 ++ served), closed, rest. cbn. rewrite Hreq, Hob, Hrep, Hdrained, Hq.
    unfold replied. rewrite fmap_app, app_nil_r, length_app, replicate_add, !app_assoc, !app_nil_r.
    do 3 (split; [done|]). split.
    - intros Hne. destruct (Hc Hne) as [Hn Hl]. by rewrite <- Hended.
    - intros ->. apply Hrest. intros Hn. by apply Hended in Hn. }
  destruct next.
  - apply IH; [cbn in *; lia|done|by apply Hacc].
  - eexists. split; [done|]. split; [by apply Hacc|]. by split.
  - eexists. split; [done|]. split; [by apply Hacc|]. by split.
Qed.

Lemma wake_spec requests outbound driver batch :
  md_ended driver = false -> accounted requests outbound driver ->
  exists driver', wake driver batch = Some driver'
    /\ accounted (requests ++ so_requests batch) (outbound ++ so_outbound batch) driver'
    /\ so_requests (md_sources driver') = [] /\ (md_ended driver' = false -> parked driver').
Proof.
  intros Hopen (served & failed & rest & Hrep & -> & -> & Hf & Hr). unfold wake. rewrite Hopen.
  apply poll_driver_spec; [done|done|]. rewrite (Hr Hopen).
  assert (failed = []) as ->.
  { destruct failed; [done|]. by destruct (Hf ltac:(done)) as [? _]; congruence. }
  exists served, [], (so_outbound (md_sources driver) ++ so_outbound batch). cbn.
  by rewrite Hrep, !app_assoc.
Qed.

(** The requests and outbound polls of all wakes. *)
Definition all_requests (batches : list Sources) : list nat := concat (so_requests <$> batches).
Definition all_outbound (batches : list Sources) : list OutboundPoll := concat (so_outbound <$> batches).

(** What a run of the task has done: [unread] came after its end. *)
Definition driven (batches : list Sources) (driver : Driver) (unread : list nat) : Prop :=
  exists requests outbound rest,
    all_requests batches = requests ++ unread /\ all_outbound batches = outbound ++ rest
    /\ accounted requests outbound driver /\ so_requests (md_sources driver) = []
    /\ (md_ended driver = false -> unread = [] /\ rest = [] /\ parked driver).

Lemma drive_multiplexer_driven batches :
  exists driver unread, drive_multiplexer batches = Some driver /\ driven batches driver unread.
Proof.
  induction batches as [|batch batches (driver & unread & Hrun & Hd)] using rev_ind.
  - exists idle_driver, []. split; [done|]. exists [], [], []. split_and!; try done.
    + exists [], [], []. by split_and!.
    + intros _. repeat split. by left.
  - unfold drive_multiplexer in *. rewrite foldl_app, Hrun. cbn [foldl mbind option_bind].
    unfold driven, all_requests, all_outbound. rewrite !fmap_app, !concat_app. cbn. rewrite !app_nil_r.
    destruct Hd as (requests & outbound & rest & Hreq & Hout & Hacc & Hdr & Hopen).
    unfold all_requests, all_outbound in Hreq, Hout. rewrite Hreq, Hout.
    destruct (md_ended driver) eqn:Hend.
    + exists driver, (unread ++ so_requests batch). unfold wake. rewrite Hend. split; [done|].
      exists requests, outbound, (rest ++ so_outbound batch). by rewrite <- !app_assoc.
    + destruct (Hopen eq_refl) as (-> & -> & _).
      destruct (wake_spec requests outbound driver batch) as (driver' & Hw & Hacc' & Hdr' & Hp); [done..|].
      exists driver', []. split; [done|].
      exists (requests ++ so_requests batch), (outbound ++ so_outbound batch), []. rewrite !app_nil_r.
      by split_and!; try (intros; split_and!; auto).
Qed.

(** The reply a caller finds is the first one. *)
Lemma answer_to_spec driver request served failed :
  md_replies driver = replied Reply_Stream served ++ replied Reply_Closed failed ->
  match answer_to driver request with
  | OpenAnswer_Stream => request ∈ served
  | OpenAnswer_Error => request ∈ failed /\ request ∉ served
  | OpenAnswer_Dropped => md_ended driver = true /\ request ∉ served
  | OpenAnswer_Late => md_ended driver = false /\ request ∉ served ++ failed
  end.
Proof.
  intros Hrep. unfold answer_to. rewrite Hrep. clear Hrep. induction served as [|r served IH]; cbn.
  - induction failed as [|r failed IH]; cbn.
    + destruct (md_ended driver); split; (done || apply not_elem_of_nil).
    + destruct (Nat.eqb_spec r request) as [->|Hne]; [split; [left|apply not_elem_of_nil]|].
      destruct (List.find _ _) as [[r' []]|]; [by apply elem_of_nil in IH|by split; [right; apply IH|apply not_elem_of_nil]|].
      destruct (md_ended driver); [done|]. destruct IH as [_ IH]. split; [done|].
      intros [Heq|Hin]%elem_of_cons; [congruence|by apply IH].
  - destruct (Nat.eqb_spec r request) as [->|Hne]; [left|].
    assert (Hcons : forall l, request ∉ l -> request ∉ r :: l)
      by (intros l Hn [Heq|Hin]%elem_of_cons; [congruence|by apply Hn]).
    destruct (List.find _ _) as [[r' []]|]; [by right|by destruct IH; split; auto|].
    destruct (md_ended driver); destruct IH; split; auto.
Qed.

(** C27: no caller is kept waiting by the task that opens streams.  However its wakes interleave requests,
    outbound streams, inbound streams and failures: every poll ends; requests are answered in the order
    they were queued, each by a stream of its own, and by [Closed] only after the connection failed;
    while the task runs nothing it polls is left ready.  So a queued [open_stream] times out only while
    the connection hands out no stream, and fails otherwise only once the task is gone. *)
Theorem multiplexer_answers (batches : list Sources) (encode : StreamPreface -> string) (preface : StreamPreface) :
  exists driver served failed unread,
    drive_multiplexer batches = Some driver
    /\ md_replies driver = replied Reply_Stream served ++ replied Reply_Closed failed
    /\ all_requests batches = served ++ failed ++ md_pending driver ++ unread
    /\ replicate (length served) OutboundPoll_Stream `prefix_of` all_outbound batches
    /\ (failed <> [] -> md_ended driver = true /\ md_pending driver = [])
    /\ (md_ended driver = false -> unread = [] /\ parked driver)
    /\ (forall request, request ∈ all_requests batches ->
          match open_stream encode preface true (answer_to driver request) (Ok tt) with
          | Ok bytes => request ∈ served /\ bytes = encode preface
          | Err TunnelError_Closed => md_ended driver = true /\ request ∉ served
          | Err TunnelError_OpenTimeout =>
              md_ended driver = false /\ request ∈ md_pending driver /\ so_outbound (md_sources driver) = []
          | Err _ => False
          end).
Proof.
  destruct (drive_multiplexer_driven batches) as (driver & unread & Hrun & requests & outbound & rest & Hreq & Hout &
    (served & failed & rest' & Hrep & -> & -> & Hf & _) & Hd & Hopen).
  rewrite Hd, app_nil_r in Hreq. exists driver, served, failed, unread.
  split_and!; try done; [by rewrite Hreq, <- !app_assoc|rewrite Hout, <- app_assoc; by eexists|by intros (->&_&?)%Hopen|].
  intros request Hin. pose proof (answer_to_spec driver request served failed Hrep) as Ha.
  destruct (answer_to driver request); cbn.
  - done.
  - destruct Ha as [Hin' Hs]. split; [|done]. apply Hf. intros ->. by apply elem_of_nil in Hin'.
  - done.
  - destruct Ha as [Hend Hs]. destruct (Hopen Hend) as (-> & _ & Hp). split; [done|].
    rewrite Hreq, app_nil_r, app_assoc in Hin. apply elem_of_app in Hin as [Hin|Hin]; [done|].
    split; [done|]. destruct Hp as (_ & _ & _ & [Hp|Hp]); [|done]. rewrite Hp in Hin. by apply elem_of_nil in Hin.
Qed.

(** Two requests, one stream; then the connection fails. *)
Example two_requests :
  drive_multiplexer [mkSources [1; 2] false [OutboundPoll_Stream] []; mkSources [3] false [OutboundPoll_Error] []]
  = Some (mkDriver [(1, Reply_Stream); (2, Reply_Closed); (3, Reply_Closed)] [] no_sources true).
Proof. reflexivity. Qed.
