(* ===== verification/Registry.v ===== *)
(** * [src/registry.rs]: the in-memory routing table

    Which devices are reachable right now, over which tunnel, and what subscribers are told about
    it.  Every operation of the file is a pure function on [Registry]; the part of an operation that
    runs under the mutex is a definition of its own ([*_locked]), because publication happens after
    the lock is released and interleavings of the two halves are observable. *)

From S2P Require Import Prelude.
From S2P Require Import RustStr.
From S2P Require Import Protocol.
From S2P Require Import Handle.

(** ** Data *)

Inductive Route : Type :=
| Route_Direct (handle : TunnelHandle)
| Route_Via (via_link : TunnelHandle) (via_hops : list string).

Definition link (route : Route) : TunnelHandle :=
  match route with
  | Route_Direct handle => handle
  | Route_Via l _ => l
  end.

Definition hops (route : Route) : list string :=
  match route with
  | Route_Direct _ => []
  | Route_Via _ h => h
  end.

Definition hop_count (route : Route) : nat := length (hops route).

Definition is_direct (route : Route) : bool :=
  match route with
  | Route_Direct _ => true
  | Route_Via _ _ => false
  end.

Record DirectPresence : Type := mkDirectPresence {
  dp_device_id : string;
  dp_name : string;
  dp_kind : DeviceKind;
  dp_relay_id : option string;
  dp_ip : option string;
  dp_version : option string;
  dp_handle : TunnelHandle;
}.

Record Registration : Type := mkRegistration {
  rg_serial : N;
  rg_displaced : option TunnelHandle;
}.

Record OnlineDevice : Type := mkOnlineDevice {
  od_device_id : string;
  od_name : string;
  od_kind : DeviceKind;
  od_connected_since : Z;
  od_ip : option string;
  od_version : option string;
  od_route : Route;
}.

Inductive Origin : Type :=
| Origin_Direct (serial : N)
| Origin_Announced (link_device_id : string).

Record Entry : Type := mkEntry {
  en_device : OnlineDevice;
  en_origin : Origin;
  en_sequence : N;
}.

Inductive RegistryChange : Type :=
| RegistryChange_Online (device : AnnouncedDevice)
| RegistryChange_Offline (device_id : string).

Record KnownDevice : Type := mkKnownDevice {
  kd_name : string;
  kd_last_seen_at : Z;
}.

Record WithdrawnDevice : Type := mkWithdrawnDevice {
  wd_link_device_id : string;
  wd_device : KnownDevice;
}.

(** [RegistryState] and the fields of [Registry] around it; [changes] is everything published so
    far, oldest first. *)
Record Registry : Type := mkRegistry {
  reg_relay_id : string;
  reg_entries : gmap string Entry;
  reg_relay_links : gmap string string;
  reg_withdrawn : gmap string WithdrawnDevice;
  reg_sequence : N;
  reg_changes : list RegistryChange;
}.

Definition CHANGE_CAPACITY : nat := 256.

Record DownstreamLink : Type := mkDownstreamLink {
  dl_device_id : string;
  dl_name : string;
  dl_device_count : nat;
}.

#[export] Instance Route_eq_dec : EqDecision Route.
Proof. solve_decision. Defined.

#[export] Instance Origin_eq_dec : EqDecision Origin.
Proof. solve_decision. Defined.

#[export] Instance RegistryChange_eq_dec : EqDecision RegistryChange.
Proof. solve_decision. Defined.

#[export] Instance KnownDevice_eq_dec : EqDecision KnownDevice.
Proof. solve_decision. Defined.

(** ** State updates *)

Definition set_entries (f : gmap string Entry -> gmap string Entry) (r : Registry) : Registry :=
  mkRegistry (reg_relay_id r) (f (reg_entries r)) (reg_relay_links r) (reg_withdrawn r)
    (reg_sequence r) (reg_changes r).

Definition set_relay_links (f : gmap string string -> gmap string string) (r : Registry)
    : Registry :=
  mkRegistry (reg_relay_id r) (reg_entries r) (f (reg_relay_links r)) (reg_withdrawn r)
    (reg_sequence r) (reg_changes r).

Definition set_withdrawn (f : gmap string WithdrawnDevice -> gmap string WithdrawnDevice)
    (r : Registry) : Registry :=
  mkRegistry (reg_relay_id r) (reg_entries r) (reg_relay_links r) (f (reg_withdrawn r))
    (reg_sequence r) (reg_changes r).

(** ** Operations *)

Definition new (relay_id : string) : Registry := mkRegistry relay_id ∅ ∅ ∅ 0%N [].

Definition next_sequence (r : Registry) : N * Registry :=
  (reg_sequence r,
   mkRegistry (reg_relay_id r) (reg_entries r) (reg_relay_links r) (reg_withdrawn r)
     (wrapping_add_u64 (reg_sequence r) 1) (reg_changes r)).

Definition announcement_of (relay_id : string) (entry : Entry) : option AnnouncedDevice :=
  if bool_decide (od_kind (en_device entry) = DeviceKind_Relay)
     && is_direct (od_route (en_device entry))
  then None
  else Some (mkAnnouncedDevice
               (od_device_id (en_device entry))
               (od_name (en_device entry))
               true
               (relay_id :: hops (od_route (en_device entry)))).

Definition announcements (r : Registry) : list AnnouncedDevice :=
  omap (fun '(_, entry) => announcement_of (reg_relay_id r) entry) (map_to_list (reg_entries r)).

Definition transition (relay_id device_id : string) (previous current : option Entry)
    : option RegistryChange :=
  match current ≫= announcement_of relay_id with
  | Some announcement => Some (RegistryChange_Online announcement)
  | None =>
      match previous ≫= announcement_of relay_id with
      | Some _ => Some (RegistryChange_Offline device_id)
      | None => None
      end
  end.

Definition publish (changes : list RegistryChange) (r : Registry) : Registry :=
  mkRegistry (reg_relay_id r) (reg_entries r) (reg_relay_links r) (reg_withdrawn r)
    (reg_sequence r) (reg_changes r ++ changes).

(** The body of [connect] under the lock; [now] is the clock reading. *)
Definition connect_locked (now : Z) (serial : N) (presence : DirectPresence) (r : Registry)
    : Registration * option RegistryChange * Registry :=
  let device_id := dp_device_id presence in
  let r1 :=
    match dp_relay_id presence, dp_kind presence with
    | Some relay_id, DeviceKind_Relay => set_relay_links (<[relay_id := device_id]>) r
    | _, _ => r
    end in
  let entry :=
    mkEntry
      (mkOnlineDevice device_id (dp_name presence) (dp_kind presence) now (dp_ip presence)
         (dp_version presence) (Route_Direct (dp_handle presence)))
      (Origin_Direct serial) serial in
  let r2 := set_withdrawn (delete device_id) r1 in
  let previous := reg_entries r2 !! device_id in
  let r3 := set_entries (<[device_id := entry]>) r2 in
  let change := transition (reg_relay_id r3) device_id previous (reg_entries r3 !! device_id) in
  let displaced :=
    p ← previous;
    match en_origin p with
    | Origin_Direct _ => Some (link (od_route (en_device p)))
    | Origin_Announced _ => None
    end in
  (mkRegistration serial displaced, change, r3).

Definition connect (now : Z) (presence : DirectPresence) (r : Registry) : Registration * Registry :=
  let '(serial, r1) := next_sequence r in
  let '(registration, change, r2) := connect_locked now serial presence r1 in
  (registration, publish (option_list change) r2).

Definition announced_by (link_device_id : string) (entry : Entry) : bool :=
  match en_origin entry with
  | Origin_Announced owner => String.eqb owner link_device_id
  | Origin_Direct _ => false
  end.

Definition announced_ids_of (entries : gmap string Entry) (link_device_id : string)
    : list string :=
  fst <$> List.filter (fun '(_, entry) => announced_by link_device_id entry) (map_to_list entries).

(** The [filter_map] of [disconnect]: removes each id in turn and collects the changes. *)
Fixpoint remove_gone (relay_id : string) (gone : list string) (entries : gmap string Entry)
    : list RegistryChange * gmap string Entry :=
  match gone with
  | [] => ([], entries)
  | id :: gone' =>
      match entries !! id with
      | None => remove_gone relay_id gone' entries
      | Some entry =>
          let '(changes, entries') := remove_gone relay_id gone' (delete id entries) in
          (option_list (transition relay_id id (Some entry) None) ++ changes, entries')
      end
  end.

Definition disconnect_locked (device_id : string) (serial : N) (r : Registry)
    : option (list RegistryChange * Registry) :=
  let matches :=
    match reg_entries r !! device_id with
    | Some entry => bool_decide (en_origin entry = Origin_Direct serial)
    | None => false
    end in
  if negb matches then None
  else
    let r1 := set_relay_links (filter (fun '(_, link_device_id) => link_device_id <> device_id)) r in
    let r2 := set_withdrawn (filter (fun '(_, w) => wd_link_device_id w <> device_id)) r1 in
    let gone := device_id :: announced_ids_of (reg_entries r2) device_id in
    let '(changes, entries) := remove_gone (reg_relay_id r2) gone (reg_entries r2) in
    Some (changes, set_entries (fun _ => entries) r2).

Definition disconnect (device_id : string) (serial : N) (r : Registry) : bool * Registry :=
  match disconnect_locked device_id serial r with
  | None => (false, r)
  | Some (changes, r') => (true, publish changes r')
  end.

Definition route (r : Registry) (device_id : string) : option Route :=
  (fun entry => od_route (en_device entry)) <$> reg_entries r !! device_id.

Definition is_online (r : Registry) (device_id : string) : bool :=
  bool_decide (is_Some (reg_entries r !! device_id)).

Definition last_known (r : Registry) (device_id : string) : option KnownDevice :=
  wd_device <$> reg_withdrawn r !! device_id.

(** Whether a candidate route should take over from the one already installed. *)
Definition replaces (existing : Route) (existing_sequence : N) (candidate : Route) (sequence : N)
    : bool :=
  match existing with
  | Route_Direct _ => false
  | Route_Via _ _ =>
      (hop_count candidate <? hop_count existing)
      || ((hop_count candidate =? hop_count existing) && (existing_sequence <? sequence)%N)
  end.

Definition snapshot (r : Registry) : list OnlineDevice :=
  (fun '(_, entry) => en_device entry) <$> map_to_list (reg_entries r).

Definition hop_names (r : Registry) (hops : list string) : list string :=
  (fun relay_id =>
     default relay_id
       (device_id ← reg_relay_links r !! relay_id;
        entry ← reg_entries r !! device_id;
        Some (od_name (en_device entry)))) <$> hops.

Definition downstream_links (r : Registry) : list DownstreamLink :=
  (fun '(_, entry) =>
     mkDownstreamLink
       (od_device_id (en_device entry))
       (od_name (en_device entry))
       (length (List.filter (fun '(_, announced) =>
                               announced_by (od_device_id (en_device entry)) announced)
                  (map_to_list (reg_entries r)))))
  <$> List.filter (fun '(_, entry) => bool_decide (od_kind (en_device entry) = DeviceKind_Relay))
        (map_to_list (reg_entries r)).

Definition withdraw_locked (now : Z) (link_device_id device_id : string) (r : Registry)
    : option RegistryChange * Registry :=
  let owned :=
    match reg_entries r !! device_id with
    | Some entry => announced_by link_device_id entry
    | None => false
    end in
  if negb owned then (None, r)
  else
    let removed := reg_entries r !! device_id in
    let r1 := set_entries (delete device_id) r in
    match removed with
    | None => (None, r1)
    | Some entry =>
        let r2 :=
          set_withdrawn
            (<[device_id := mkWithdrawnDevice link_device_id
                              (mkKnownDevice (od_name (en_device entry)) now)]>) r1 in
        (transition (reg_relay_id r2) device_id (Some entry) None, r2)
    end.

Definition withdraw_device (now : Z) (link_device_id device_id : string) (r : Registry)
    : Registry :=
  let '(change, r') := withdraw_locked now link_device_id device_id r in
  publish (option_list change) r'.

Section announcing.
Context `{Protocol}.

Definition is_announcement_routable (relay_id : string) (via : list string) : bool :=
  bool_decide (length via < MAX_HOPS) && negb (bool_decide (relay_id ∈ via)).

Definition announce_locked (now : Z) (sequence : N) (link_device_id : string) (l : TunnelHandle)
    (device : AnnouncedDevice) (r : Registry) : option (option RegistryChange * Registry) :=
  let device_id := ad_id device in
  let candidate := Route_Via l (ad_via device) in
  let refused :=
    match reg_entries r !! device_id with
    | Some existing =>
        negb (replaces (od_route (en_device existing)) (en_sequence existing) candidate sequence)
    | None => false
    end in
  if refused then None
  else
    let r1 := set_withdrawn (delete device_id) r in
    let previous := reg_entries r1 !! device_id in
    let entry :=
      mkEntry
        (mkOnlineDevice device_id (ad_name device) DeviceKind_Desktop now None None candidate)
        (Origin_Announced link_device_id) sequence in
    let r2 := set_entries (<[device_id := entry]>) r1 in
    Some (transition (reg_relay_id r2) device_id previous (reg_entries r2 !! device_id), r2).

Definition announce_device (now : Z) (link_device_id : string) (l : TunnelHandle)
    (device : AnnouncedDevice) (r : Registry) : bool * Registry :=
  if negb (is_announcement_routable (reg_relay_id r) (ad_via device)) then (false, r)
  else
    let '(sequence, r1) := next_sequence r in
    match announce_locked now sequence link_device_id l device r1 with
    | None => (false, r1)
    | Some (change, r2) => (true, publish (option_list change) r2)
    end.

(** The first loop of [apply_announcement]: installs the snapshot, answers the accepted ids.  [now]
    gives the clock reading of each installation, by position in the snapshot. *)
Fixpoint install_all (now : nat -> Z) (i : nat) (link_device_id : string) (l : TunnelHandle)
    (devices : list AnnouncedDevice) (r : Registry) : list string * Registry :=
  match devices with
  | [] => ([], r)
  | device :: rest =>
      if negb (ad_online device) then install_all now (S i) link_device_id l rest r
      else
        let '(accepted, r1) := announce_device (now i) link_device_id l device r in
        let '(installed, r2) := install_all now (S i) link_device_id l rest r1 in
        (if accepted then ad_id device :: installed else installed, r2)
  end.

(** The second loop: withdraws what the link no longer announces. *)
Fixpoint withdraw_all (now : nat -> Z) (i : nat) (link_device_id : string) (stale : list string)
    (r : Registry) : Registry :=
  match stale with
  | [] => r
  | id :: rest =>
      withdraw_all now (S i) link_device_id rest (withdraw_device (now i) link_device_id id r)
  end.

Definition apply_announcement (now : nat -> Z) (link_device_id : string) (l : TunnelHandle)
    (devices : list AnnouncedDevice) (r : Registry) : Registry :=
  let previous := announced_ids_of (reg_entries r) link_device_id in
  let '(installed, r1) := install_all now 0 link_device_id l devices r in
  let stale := List.filter (fun id => negb (bool_decide (id ∈ installed))) previous in
  withdraw_all now (length devices) link_device_id stale r1.

End announcing.
