(* ===== verification/RegistryProofs.v ===== *)
(** * Correctness of the routing table

    The well-formedness invariant and its preservation, the abstract specification — what a
    subscriber knows after replaying the published changes — and the functional behaviour of
    connecting, disconnecting, announcing and withdrawing. *)

From S2P Require Import Prelude.
From S2P Require Import RustStr.
From S2P Require Import Protocol.
From S2P Require Import Handle.
From S2P Require Import Registry.

(** ** Specification vocabulary *)

Section definitions.
Context `{Protocol}.

(** What the table as a whole offers: the destination behind every id. *)
Definition offer_of (relay_id : string) (entries : gmap string Entry)
    : gmap string AnnouncedDevice :=
  omap (announcement_of relay_id) entries.

Definition offer (r : Registry) : gmap string AnnouncedDevice :=
  offer_of (reg_relay_id r) (reg_entries r).

(** What a subscriber does with one change. *)
Definition apply_change (view : gmap string AnnouncedDevice) (change : RegistryChange)
    : gmap string AnnouncedDevice :=
  match change with
  | RegistryChange_Online device => <[ad_id device := device]> view
  | RegistryChange_Offline device_id => delete device_id view
  end.

Definition replay (changes : list RegistryChange) (view : gmap string AnnouncedDevice)
    : gmap string AnnouncedDevice := foldl apply_change view changes.

Definition change_id (c : RegistryChange) : string :=
  match c with
  | RegistryChange_Online d => ad_id d
  | RegistryChange_Offline id => id
  end.

Definition change_value (c : RegistryChange) : option AnnouncedDevice :=
  match c with
  | RegistryChange_Online d => Some d
  | RegistryChange_Offline _ => None
  end.

Definition entry_wf (relay_id id : string) (next : N) (e : Entry) : Prop :=
  od_device_id (en_device e) = id
  /\ (en_sequence e < next)%N
  /\ match en_origin e with
     | Origin_Direct serial => is_direct (od_route (en_device e)) = true /\ serial = en_sequence e
     | Origin_Announced _ =>
         od_kind (en_device e) = DeviceKind_Desktop
         /\ exists l h, od_route (en_device e) = Route_Via l h
                        /\ is_announcement_routable relay_id h = true
     end.

Definition is_direct_origin (e : Entry) : Prop :=
  match en_origin e with
  | Origin_Direct _ => True
  | Origin_Announced _ => False
  end.

Record registry_wf (r : Registry) : Prop := {
  wf_entry : forall id e, reg_entries r !! id = Some e -> entry_wf (reg_relay_id r) id (reg_sequence r) e;
  wf_unique : forall id1 id2 e1 e2, reg_entries r !! id1 = Some e1 -> reg_entries r !! id2 = Some e2 ->
    en_sequence e1 = en_sequence e2 -> id1 = id2;
  wf_withdrawn : forall id, is_Some (reg_withdrawn r !! id) -> reg_entries r !! id = None;
  wf_links : forall relay_id id, reg_relay_links r !! relay_id = Some id ->
    exists e, reg_entries r !! id = Some e /\ is_direct_origin e;
}.

(** One call into the table.  The sequence counter is 64 bits wide; a step that draws from it is
    only taken while it has not wrapped. *)
Inductive registry_step : Registry -> Registry -> Prop :=
| step_connect now presence r :
    (reg_sequence r + 1 < u64_modulus)%N ->
    registry_step r (snd (connect now presence r))
| step_disconnect device_id serial r :
    registry_step r (snd (disconnect device_id serial r))
| step_announce now link_device_id l device r :
    (reg_sequence r + 1 < u64_modulus)%N ->
    registry_step r (snd (announce_device now link_device_id l device r))
| step_withdraw now link_device_id device_id r :
    registry_step r (withdraw_device now link_device_id device_id r)
| step_apply now link_device_id l devices r :
    (reg_sequence r + N.of_nat (length devices) < u64_modulus)%N ->
    registry_step r (apply_announcement now link_device_id l devices r).

Definition reachable (relay_id : string) (r : Registry) : Prop :=
  rtc registry_step (new relay_id) r.

(** What every call guarantees of the table before and after it: the invariant is kept, and the
    changes it published take a subscriber from the old offer to the new one. *)
Definition good_step (r r' : Registry) : Prop :=
  registry_wf r'
  /\ reg_relay_id r' = reg_relay_id r
  /\ (reg_sequence r <= reg_sequence r')%N
  /\ exists delta, reg_changes r' = reg_changes r ++ delta /\ replay delta (offer r) = offer r'.

End definitions.

(** ** Replaying changes *)

Lemma replay_app (l1 l2 : list RegistryChange) view :
  replay (l1 ++ l2) view = replay l2 (replay l1 view).
Proof. apply foldl_app. Qed.

Lemma apply_change_lookup view c id :
  apply_change view c !! id = if decide (change_id c = id) then change_value c else view !! id.
Proof. destruct c; simpl; [apply lookup_insert | apply lookup_delete]. Qed.

(** The last change that names an id decides what a subscriber believes about it. *)
Lemma replay_cases (l : list RegistryChange) id :
  (exists o, forall view, replay l view !! id = o) \/ (forall view, replay l view !! id = view !! id).
Proof.
  induction l as [|c l IH]; [by right|]. destruct IH as [[o Ho]|Hv].
  - left. exists o. intros view. apply Ho.
  - destruct (decide (change_id c = id)) as [Heq|Hne].
    + left. exists (change_value c). intros view. simpl. rewrite Hv, apply_change_lookup.
      by rewrite decide_True.
    + right. intros view. simpl. rewrite Hv, apply_change_lookup. by rewrite decide_False.
Qed.

Lemma replay_idem (l : list RegistryChange) view : replay l (replay l view) = replay l view.
Proof.
  apply map_eq. intros id. destruct (replay_cases l id) as [[o Ho]|Hv]; [by rewrite !Ho | by rewrite Hv].
Qed.

(** ** Single entries *)

Lemma announcement_of_id relay_id e a :
  announcement_of relay_id e = Some a -> ad_id a = od_device_id (en_device e).
Proof. unfold announcement_of. destruct (_ && _); naive_solver. Qed.

Lemma offer_of_lookup relay_id entries id :
  offer_of relay_id entries !! id = entries !! id ≫= announcement_of relay_id.
Proof. apply lookup_omap. Qed.

(** Publishing the transition of one id brings a subscriber from the table before to the table
    after. *)
Lemma transition_replay relay_id id (entries : gmap string Entry) (current : option Entry) :
  (forall e, current = Some e -> od_device_id (en_device e) = id) ->
  replay (option_list (transition relay_id id (entries !! id) current)) (offer_of relay_id entries)
  = offer_of relay_id (partial_alter (fun _ => current) id entries).
Proof.
  intros Hid. apply map_eq. intros j. rewrite offer_of_lookup. unfold transition.
  destruct (current ≫= announcement_of relay_id) as [a|] eqn:Ec; simpl.
  - destruct current as [e|]; [|done]. simpl in Ec.
    pose proof (announcement_of_id _ _ _ Ec) as Ha. rewrite (Hid e eq_refl) in Ha.
    rewrite lookup_insert, Ha. destruct (decide (id = j)) as [->|Hne].
    + by rewrite lookup_partial_alter_eq.
    + rewrite lookup_partial_alter_ne by done. apply offer_of_lookup.
  - destruct (decide (id = j)) as [->|Hne].
    + rewrite lookup_partial_alter_eq, Ec.
      destruct (entries !! j ≫= announcement_of relay_id) eqn:Ep; simpl.
      * by rewrite lookup_delete_eq.
      * by rewrite offer_of_lookup.
    + rewrite lookup_partial_alter_ne by done.
      destruct (entries !! id ≫= announcement_of relay_id); simpl;
        rewrite ?lookup_delete_ne by done; apply offer_of_lookup.
Qed.

Lemma transition_insert_replay relay_id id (entries : gmap string Entry) e :
  od_device_id (en_device e) = id ->
  replay (option_list (transition relay_id id (entries !! id) (<[id := e]> entries !! id)))
    (offer_of relay_id entries) = offer_of relay_id (<[id := e]> entries).
Proof.
  intros He. rewrite lookup_insert_eq. apply (transition_replay relay_id id entries (Some e)).
  naive_solver.
Qed.

Lemma transition_delete_replay relay_id id (entries : gmap string Entry) :
  replay (option_list (transition relay_id id (entries !! id) None)) (offer_of relay_id entries)
  = offer_of relay_id (delete id entries).
Proof. by apply (transition_replay relay_id id entries None). Qed.

(** ** Removing what a link announced *)

Lemma elem_of_announced_ids entries link_device_id id :
  id ∈ announced_ids_of entries link_device_id
  <-> exists e, entries !! id = Some e /\ announced_by link_device_id e = true.
Proof.
  unfold announced_ids_of. rewrite list_elem_of_fmap. split.
  - intros [[j e] [-> Hin]]. rewrite list_elem_of_In, List.filter_In in Hin. destruct Hin as [Hin Ha].
    exists e. split; [|done]. by apply elem_of_map_to_list, list_elem_of_In.
  - intros (e & He & Ha). exists (id, e). split; [done|].
    rewrite list_elem_of_In, List.filter_In. split; [|done].
    by apply list_elem_of_In, elem_of_map_to_list.
Qed.

Lemma remove_gone_spec relay_id gone : forall entries changes entries',
  remove_gone relay_id gone entries = (changes, entries') ->
  (forall id, entries' !! id = if decide (id ∈ gone) then None else entries !! id)
  /\ replay changes (offer_of relay_id entries) = offer_of relay_id entries'.
Proof.
  induction gone as [|g gone IH]; intros entries changes entries'; cbn [remove_gone].
  - intros [= <- <-]. split; [|done]. intros id. rewrite decide_False; [done|]. apply not_elem_of_nil.
  - destruct (entries !! g) as [e|] eqn:Eg.
    + destruct (remove_gone relay_id gone (delete g entries)) as [cs es] eqn:Er.
      intros [= <- <-]. destruct (IH _ _ _ Er) as [Hl Hr]. split.
      * intros id. rewrite Hl. destruct (decide (id ∈ gone)) as [Hin|Hin].
        { rewrite decide_True; [done|]. by right. }
        destruct (decide (g = id)) as [->|Hne].
        { rewrite decide_True by left. apply lookup_delete_eq. }
        rewrite lookup_delete_ne, decide_False; [done| |done].
        rewrite elem_of_cons. naive_solver.
      * rewrite replay_app. pose proof (transition_delete_replay relay_id g entries) as Ht.
        rewrite Eg in Ht. by rewrite Ht.
    + intros Er. destruct (IH _ _ _ Er) as [Hl Hr]. split; [|done].
      intros id. rewrite Hl. destruct (decide (id ∈ gone)) as [Hin|Hin].
      * rewrite decide_True; [done|]. by right.
      * destruct (decide (id = g)) as [->|Hne].
        { rewrite decide_True by left. done. }
        rewrite decide_False; [done|]. rewrite elem_of_cons. naive_solver.
Qed.

(** ** Every call is a good step *)

Section steps.
Context `{Protocol}.

Lemma good_step_refl r : registry_wf r -> good_step r r.
Proof.
  intros Hwf. split; [done|]. split; [done|]. split; [done|]. exists []. by rewrite app_nil_r.
Qed.

Lemma good_step_trans r1 r2 r3 : good_step r1 r2 -> good_step r2 r3 -> good_step r1 r3.
Proof.
  intros (_ & Hi1 & Hs1 & d1 & Hc1 & Hr1) (Hwf & Hi2 & Hs2 & d2 & Hc2 & Hr2).
  split; [done|]. split; [congruence|]. split; [lia|]. exists (d1 ++ d2).
  rewrite Hc2, Hc1, app_assoc, replay_app. split; [done|]. by rewrite Hr1.
Qed.

(** The invariant of an entry only weakens as the counter grows. *)
Lemma entry_wf_mono relay_id id n n' e :
  (n <= n')%N -> entry_wf relay_id id n e -> entry_wf relay_id id n' e.
Proof. intros Hle (? & ? & ?). split; [done|]. split; [lia|done]. Qed.

Lemma wf_insert r id e links withdrawn seq changes :
  registry_wf r ->
  (reg_sequence r < seq)%N ->
  en_sequence e = reg_sequence r ->
  entry_wf (reg_relay_id r) id seq e ->
  (forall i, is_Some (withdrawn !! i) -> i <> id /\ is_Some (reg_withdrawn r !! i)) ->
  (forall rid i, links !! rid = Some i ->
     (i = id /\ is_direct_origin e) \/ (i <> id /\ reg_relay_links r !! rid = Some i)) ->
  registry_wf (mkRegistry (reg_relay_id r) (<[id := e]> (reg_entries r)) links withdrawn seq changes).
Proof.
  intros Hwf Hseq Hes He Hw Hl. split; simpl.
  - intros j f. destruct (decide (id = j)) as [->|Hne].
    + rewrite lookup_insert_eq. by intros [= <-].
    + rewrite lookup_insert_ne by done. intros Hf. eapply entry_wf_mono; [|by eapply wf_entry]. lia.
  - assert (Hold : forall j f, reg_entries r !! j = Some f -> en_sequence f <> en_sequence e).
    { intros j f Hf. destruct (wf_entry r Hwf j f Hf) as (_ & Hlt & _). lia. }
    intros j1 j2 f1 f2. destruct (decide (j1 = id)) as [->|H1], (decide (j2 = id)) as [->|H2];
      rewrite ?lookup_insert_eq, ?lookup_insert_ne by done; [done| | |by apply (wf_unique r Hwf)].
    + intros [= <-] Hf Heq. by destruct (Hold _ _ Hf).
    + intros Hf [= <-] Heq. by destruct (Hold _ _ Hf).
  - intros j Hj. destruct (Hw j Hj) as [Hne Hs]. rewrite lookup_insert_ne by done.
    by apply (wf_withdrawn r Hwf).
  - intros rid i Hi. destruct (Hl rid i Hi) as [[-> Hd]|[Hne Hlk]].
    + exists e. by rewrite lookup_insert_eq.
    + destruct (wf_links r Hwf rid i Hlk) as (f & Hf & Hd). exists f.
      by rewrite lookup_insert_ne.
Qed.

Lemma connect_good now presence r :
  registry_wf r -> (reg_sequence r + 1 < u64_modulus)%N ->
  good_step r (snd (connect now presence r)).
Proof.
  intros Hwf Hseq. unfold connect, next_sequence, connect_locked.
  rewrite wrapping_add_u64_small by done.
  set (e := mkEntry _ _ _). set (r1 := match dp_relay_id presence with Some _ => _ | None => _ end).
  assert (Hr1 : reg_relay_id r1 = reg_relay_id r /\ reg_entries r1 = reg_entries r
                /\ reg_withdrawn r1 = reg_withdrawn r /\ reg_sequence r1 = (reg_sequence r + 1)%N
                /\ reg_changes r1 = reg_changes r
                /\ forall rid i, reg_relay_links r1 !! rid = Some i ->
                     i = dp_device_id presence \/ reg_relay_links r !! rid = Some i).
  { unfold r1. destruct (dp_relay_id presence) as [rid|], (dp_kind presence); simpl;
      repeat split; auto. intros rid' i. destruct (decide (rid = rid')) as [->|];
      rewrite ?lookup_insert_eq, ?lookup_insert_ne by done; [|by right]. intros [= <-]. by left. }
  destruct Hr1 as (Hid & Hen & Hwd & Hsq & Hch & Hlk). simpl.
  split; [|split; [|split]].
  - unfold publish, set_entries, set_withdrawn. simpl. rewrite Hid, Hen.
    apply (wf_insert r); auto.
    + rewrite Hsq. lia.
    + rewrite Hsq. repeat split; simpl; lia.
    + intros i. rewrite Hwd, lookup_delete_is_Some. naive_solver.
    + intros rid i Hi. destruct (decide (i = dp_device_id presence)) as [->|Hne]; [by left|].
      right. split; [done|]. destruct (Hlk rid i Hi); congruence.
  - done.
  - simpl. rewrite Hsq. lia.
  - eexists. split; [simpl; by rewrite Hch|]. unfold offer. simpl. rewrite Hid, Hen.
    by apply transition_insert_replay.
Qed.

Lemma disconnect_locked_Some device_id serial r cs r' :
  disconnect_locked device_id serial r = Some (cs, r') ->
  exists e es,
    reg_entries r !! device_id = Some e /\ en_origin e = Origin_Direct serial
    /\ remove_gone (reg_relay_id r) (device_id :: announced_ids_of (reg_entries r) device_id)
         (reg_entries r) = (cs, es)
    /\ r' = mkRegistry (reg_relay_id r) es
              (filter (fun '(_, i) => i <> device_id) (reg_relay_links r))
              (filter (fun '(_, w) => wd_link_device_id w <> device_id) (reg_withdrawn r))
              (reg_sequence r) (reg_changes r).
Proof.
  unfold disconnect_locked. destruct (reg_entries r !! device_id) as [e|] eqn:Ee; [|done].
  case_bool_decide as Ho; [|done]. cbn -[remove_gone].
  destruct (remove_gone _ _ _) as [cs' es] eqn:Eg. intros [= <- <-]. by exists e, es.
Qed.

Lemma disconnect_locked_None device_id serial r :
  disconnect_locked device_id serial r = None <->
  ~ exists e, reg_entries r !! device_id = Some e /\ en_origin e = Origin_Direct serial.
Proof.
  unfold disconnect_locked. destruct (reg_entries r !! device_id) as [e|].
  - case_bool_decide as Ho; cbn -[remove_gone].
    + destruct (remove_gone _ _ _). split; [done|]. intros Hn. destruct Hn. by exists e.
    + split; [|done]. intros _ (e' & [= <-] & He). done.
  - split; [|done]. intros _ (e' & ? & _). done.
Qed.

(** The entries left after a disconnect: neither the device itself nor anything it announced. *)
Lemma disconnect_entries device_id serial r cs r' :
  disconnect_locked device_id serial r = Some (cs, r') ->
  forall id, reg_entries r' !! id =
    match reg_entries r !! id with
    | Some e => if decide (id = device_id) then None
                else if announced_by device_id e then None else Some e
    | None => None
    end.
Proof.
  intros Hd id. destruct (disconnect_locked_Some _ _ _ _ _ Hd) as (e & es & He & _ & Hg & ->).
  destruct (remove_gone_spec _ _ _ _ _ Hg) as [Hl _]. simpl. rewrite Hl.
  destruct (decide (id = device_id)) as [->|Hne].
  - rewrite decide_True by left. by destruct (reg_entries r !! device_id).
  - destruct (reg_entries r !! id) as [f|] eqn:Ef.
    + destruct (announced_by device_id f) eqn:Ea.
      * rewrite decide_True; [done|]. right. apply elem_of_announced_ids. by exists f.
      * rewrite decide_False; [done|]. rewrite elem_of_cons, elem_of_announced_ids.
        intros [?|(f' & ? & ?)]; [done|]. simplify_eq. congruence.
    + by case_decide.
Qed.

Lemma disconnect_good device_id serial r :
  registry_wf r -> good_step r (snd (disconnect device_id serial r)).
Proof.
  intros Hwf. unfold disconnect.
  destruct (disconnect_locked device_id serial r) as [[cs r']|] eqn:Ed; [|by apply good_step_refl].
  pose proof (disconnect_entries _ _ _ _ _ Ed) as Hent.
  destruct (disconnect_locked_Some _ _ _ _ _ Ed) as (e & es & He & Ho & Hg & ->).
  destruct (remove_gone_spec _ _ _ _ _ Hg) as [_ Hr]. simpl in *.
  assert (Hsub : forall i f, es !! i = Some f -> reg_entries r !! i = Some f).
  { intros i f. rewrite Hent. destruct (reg_entries r !! i); [|done]. repeat case_decide; simpl;
      try done; by destruct (announced_by _ _). }
  split; [split; simpl|split; [done|split; [done|by exists cs]]].
  - intros i f Hf. apply (wf_entry r Hwf). auto.
  - intros i1 i2 f1 f2 H1 H2. apply (wf_unique r Hwf); auto.
  - intros i [w [Hw _]%map_lookup_filter_Some]. rewrite Hent.
    by rewrite (wf_withdrawn r Hwf i) by (by exists w).
  - intros rid i [Hl Hne]%map_lookup_filter_Some. simpl in Hne.
    destruct (wf_links r Hwf rid i Hl) as (f & Hf & Hd). exists f. split; [|done].
    rewrite Hent, Hf. rewrite decide_False by done.
    unfold announced_by. unfold is_direct_origin in Hd. by destruct (en_origin f).
Qed.

(** ** Announcing and withdrawing *)

Lemma announce_locked_Some now seq lid l d r change r' :
  announce_locked now seq lid l d r = Some (change, r') ->
  let e := mkEntry (mkOnlineDevice (ad_id d) (ad_name d) DeviceKind_Desktop now None None
                      (Route_Via l (ad_via d))) (Origin_Announced lid) seq in
  (forall x, reg_entries r !! ad_id d = Some x ->
     replaces (od_route (en_device x)) (en_sequence x) (Route_Via l (ad_via d)) seq = true)
  /\ change = transition (reg_relay_id r) (ad_id d) (reg_entries r !! ad_id d)
                (<[ad_id d := e]> (reg_entries r) !! ad_id d)
  /\ r' = mkRegistry (reg_relay_id r) (<[ad_id d := e]> (reg_entries r)) (reg_relay_links r)
            (delete (ad_id d) (reg_withdrawn r)) (reg_sequence r) (reg_changes r).
Proof.
  unfold announce_locked. destruct (reg_entries r !! ad_id d) as [x|] eqn:Ex; simpl.
  - destruct (replaces _ _ _ _) eqn:Er; [|done]. rewrite Ex. intros [= <- <-].
    split; [|done]. by intros x' [= <-].
  - rewrite Ex. intros [= <- <-]. by split.
Qed.

Lemma announce_good now lid l d r :
  registry_wf r -> (reg_sequence r + 1 < u64_modulus)%N ->
  good_step r (snd (announce_device now lid l d r)).
Proof.
  intros Hwf Hseq. unfold announce_device.
  destruct (is_announcement_routable _ _) eqn:Ert; [|by apply good_step_refl].
  unfold next_sequence. rewrite wrapping_add_u64_small by done. cbn -[announce_locked].
  set (r1 := mkRegistry _ _ _ _ _ _).
  destruct (announce_locked now _ lid l d r1) as [[c r']|] eqn:Ea.
  - destruct (announce_locked_Some _ _ _ _ _ _ _ _ Ea) as (Hrep & Hc & ->).
    unfold r1 in *; simpl in *. split; [|split; [done|split; [simpl; lia|]]].
    + clear r1 Ea. apply (wf_insert r); [done|simpl; lia|done|..].
      * split; [done|]. split; [simpl; lia|]. simpl. split; [done|]. eauto.
      * intros i. simpl. rewrite lookup_delete_is_Some. naive_solver.
      * intros rid i Hi. right. split; [|done]. intros ->.
        destruct (wf_links r Hwf rid _ Hi) as (f & Hf & Hd). specialize (Hrep f Hf).
        destruct (wf_entry r Hwf _ _ Hf) as (_ & _ & Hcase).
        unfold is_direct_origin in Hd. destruct (en_origin f); [|done].
        destruct Hcase as [Hdir _]. by destruct (od_route (en_device f)).
    + exists (option_list c). split; [done|]. rewrite Hc. unfold offer. simpl. by apply transition_insert_replay.
  - split; [|split; [done|split; [simpl; lia|exists []; by rewrite app_nil_r]]].
    split; simpl; [|apply Hwf..]. intros i f Hf. eapply entry_wf_mono; [|by apply (wf_entry r Hwf)]. lia.
Qed.

Lemma withdraw_locked_cases now lid id r :
  (exists e, reg_entries r !! id = Some e /\ announced_by lid e = true
     /\ withdraw_locked now lid id r =
        (transition (reg_relay_id r) id (Some e) None,
         mkRegistry (reg_relay_id r) (delete id (reg_entries r)) (reg_relay_links r)
           (<[id := mkWithdrawnDevice lid (mkKnownDevice (od_name (en_device e)) now)]>
              (reg_withdrawn r)) (reg_sequence r) (reg_changes r)))
  \/ (withdraw_locked now lid id r = (None, r)
      /\ forall e, reg_entries r !! id = Some e -> announced_by lid e = false).
Proof.
  unfold withdraw_locked. destruct (reg_entries r !! id) as [e|]; simpl.
  - destruct (announced_by lid e) eqn:Ea; simpl.
    + left. exists e. done.
    + right. split; [done|]. by intros e' [= <-].
  - by right.
Qed.

Lemma withdraw_good now lid id r :
  registry_wf r -> good_step r (withdraw_device now lid id r).
Proof.
  intros Hwf. unfold withdraw_device.
  destruct (withdraw_locked_cases now lid id r) as [(e & He & Ha & ->)|[-> _]].
  - split; [split; simpl|split; [done|split; [done|]]].
    + intros i f [Hne Hf]%lookup_delete_Some. by apply (wf_entry r Hwf).
    + intros i1 i2 f1 f2 [_ H1]%lookup_delete_Some [_ H2]%lookup_delete_Some.
      by apply (wf_unique r Hwf).
    + intros i. destruct (decide (id = i)) as [->|Hne].
      * intros _. apply lookup_delete_eq.
      * rewrite lookup_insert_ne, lookup_delete_ne by done. apply (wf_withdrawn r Hwf).
    + intros rid i Hi. destruct (wf_links r Hwf rid i Hi) as (f & Hf & Hd). exists f.
      split; [|done]. rewrite lookup_delete_ne; [done|]. intros ->.
      assert (f = e) as -> by congruence. unfold announced_by in Ha. unfold is_direct_origin in Hd.
      by destruct (en_origin e).
    + eexists. split; [simpl; reflexivity|]. unfold offer. simpl. rewrite <- He. apply transition_delete_replay.
  - simpl. split; [|split; [done|split; [done|by exists []]]].
    unfold publish. rewrite app_nil_r. by destruct r.
Qed.

Lemma announce_sequence now lid l d r :
  (reg_sequence r + 1 < u64_modulus)%N ->
  (reg_sequence (snd (announce_device now lid l d r)) <= reg_sequence r + 1)%N.
Proof.
  intros Hs. unfold announce_device, next_sequence. rewrite wrapping_add_u64_small by done.
  destruct (is_announcement_routable _ _); simpl; [|lia].
  destruct (announce_locked _ _ _ _ _ _) as [[c r']|] eqn:Ea; simpl; [|lia].
  destruct (announce_locked_Some _ _ _ _ _ _ _ _ Ea) as (_ & _ & ->). simpl. lia.
Qed.

Lemma install_all_good now lid l devices : forall i r,
  registry_wf r -> (reg_sequence r + N.of_nat (length devices) < u64_modulus)%N ->
  good_step r (snd (install_all now i lid l devices r)).
Proof.
  induction devices as [|d devices IH]; intros i r Hwf Hseq; simpl; [by apply good_step_refl|].
  simpl in Hseq. destruct (ad_online d); simpl; [|apply IH; [done|lia]].
  assert (Hs1 : (reg_sequence r + 1 < u64_modulus)%N) by lia.
  pose proof (announce_good (now i) lid l d r Hwf Hs1) as Hg.
  pose proof (announce_sequence (now i) lid l d r Hs1) as Hq.
  destruct (announce_device (now i) lid l d r) as [accepted r1]. simpl in *.
  specialize (IH (S i) r1 (proj1 Hg) ltac:(lia)).
  destruct (install_all now (S i) lid l devices r1) as [installed r2]. simpl in *.
  by eapply good_step_trans.
Qed.

Lemma withdraw_all_good now lid stale : forall i r,
  registry_wf r -> good_step r (withdraw_all now i lid stale r).
Proof.
  induction stale as [|id stale IH]; intros i r Hwf; simpl; [by apply good_step_refl|].
  pose proof (withdraw_good (now i) lid id r Hwf) as Hg.
  eapply good_step_trans; [exact Hg|]. apply IH, Hg.
Qed.

Lemma apply_good now lid l devices r :
  registry_wf r -> (reg_sequence r + N.of_nat (length devices) < u64_modulus)%N ->
  good_step r (apply_announcement now lid l devices r).
Proof.
  intros Hwf Hseq. unfold apply_announcement.
  pose proof (install_all_good now lid l devices 0 r Hwf Hseq) as Hg.
  destruct (install_all now 0 lid l devices r) as [installed r1]. simpl in Hg.
  eapply good_step_trans; [exact Hg|]. apply withdraw_all_good, Hg.
Qed.

Lemma registry_step_good r r' : registry_wf r -> registry_step r r' -> good_step r r'.
Proof.
  intros Hwf Hstep. destruct Hstep; eauto using connect_good, disconnect_good, announce_good,
    withdraw_good, apply_good.
Qed.

Lemma registry_steps_good r r' : registry_wf r -> rtc registry_step r r' -> good_step r r'.
Proof.
  intros Hwf Hsteps. induction Hsteps as [r|r r1 r2 Hstep _ IH]; [by apply good_step_refl|].
  pose proof (registry_step_good _ _ Hwf Hstep) as Hg.
  eapply good_step_trans; [exact Hg|]. apply IH, Hg.
Qed.

Lemma new_wf relay_id : registry_wf (new relay_id).
Proof. by split; simpl; intros; rewrite ?lookup_empty in *; try destruct H. Qed.

Lemma reachable_good relay_id r : reachable relay_id r -> good_step (new relay_id) r.
Proof. apply registry_steps_good, new_wf. Qed.

End steps.

(** ** Whose tunnel a route names *)

Section named.
Context `{!Protocol}.

(** A device with a tunnel of its own is reached over that tunnel, an announced one over the tunnel of
    the device that announced it. *)
Definition link_named (id : string) (e : Entry) : Prop :=
  th_device_id (link (od_route (en_device e)))
  = match en_origin e with
    | Origin_Direct _ => id
    | Origin_Announced link_device_id => link_device_id
    end.

Definition well_named (r : Registry) : Prop :=
  forall id e, reg_entries r !! id = Some e -> link_named id e.

Lemma well_named_fewer r r' :
  (forall id e, reg_entries r' !! id = Some e -> reg_entries r !! id = Some e) ->
  well_named r -> well_named r'.
Proof. intros Hsub Hr id e He. by apply Hr, Hsub. Qed.

Lemma connect_named now presence r :
  th_device_id (dp_handle presence) = dp_device_id presence -> well_named r ->
  well_named (snd (connect now presence r)).
Proof.
  intros Hh Hr. unfold connect, next_sequence, connect_locked.
  destruct (dp_relay_id presence), (dp_kind presence); cbn;
    intros id e; cbn; (intros [[<- <-]|[_ He]]%lookup_insert_Some; [exact Hh|by apply Hr]).
Qed.

Lemma disconnect_named device_id serial r : well_named r -> well_named (snd (disconnect device_id serial r)).
Proof.
  unfold disconnect. destruct (disconnect_locked device_id serial r) as [[cs r']|] eqn:Ed; [|done].
  apply well_named_fewer. cbn. intros id e. rewrite (disconnect_entries _ _ _ _ _ Ed).
  destruct (reg_entries r !! id); [|done]. case_decide; [done|]. by destruct (announced_by _ _).
Qed.

Lemma announce_named now l d r : well_named r -> well_named (snd (announce_device now (th_device_id l) l d r)).
Proof.
  intros Hr. unfold announce_device. destruct (negb _); [done|]. cbn -[announce_locked].
  destruct (announce_locked _ _ _ _ _ _) as [[c r']|] eqn:Ea; [|exact Hr].
  apply announce_locked_Some in Ea as (_ & _ & ->).
  intros id e. cbn. intros [[<- <-]|[_ He]]%lookup_insert_Some; [done|by apply Hr].
Qed.

Lemma withdraw_named now lid id r : well_named r -> well_named (withdraw_device now lid id r).
Proof.
  unfold withdraw_device. destruct (withdraw_locked_cases now lid id r) as [(e & _ & _ & ->)|[-> _]];
    apply well_named_fewer; cbn; [|done]. by intros i f [_ Hf]%lookup_delete_Some.
Qed.

Lemma apply_named now l devices r : well_named r -> well_named (apply_announcement now (th_device_id l) l devices r).
Proof.
  intros Hr. unfold apply_announcement.
  assert (Hi : forall devices i r, well_named r -> well_named (snd (install_all now i (th_device_id l) l devices r))).
  { clear. induction devices as [|d devices IH]; intros i r Hr; [done|]. cbn [install_all].
    destruct (negb _); [by apply IH|]. pose proof (announce_named (now i) l d r Hr) as Ha.
    destruct (announce_device _ _ _ _ _) as [accepted r1]. specialize (IH (S i) r1 Ha).
    by destruct (install_all _ _ _ _ _ _). }
  specialize (Hi devices 0 r Hr). destruct (install_all _ _ _ _ _ _) as [installed r1]. cbn in Hi.
  generalize (length devices). generalize (List.filter (fun id => negb (bool_decide (id ∈ installed)))
    (announced_ids_of (reg_entries r) (th_device_id l))). intros stale. revert r1 Hi.
  induction stale as [|id stale IH]; intros r1 Hr1 n; [done|]. apply IH. by apply withdraw_named.
Qed.

Lemma new_named relay_id : well_named (new relay_id).
Proof. by intros id e. Qed.

End named.
