(* ===== verification/Overlap.v ===== *)
(** * Calls into the routing table that overlap ([src/registry.rs])

    An operation changes the table under the mutex and publishes its changes after the mutex is free, so
    the publications of two calls may come in another order than their effects.  [Overlap] is the table
    with calls in flight; a step is one critical section, one number drawn before it, or one change sent
    after it. *)

From S2P Require Import Prelude.
From S2P Require Import RustStr.
From S2P Require Import Protocol.
From S2P Require Import Handle.
From S2P Require Import Registry.
From S2P Require Import RegistryProofs.

(** ** The changes that name one device *)

Definition about (id : string) (changes : list RegistryChange) : list RegistryChange :=
  List.filter (fun change => String.eqb (change_id change) id) changes.

(** A device that stays on offer never moves behind a longer chain. *)
Definition no_longer (previous current : option AnnouncedDevice) : Prop :=
  match previous, current with
  | Some d, Some d' => length (ad_via d') <= length (ad_via d)
  | _, _ => True
  end.

(** The changes that name [id], from a subscriber that believes [offered] about it. *)
Fixpoint settles (id : string) (offered : option AnnouncedDevice) (changes : list RegistryChange) : Prop :=
  match changes with
  | [] => True
  | change :: rest =>
      if decide (change_id change = id)
      then no_longer offered (change_value change) /\ settles id (change_value change) rest
      else settles id offered rest
  end.

Lemma about_app id l1 l2 : about id (l1 ++ l2) = about id l1 ++ about id l2.
Proof. apply List.filter_app. Qed.

Lemma about_cons id c l : about id (c :: l) = if decide (change_id c = id) then c :: about id l else about id l.
Proof.
  unfold about. cbn. case_decide as Hc; [by rewrite (proj2 (String.eqb_eq _ _))|].
  by rewrite (proj2 (String.eqb_neq _ _)).
Qed.

Lemma about_In id c l : c ∈ about id l <-> c ∈ l /\ change_id c = id.
Proof. unfold about. by rewrite elem_of_filter_b, String.eqb_eq. Qed.

Lemma about_perm id l1 l2 : l1 ≡ₚ l2 -> about id l1 ≡ₚ about id l2.
Proof.
  intros Hp. induction Hp as [|c l1 l2 _ IH|c d l|l1 l2 l3 _ IH1 _ IH2]; [done| | |by etrans].
  - rewrite !about_cons. case_decide; [by constructor|done].
  - rewrite !about_cons. repeat case_decide; try done. constructor.
Qed.

(** What a subscriber believes about a device depends on the changes that name it. *)
Lemma replay_about id l : forall view, replay l view !! id = replay (about id l) view !! id.
Proof.
  induction l as [|c l IH]; intros view; [done|]. rewrite about_cons.
  change (replay (c :: l) view) with (replay l (apply_change view c)). rewrite IH. case_decide as Hc; [done|].
  destruct (replay_cases (about id l) id) as [[o Ho]|Hv]; [by rewrite !Ho|].
  rewrite !Hv, apply_change_lookup. by rewrite decide_False.
Qed.

Lemma settles_about id l : forall offered, settles id offered l <-> settles id offered (about id l).
Proof.
  induction l as [|c l IH]; intros offered; [done|]. rewrite about_cons. cbn [settles].
  case_decide as Hc; [|apply IH]. cbn [settles]. rewrite decide_True by done. by rewrite IH.
Qed.

Lemma settles_app id l1 l2 view :
  settles id (view !! id) (l1 ++ l2)
  <-> settles id (view !! id) l1 /\ settles id (replay l1 view !! id) l2.
Proof.
  revert view. induction l1 as [|c l1 IH]; intros view; cbn [app settles]; [by split; [|intros []]|].
  cbn [replay foldl]. specialize (IH (apply_change view c)). rewrite apply_change_lookup in IH.
  case_decide; rewrite IH; tauto.
Qed.

Lemma settles_offline id offered changes :
  (forall c, c ∈ changes -> change_value c = None) -> settles id offered changes.
Proof.
  revert offered. induction changes as [|c changes IH]; intros offered Hall; [done|]. cbn [settles].
  assert (Hc : change_value c = None) by (apply Hall; by left). rewrite Hc.
  case_decide; [split; [by destruct offered|]|]; apply IH; intros c' Hin; apply Hall; by right.
Qed.

(** ** The steps *)

Section overlap.
Context `{Protocol}.

(** The table; what took effect on it, in that order; and what each call in flight has yet to publish. *)
Record Overlap : Type := mkOverlap {
  ov_table : Registry;
  ov_effects : list RegistryChange;
  ov_pending : list (list RegistryChange);
}.

(** No call is in flight, and what took effect was published in that order. *)
Definition quiet (r : Registry) : Overlap := mkOverlap r (reg_changes r) [].

(** A critical section that leaves [r] and has [changes] to publish. *)
Definition locked (changes : list RegistryChange) (r : Registry) (o : Overlap) : Overlap :=
  mkOverlap r (ov_effects o ++ changes) (ov_pending o ++ [changes]).

Inductive overlap_step (o : Overlap) : Overlap -> Prop :=
| overlap_draw : overlap_step o (mkOverlap (snd (next_sequence (ov_table o))) (ov_effects o) (ov_pending o))
| overlap_connect now serial presence registration change r :
    connect_locked now serial presence (ov_table o) = (registration, change, r) ->
    overlap_step o (locked (option_list change) r o)
| overlap_disconnect device_id serial changes r :
    disconnect_locked device_id serial (ov_table o) = Some (changes, r) -> overlap_step o (locked changes r o)
| overlap_announce now sequence link_device_id l device change r :
    is_announcement_routable (reg_relay_id (ov_table o)) (ad_via device) = true ->
    announce_locked now sequence link_device_id l device (ov_table o) = Some (change, r) ->
    overlap_step o (locked (option_list change) r o)
| overlap_withdraw now link_device_id device_id change r :
    withdraw_locked now link_device_id device_id (ov_table o) = (change, r) ->
    overlap_step o (locked (option_list change) r o)
(* one of the calls in flight sends its next change, or returns *)
| overlap_publish before change rest after :
    ov_pending o = before ++ (change :: rest) :: after ->
    overlap_step o (mkOverlap (publish [change] (ov_table o)) (ov_effects o) (before ++ rest :: after))
| overlap_return before after :
    ov_pending o = before ++ [] :: after ->
    overlap_step o (mkOverlap (ov_table o) (ov_effects o) (before ++ after)).

Abbreviation overlapping := (rtc overlap_step).

(** ** What every step keeps *)

Definition keyed (r : Registry) : Prop :=
  forall id e, reg_entries r !! id = Some e -> od_device_id (en_device e) = id.

Lemma registry_keyed r : registry_wf r -> keyed r.
Proof. intros Hwf id e He. apply (wf_entry r Hwf id e He). Qed.

Lemma elem_of_announcements r d :
  keyed r -> d ∈ announcements r <-> offer r !! ad_id d = Some d.
Proof.
  intros Hwf. unfold announcements, offer. rewrite offer_of_lookup, list_elem_of_omap. split.
  - intros ([id e] & He%elem_of_map_to_list & Ha). pose proof (announcement_of_id _ _ _ Ha) as Hid.
    by rewrite Hid, (Hwf id e He), He.
  - destruct (reg_entries r !! ad_id d) as [e|] eqn:He; [|done]. intros Ha.
    exists (ad_id d, e). split; [by apply elem_of_map_to_list|done].
Qed.

Lemma announcements_NoDup r : keyed r -> NoDup (ad_id <$> announcements r).
Proof.
  intros Hwf. unfold announcements. pose proof (NoDup_fst_map_to_list (reg_entries r)) as Hnd.
  assert (Hall : forall id e, (id, e) ∈ map_to_list (reg_entries r) -> od_device_id (en_device e) = id).
  { intros id e He%elem_of_map_to_list. by apply Hwf. }
  revert Hnd Hall. generalize (map_to_list (reg_entries r)) as l.
  induction l as [|[id e] l IH]; intros Hnd Hall; csimpl; [constructor|].
  apply NoDup_cons in Hnd as [Hnin Hnd].
  assert (IH' : NoDup (ad_id <$> omap (fun '(_, entry) => announcement_of (reg_relay_id r) entry) l)).
  { apply IH; [done|]. intros. apply Hall. by right. }
  destruct (announcement_of (reg_relay_id r) e) as [a|] eqn:Ea; csimpl; [|done].
  constructor; [|done]. rewrite (announcement_of_id _ _ _ Ea), (Hall id e) by left.
  intros (d & Hd & ([id' e'] & Hin & Ha)%list_elem_of_omap)%list_elem_of_fmap.
  apply Hnin. rewrite (announcement_of_id _ _ _ Ha), (Hall id' e') in Hd by (by right).
  subst. apply list_elem_of_fmap. by exists (id', e').
Qed.

(** What the critical sections owe: the changes take a subscriber from the old offer to the new one, and
    no device that stays on offer moves behind a longer chain. *)
Record owed (r : Registry) (changes : list RegistryChange) (r' : Registry) : Prop := {
  ow_keyed : keyed r';
  ow_relay_id : reg_relay_id r' = reg_relay_id r;
  ow_published : reg_changes r' = reg_changes r;
  ow_replay : replay changes (offer r) = offer r';
  ow_settles : forall id, settles id (offer r !! id) changes;
}.

(** The change one id makes. *)
Lemma transition_settles relay_id id (entries : gmap string Entry) current j :
  (forall e, current = Some e -> od_device_id (en_device e) = id) ->
  no_longer (entries !! id ≫= announcement_of relay_id) (current ≫= announcement_of relay_id) ->
  settles j (offer_of relay_id entries !! j) (option_list (transition relay_id id (entries !! id) current)).
Proof.
  intros Hid Hlen. rewrite offer_of_lookup. unfold transition.
  destruct (current ≫= announcement_of relay_id) as [a|] eqn:Ec.
  - destruct current as [e|]; [|done]. cbn in Ec.
    pose proof (announcement_of_id _ _ _ Ec) as Ha. rewrite (Hid e eq_refl) in Ha.
    cbn. case_decide as Hj; [|done]. rewrite Ha in Hj. by subst j.
  - destruct (entries !! id ≫= announcement_of relay_id); [|done]. cbn. case_decide; [|done].
    by destruct (entries !! j ≫= _).
Qed.

Lemma transition_gone relay_id id previous c :
  c ∈ option_list (transition relay_id id previous None) -> change_value c = None.
Proof.
  unfold transition. cbn. destruct (previous ≫= _); cbn; [|by intros ?%not_elem_of_nil].
  by intros ->%list_elem_of_singleton.
Qed.

Lemma remove_gone_offline relay_id gone : forall entries changes entries' c,
  remove_gone relay_id gone entries = (changes, entries') -> c ∈ changes -> change_value c = None.
Proof.
  induction gone as [|g gone IH]; intros entries changes entries' c; cbn [remove_gone].
  - by intros [= <- _] ?%not_elem_of_nil.
  - destruct (entries !! g) as [e|]; [|apply IH].
    destruct (remove_gone relay_id gone (delete g entries)) as [cs es] eqn:Er.
    intros [= <- _] [Hin|Hin]%elem_of_app; [by eapply transition_gone|by eapply IH].
Qed.

(** A direct route is the shortest there is. *)
Lemma no_longer_direct relay_id previous e :
  is_direct (od_route (en_device e)) = true ->
  no_longer (previous ≫= announcement_of relay_id) (announcement_of relay_id e).
Proof.
  intros Hd. unfold announcement_of at 2. destruct (_ && _); [by destruct (previous ≫= _)|].
  destruct previous as [x|]; [|done]. cbn. unfold announcement_of. destruct (_ && _); [done|].
  destruct (od_route (en_device e)); [|done]. cbn. lia.
Qed.

Lemma keyed_insert r id e links withdrawn seq changes :
  keyed r -> od_device_id (en_device e) = id ->
  keyed (mkRegistry (reg_relay_id r) (<[id := e]> (reg_entries r)) links withdrawn seq changes).
Proof. intros Hk He i f. cbn. intros [[<- <-]|[_ Hf]]%lookup_insert_Some; [done|by apply Hk]. Qed.

Lemma connect_owed now serial presence registration change r r' :
  keyed r -> connect_locked now serial presence r = (registration, change, r') -> owed r (option_list change) r'.
Proof.
  intros Hk Hrun. unfold connect_locked in Hrun. cbv zeta in Hrun.
  set (r1 := match dp_relay_id presence with Some _ => _ | None => _ end) in Hrun.
  assert (Hr1 : reg_relay_id r1 = reg_relay_id r /\ reg_entries r1 = reg_entries r /\ reg_changes r1 = reg_changes r).
  { subst r1. by destruct (dp_relay_id presence), (dp_kind presence). }
  clearbody r1. destruct Hr1 as (Hi & He & Hc). cbn -[transition] in Hrun. injection Hrun as _ <- <-.
  unfold set_entries, set_withdrawn. cbn -[transition]. rewrite Hi, He, Hc.
  split; cbn -[transition]; [by apply keyed_insert|done..|by apply transition_insert_replay|].
  intros id. rewrite lookup_insert_eq. apply transition_settles; [by intros e [= <-]|by apply no_longer_direct].
Qed.

Lemma disconnect_owed device_id serial changes r r' :
  keyed r -> disconnect_locked device_id serial r = Some (changes, r') -> owed r changes r'.
Proof.
  intros Hk Hrun. pose proof (disconnect_entries _ _ _ _ _ Hrun) as Hent.
  apply disconnect_locked_Some in Hrun as (e & es & _ & _ & Hgone & ->).
  destruct (remove_gone_spec _ _ _ _ _ Hgone) as [_ Hr]. split; cbn; [|done..|].
  - intros id f Hf. apply Hk. cbn in Hf, Hent. rewrite Hent in Hf.
    destruct (reg_entries r !! id); [|done]. case_decide; [done|]. by destruct (announced_by _ _).
  - intros id. apply settles_offline. intros c. by eapply remove_gone_offline.
Qed.

Lemma replaces_no_longer existing seq candidate seq' :
  replaces existing seq candidate seq' = true -> hop_count candidate <= hop_count existing.
Proof.
  destruct existing; [done|]. cbn. intros [?%Nat.ltb_lt|[?%Nat.eqb_eq _]%andb_true_iff]%orb_true_iff; cbn in *; lia.
Qed.

Lemma announce_owed now sequence lid l d change r r' :
  keyed r -> announce_locked now sequence lid l d r = Some (change, r') -> owed r (option_list change) r'.
Proof.
  intros Hk Hrun. apply announce_locked_Some in Hrun as (Hrep & -> & ->). cbn -[transition] in *.
  split; cbn -[transition]; [by apply keyed_insert|done..|by apply transition_insert_replay|].
  intros id. rewrite lookup_insert_eq. apply transition_settles; [by intros e [= <-]|]. cbn.
  destruct (reg_entries r !! ad_id d) as [x|]; [|done].
  specialize (Hrep x eq_refl). apply replaces_no_longer in Hrep. cbn in Hrep |- *.
  unfold announcement_of, hop_count in *. rewrite andb_false_r. destruct (_ && is_direct _); [done|]. cbn in *. lia.
Qed.

Lemma withdraw_owed now lid id change r r' :
  keyed r -> withdraw_locked now lid id r = (change, r') -> owed r (option_list change) r'.
Proof.
  intros Hk Hrun. destruct (withdraw_locked_cases now lid id r) as [(e & He & _ & Hw)|[Hw _]];
    rewrite Hw in Hrun; injection Hrun as <- <-; [|by split].
  split; cbn -[transition]; [|done..| |].
  - intros i f. cbn. intros [_ Hf]%lookup_delete_Some. by apply Hk.
  - unfold offer. cbn -[transition]. rewrite <- He. apply transition_delete_replay.
  - intros i. apply settles_offline. intros c. apply transition_gone.
Qed.

(** The invariant: what took effect accounts for the table, and has been published or is about to be. *)
Record accounted (o : Overlap) : Prop := {
  ac_keyed : keyed (ov_table o);
  ac_offer : replay (ov_effects o) ∅ = offer (ov_table o);
  ac_settles : forall id, settles id None (ov_effects o);
  ac_published : reg_changes (ov_table o) ++ concat (ov_pending o) ≡ₚ ov_effects o;
}.

(** From one state to a later one. *)
Record later (o o' : Overlap) : Prop := {
  la_relay_id : reg_relay_id (ov_table o') = reg_relay_id (ov_table o);
  la_effects : exists more, ov_effects o' = ov_effects o ++ more;
  la_published : exists more, reg_changes (ov_table o') = reg_changes (ov_table o) ++ more;
}.

#[export] Instance later_preorder : PreOrder later.
Proof.
  split.
  - intros o. split; [done|exists []; by rewrite app_nil_r..].
  - intros o1 o2 o3 [Hi [e1 He1] [p1 Hp1]] [Hi' [e2 He2] [p2 Hp2]].
    split; [congruence|exists (e1 ++ e2); by rewrite He2, He1, app_assoc|exists (p1 ++ p2); by rewrite Hp2, Hp1, app_assoc].
Qed.

Lemma quiet_new relay_id : accounted (quiet (new relay_id)).
Proof.
  split; cbn; [| |done|done].
  { intros id e He. cbn in He. by rewrite lookup_empty in He. }
  unfold offer, offer_of. cbn. by rewrite omap_empty.
Qed.

Lemma locked_accounted o changes r :
  accounted o -> owed (ov_table o) changes r -> accounted (locked changes r o) /\ later o (locked changes r o).
Proof.
  intros [Hk Ho Hs Hp] [Hk' Hi Hc Hr Hset]. split; split; cbn [ov_table ov_effects ov_pending locked]; try done.
  - by rewrite replay_app, Ho.
  - intros id. rewrite <- (lookup_empty (M := gmap string) id). apply settles_app.
    split; [rewrite lookup_empty; apply Hs|]. rewrite Ho. apply Hset.
  - rewrite Hc, concat_app. cbn. rewrite app_nil_r, app_assoc. by rewrite Hp.
  - by eexists.
  - exists []. by rewrite app_nil_r.
Qed.

Lemma overlap_step_accounted o o' : accounted o -> overlap_step o o' -> accounted o' /\ later o o'.
Proof.
  intros Hok Hstep. destruct Hstep as [|now serial presence registration change r Hrun|device_id serial changes r Hrun
    |now sequence lid l device change r _ Hrun|now lid device_id change r Hrun|before change rest after Hp|before after Hp].
  2-5: apply locked_accounted; [done|]; eauto using connect_owed, disconnect_owed, announce_owed, withdraw_owed, ac_keyed.
  - destruct Hok. split; [by split|]. split; cbn; [done|exists []; by rewrite app_nil_r..].
  - destruct Hok as [Hk Ho Hs Hpub]. rewrite Hp, concat_app in Hpub. split; split; cbn [ov_table ov_effects ov_pending locked]; try done.
    + rewrite <- Hpub, concat_app. cbn. rewrite <- !app_assoc. apply Permutation_app_head. cbn. by rewrite Permutation_middle.
    + exists []. by rewrite app_nil_r.
    + by eexists.
  - destruct Hok as [Hk Ho Hs Hpub]. rewrite Hp, concat_app in Hpub. split; split; cbn [ov_table ov_effects ov_pending locked]; try done.
    + by rewrite concat_app.
    + exists []. by rewrite app_nil_r.
    + exists []. by rewrite app_nil_r.
Qed.

Lemma overlapping_accounted o o' : accounted o -> overlapping o o' -> accounted o' /\ later o o'.
Proof.
  intros Hok Hsteps. induction Hsteps as [o|o o1 o2 Hstep _ IH]; [done|].
  destruct (overlap_step_accounted _ _ Hok Hstep) as [Hok1 Hl]. destruct (IH Hok1) as [Hok2 Hl'].
  split; [done|by etrans].
Qed.

(** A device whose changes were published in the order they took effect. *)
Definition in_order (id : string) (o : Overlap) : Prop :=
  about id (reg_changes (ov_table o)) = about id (ov_effects o).

Lemma in_order_known id o :
  accounted o -> in_order id o -> replay (reg_changes (ov_table o)) ∅ !! id = offer (ov_table o) !! id.
Proof. intros Hok Hin. by rewrite replay_about, Hin, <- replay_about, (ac_offer _ Hok). Qed.

(** What is published of a device at any time is the beginning of what happens to it. *)
Lemma in_order_before id o o' :
  accounted o -> later o o' -> in_order id o' ->
  exists known, about id (ov_effects o) = about id (reg_changes (ov_table o)) ++ known.
Proof.
  intros Hok [_ [e He] [p Hp]] Hin. unfold in_order in Hin. rewrite Hp, He, !about_app in Hin.
  assert (Hlen : length (about id (reg_changes (ov_table o))) <= length (about id (ov_effects o))).
  { rewrite <- (Permutation_length (about_perm id _ _ (ac_published _ Hok))), about_app, length_app. lia. }
  apply app_eq_inv in Hin as [(k & Ha & _)|(k & Hf & _)]; [|by exists k].
  exists []. rewrite app_nil_r, Ha in *. rewrite length_app in Hlen. destruct k; [by rewrite app_nil_r|cbn in Hlen; lia].
Qed.

(** ** Calls that do not overlap *)

(** A critical section and its publication, with nothing in between. *)
Lemma publish_all changes : forall r effects,
  overlapping (mkOverlap r effects [changes]) (mkOverlap (publish changes r) effects []).
Proof.
  induction changes as [|c changes IH]; intros r effects.
  - eapply rtc_l; [by apply (overlap_return _ [] [])|].
    replace (publish [] r) with r by (unfold publish; rewrite app_nil_r; by destruct r). apply rtc_refl.
  - eapply rtc_l; [by apply (overlap_publish _ [] c changes [])|]. cbn.
    etrans; [apply IH|]. unfold publish. cbn. rewrite <- app_assoc. apply rtc_refl.
Qed.

Lemma call_alone r changes r' :
  reg_changes r' = reg_changes r ->
  overlap_step (quiet r) (locked changes r' (quiet r)) -> overlapping (quiet r) (quiet (publish changes r')).
Proof.
  intros Hc Hstep. eapply rtc_l; [exact Hstep|]. unfold quiet, locked. cbn.
  etrans; [apply publish_all|]. rewrite Hc. apply rtc_refl.
Qed.

Lemma draw_alone r : overlap_step (quiet r) (quiet (snd (next_sequence r))).
Proof. apply (overlap_draw (quiet r)). Qed.

Lemma announce_alone now lid l d r : overlapping (quiet r) (quiet (snd (announce_device now lid l d r))).
Proof.
  unfold announce_device. destruct (is_announcement_routable _ _) eqn:Er; [|apply rtc_refl]. cbn [negb].
  destruct (next_sequence r) as [sequence r1] eqn:En. eapply rtc_l; [apply draw_alone|].
  assert (Hid : reg_relay_id r1 = reg_relay_id r) by (unfold next_sequence in En; by injection En as _ <-).
  rewrite En. cbn [snd]. destruct (announce_locked now sequence lid l d r1) as [[change r2]|] eqn:Ea; [|apply rtc_refl].
  cbn [snd]. apply (call_alone r1).
  - by apply announce_locked_Some in Ea as (_ & _ & ->).
  - eapply (overlap_announce (quiet r1)); [cbn; by rewrite Hid|exact Ea].
Qed.

Lemma withdraw_alone now lid id r : overlapping (quiet r) (quiet (withdraw_device now lid id r)).
Proof.
  unfold withdraw_device. destruct (withdraw_locked now lid id r) as [change r'] eqn:Ew. apply (call_alone r).
  - destruct (withdraw_locked_cases now lid id r) as [(e & _ & _ & Hw)|[Hw _]]; rewrite Hw in Ew; by injection Ew as _ <-.
  - by eapply (overlap_withdraw (quiet r)).
Qed.

Lemma install_alone now lid l devices : forall i r,
  overlapping (quiet r) (quiet (snd (install_all now i lid l devices r))).
Proof.
  induction devices as [|d devices IH]; intros i r; cbn [install_all]; [apply rtc_refl|].
  destruct (negb (ad_online d)); [apply IH|].
  pose proof (announce_alone (now i) lid l d r) as Ha.
  destruct (announce_device (now i) lid l d r) as [accepted r1]. specialize (IH (S i) r1).
  destruct (install_all now (S i) lid l devices r1) as [installed r2]. by etrans.
Qed.

Lemma withdraw_all_alone now lid stale : forall i r, overlapping (quiet r) (quiet (withdraw_all now i lid stale r)).
Proof.
  induction stale as [|id stale IH]; intros i r; cbn [withdraw_all]; [apply rtc_refl|].
  etrans; [apply withdraw_alone|apply IH].
Qed.

Lemma registry_step_alone r r' : registry_step r r' -> overlapping (quiet r) (quiet r').
Proof.
  destruct 1 as [now presence r _|device_id serial r|now lid l device r _|now lid device_id r|now lid l devices r _].
  - unfold connect. destruct (next_sequence r) as [serial r1] eqn:En.
    eapply rtc_l; [apply draw_alone|]. rewrite En. cbn [snd].
    destruct (connect_locked now serial presence r1) as [[registration change] r2] eqn:Ec. cbn [snd].
    apply (call_alone r1); [|by eapply (overlap_connect (quiet r1))].
    revert Ec. unfold connect_locked. destruct (dp_relay_id presence), (dp_kind presence); by intros [= _ _ <-].
  - unfold disconnect. destruct (disconnect_locked device_id serial r) as [[changes r']|] eqn:Ed; [|apply rtc_refl].
    apply (call_alone r); [|by eapply (overlap_disconnect (quiet r))].
    by apply disconnect_locked_Some in Ed as (e & es & _ & _ & _ & ->).
  - apply announce_alone.
  - apply withdraw_alone.
  - unfold apply_announcement. pose proof (install_alone now lid l devices 0 r) as Hi.
    destruct (install_all now 0 lid l devices r) as [installed r1]. etrans; [exact Hi|apply withdraw_all_alone].
Qed.

Lemma calls_alone r r' : rtc registry_step r r' -> overlapping (quiet r) (quiet r').
Proof.
  induction 1 as [r|r r1 r2 Hstep _ IH]; [apply rtc_refl|]. etrans; [by apply registry_step_alone|done].
Qed.

End overlap.

Abbreviation overlapping := (rtc overlap_step).
