(* ===== verification/RegistryTheorems.v ===== *)
(** * What the routing table guarantees *)

From S2P Require Import Prelude.
From S2P Require Import RustStr.
From S2P Require Import Protocol.
From S2P Require Import Handle.
From S2P Require Import Registry.
From S2P Require Import RegistryProofs.
From S2P Require Import Overlap.

(** ** Concrete tables for the witnesses *)

Section samples.

Definition sample_presence (device_id : string) (kind : DeviceKind) (relay_id : option string)
    (channel : nat) : DirectPresence :=
  mkDirectPresence device_id ("name of " +:+ device_id) kind relay_id (Some "203.0.113.5")
    (Some "0.9.0") (mkTunnelHandle device_id channel).

Definition sample_announced (id : string) (via : list string) : AnnouncedDevice :=
  mkAnnouncedDevice id ("name of " +:+ id) true via.

Definition sample_link : TunnelHandle := mkTunnelHandle "relay-link" 1.

(** A relay with one downstream link that announced one device. *)
Definition sample_table : Registry :=
  apply_announcement (fun _ => 2000%Z) "relay-link" sample_link
    [sample_announced "device-b" ["relay-b"]]
    (snd (connect 1000 (sample_presence "relay-link" DeviceKind_Relay (Some "relay-b") 1)
            (new "relay-a"))).

End samples.

Lemma sample_table_reachable : reachable "relay-a" sample_table.
Proof.
  eapply rtc_l; [apply step_connect; vm_compute; reflexivity|].
  apply rtc_once. apply step_apply. vm_compute. reflexivity.
Qed.

Section theorems.
Context `{Protocol}.

(** ** Helper lemmas *)

Lemma announced_by_true lid e : announced_by lid e = true <-> en_origin e = Origin_Announced lid.
Proof.
  unfold announced_by. destruct (en_origin e) as [|owner]; [by split|].
  rewrite String.eqb_eq. split; congruence.
Qed.

(** The verdict on an announcement, from the table it meets. *)
Definition announcement_wins (r : Registry) (device : AnnouncedDevice) : bool :=
  is_announcement_routable (reg_relay_id r) (ad_via device)
  && match reg_entries r !! ad_id device with
     | None => true
     | Some e =>
         negb (is_direct (od_route (en_device e)))
         && (length (ad_via device) <=? hop_count (od_route (en_device e)))
     end.

Lemma replaces_older existing seq candidate seq' :
  (seq < seq')%N ->
  replaces existing seq candidate seq'
  = negb (is_direct existing) && (hop_count candidate <=? hop_count existing).
Proof.
  intros Hs. destruct existing as [h|l h]; [done|]. simpl.
  replace (seq <? seq')%N with true by (symmetry; by apply N.ltb_lt).
  rewrite andb_true_r. destruct (Nat.ltb_spec (hop_count candidate) (hop_count (Route_Via l h))),
    (Nat.eqb_spec (hop_count candidate) (hop_count (Route_Via l h))),
    (Nat.leb_spec (hop_count candidate) (hop_count (Route_Via l h))); simpl; auto; lia.
Qed.

Lemma announce_device_cases now lid l d r :
  registry_wf r ->
  (announcement_wins r d = true
   /\ exists r', announce_device now lid l d r = (true, r')
      /\ reg_entries r' = <[ad_id d :=
           mkEntry (mkOnlineDevice (ad_id d) (ad_name d) DeviceKind_Desktop now None None
                      (Route_Via l (ad_via d))) (Origin_Announced lid) (reg_sequence r)]> (reg_entries r)
      /\ reg_relay_id r' = reg_relay_id r)
  \/ (announcement_wins r d = false
      /\ exists r', announce_device now lid l d r = (false, r')
         /\ reg_entries r' = reg_entries r /\ reg_relay_id r' = reg_relay_id r).
Proof.
  intros Hwf. unfold announcement_wins, announce_device.
  destruct (is_announcement_routable _ _) eqn:Ert; simpl; [|right; split; [done|]; by eexists].
  unfold announce_locked. simpl. destruct (reg_entries r !! ad_id d) as [e|] eqn:Ee; simpl.
  - destruct (wf_entry r Hwf _ _ Ee) as (_ & Hlt & _).
    rewrite (replaces_older _ _ _ _ Hlt). unfold hop_count at 1 3. simpl.
    destruct (_ && _) eqn:Ew; simpl.
    + left. split; [done|]. by eexists.
    + right. split; [done|]. by eexists.
  - left. split; [done|]. by eexists.
Qed.

(** Does a chain win against the route its device has? *)
Definition chain_wins (relay_id : string) (current : option Route) (via : list string) : bool :=
  is_announcement_routable relay_id via
  && match current with
     | Some existing => negb (is_direct existing) && (length via <=? hop_count existing)
     | None => true
     end.

(** The device of a snapshot that ends up routed under [id], if any, where it names every device once. *)
Definition snapshot_winner (r : Registry) (devices : list AnnouncedDevice) (id : string)
    : option AnnouncedDevice :=
  List.find (fun d => String.eqb (ad_id d) id && ad_online d && announcement_wins r d) devices.

(** One id's turns in a snapshot: the devices of the snapshot come one after the other, each against the
    route the id has by then, and the answer is the last of them that won. *)
Fixpoint last_winner (relay_id : string) (l : TunnelHandle) (id : string) (devices : list AnnouncedDevice)
    (current : option Route) : option AnnouncedDevice :=
  match devices with
  | [] => None
  | d :: rest =>
      if String.eqb (ad_id d) id && ad_online d && chain_wins relay_id current (ad_via d) then
        Some (default d (last_winner relay_id l id rest (Some (Route_Via l (ad_via d)))))
      else last_winner relay_id l id rest current
  end.

Lemma announcement_wins_chain r d :
  announcement_wins r d = chain_wins (reg_relay_id r) (route r (ad_id d)) (ad_via d).
Proof. unfold announcement_wins, chain_wins, route. by destruct (reg_entries r !! ad_id d). Qed.

(** Where every device of the snapshot is named once, its one turn is against the table as it was. *)
Lemma last_winner_alone l r id devices :
  NoDup (ad_id <$> devices) ->
  last_winner (reg_relay_id r) l id devices (route r id) = snapshot_winner r devices id.
Proof.
  intros Hnd. assert (Hnone : forall ds c, id ∉ (ad_id <$> ds) -> last_winner (reg_relay_id r) l id ds c = None).
  { induction ds as [|d ds IH]; intros c Hn; [done|]. rewrite fmap_cons, not_elem_of_cons in Hn. simpl.
    destruct Hn as [Hne Hn]. destruct (String.eqb_spec (ad_id d) id); [by subst|]. by apply IH. }
  induction devices as [|d devices IH]; [done|]. rewrite fmap_cons in Hnd. apply NoDup_cons in Hnd as [Hn Hnd].
  unfold snapshot_winner in *. simpl. destruct (String.eqb_spec (ad_id d) id) as [<-|Hne]; simpl; [|by apply IH].
  rewrite announcement_wins_chain, Hnone by done. destruct (ad_online d); simpl; [|by apply IH].
  destruct (chain_wins _ _ _); [done|by apply IH].
Qed.

Lemma install_all_spec now lid l devices : forall i r installed r',
  registry_wf r -> (reg_sequence r + N.of_nat (length devices) < u64_modulus)%N ->
  install_all now i lid l devices r = (installed, r') ->
  reg_relay_id r' = reg_relay_id r
  /\ forall id, match last_winner (reg_relay_id r) l id devices (route r id) with
       | Some d => id ∈ installed /\ exists e, reg_entries r' !! id = Some e
                     /\ od_route (en_device e) = Route_Via l (ad_via d)
                     /\ en_origin e = Origin_Announced lid
       | None => id ∉ installed /\ reg_entries r' !! id = reg_entries r !! id
       end.
Proof.
  induction devices as [|d devices IH]; intros i r installed r' Hwf Hseq.
  { intros [= <- <-]. split; [done|]. intros id. simpl. by split; [apply not_elem_of_nil|]. }
  simpl in Hseq. cbn [install_all].
  destruct (ad_online d) eqn:Eo; cbn [negb].
  - assert (Hs1 : (reg_sequence r + 1 < u64_modulus)%N) by lia.
    pose proof (announce_good (now i) lid l d r Hwf Hs1) as (Hwf1 & Hid1 & _ & _).
    pose proof (announce_sequence (now i) lid l d r Hs1) as Hq.
    pose proof (announce_device_cases (now i) lid l d r Hwf) as Hcases.
    rewrite announcement_wins_chain in Hcases.
    destruct (announce_device (now i) lid l d r) as [accepted r1]. simpl in *.
    destruct (install_all now (S i) lid l devices r1) as [installed1 r2] eqn:Ei.
    destruct (IH (S i) r1 installed1 r2 Hwf1 ltac:(lia) Ei) as [Hid2 Hspec].
    intros [= <- <-]. split; [congruence|]. intros id. specialize (Hspec id). rewrite Hid1 in Hspec.
    rewrite Eo, andb_true_r. unfold route in *.
    destruct Hcases as [[Hw (r1' & [= -> ->] & He & _)]|[Hw (r1' & [= -> ->] & He & _)]];
      rewrite He in Hspec; (destruct (String.eqb_spec (ad_id d) id) as [<-|Hne]; simpl;
        [rewrite Hw; simpl|]); auto.
    + rewrite lookup_insert_eq in Hspec. simpl in Hspec.
      destruct (last_winner _ _ _ devices _) as [w|]; simpl; destruct Hspec as [Hin Hent];
        (split; [rewrite elem_of_cons; tauto|]); [done|]. rewrite Hent. by eexists.
    + rewrite lookup_insert_ne in Hspec by done.
      destruct (last_winner _ _ _ devices _); rewrite elem_of_cons; naive_solver.
  - intros Ei. destruct (IH (S i) r installed r' Hwf ltac:(lia) Ei) as [Hid Hspec].
    split; [done|]. intros id. specialize (Hspec id). cbn [last_winner]. by rewrite Eo, andb_false_r.
Qed.

Lemma withdraw_device_entries now lid id r j :
  reg_entries (withdraw_device now lid id r) !! j =
  if decide (j = id) then
    match reg_entries r !! j with
    | Some e => if announced_by lid e then None else Some e
    | None => None
    end
  else reg_entries r !! j.
Proof.
  unfold withdraw_device. destruct (withdraw_locked_cases now lid id r) as [(e & He & Ha & ->)|[-> Hn]];
    simpl; case_decide as Hj; subst.
  - by rewrite lookup_delete_eq, He, Ha.
  - by rewrite lookup_delete_ne by congruence.
  - destruct (reg_entries r !! id) as [e|] eqn:Ee; [|done]. by rewrite (Hn e).
  - done.
Qed.

Lemma withdraw_all_entries now lid stale : forall i r j,
  reg_entries (withdraw_all now i lid stale r) !! j =
  if decide (j ∈ stale) then
    match reg_entries r !! j with
    | Some e => if announced_by lid e then None else Some e
    | None => None
    end
  else reg_entries r !! j.
Proof.
  induction stale as [|id stale IH]; intros i r j; cbn [withdraw_all].
  - by rewrite decide_False by apply not_elem_of_nil.
  - rewrite IH, withdraw_device_entries. destruct (decide (j = id)) as [->|Hne].
    + assert (Hin : id ∈ id :: stale) by left. rewrite (decide_True _ _ Hin). clear Hin.
      destruct (reg_entries r !! id) as [e|]; [|by case_decide].
      destruct (announced_by lid e) eqn:Ea; case_decide; auto. by rewrite Ea.
    + destruct (decide (j ∈ stale)) as [Hin|Hin].
      * rewrite decide_True; [done|]. by right.
      * rewrite decide_False; [done|]. rewrite elem_of_cons. naive_solver.
Qed.

(** What a snapshot leaves in the table under one id. *)
Lemma apply_announcement_turns now lid l devices r id :
  registry_wf r -> (reg_sequence r + N.of_nat (length devices) < u64_modulus)%N ->
  match last_winner (reg_relay_id r) l id devices (route r id) with
  | Some d => exists e, reg_entries (apply_announcement now lid l devices r) !! id = Some e
                /\ od_route (en_device e) = Route_Via l (ad_via d)
                /\ en_origin e = Origin_Announced lid
  | None => reg_entries (apply_announcement now lid l devices r) !! id =
      match reg_entries r !! id with
      | Some e => if announced_by lid e then None else Some e
      | None => None
      end
  end.
Proof.
  intros Hwf Hseq. unfold apply_announcement.
  destruct (install_all now 0 lid l devices r) as [installed r1] eqn:Ei.
  destruct (install_all_spec _ _ _ _ _ _ _ _ Hwf Hseq Ei) as [_ Hspec].
  specialize (Hspec id). rewrite withdraw_all_entries.
  set (stale := List.filter _ _).
  assert (Hstale : id ∈ stale <-> id ∉ installed
     /\ exists e, reg_entries r !! id = Some e /\ announced_by lid e = true).
  { unfold stale. rewrite list_elem_of_In, List.filter_In, <- list_elem_of_In, elem_of_announced_ids.
    rewrite negb_true_iff, bool_decide_eq_false. tauto. }
  destruct (last_winner _ _ _ _ _) as [d|].
  - destruct Hspec as [Hin He]. rewrite decide_False; [done|]. rewrite Hstale. tauto.
  - destruct Hspec as [Hnin He]. rewrite He. case_decide as Hs; [done|].
    destruct (reg_entries r !! id) as [e|] eqn:Ee; [|done].
    destruct (announced_by lid e) eqn:Ea; [|done]. exfalso. apply Hs, Hstale. eauto.
Qed.

(** The same, of a snapshot that names every device once. *)
Lemma apply_announcement_entries now lid l devices r id :
  registry_wf r -> (reg_sequence r + N.of_nat (length devices) < u64_modulus)%N ->
  NoDup (ad_id <$> devices) ->
  match snapshot_winner r devices id with
  | Some d => exists e, reg_entries (apply_announcement now lid l devices r) !! id = Some e
                /\ od_route (en_device e) = Route_Via l (ad_via d)
                /\ en_origin e = Origin_Announced lid
  | None => reg_entries (apply_announcement now lid l devices r) !! id =
      match reg_entries r !! id with
      | Some e => if announced_by lid e then None else Some e
      | None => None
      end
  end.
Proof. intros Hwf Hseq Hnd. rewrite <- (last_winner_alone l) by done. by apply apply_announcement_turns. Qed.

End theorems.

(** ** The theorems *)

Section registry_theorems.
Context `{Protocol}.

(** In every table the relay can reach by any sequence of tunnels coming up and going down,
    announcements, withdrawals and snapshots: each entry sits under its own device id, a direct
    entry routes directly and carries its serial, an announced one is a desktop whose chain fits the
    hop budget and does not contain this relay, no two entries share a sequence number, a remembered
    withdrawn device is never also routed, and every relay id resolves to a live direct link. *)
Theorem registry_invariant (relay_id : string) (r : Registry) :
  reachable relay_id r -> registry_wf r /\ reg_relay_id r = relay_id.
Proof. intros Hr. destruct (reachable_good _ _ Hr) as (Hwf & Hid & _). done. Qed.

(** C6: a subscriber that replays every published change knows, device by device, what the table offers.
    Calls may overlap in any way: nothing that took effect is lost or published twice, and once the changes
    of a device have all been published in the order they took effect, the stream offers the device exactly
    as the table does, and the announcement snapshot lists it exactly then, once.  Changes that overlapping
    calls publish in another order are the exception ([publication_can_be_overtaken] is one); calls that do
    not overlap never do, so after such calls the stream and the table agree on every device. *)
Theorem changes_refine_table (relay_id : string) :
  (forall o, overlapping (quiet (new relay_id)) o ->
     NoDup (ad_id <$> announcements (ov_table o))
     /\ reg_changes (ov_table o) ++ concat (ov_pending o) ≡ₚ ov_effects o
     /\ forall d, about (ad_id d) (reg_changes (ov_table o)) = about (ad_id d) (ov_effects o) ->
          (d ∈ announcements (ov_table o) <-> replay (reg_changes (ov_table o)) ∅ !! ad_id d = Some d))
  /\ (forall r, reachable relay_id r ->
         overlapping (quiet (new relay_id)) (quiet r)
         /\ forall d, d ∈ announcements r <-> replay (reg_changes r) ∅ !! ad_id d = Some d).
Proof.
  assert (Hall : forall o, overlapping (quiet (new relay_id)) o -> accounted o).
  { intros o Hsteps. by eapply overlapping_accounted; [apply quiet_new|]. }
  assert (Hknown : forall o d, accounted o -> in_order (ad_id d) o ->
    (d ∈ announcements (ov_table o) <-> replay (reg_changes (ov_table o)) ∅ !! ad_id d = Some d)).
  { intros o d Hok Hin. rewrite (in_order_known _ _ Hok Hin). apply elem_of_announcements, Hok. }
  split.
  - intros o Hok%Hall. split; [apply announcements_NoDup, Hok|]. split; [apply Hok|]. intros d. by apply Hknown.
  - intros r Hr%calls_alone. split; [done|]. intros d. by apply (Hknown (quiet r)); [apply Hall|].
Qed.

(** An upstream link that subscribes first and takes its snapshot later — so that it sees some
    changes both in the snapshot and in the stream — still ends up with exactly the table: replaying
    the stream since the subscription over the later snapshot loses nothing and resurrects nothing. *)
Theorem subscribe_then_snapshot (r0 r1 r2 : Registry) (stream : list RegistryChange) :
  registry_wf r0 -> rtc registry_step r0 r1 -> rtc registry_step r1 r2 ->
  reg_changes r2 = reg_changes r0 ++ stream ->
  replay stream (offer r1) = offer r2.
Proof.
  intros Hwf H01 H12 Hstream.
  destruct (registry_steps_good _ _ Hwf H01) as (Hwf1 & _ & _ & d1 & Hc1 & Hr1).
  destruct (registry_steps_good _ _ Hwf1 H12) as (_ & _ & _ & d2 & Hc2 & Hr2).
  rewrite Hc2, Hc1, <- app_assoc in Hstream. apply app_inv_head in Hstream. subst stream.
  by rewrite replay_app, <- Hr1, replay_idem, Hr1.
Qed.

(** A disconnect takes effect exactly when its serial is the registered one; it then removes the
    device, everything that device announced, and nothing else, and forgets what it had withdrawn.
    Any other serial leaves the table untouched. *)
Theorem disconnect_effect (device_id : string) (serial : N) (r : Registry) :
  if decide (en_origin <$> reg_entries r !! device_id = Some (Origin_Direct serial))
  then fst (disconnect device_id serial r) = true
       /\ (forall id, route (snd (disconnect device_id serial r)) id =
             match reg_entries r !! id with
             | Some e => if decide (id = device_id \/ en_origin e = Origin_Announced device_id)
                         then None else route r id
             | None => None
             end)
       /\ (forall id k, last_known (snd (disconnect device_id serial r)) id = Some k ->
             exists w, reg_withdrawn r !! id = Some w /\ wd_link_device_id w <> device_id
                       /\ wd_device w = k)
  else disconnect device_id serial r = (false, r).
Proof.
  case_decide as Hex; unfold disconnect.
  - destruct (disconnect_locked device_id serial r) as [[cs r']|] eqn:Ed;
      [|by apply disconnect_locked_None in Ed; destruct Ed; apply fmap_Some in Hex as (e & ? & ?); eauto].
    split; [done|]. split.
    + intros id. unfold route. simpl. rewrite (disconnect_entries _ _ _ _ _ Ed).
      destruct (reg_entries r !! id) as [e|] eqn:Ee; [|done].
      pose proof (announced_by_true device_id e) as Ha.
      destruct (announced_by device_id e); repeat case_decide; naive_solver.
    + destruct (disconnect_locked_Some _ _ _ _ _ Ed) as (e & es & _ & _ & _ & ->).
      intros id k. unfold last_known. simpl. rewrite fmap_Some.
      intros (w & [Hw Hne]%map_lookup_filter_Some & ->). by exists w.
  - rewrite (proj2 (disconnect_locked_None device_id serial r)); [done|].
    intros (e & He & Ho). apply Hex. by rewrite He, <- Ho.
Qed.

(** C8: a tunnel that reconnects cannot be evicted by the clean-up of any earlier connection: once
    [connect] has registered the new serial, disconnecting under every other serial that was ever
    handed out is refused, whichever device it belonged to, and the new route stays. *)
Theorem reconnect_survives_stale_cleanup (now : Z) (presence : DirectPresence) (r : Registry)
    (old : N) :
  registry_wf r -> (old < reg_sequence r)%N ->
  let r' := snd (connect now presence r) in
  disconnect (dp_device_id presence) old r' = (false, r')
  /\ route r' (dp_device_id presence) = Some (Route_Direct (dp_handle presence)).
Proof.
  intros Hwf Hold r'.
  assert (He : exists e, reg_entries r' !! dp_device_id presence = Some e
     /\ en_origin e = Origin_Direct (reg_sequence r)
     /\ od_route (en_device e) = Route_Direct (dp_handle presence)).
  { unfold r', connect, connect_locked, next_sequence. simpl.
    destruct (dp_relay_id presence), (dp_kind presence); simpl; rewrite lookup_insert_eq; by eexists. }
  destruct He as (e & He & Ho & Hr). split.
  - unfold disconnect. rewrite (proj2 (disconnect_locked_None _ old r')); [done|].
    intros (e' & He' & Ho'). simplify_eq. rewrite Ho in Ho'. simplify_eq. lia.
  - unfold route. by rewrite He, <- Hr.
Qed.

(** The verdict on one announcement.  It is accepted exactly when its chain is routable and the
    device is unknown or reached through an announced route that is not shorter; then the device
    routes over the announcing link with the announced chain.  A refused announcement changes no
    route, and no announcement changes the route of another device. *)
Theorem announce_device_verdict (now : Z) (link_device_id : string) (l : TunnelHandle)
    (device : AnnouncedDevice) (r : Registry) :
  registry_wf r ->
  let '(accepted, r') := announce_device now link_device_id l device r in
  accepted = announcement_wins r device
  /\ (forall id, route r' id =
        if accepted && String.eqb id (ad_id device) then Some (Route_Via l (ad_via device))
        else route r id).
Proof.
  intros Hwf. destruct (announce_device_cases now link_device_id l device r Hwf)
    as [[Hw (r' & -> & He & _)]|[Hw (r' & -> & He & _)]]; split; auto; intros id; unfold route;
    rewrite He; simpl; [|done].
  destruct (String.eqb_spec id (ad_id device)) as [->|Hne].
  - by rewrite lookup_insert_eq.
  - by rewrite lookup_insert_ne.
Qed.

(** C9: what a snapshot makes of the route of each device, whatever else is in it, the same device twice
    included.  Every device the snapshot lists as online has its turn, in the order of the snapshot: its chain
    wins when it is routable and the device, by then, has no route or one that is neither direct nor shorter.
    The device ends up routed over the link with the last chain that won, or, when none did, has lost the
    route if it was this link's and keeps it exactly as it was if it was not.  (No other call takes the table's
    lock in between, and the 64-bit sequence counter does not wrap.) *)
Theorem snapshot_effect (now : nat -> Z) (link_device_id : string) (l : TunnelHandle)
    (devices : list AnnouncedDevice) (r : Registry) (id : string) :
  registry_wf r -> (reg_sequence r + N.of_nat (length devices) < u64_modulus)%N ->
  route (apply_announcement now link_device_id l devices r) id =
  match last_winner (reg_relay_id r) l id devices (route r id) with
  | Some d => Some (Route_Via l (ad_via d))
  | None =>
      match reg_entries r !! id with
      | Some e => if announced_by link_device_id e then None else Some (od_route (en_device e))
      | None => None
      end
  end.
Proof.
  intros Hwf Hseq. pose proof (apply_announcement_turns now link_device_id l devices r id Hwf Hseq) as He.
  destruct (last_winner _ _ _ _ _) as [d|].
  - destruct He as (e & He & Hr & _). unfold route at 1. rewrite He. simpl. by rewrite Hr.
  - unfold route. rewrite He. destruct (reg_entries r !! id) as [e|]; [|done]. by destruct (announced_by _ _).
Qed.

(** A device that is in two consecutive snapshots of its own link, the second time behind a
    longer chain, is withdrawn instead of rerouted: the relay drops the route although the link has
    just announced the device as reachable. *)
Theorem longer_chain_is_withdrawn (now : nat -> Z) (link_device_id : string) (l : TunnelHandle)
    (device : AnnouncedDevice) (r : Registry) (e : Entry) :
  registry_wf r -> (reg_sequence r + 1 < u64_modulus)%N ->
  ad_online device = true ->
  is_announcement_routable (reg_relay_id r) (ad_via device) = true ->
  reg_entries r !! ad_id device = Some e ->
  en_origin e = Origin_Announced link_device_id ->
  hop_count (od_route (en_device e)) < length (ad_via device) ->
  route (apply_announcement now link_device_id l [device] r) (ad_id device) = None.
Proof.
  intros Hwf Hseq Hon Hrt He Ho Hlen. unfold route.
  pose proof (apply_announcement_entries now link_device_id l [device] r (ad_id device) Hwf) as Ha.
  specialize (Ha ltac:(simpl; lia) ltac:(apply NoDup_singleton)).
  unfold snapshot_winner in Ha. simpl in Ha. rewrite String.eqb_refl, Hon in Ha.
  unfold announcement_wins in Ha. rewrite Hrt, He in Ha. simpl in Ha.
  replace (length (ad_via device) <=? hop_count (od_route (en_device e))) with false in Ha
    by (symmetry; apply Nat.leb_gt; lia).
  rewrite andb_false_r in Ha. rewrite Ha, (proj2 (announced_by_true link_device_id e) Ho). done.
Qed.

(** Publication is not ordered with the table.  One link withdraws a device and, before it has
    published that, another link announces the same device: the table ends up routing the device,
    and a subscriber that applied every published change believes it is offline. *)
Theorem publication_can_be_overtaken (now : Z) (link1 link2 : string) (l : TunnelHandle)
    (device : AnnouncedDevice) (r : Registry) (e : Entry) :
  registry_wf r -> replay (reg_changes r) ∅ = offer r ->
  (reg_sequence r + 1 < u64_modulus)%N ->
  reg_entries r !! ad_id device = Some e -> en_origin e = Origin_Announced link1 ->
  is_announcement_routable (reg_relay_id r) (ad_via device) = true ->
  let '(pending, r1) := withdraw_locked now link1 (ad_id device) r in
  let '(_, r2) := announce_device now link2 l device r1 in
  let r3 := publish (option_list pending) r2 in
  route r3 (ad_id device) = Some (Route_Via l (ad_via device))
  /\ replay (reg_changes r3) ∅ !! ad_id device = None.
Proof.
  intros Hwf Hrep Hseq He Ho Hrt.
  pose proof (withdraw_good now link1 (ad_id device) r Hwf) as Hwg.
  unfold withdraw_device in Hwg.
  destruct (withdraw_locked_cases now link1 (ad_id device) r) as [(e' & He' & Ha & Hw)|[_ Hn]];
    [|specialize (Hn e He); apply (announced_by_true link1 e) in Ho; congruence].
  assert (e' = e) as -> by congruence. rewrite Hw in Hwg |- *.
  set (r1 := mkRegistry _ _ _ _ _ _) in *.
  assert (Hwf1 : registry_wf r1).
  { destruct Hwg as ([H1 H2 H3 H4] & _). split; [exact H1|exact H2|exact H3|exact H4]. }
  destruct (announce_device_cases now link2 l device r1 Hwf1) as [[_ (r2 & -> & He2 & Hi2)]|[Hl _]].
  - split.
    + unfold route. simpl. by rewrite He2, lookup_insert_eq.
    + simpl. rewrite replay_app. unfold transition. simpl.
      destruct (wf_entry r Hwf _ _ He) as (Hk & _ & Hcase). rewrite Ho in Hcase.
      destruct Hcase as (Hkind & l' & h & Hr & _).
      unfold announcement_of. rewrite Hkind. simpl. apply lookup_delete_eq.
  - exfalso. unfold announcement_wins in Hl. simpl in Hl. rewrite Hrt, lookup_delete_eq in Hl. done.
Qed.

End registry_theorems.

(** ** Witnesses *)

Lemma registry_invariant_witness : registry_wf sample_table /\ reg_relay_id sample_table = "relay-a".
Proof. apply (registry_invariant "relay-a" sample_table). apply sample_table_reachable. Defined.

(** Two tunnels that come up at once: the second one's call publishes first. *)
Definition sample_overlap : Overlap :=
  let first := snd (connect_locked 1000 0 (sample_presence "device-a" DeviceKind_Desktop None 1) (new "relay-a")) in
  let both := snd (connect_locked 1000 1 (sample_presence "device-b" DeviceKind_Desktop None 2) first) in
  let online id := RegistryChange_Online (sample_announced id ["relay-a"]) in
  mkOverlap (publish [online "device-a"] (publish [online "device-b"] both))
    [online "device-a"; online "device-b"] [[]; []].

Lemma sample_overlap_reached : overlapping (quiet (new "relay-a")) sample_overlap.
Proof.
  eapply rtc_l; [by eapply (overlap_connect _ 1000 0 (sample_presence "device-a" DeviceKind_Desktop None 1))|].
  eapply rtc_l; [by eapply (overlap_connect _ 1000 1 (sample_presence "device-b" DeviceKind_Desktop None 2))|].
  eapply rtc_l; [by eapply (overlap_publish _ [[_]])|]. cbn.
  eapply rtc_l; [by eapply (overlap_publish _ [])|]. apply rtc_refl.
Qed.

Lemma changes_refine_table_witness :
  replay (reg_changes (ov_table sample_overlap)) ∅ !! "device-a" = Some (sample_announced "device-a" ["relay-a"])
  /\ replay (reg_changes sample_table) ∅ !! "device-b"
     = Some (mkAnnouncedDevice "device-b" "name of device-b" true ["relay-a"; "relay-b"]).
Proof.
  destruct (changes_refine_table "relay-a") as [Hoverlap Halone]. split.
  - destruct (Hoverlap _ sample_overlap_reached) as (_ & _ & Hknown).
    apply (Hknown (sample_announced "device-a" ["relay-a"])); [reflexivity|].
    refine (bool_decide_unpack _ _); vm_compute; exact I.
  - destruct (Halone _ sample_table_reachable) as [_ Hknown].
    apply (Hknown (mkAnnouncedDevice "device-b" "name of device-b" true ["relay-a"; "relay-b"])).
    refine (bool_decide_unpack _ _); vm_compute; exact I.
Defined.

Lemma subscribe_then_snapshot_witness :
  replay (reg_changes sample_table) (offer sample_table) = offer sample_table.
Proof.
  apply (subscribe_then_snapshot (new "relay-a") sample_table sample_table).
  - apply new_wf.
  - apply sample_table_reachable.
  - apply rtc_refl.
  - reflexivity.
Defined.

Lemma reconnect_witness :
  let r := sample_table in
  let r' := snd (connect 3000 (sample_presence "relay-link" DeviceKind_Relay (Some "relay-b") 2) r) in
  (0 < reg_sequence r)%N /\ disconnect "relay-link" 0 r' = (false, r')
  /\ route r' "relay-link" = Some (Route_Direct (mkTunnelHandle "relay-link" 2)).
Proof.
  split; [by vm_compute|].
  apply (reconnect_survives_stale_cleanup 3000
           (sample_presence "relay-link" DeviceKind_Relay (Some "relay-b") 2) sample_table 0).
  - apply (reachable_good "relay-a"). apply sample_table_reachable.
  - by vm_compute.
Defined.

Lemma announce_device_verdict_witness :
  let '(accepted, r') := announce_device 3000 "relay-link" sample_link
                           (sample_announced "device-c" ["relay-b"; "relay-c"]) sample_table in
  accepted = announcement_wins sample_table (sample_announced "device-c" ["relay-b"; "relay-c"])
  /\ (forall id, route r' id =
        if accepted && String.eqb id "device-c"
        then Some (Route_Via sample_link ["relay-b"; "relay-c"]) else route sample_table id).
Proof.
  apply (announce_device_verdict 3000 "relay-link" sample_link
           (sample_announced "device-c" ["relay-b"; "relay-c"]) sample_table).
  apply (reachable_good "relay-a"). apply sample_table_reachable.
Defined.

(** A snapshot that names one device twice: both chains would win against the table, the first one shorter. *)
Lemma snapshot_effect_witness :
  let snapshot := [sample_announced "device-c" ["relay-b"; "relay-d"]; sample_announced "device-c" ["relay-b"];
                   sample_announced "device-c" ["relay-b"; "relay-e"]] in
  route (apply_announcement (fun _ => 3000%Z) "relay-link" sample_link snapshot sample_table) "device-c"
  = Some (Route_Via sample_link ["relay-b"]).
Proof.
  cbv zeta. rewrite (snapshot_effect (fun _ => 3000%Z) "relay-link" sample_link).
  - vm_compute. reflexivity.
  - apply (reachable_good "relay-a"). apply sample_table_reachable.
  - vm_compute. reflexivity.
Defined.

Lemma longer_chain_witness :
  route (apply_announcement (fun _ => 3000%Z) "relay-link" sample_link
           [sample_announced "device-b" ["relay-b"; "relay-c"]] sample_table) "device-b" = None.
Proof.
  eapply (longer_chain_is_withdrawn (fun _ => 3000%Z) "relay-link" sample_link
            (sample_announced "device-b" ["relay-b"; "relay-c"]) sample_table).
  - apply (reachable_good "relay-a"). apply sample_table_reachable.
  - vm_compute. reflexivity.
  - reflexivity.
  - vm_compute. reflexivity.
  - vm_compute. reflexivity.
  - reflexivity.
  - vm_compute. lia.
Defined.

Lemma publication_witness :
  let '(pending, r1) := withdraw_locked 3000 "relay-link" "device-b" sample_table in
  let '(_, r2) := announce_device 3000 "relay-other" (mkTunnelHandle "relay-other" 7)
                    (sample_announced "device-b" ["relay-d"]) r1 in
  let r3 := publish (option_list pending) r2 in
  route r3 "device-b" = Some (Route_Via (mkTunnelHandle "relay-other" 7) ["relay-d"])
  /\ replay (reg_changes r3) ∅ !! "device-b" = None.
Proof.
  eapply (publication_can_be_overtaken 3000 "relay-link" "relay-other"
            (mkTunnelHandle "relay-other" 7) (sample_announced "device-b" ["relay-d"]) sample_table).
  - apply (reachable_good "relay-a"). apply sample_table_reachable.
  - vm_compute. reflexivity.
  - vm_compute. reflexivity.
  - vm_compute. reflexivity.
  - reflexivity.
  - vm_compute. reflexivity.
Defined.
