(* ===== verification/Config.v ===== *)
(** * [src/config.rs]: configuration values and how they are parsed

    Command-line text is turned into plain values once; the parsers and the accessors of the parsed
    values are modelled, [clap]'s own argument handling is not. *)

From S2P Require Import Prelude.
From S2P Require Import RustStr.

(** ** Platform services that are not code of this repository *)

(** An [IpAddr] is represented by its canonical [Display] text.  [ip_parse] is [str::parse::<IpAddr>]
    followed by that text, [ip_net_contains] is [IpNet::contains] of the crate [ipnet], and
    [unicode_lowercase] is the Unicode case table for strings that are not ASCII. *)
Class Platform : Type := {
  ip_parse : string -> option string;
  ip_net_contains : string -> string -> bool;
  unicode_lowercase : string -> string;
  (* [chars().flat_map(char::to_lowercase)], for a string that is not ASCII *)
  unicode_chars_lowercase : string -> string;
}.

Record SocketAddr : Type := mkSocketAddr {
  sa_ip : string;
  (* u16 *)
  sa_port : Z;
}.

Definition is_unspecified (ip : string) : bool :=
  bool_decide (ip = "0.0.0.0") || bool_decide (ip = "::").

(** [SocketAddr]'s [Display]: an IPv6 address is bracketed. *)
Definition socket_addr_to_string (a : SocketAddr) : string :=
  if contains_char (sa_ip a) colon
  then "[" +:+ sa_ip a +:+ "]:" +:+ pretty (sa_port a)
  else sa_ip a +:+ ":" +:+ pretty (sa_port a).

(** ** Constants *)

Definition DEFAULT_LISTEN_ADDRESS : string := "0.0.0.0:8443".
Definition DEFAULT_DATA_DIRECTORY : string := "relay-data".
Definition DEFAULT_ADMIN_USERNAME : string := "admin".
Definition SELF_SIGNED_MODE : string := "self-signed".
Definition DISABLED_MODE : string := "off".
Definition CERTIFICATE_MODE_PREFIX : string := "cert:".
Definition CERTIFICATE_PATH_SEPARATOR : ascii := comma.
Definition HTTPS_SCHEME : string := "https://".
Definition HTTP_SCHEME : string := "http://".
Definition MAX_HOST_LABEL_LENGTH : nat := 63.
Definition HOST_LABEL_SEPARATOR : ascii := dot.

(** ** Errors *)

Inductive ConfigError : Type :=
| ConfigError_UnknownTlsMode (value : string)
| ConfigError_MalformedCertificateMode
| ConfigError_UnsupportedScheme
| ConfigError_MissingHost
| ConfigError_UnexpectedPath (path : string)
| ConfigError_InvalidSubdomainBase (value : string).

(** The sentences of the [#[error]] attributes. *)
Definition ConfigError_to_string (error : ConfigError) : string :=
  match error with
  | ConfigError_UnknownTlsMode value =>
      "TLS 模式无法识别：" +:+ value +:+ "。可用值为 self-signed、cert:<证书>,<私钥> 或 off。"
  | ConfigError_MalformedCertificateMode => "cert: 模式需要写成 cert:<证书路径>,<私钥路径>。"
  | ConfigError_UnsupportedScheme => "公开地址必须以 http:// 或 https:// 开头。"
  | ConfigError_MissingHost => "公开地址缺少主机名。"
  | ConfigError_UnexpectedPath path => "公开地址不能带路径、查询串或片段：" +:+ path
  | ConfigError_InvalidSubdomainBase value =>
      "子域名基础域名只能是主机名，例如 relay.example.com，不能带协议、端口或路径：" +:+ value
  end.

#[export] Instance ConfigError_eq_dec : EqDecision ConfigError.
Proof. solve_decision. Defined.

(** ** TLS mode *)

Inductive TlsMode : Type :=
| TlsMode_SelfSigned
| TlsMode_Certificate (chain key : string)
| TlsMode_Disabled.

Definition TlsMode_is_secure (mode : TlsMode) : bool :=
  match mode with
  | TlsMode_Disabled => false
  | _ => true
  end.

Definition TlsMode_from_str (value : string) : result ConfigError TlsMode :=
  if String.eqb value SELF_SIGNED_MODE then Ok TlsMode_SelfSigned
  else if String.eqb value DISABLED_MODE then Ok TlsMode_Disabled
  else
    paths ← ok_or (ConfigError_UnknownTlsMode value) (strip_prefix CERTIFICATE_MODE_PREFIX value);
    '(chain, key) ← ok_or ConfigError_MalformedCertificateMode
                      (split_once CERTIFICATE_PATH_SEPARATOR paths);
    if is_empty chain || is_empty key then Err ConfigError_MalformedCertificateMode
    else Ok (TlsMode_Certificate chain key).

(** The spelling a mode is written in. *)
Definition TlsMode_to_str (mode : TlsMode) : string :=
  match mode with
  | TlsMode_SelfSigned => SELF_SIGNED_MODE
  | TlsMode_Disabled => DISABLED_MODE
  | TlsMode_Certificate chain key =>
      CERTIFICATE_MODE_PREFIX +:+ chain +:+ String CERTIFICATE_PATH_SEPARATOR key
  end.

(** ** Public URL *)

Record PublicUrl : Type := mkPublicUrl {
  pu_origin : string;
  pu_host : string;
  pu_secure : bool;
}.

#[export] Instance PublicUrl_eq_dec : EqDecision PublicUrl.
Proof. solve_decision. Defined.

(** A host without its port; shared by [PublicUrl::host_name] and nothing else. *)
Definition host_name (u : PublicUrl) : string :=
  match rsplit_once colon (pu_host u) with
  | Some (name, _) => if ends_with (pu_host u) "]" then pu_host u else name
  | None => pu_host u
  end.

(** [&self.host[self.host_name().len()..]]. *)
Definition port_suffix (u : PublicUrl) : string :=
  String.substring (str_len (host_name u)) (str_len (pu_host u) - str_len (host_name u)) (pu_host u).

Definition from_listen_address (listen : SocketAddr) (secure : bool) : PublicUrl :=
  let scheme := if secure then HTTPS_SCHEME else HTTP_SCHEME in
  let host :=
    if is_unspecified (sa_ip listen) then "localhost:" +:+ pretty (sa_port listen)
    else socket_addr_to_string listen in
  mkPublicUrl (scheme +:+ host) host secure.

(** [rest[index..]] for the first of [/], [?], [#]. *)
Fixpoint from_first_delimiter (s : string) : option string :=
  match s with
  | EmptyString => None
  | String c s' =>
      if Ascii.eqb c slash || Ascii.eqb c "?" || Ascii.eqb c "#" then Some s
      else from_first_delimiter s'
  end.

Definition PublicUrl_from_str (value : string) : result ConfigError PublicUrl :=
  let trimmed := trim value in
  '(secure, rest) ←
     match strip_prefix HTTPS_SCHEME trimmed, strip_prefix HTTP_SCHEME trimmed with
     | Some rest, _ => Ok (true, rest)
     | None, Some rest => Ok (false, rest)
     | _, _ => Err ConfigError_UnsupportedScheme
     end;
  let rest := trim_end_char slash rest in
  match from_first_delimiter rest with
  | Some path => Err (ConfigError_UnexpectedPath path)
  | None =>
      if is_empty rest then Err ConfigError_MissingHost
      else
        let scheme := if (secure : bool) then HTTPS_SCHEME else HTTP_SCHEME in
        Ok (mkPublicUrl (scheme +:+ rest) rest secure)
  end.

(** ** Subdomain base *)

Record SubdomainBase : Type := mkSubdomainBase { sb_host : string }.

Definition wildcard_name (base : SubdomainBase) : string := "*." +:+ sb_host base.

Definition label_of (base : SubdomainBase) (host : string) : option string :=
  rest ← strip_suffix (sb_host base) host;
  label ← strip_suffix (String HOST_LABEL_SEPARATOR EmptyString) rest;
  if negb (is_empty label) && negb (contains_char label HOST_LABEL_SEPARATOR)
  then Some label else None.

Definition is_label_byte (c : ascii) : bool := is_ascii_alphanumeric c || Ascii.eqb c dash.

Definition is_host_label (label : string) : bool :=
  negb (is_empty label)
  && (str_len label <=? MAX_HOST_LABEL_LENGTH)
  && negb (starts_with label "-")
  && negb (ends_with label "-")
  && str_all is_label_byte label.

Section platform.
Context `{Platform}.

Definition SubdomainBase_from_str (value : string) : result ConfigError SubdomainBase :=
  let normalized :=
    to_lowercase unicode_lowercase (trim_matches_char HOST_LABEL_SEPARATOR (trim value)) in
  let malformed :=
    is_empty normalized
    || negb (contains_char normalized HOST_LABEL_SEPARATOR)
    || existsb (fun label => negb (is_host_label label)) (split HOST_LABEL_SEPARATOR normalized) in
  if malformed then Err (ConfigError_InvalidSubdomainBase (trim value))
  else Ok (mkSubdomainBase normalized).

(** Whether a source address is one of the reverse proxies allowed to speak for its clients. *)
Definition is_trusted_proxy (networks : list string) (source : string) : bool :=
  existsb (fun network => ip_net_contains network source) networks.

End platform.

(** ** Arguments *)

Record ServeArgs : Type := mkServeArgs {
  sv_data_dir : string;
  sv_listen : SocketAddr;
  sv_public_url : option PublicUrl;
  sv_tls : TlsMode;
  sv_subdomain_base : option SubdomainBase;
  sv_trusted_proxy : list string;
}.

Record LinkArgs : Type := mkLinkArgs {
  la_data_dir : string;
  la_upstream : string;
  la_code : string;
  la_name : option string;
  la_certificate_fingerprint : option string;
}.

Record ResetPasswordArgs : Type := mkResetPasswordArgs {
  rp_data_dir : string;
  rp_username : string;
}.

Definition resolved_public_url (args : ServeArgs) : PublicUrl :=
  match sv_public_url args with
  | Some url => url
  | None => from_listen_address (sv_listen args) (TlsMode_is_secure (sv_tls args))
  end.

(** ** Lemmas *)

Lemma from_first_delimiter_None (s : string) :
  from_first_delimiter s = None <->
  contains_char s slash = false /\ contains_char s "?" = false /\ contains_char s "#" = false.
Proof.
  unfold contains_char. induction s as [|c s IH]; [done|]. cbn [from_first_delimiter str_any].
  rewrite (Ascii.eqb_sym slash), (Ascii.eqb_sym "?"), (Ascii.eqb_sym "#").
  destruct (Ascii.eqb c slash), (Ascii.eqb c "?"), (Ascii.eqb c "#"); simpl; naive_solver.
Qed.

Lemma graphic_scheme (secure : bool) (s : string) :
  str_all is_graphic ((if secure then HTTPS_SCHEME else HTTP_SCHEME) +:+ s) = str_all is_graphic s.
Proof. rewrite str_all_app. by destruct secure. Qed.

(** The shape of every parsed public URL. *)
Definition public_url_wf (u : PublicUrl) : Prop :=
  pu_origin u = (if pu_secure u then HTTPS_SCHEME else HTTP_SCHEME) +:+ pu_host u
  /\ is_empty (pu_host u) = false
  /\ contains_char (pu_host u) slash = false
  /\ contains_char (pu_host u) "?" = false
  /\ contains_char (pu_host u) "#" = false.

Lemma PublicUrl_from_str_wf value u : PublicUrl_from_str value = Ok u -> public_url_wf u.
Proof.
  unfold PublicUrl_from_str, public_url_wf. run.
  destruct (strip_prefix HTTPS_SCHEME (trim value)) as [rest|];
    [|destruct (strip_prefix HTTP_SCHEME (trim value)) as [rest|]; [|done]].
  all: destruct (from_first_delimiter (trim_end_char slash rest)) eqn:Ed; [done|].
  all: apply from_first_delimiter_None in Ed as (? & ? & ?).
  all: destruct (is_empty (trim_end_char slash rest)) eqn:Ee; [done|].
  all: by intros [= <-].
Qed.

Lemma contains_last (c : ascii) (s : string) : contains_char s c = false -> last_is c s = false.
Proof.
  intros Hc. unfold last_is. destruct (String.rev s) as [|d r] eqn:E; [done|].
  apply Ascii.eqb_neq. intros ->. rewrite <- (rev_involutive s), E, rev_String, contains_char_app in Hc.
  unfold contains_char at 2 in Hc. simpl in Hc. by rewrite Ascii.eqb_refl, orb_true_r in Hc.
Qed.

Lemma PublicUrl_reparse u :
  public_url_wf u -> str_all is_graphic (pu_host u) = true ->
  PublicUrl_from_str (pu_origin u) = Ok u.
Proof.
  intros (Ho & He & Hs & Hq & Hh) Hg. unfold PublicUrl_from_str.
  rewrite Ho, trim_graphic by (by rewrite graphic_scheme).
  assert (Hd : from_first_delimiter (pu_host u) = None) by by apply from_first_delimiter_None.
  destruct u as [origin host secure]; cbn [pu_host pu_secure pu_origin] in *. subst origin.
  assert (Hne : strip_prefix HTTPS_SCHEME (HTTP_SCHEME +:+ host) = None) by reflexivity.
  destruct secure; rewrite ?Hne, strip_prefix_app; run;
    rewrite trim_end_char_id by (by apply contains_last); by rewrite Hd, He.
Qed.

Lemma host_name_port (u : PublicUrl) (name port : string) :
  pu_host u = name +:+ String colon port ->
  contains_char port colon = false -> last_is "]" (pu_host u) = false ->
  host_name u = name /\ port_suffix u = String colon port.
Proof.
  intros Hh Hp Hl. assert (Hn : host_name u = name).
  { unfold host_name. by rewrite ends_with_char, Hl, Hh, rsplit_once_app. }
  split; [done|]. unfold port_suffix. rewrite Hn, Hh, append_length.
  replace (str_len name + str_len (String colon port) - str_len name)
    with (str_len (String colon port)) by lia.
  clear Hn Hh Hl. induction name as [|c name IH].
  - rewrite append_nil_l. clear Hp. unfold str_len.
    induction (String colon port) as [|d t IHt]; [done|]. simpl. by f_equal.
  - rewrite append_String. simpl. exact IH.
Qed.

Lemma host_name_plain (u : PublicUrl) :
  contains_char (pu_host u) colon = false ->
  host_name u = pu_host u /\ port_suffix u = EmptyString.
Proof.
  intros Hc. assert (Hn : host_name u = pu_host u) by (unfold host_name; by rewrite rsplit_once_None).
  split; [done|]. unfold port_suffix. rewrite Hn, Nat.sub_diag. generalize (pu_host u).
  induction s as [|c s IH]; [done|]. simpl. exact IH.
Qed.

(** ** Properties *)

(** Parsing a public URL and printing its origin are inverse.  A parsed URL is a scheme in
    front of a non-empty host that holds no path, query or fragment, so [origin] never ends in a
    slash; and for a host of printable ASCII, parsing the printed origin gives the same value back. *)
Theorem public_url_roundtrip (value : string) (u : PublicUrl) :
  PublicUrl_from_str value = Ok u ->
  public_url_wf u
  /\ (str_all is_graphic (pu_host u) = true -> PublicUrl_from_str (pu_origin u) = Ok u).
Proof. intros Hu. apply PublicUrl_from_str_wf in Hu. split; [done|]. by apply PublicUrl_reparse. Qed.

Lemma public_url_roundtrip_witness :
  let u := mkPublicUrl "https://relay.example.com:8443" "relay.example.com:8443" true in
  PublicUrl_from_str " https://relay.example.com:8443/ " = Ok u
  /\ PublicUrl_from_str (pu_origin u) = Ok u.
Proof.
  split; [vm_compute; reflexivity|].
  apply (public_url_roundtrip " https://relay.example.com:8443/ "); vm_compute; reflexivity.
Defined.

(** The TLS mode of the command line round-trips: every mode the parser accepts prints as the
    text it was parsed from, and a printed mode whose chain path holds no comma and whose paths are not
    empty parses back to itself. *)
Theorem tls_mode_roundtrip (mode : TlsMode) (value : string) :
  (TlsMode_from_str value = Ok mode -> TlsMode_to_str mode = value)
  /\ (match mode with
      | TlsMode_Certificate chain key =>
          is_empty chain = false /\ is_empty key = false
          /\ contains_char chain CERTIFICATE_PATH_SEPARATOR = false
      | _ => True
      end -> TlsMode_from_str (TlsMode_to_str mode) = Ok mode).
Proof.
  split.
  - unfold TlsMode_from_str. destruct (String.eqb_spec value SELF_SIGNED_MODE) as [->|_]; [by intros [= <-]|].
    destruct (String.eqb_spec value DISABLED_MODE) as [->|_]; [by intros [= <-]|]. run.
    destruct (strip_prefix CERTIFICATE_MODE_PREFIX value) as [paths|] eqn:Ep; [|done]. simpl.
    destruct (split_once _ paths) as [[chain key]|] eqn:Es; [|done]. simpl.
    destruct (is_empty chain || is_empty key); [done|]. intros [= <-]. cbn [TlsMode_to_str].
    apply strip_prefix_Some in Ep as ->. by apply split_once_Some in Es as [-> _].
  - destruct mode as [|chain key|]; [done| |done]. intros (Hc & Hk & Hn).
    unfold TlsMode_from_str, TlsMode_to_str.
    rewrite (proj2 (String.eqb_neq _ SELF_SIGNED_MODE)), (proj2 (String.eqb_neq _ DISABLED_MODE)) by done.
    rewrite strip_prefix_app. run.
    rewrite (proj2 (split_once_Some _ _ chain key)) by done. simpl. by rewrite Hc, Hk.
Qed.

Lemma tls_mode_roundtrip_witness :
  TlsMode_from_str "cert:chain.pem,key,with,commas" = Ok (TlsMode_Certificate "chain.pem" "key,with,commas")
  /\ TlsMode_to_str (TlsMode_Certificate "chain.pem" "key,with,commas") = "cert:chain.pem,key,with,commas".
Proof.
  split; [vm_compute; reflexivity|].
  apply (tls_mode_roundtrip (TlsMode_Certificate "chain.pem" "key,with,commas")
           "cert:chain.pem,key,with,commas"); vm_compute; reflexivity.
Defined.
