(* ===== verification/Database.v ===== *)
(** * [src/db/]: the relay's SQLite database

    A table is a finite map from its primary key to its row ([audit_events] is the list of its rows in
    insertion order); a row holds what the column stores, so the enumerations are still text in it.
    Every SQL statement of the source is one transition, written out against the schema of
    [migrations/0001_initial.sql]: the primary keys, the [UNIQUE] columns and the foreign key of
    [devices.owner_user_id] are enforced.  A statement may also fail for reasons outside the program;
    [db_faults] says which of the coming statements do, and an empty list is a healthy database. *)

From stdpp Require Import sorting.
From S2P Require Import Prelude.
From S2P Require Import RustStr.
From S2P Require Import Protocol.

(** ** Errors *)

(** The two classes of [rusqlite::Error] the source tells apart. *)
Inductive SqliteError : Type :=
| SqliteError_ConstraintViolation
| SqliteError_Other.

Inductive DatabaseError : Type :=
| DatabaseError_Sqlite (error : SqliteError)
| DatabaseError_Random (error : string)
| DatabaseError_UnknownValue (field value : string)
| DatabaseError_UsernameTaken.

#[export] Instance SqliteError_eq_dec : EqDecision SqliteError.
Proof. solve_decision. Defined.

#[export] Instance DatabaseError_eq_dec : EqDecision DatabaseError.
Proof. solve_decision. Defined.

(** ** Enumerations and records *)

Inductive UserRole : Type :=
| UserRole_Admin
| UserRole_User.

Inductive DeviceAccess : Type :=
| DeviceAccess_Public
| DeviceAccess_RelayLogin.

Inductive EnrollmentStatus : Type :=
| EnrollmentStatus_Pending
| EnrollmentStatus_Used
| EnrollmentStatus_Expired
| EnrollmentStatus_Cancelled.

#[export] Instance UserRole_eq_dec : EqDecision UserRole.
Proof. solve_decision. Defined.

#[export] Instance DeviceAccess_eq_dec : EqDecision DeviceAccess.
Proof. solve_decision. Defined.

#[export] Instance EnrollmentStatus_eq_dec : EqDecision EnrollmentStatus.
Proof. solve_decision. Defined.

Record UserRecord : Type := mkUserRecord {
  us_id : string;
  us_username : string;
  us_password_hash : string;
  us_role : UserRole;
  us_disabled : bool;
  us_created_at : Z;
  us_last_login_at : option Z;
}.

Record UserUpdate : Type := mkUserUpdate {
  uu_disabled : option bool;
  uu_role : option UserRole;
  uu_password_hash : option string;
}.

Record DeviceRecord : Type := mkDeviceRecord {
  dv_id : string;
  dv_kind : DeviceKind;
  dv_name : string;
  dv_owner_user_id : option string;
  dv_secret_hash : string;
  dv_note : option string;
  dv_created_at : Z;
  dv_revoked_at : option Z;
  dv_last_seen_at : option Z;
  dv_last_ip : option string;
  dv_last_version : option string;
  dv_access : DeviceAccess;
}.

Record DeviceUpdate : Type := mkDeviceUpdate {
  du_name : option string;
  du_note : option string;
  du_access : option DeviceAccess;
}.

Record NewDevice : Type := mkNewDevice {
  nd_id : string;
  nd_kind : DeviceKind;
  nd_name : string;
  nd_owner_user_id : option string;
  nd_secret_hash : string;
  nd_note : option string;
}.

Record EnrollmentRecord : Type := mkEnrollmentRecord {
  ec_id : string;
  ec_code_hash : string;
  ec_kind : DeviceKind;
  ec_owner_user_id : option string;
  ec_created_by : string;
  ec_note : option string;
  ec_created_at : Z;
  ec_expires_at : Z;
  ec_used_at : option Z;
  ec_used_by_device_id : option string;
  ec_cancelled_at : option Z;
}.

Record NewEnrollment : Type := mkNewEnrollment {
  ne_code_hash : string;
  ne_kind : DeviceKind;
  ne_owner_user_id : option string;
  ne_created_by : string;
  ne_note : option string;
  ne_expires_at : Z;
}.

Record SessionRecord : Type := mkSessionRecord {
  ss_id_hash : string;
  ss_user_id : string;
  ss_created_at : Z;
  ss_expires_at : Z;
  ss_ip : option string;
}.

Record AuditRecord : Type := mkAuditRecord {
  ar_id : Z;
  ar_at : Z;
  ar_actor_kind : string;
  ar_actor_id : option string;
  ar_action : string;
  ar_target_kind : option string;
  ar_target_id : option string;
  ar_ip : option string;
  ar_detail : option string;
}.

Record AuditQuery : Type := mkAuditQuery {
  (* u32 *)
  aq_limit : Z;
  aq_before_id : option Z;
  aq_target_id : option string;
}.

(** ** Rows as the columns store them *)

Record SettingRow : Type := mkSettingRow {
  st_value : string;
  st_updated_at : Z;
}.

Record UserRow : Type := mkUserRow {
  ur_username : string;
  ur_password_hash : string;
  ur_role : string;
  ur_disabled : Z;
  ur_created_at : Z;
  ur_last_login_at : option Z;
}.

Record DeviceRow : Type := mkDeviceRow {
  dr_kind : string;
  dr_name : string;
  dr_owner_user_id : option string;
  dr_secret_hash : string;
  dr_note : option string;
  dr_created_at : Z;
  dr_revoked_at : option Z;
  dr_last_seen_at : option Z;
  dr_last_ip : option string;
  dr_last_version : option string;
  dr_access : string;
}.

Record EnrollmentRow : Type := mkEnrollmentRow {
  er_code_hash : string;
  er_kind : string;
  er_owner_user_id : option string;
  er_created_by : string;
  er_note : option string;
  er_created_at : Z;
  er_expires_at : Z;
  er_used_at : option Z;
  er_used_by_device_id : option string;
  er_cancelled_at : option Z;
}.

Record Database : Type := mkDatabase {
  db_settings : gmap string SettingRow;
  db_users : gmap string UserRow;
  db_devices : gmap string DeviceRow;
  db_enrollments : gmap string EnrollmentRow;
  db_sessions : gmap string SessionRecord;
  db_audit : list AuditRecord;
  (* the last id [AUTOINCREMENT] gave out *)
  db_audit_sequence : Z;
  (* which of the coming statements the engine fails *)
  db_faults : list bool;
}.

Definition empty_database : Database := mkDatabase ∅ ∅ ∅ ∅ ∅ [] 0 [].

(** ** Constants *)

Definition SETTING_RELAY_ID : string := "relay_id".
Definition SETTING_PUBLIC_URL : string := "public_url".
Definition SETTING_UPSTREAM : string := "upstream".
Definition ADMIN_ROLE : string := "admin".
Definition USER_ROLE : string := "user".
Definition DESKTOP_KIND : string := "desktop".
Definition RELAY_KIND : string := "relay".
Definition PUBLIC_ACCESS : string := "public".
Definition RELAY_LOGIN_ACCESS : string := "relay-login".
Definition UNKNOWN_ACCESS_MESSAGE : string := "设备访问策略只能是 public 或 relay-login。".
Definition MAX_AUDIT_PAGE : Z := 500.
Definition IDENTIFIER_BYTES : nat := 16.

(** ** State updates *)

Definition set_settings f db := mkDatabase (f (db_settings db)) (db_users db) (db_devices db)
  (db_enrollments db) (db_sessions db) (db_audit db) (db_audit_sequence db) (db_faults db).
Definition set_users f db := mkDatabase (db_settings db) (f (db_users db)) (db_devices db)
  (db_enrollments db) (db_sessions db) (db_audit db) (db_audit_sequence db) (db_faults db).
Definition set_devices f db := mkDatabase (db_settings db) (db_users db) (f (db_devices db))
  (db_enrollments db) (db_sessions db) (db_audit db) (db_audit_sequence db) (db_faults db).
Definition set_enrollments f db := mkDatabase (db_settings db) (db_users db) (db_devices db)
  (f (db_enrollments db)) (db_sessions db) (db_audit db) (db_audit_sequence db) (db_faults db).
Definition set_sessions f db := mkDatabase (db_settings db) (db_users db) (db_devices db)
  (db_enrollments db) (f (db_sessions db)) (db_audit db) (db_audit_sequence db) (db_faults db).
Definition set_audit f n db := mkDatabase (db_settings db) (db_users db) (db_devices db)
  (db_enrollments db) (db_sessions db) (f (db_audit db)) n (db_faults db).
Definition set_faults fs db := mkDatabase (db_settings db) (db_users db) (db_devices db)
  (db_enrollments db) (db_sessions db) (db_audit db) (db_audit_sequence db) fs.

(** ** Statements *)

Abbreviation DB := (SE Database DatabaseError).

(** One statement: the engine may fail it, in which case nothing changed. *)
Definition statement {A : Type} (f : Database -> result SqliteError (A * Database))
    : SE Database SqliteError A :=
  fun db =>
    match db_faults db with
    | true :: faults => (Err SqliteError_Other, set_faults faults db)
    | faults =>
        let db' := set_faults (tail faults) db in
        match f db' with
        | Ok (a, db'') => (Ok a, db'')
        | Err e => (Err e, db')
        end
    end.

(** [?] through [From<rusqlite::Error>]. *)
Definition sql {A : Type} (m : SE Database SqliteError A) : DB A := se_map_err DatabaseError_Sqlite m.

Definition select {A : Type} (f : Database -> A) : SE Database SqliteError A :=
  statement (fun db => Ok (f db, db)).

Definition write (f : Database -> Database) : SE Database SqliteError unit :=
  statement (fun db => Ok (tt, f db)).

(** An [UPDATE] of one row by primary key; the row count is how many rows matched [guard]. *)
Definition update_row {R : Type} (get : Database -> gmap string R)
    (put : (gmap string R -> gmap string R) -> Database -> Database)
    (id : string) (guard : R -> bool) (f : R -> R) : SE Database SqliteError nat :=
  statement (fun db =>
    match get db !! id with
    | Some row => if guard row then Ok (1, put (<[id := f row]>) db) else Ok (0, db)
    | None => Ok (0, db)
    end).

Definition always {R : Type} (row : R) : bool := true.

(** [ORDER BY created_at] in either direction; rows of one moment come in no particular order. *)
Definition by_created_asc {R : Type} (created_at : R -> Z) (a b : R) : Prop :=
  (created_at a <= created_at b)%Z.

Definition by_created_desc {R : Type} (created_at : R -> Z) (a b : R) : Prop :=
  (created_at b <= created_at a)%Z.

#[export] Instance by_created_asc_dec {R} (f : R -> Z) : RelDecision (by_created_asc f).
Proof. intros a b. unfold by_created_asc. apply _. Defined.

#[export] Instance by_created_desc_dec {R} (f : R -> Z) : RelDecision (by_created_desc f).
Proof. intros a b. unfold by_created_desc. apply _. Defined.

(** A nullable text column; a blank value reads as an absent one. *)
Definition optional_text (value : option string) : option string :=
  match value with
  | Some text => if is_empty (trim text) then None else Some text
  | None => None
  end.

(** [new_identifier]: [random] is what [random_base64url] answered. *)
Definition new_identifier (random : result string string) : result DatabaseError string :=
  map_err DatabaseError_Random random.

(** ** [src/db/mod.rs]: settings *)

Definition read_setting (key : string) : DB (option string) :=
  sql (select (fun db => st_value <$> db_settings db !! key)).

Definition write_setting (now : Z) (key value : string) : DB unit :=
  sql (write (set_settings (<[key := mkSettingRow value now]>))).

Definition delete_setting (key : string) : DB unit :=
  sql (write (set_settings (delete key))).

Definition read_or_initialize_setting (now : Z) (key : string)
    (fallback : result DatabaseError string) : DB string :=
  stored ← read_setting key;
  match stored with
  | Some value => mret value
  | None => value ← se_lift fallback; write_setting now key value ;; mret value
  end.

(** ** [src/db/sessions.rs] *)

Definition is_expired (session : SessionRecord) (now : Z) : bool := (ss_expires_at session <=? now)%Z.

Definition create_session_row (session : SessionRecord) : DB unit :=
  sql (statement (fun db =>
    match db_sessions db !! ss_id_hash session with
    | Some _ => Err SqliteError_ConstraintViolation
    | None => Ok (tt, set_sessions (<[ss_id_hash session := session]>) db)
    end)).

Definition read_session_row (row : SessionRecord) : SessionRecord :=
  mkSessionRecord (ss_id_hash row) (ss_user_id row) (ss_created_at row) (ss_expires_at row)
    (optional_text (ss_ip row)).

Definition find_session (id_hash : string) : DB (option SessionRecord) :=
  sql (select (fun db => read_session_row <$> db_sessions db !! id_hash)).

Definition extend_session (id_hash : string) (expires_at : Z) : DB unit :=
  sql (update_row db_sessions set_sessions id_hash always
         (fun s => mkSessionRecord (ss_id_hash s) (ss_user_id s) (ss_created_at s) expires_at (ss_ip s))) ;;
  mret tt.

Definition delete_session (id_hash : string) : DB unit :=
  sql (write (set_sessions (delete id_hash))).

Definition delete_sessions_of_user (user_id : string) : DB unit :=
  sql (write (set_sessions (filter (fun '(_, s) => ss_user_id s <> user_id)))).

Definition delete_expired_sessions (now : Z) : DB nat :=
  sql (statement (fun db =>
    let kept := filter (fun '(_, s) => (now < ss_expires_at s)%Z) (db_sessions db) in
    Ok (size (db_sessions db) - size kept, set_sessions (fun _ => kept) db))).

(** ** [src/db/users.rs] *)

Definition UserRole_as_str (role : UserRole) : string :=
  match role with
  | UserRole_Admin => ADMIN_ROLE
  | UserRole_User => USER_ROLE
  end.

Definition is_admin (role : UserRole) : bool :=
  match role with
  | UserRole_Admin => true
  | UserRole_User => false
  end.

Definition UserRole_parse (value : string) : result DatabaseError UserRole :=
  if String.eqb value ADMIN_ROLE then Ok UserRole_Admin
  else if String.eqb value USER_ROLE then Ok UserRole_User
  else Err (DatabaseError_UnknownValue "users.role" value).

Definition UserUpdate_is_empty (update : UserUpdate) : bool :=
  match uu_disabled update, uu_role update, uu_password_hash update with
  | None, None, None => true
  | _, _, _ => false
  end.

Definition map_username_conflict (error : SqliteError) : DatabaseError :=
  match error with
  | SqliteError_ConstraintViolation => DatabaseError_UsernameTaken
  | _ => DatabaseError_Sqlite error
  end.

Definition read_user_row (id : string) (row : UserRow) : result DatabaseError UserRecord :=
  role ← UserRole_parse (ur_role row);
  Ok (mkUserRecord id (ur_username row) (ur_password_hash row) role
        (negb (Z.eqb (ur_disabled row) 0)) (ur_created_at row) (ur_last_login_at row)).

Definition count_users : DB Z := sql (select (fun db => Z.of_nat (size (db_users db)))).

Definition username_in_use (username : string) (db : Database) : bool :=
  existsb (fun '(_, row) => String.eqb (ur_username row) username) (map_to_list (db_users db)).

(** The [INSERT] of [create_user] against the primary key and the unique index on [username]. *)
Definition insert_user (id : string) (row : UserRow) : SE Database SqliteError unit :=
  statement (fun db =>
    match db_users db !! id with
    | Some _ => Err SqliteError_ConstraintViolation
    | None =>
        if username_in_use (ur_username row) db then Err SqliteError_ConstraintViolation
        else Ok (tt, set_users (<[id := row]>) db)
    end).

Definition create_user (random : result string string) (now : Z)
    (username password_hash : string) (role : UserRole) : DB UserRecord :=
  id ← se_lift (new_identifier random);
  let record := mkUserRecord id username password_hash role false now None in
  se_map_err map_username_conflict
    (insert_user (us_id record)
       (mkUserRow (us_username record) (us_password_hash record) (UserRole_as_str (us_role record))
          0 (us_created_at record) None)) ;;
  mret record.

(** [read_user] with the two statements that call it: by primary key, or by the unique name. *)
Definition read_user (select_row : Database -> option (string * UserRow)) : DB (option UserRecord) :=
  row ← sql (select select_row);
  se_lift (transpose ((fun '(id, r) => read_user_row id r) <$> row)).

Definition find_user (id : string) : DB (option UserRecord) :=
  read_user (fun db => (fun r => (id, r)) <$> db_users db !! id).

Definition find_user_by_username (username : string) : DB (option UserRecord) :=
  read_user (fun db =>
    head (List.filter (fun '(_, row) => String.eqb (ur_username row) username)
            (map_to_list (db_users db)))).

Definition list_users : DB (list UserRecord) :=
  rows ← sql (select (fun db =>
    merge_sort (by_created_asc (fun p => ur_created_at (snd p))) (map_to_list (db_users db))));
  se_lift (collect ((fun '(id, r) => read_user_row id r) <$> rows)).

Definition with_disabled (disabled : bool) (r : UserRow) : UserRow :=
  mkUserRow (ur_username r) (ur_password_hash r) (ur_role r) (if disabled then 1 else 0)%Z
    (ur_created_at r) (ur_last_login_at r).

Definition with_role (role : UserRole) (r : UserRow) : UserRow :=
  mkUserRow (ur_username r) (ur_password_hash r) (UserRole_as_str role) (ur_disabled r)
    (ur_created_at r) (ur_last_login_at r).

Definition with_password_hash (hash : string) (r : UserRow) : UserRow :=
  mkUserRow (ur_username r) hash (ur_role r) (ur_disabled r) (ur_created_at r) (ur_last_login_at r).

Definition with_last_login (now : Z) (r : UserRow) : UserRow :=
  mkUserRow (ur_username r) (ur_password_hash r) (ur_role r) (ur_disabled r) (ur_created_at r)
    (Some now).

(** [if let Some(value) = ... { one statement }]. *)
Definition when_some {A : Type} (value : option A) (body : A -> DB unit) : DB unit :=
  match value with
  | Some a => body a
  | None => mret tt
  end.

Definition update_users_row (id : string) (f : UserRow -> UserRow) : DB unit :=
  sql (update_row db_users set_users id always f) ;; mret tt.

Definition update_user (id : string) (update : UserUpdate) : DB unit :=
  when_some (uu_disabled update) (fun disabled => update_users_row id (with_disabled disabled)) ;;
  when_some (uu_role update) (fun role => update_users_row id (with_role role)) ;;
  when_some (uu_password_hash update) (fun hash => update_users_row id (with_password_hash hash)) ;;
  mret tt.

(** The foreign key refuses to delete an account a device still refers to. *)
Definition delete_user (id : string) : DB unit :=
  sql (statement (fun db =>
    if existsb (fun '(_, row) => bool_decide (dr_owner_user_id row = Some id))
         (map_to_list (db_devices db))
       && bool_decide (is_Some (db_users db !! id))
    then Err SqliteError_ConstraintViolation
    else Ok (tt, set_users (delete id) db))).

Definition record_user_login (now : Z) (id : string) : DB unit :=
  update_users_row id (with_last_login now).

(** ** [src/db/devices.rs] *)

Definition device_kind_label (kind : DeviceKind) : string :=
  match kind with
  | DeviceKind_Desktop => DESKTOP_KIND
  | DeviceKind_Relay => RELAY_KIND
  end.

Definition parse_device_kind (value : string) : result DatabaseError DeviceKind :=
  if String.eqb value DESKTOP_KIND then Ok DeviceKind_Desktop
  else if String.eqb value RELAY_KIND then Ok DeviceKind_Relay
  else Err (DatabaseError_UnknownValue "devices.kind" value).

Definition DeviceAccess_as_str (access : DeviceAccess) : string :=
  match access with
  | DeviceAccess_Public => PUBLIC_ACCESS
  | DeviceAccess_RelayLogin => RELAY_LOGIN_ACCESS
  end.

Definition requires_console_session (access : DeviceAccess) : bool :=
  match access with
  | DeviceAccess_RelayLogin => true
  | DeviceAccess_Public => false
  end.

Definition DeviceAccess_from_str (value : string) : result string DeviceAccess :=
  if String.eqb (trim value) PUBLIC_ACCESS then Ok DeviceAccess_Public
  else if String.eqb (trim value) RELAY_LOGIN_ACCESS then Ok DeviceAccess_RelayLogin
  else Err UNKNOWN_ACCESS_MESSAGE.

Definition is_revoked (device : DeviceRecord) : bool := bool_decide (is_Some (dv_revoked_at device)).

Definition is_reachable_by (device : DeviceRecord) (user_id : string) (admin : bool) : bool :=
  admin || bool_decide (dv_owner_user_id device = Some user_id).

Definition DeviceUpdate_is_empty (update : DeviceUpdate) : bool :=
  match du_name update, du_note update, du_access update with
  | None, None, None => true
  | _, _, _ => false
  end.

(** The [INSERT] of [create_device]: the primary key and the reference to the owner's account; the
    columns it does not name get their defaults. *)
Definition insert_device (id : string) (row : DeviceRow) : SE Database SqliteError unit :=
  statement (fun db =>
    match db_devices db !! id with
    | Some _ => Err SqliteError_ConstraintViolation
    | None =>
        match dr_owner_user_id row with
        | Some owner =>
            if bool_decide (is_Some (db_users db !! owner))
            then Ok (tt, set_devices (<[id := row]>) db)
            else Err SqliteError_ConstraintViolation
        | None => Ok (tt, set_devices (<[id := row]>) db)
        end
    end).

Definition create_device (now : Z) (device : NewDevice) : DB DeviceRecord :=
  let record :=
    mkDeviceRecord (nd_id device) (nd_kind device) (nd_name device) (nd_owner_user_id device)
      (nd_secret_hash device) (nd_note device) now None None None None DeviceAccess_Public in
  sql (insert_device (dv_id record)
         (mkDeviceRow (device_kind_label (dv_kind record)) (dv_name record)
            (dv_owner_user_id record) (dv_secret_hash record) (dv_note record)
            (dv_created_at record) None None None None PUBLIC_ACCESS)) ;;
  mret record.

Definition parse_device_row (kind access : string)
    : result DatabaseError (DeviceKind * DeviceAccess) :=
  k ← parse_device_kind kind;
  a ← map_err (fun _ => DatabaseError_UnknownValue "devices.access" access)
        (DeviceAccess_from_str access);
  Ok (k, a).

Definition read_device_row (id : string) (row : DeviceRow) : result DatabaseError DeviceRecord :=
  '(kind, access) ← parse_device_row (dr_kind row) (dr_access row);
  Ok (mkDeviceRecord id kind (dr_name row) (dr_owner_user_id row) (dr_secret_hash row)
        (optional_text (dr_note row)) (dr_created_at row) (dr_revoked_at row) (dr_last_seen_at row)
        (optional_text (dr_last_ip row)) (optional_text (dr_last_version row)) access).

Definition find_device (id : string) : DB (option DeviceRecord) :=
  row ← sql (select (fun db => db_devices db !! id));
  se_lift (transpose (read_device_row id <$> row)).

(** [query_devices] with the two statements that call it: every row, or those of one owner. *)
Definition query_devices (keep : DeviceRow -> bool) : DB (list DeviceRecord) :=
  rows ← sql (select (fun db =>
    merge_sort (by_created_desc (fun p => dr_created_at (snd p)))
      (List.filter (fun '(_, row) => keep row) (map_to_list (db_devices db)))));
  se_lift (collect ((fun '(id, r) => read_device_row id r) <$> rows)).

Definition list_devices : DB (list DeviceRecord) := query_devices always.

Definition owned_by (owner : string) (row : DeviceRow) : bool :=
  bool_decide (dr_owner_user_id row = Some owner).

Definition list_devices_owned_by (owner : string) : DB (list DeviceRecord) :=
  query_devices (owned_by owner).

(** One [UPDATE] of a device row's columns. *)
Definition with_device_columns (name : string) (owner note : option string) (revoked_at last_seen_at : option Z)
    (last_ip last_version : option string) (access : string) (r : DeviceRow) : DeviceRow :=
  mkDeviceRow (dr_kind r) name owner (dr_secret_hash r) note (dr_created_at r) revoked_at last_seen_at
    last_ip last_version access.

Definition with_name (name : string) (r : DeviceRow) : DeviceRow :=
  with_device_columns name (dr_owner_user_id r) (dr_note r) (dr_revoked_at r) (dr_last_seen_at r)
    (dr_last_ip r) (dr_last_version r) (dr_access r) r.

Definition with_note (note : option string) (r : DeviceRow) : DeviceRow :=
  with_device_columns (dr_name r) (dr_owner_user_id r) note (dr_revoked_at r) (dr_last_seen_at r)
    (dr_last_ip r) (dr_last_version r) (dr_access r) r.

Definition with_access (access : string) (r : DeviceRow) : DeviceRow :=
  with_device_columns (dr_name r) (dr_owner_user_id r) (dr_note r) (dr_revoked_at r)
    (dr_last_seen_at r) (dr_last_ip r) (dr_last_version r) access r.

Definition with_revoked_at (now : Z) (r : DeviceRow) : DeviceRow :=
  with_device_columns (dr_name r) (dr_owner_user_id r) (dr_note r) (Some now) (dr_last_seen_at r)
    (dr_last_ip r) (dr_last_version r) (dr_access r) r.

Definition without_owner (r : DeviceRow) : DeviceRow :=
  with_device_columns (dr_name r) None (dr_note r) (dr_revoked_at r) (dr_last_seen_at r)
    (dr_last_ip r) (dr_last_version r) (dr_access r) r.

Definition with_connection (now : Z) (ip version : string) (r : DeviceRow) : DeviceRow :=
  with_device_columns (dr_name r) (dr_owner_user_id r) (dr_note r) (dr_revoked_at r) (Some now)
    (Some ip) (Some version) (dr_access r) r.

Definition with_last_seen (now : Z) (r : DeviceRow) : DeviceRow :=
  with_device_columns (dr_name r) (dr_owner_user_id r) (dr_note r) (dr_revoked_at r) (Some now)
    (dr_last_ip r) (dr_last_version r) (dr_access r) r.

Definition update_devices_row (id : string) (f : DeviceRow -> DeviceRow) : DB unit :=
  sql (update_row db_devices set_devices id always f) ;; mret tt.

Definition update_device (id : string) (update : DeviceUpdate) : DB unit :=
  when_some (du_name update) (fun name => update_devices_row id (with_name name)) ;;
  when_some (du_note update)
    (fun note => update_devices_row id (with_note (optional_text (Some note)))) ;;
  when_some (du_access update)
    (fun access => update_devices_row id (with_access (DeviceAccess_as_str access))) ;;
  mret tt.

Definition is_none {A : Type} (o : option A) : bool :=
  match o with
  | None => true
  | Some _ => false
  end.

Definition revoke_device (now : Z) (id : string) : DB bool :=
  changed ← sql (update_row db_devices set_devices id (fun row => is_none (dr_revoked_at row))
                   (with_revoked_at now));
  mret (0 <? changed).

(** [clock] is the reading of each revocation, by position. *)
Fixpoint revoke_each (clock : nat -> Z) (i : nat) (ids : list string) : DB unit :=
  match ids with
  | [] => mret tt
  | id :: rest => revoke_device (clock i) id ;; revoke_each clock (S i) rest
  end.

Definition revoke_devices_owned_by (clock : nat -> Z) (owner : string) : DB (list string) :=
  devices ← list_devices_owned_by owner;
  let revoked := dv_id <$> List.filter (fun device => negb (is_revoked device)) devices in
  revoke_each clock 0 revoked ;;
  mret revoked.

Definition disown_devices_of (owner : string) : DB unit :=
  sql (write (set_devices (fmap (fun r => if owned_by owner r then without_owner r else r)))).

Definition record_device_connection (now : Z) (id ip version : string) : DB unit :=
  update_devices_row id (with_connection now ip version).

Definition record_device_disconnection (now : Z) (id : string) : DB unit :=
  update_devices_row id (with_last_seen now).

(** ** [src/db/enrollments.rs] *)

Definition status (enrollment : EnrollmentRecord) (now : Z) : EnrollmentStatus :=
  if negb (is_none (ec_used_at enrollment)) then EnrollmentStatus_Used
  else if negb (is_none (ec_cancelled_at enrollment)) then EnrollmentStatus_Cancelled
  else if (ec_expires_at enrollment <=? now)%Z then EnrollmentStatus_Expired
  else EnrollmentStatus_Pending.

Definition is_redeemable (enrollment : EnrollmentRecord) (now : Z) : bool :=
  bool_decide (status enrollment now = EnrollmentStatus_Pending).

Definition code_hash_in_use (code_hash : string) (db : Database) : bool :=
  existsb (fun '(_, row) => String.eqb (er_code_hash row) code_hash)
    (map_to_list (db_enrollments db)).

Definition insert_enrollment (id : string) (row : EnrollmentRow) : SE Database SqliteError unit :=
  statement (fun db =>
    match db_enrollments db !! id with
    | Some _ => Err SqliteError_ConstraintViolation
    | None =>
        if code_hash_in_use (er_code_hash row) db then Err SqliteError_ConstraintViolation
        else Ok (tt, set_enrollments (<[id := row]>) db)
    end).

Definition create_enrollment (random : result string string) (now : Z) (enrollment : NewEnrollment)
    : DB EnrollmentRecord :=
  id ← se_lift (new_identifier random);
  let record :=
    mkEnrollmentRecord id (ne_code_hash enrollment) (ne_kind enrollment)
      (ne_owner_user_id enrollment) (ne_created_by enrollment) (ne_note enrollment) now
      (ne_expires_at enrollment) None None None in
  sql (insert_enrollment (ec_id record)
         (mkEnrollmentRow (ec_code_hash record) (device_kind_label (ec_kind record))
            (ec_owner_user_id record) (ec_created_by record) (ec_note record) (ec_created_at record)
            (ec_expires_at record) None None None)) ;;
  mret record.

Definition parse_kind (value : string) : result DatabaseError DeviceKind :=
  if String.eqb value DESKTOP_KIND then Ok DeviceKind_Desktop
  else if String.eqb value RELAY_KIND then Ok DeviceKind_Relay
  else Err (DatabaseError_UnknownValue "enrollment_codes.kind" value).

Definition read_enrollment_row (id : string) (row : EnrollmentRow)
    : result DatabaseError EnrollmentRecord :=
  kind ← parse_kind (er_kind row);
  Ok (mkEnrollmentRecord id (er_code_hash row) kind (er_owner_user_id row) (er_created_by row)
        (optional_text (er_note row)) (er_created_at row) (er_expires_at row) (er_used_at row)
        (er_used_by_device_id row) (er_cancelled_at row)).

Definition read_enrollment (select_row : Database -> option (string * EnrollmentRow))
    : DB (option EnrollmentRecord) :=
  row ← sql (select select_row);
  se_lift (transpose ((fun '(id, r) => read_enrollment_row id r) <$> row)).

Definition find_enrollment (id : string) : DB (option EnrollmentRecord) :=
  read_enrollment (fun db => (fun r => (id, r)) <$> db_enrollments db !! id).

Definition find_enrollment_by_hash (code_hash : string) : DB (option EnrollmentRecord) :=
  read_enrollment (fun db =>
    head (List.filter (fun '(_, row) => String.eqb (er_code_hash row) code_hash)
            (map_to_list (db_enrollments db)))).

Definition list_enrollments : DB (list EnrollmentRecord) :=
  rows ← sql (select (fun db =>
    merge_sort (by_created_desc (fun p => er_created_at (snd p))) (map_to_list (db_enrollments db))));
  se_lift (collect ((fun '(id, r) => read_enrollment_row id r) <$> rows)).

(** [used_at IS NULL AND cancelled_at IS NULL]. *)
Definition is_open (row : EnrollmentRow) : bool :=
  is_none (er_used_at row) && is_none (er_cancelled_at row).

Definition with_used (now : Z) (device_id : string) (r : EnrollmentRow) : EnrollmentRow :=
  mkEnrollmentRow (er_code_hash r) (er_kind r) (er_owner_user_id r) (er_created_by r) (er_note r)
    (er_created_at r) (er_expires_at r) (Some now) (Some device_id) (er_cancelled_at r).

Definition with_cancelled (now : Z) (r : EnrollmentRow) : EnrollmentRow :=
  mkEnrollmentRow (er_code_hash r) (er_kind r) (er_owner_user_id r) (er_created_by r) (er_note r)
    (er_created_at r) (er_expires_at r) (er_used_at r) (er_used_by_device_id r) (Some now).

Definition mark_enrollment_used (now : Z) (id device_id : string) : DB bool :=
  changed ← sql (update_row db_enrollments set_enrollments id is_open (with_used now device_id));
  mret (0 <? changed).

Definition cancel_enrollment (now : Z) (id : string) : DB bool :=
  changed ← sql (update_row db_enrollments set_enrollments id is_open (with_cancelled now));
  mret (0 <? changed).

(** ** [src/db/audit.rs] *)

Definition write_audit (record : AuditRecord) : DB unit :=
  sql (write (fun db =>
    let id := (db_audit_sequence db + 1)%Z in
    let row :=
      mkAuditRecord id (ar_at record) (ar_actor_kind record) (ar_actor_id record) (ar_action record)
        (ar_target_kind record) (ar_target_id record) (ar_ip record) (ar_detail record) in
    set_audit (fun rows => rows ++ [row]) id db)).

Definition read_audit_row (row : AuditRecord) : AuditRecord :=
  mkAuditRecord (ar_id row) (ar_at row) (ar_actor_kind row) (optional_text (ar_actor_id row))
    (ar_action row) (optional_text (ar_target_kind row)) (optional_text (ar_target_id row))
    (optional_text (ar_ip row)) (optional_text (ar_detail row)).

Definition audit_matches (query : AuditQuery) (row : AuditRecord) : bool :=
  match aq_before_id query with
  | None => true
  | Some before => (ar_id row <? before)%Z
  end
  && match aq_target_id query with
     | None => true
     | Some target => bool_decide (ar_target_id row = Some target)
     end.

Definition by_audit_id_desc (a b : AuditRecord) : Prop := (ar_id b <= ar_id a)%Z.

#[export] Instance by_audit_id_desc_dec : RelDecision by_audit_id_desc.
Proof. intros a b. unfold by_audit_id_desc. apply _. Defined.

Definition list_audit (query : AuditQuery) : DB (list AuditRecord) :=
  let limit := clamp 1 MAX_AUDIT_PAGE (aq_limit query) in
  rows ← sql (select (fun db =>
    take (Z.to_nat limit)
      (merge_sort by_audit_id_desc (List.filter (audit_matches query) (db_audit db)))));
  mret (read_audit_row <$> rows).

(** ** Lemmas: statements on a healthy database *)

Lemma statement_healthy {A} (f : Database -> result SqliteError (A * Database)) db :
  db_faults db = [] ->
  statement f db = match f db with Ok (a, db') => (Ok a, db') | Err e => (Err e, db) end.
Proof. intros Hf. unfold statement. rewrite Hf. destruct db; simpl in *. by subst. Qed.

(** A statement that answers did not fail, whatever the engine may do. *)
Lemma statement_ok {A} (f : Database -> result SqliteError (A * Database)) db a db' :
  statement f db = (Ok a, db') -> f (set_faults (tail (db_faults db)) db) = Ok (a, db').
Proof.
  unfold statement. destruct (db_faults db) as [|[] faults]; [|done|]; intros Hs;
    destruct (f _) as [[b db'']|]; by simplify_eq/=.
Qed.

Lemma select_ok {A} (f : Database -> A) db a db' :
  sql (select f) db = (Ok a, db') ->
  a = f (set_faults (tail (db_faults db)) db) /\ db' = set_faults (tail (db_faults db)) db.
Proof.
  unfold sql, se_map_err, select. destruct (statement _ db) as [[b|e] db''] eqn:E; [|done].
  apply statement_ok in E. intros. by simplify_eq/=.
Qed.

(** The state a successful read leaves behind: only the fault script moved on. *)
Definition next_statement (db : Database) : Database := set_faults (tail (db_faults db)) db.

Lemma next_statement_healthy db : db_faults db = [] -> next_statement db = db.
Proof. intros Hf. unfold next_statement. rewrite Hf. destruct db; simpl in *. by subst. Qed.

Lemma select_healthy {A} (f : Database -> A) db :
  db_faults db = [] -> sql (select f) db = (Ok (f db), db).
Proof. intros Hf. unfold sql, se_map_err, select. by rewrite statement_healthy. Qed.

Lemma write_healthy (f : Database -> Database) db :
  db_faults db = [] -> sql (write f) db = (Ok tt, f db).
Proof. intros Hf. unfold sql, se_map_err, write. by rewrite statement_healthy. Qed.

Lemma write_ok (f : Database -> Database) db a db' :
  sql (write f) db = (Ok a, db') -> db' = f (next_statement db).
Proof.
  unfold sql, se_map_err, write. destruct (statement _ db) as [[b|e] db''] eqn:E; [|done].
  apply statement_ok in E. intros. by simplify_eq/=.
Qed.

Lemma update_row_healthy {R} (get : Database -> gmap string R) put id guard f db :
  db_faults db = [] ->
  sql (update_row get put id guard f) db
  = match get db !! id with
    | Some row => if guard row then (Ok 1, put (<[id := f row]>) db) else (Ok 0, db)
    | None => (Ok 0, db)
    end.
Proof.
  intros Hf. unfold sql, se_map_err, update_row. rewrite statement_healthy by done.
  destruct (get db !! id) as [row|]; [|done]. by destruct (guard row).
Qed.

Lemma update_row_ok {R} (get : Database -> gmap string R) put id guard f db n db' :
  sql (update_row get put id guard f) db = (Ok n, db') ->
  match get (next_statement db) !! id with
  | Some row =>
      if guard row then n = 1 /\ db' = put (<[id := f row]>) (next_statement db)
      else n = 0 /\ db' = next_statement db
  | None => n = 0 /\ db' = next_statement db
  end.
Proof.
  unfold sql, se_map_err, update_row. destruct (statement _ db) as [[b|e] db''] eqn:E; [|done].
  apply statement_ok in E. intros [= <- <-]. fold (next_statement db) in E.
  destruct (get (next_statement db) !! id) as [row|]; [destruct (guard row)|]; by simplify_eq.
Qed.

(** A failed statement changed nothing but the fault script. *)
Lemma statement_err {A} (f : Database -> result SqliteError (A * Database)) db e db' :
  statement f db = (Err e, db') -> exists faults, db' = set_faults faults db.
Proof.
  unfold statement. destruct (db_faults db) as [|[] faults] eqn:E; [| |];
    try (destruct (f _) as [[b db'']|]); intros; simplify_eq/=; eauto.
Qed.

(** ** Lemmas: what an operation leaves alone *)

(** Everything but the audit trail and the fault script. *)
Definition tables (db : Database) : Database := set_audit (fun _ => []) 0%Z (set_faults [] db).

Lemma statement_keeps {A} (f : Database -> result SqliteError (A * Database)) :
  (forall db a db', f db = Ok (a, db') -> tables db' = tables db) ->
  preserves (keeps tables) (statement f).
Proof.
  intros Hf db. unfold keeps, statement.
  destruct (db_faults db) as [|[] faults]; [| |]; try done;
    destruct (f _) as [[a db']|e] eqn:E; try done; (etrans; [apply (Hf _ _ _ E)|done]).
Qed.

Lemma select_keeps {A} (f : Database -> A) : preserves (keeps tables) (select f).
Proof. apply statement_keeps. by intros db a db' [= <- <-]. Qed.

Lemma write_audit_keeps record : preserves (keeps tables) (write_audit record).
Proof. apply preserves_map_err, statement_keeps. by intros db a db' [= <- <-]. Qed.

Lemma sql_keeps {A} (m : SE Database SqliteError A) :
  preserves (keeps tables) m -> preserves (keeps tables) (sql m).
Proof. apply preserves_map_err. Qed.

#[export] Hint Resolve select_keeps write_audit_keeps : frame.
#[export] Hint Extern 2 (preserves (keeps tables) (sql _)) => apply sql_keeps : frame.

Lemma find_device_keeps id : preserves (keeps tables) (find_device id).
Proof. unfold find_device. frame. Qed.

Lemma find_user_keeps id : preserves (keeps tables) (find_user id).
Proof. unfold find_user, read_user. frame. Qed.

Lemma find_user_by_username_keeps name : preserves (keeps tables) (find_user_by_username name).
Proof. unfold find_user_by_username, read_user. frame. Qed.

Lemma find_enrollment_keeps id : preserves (keeps tables) (find_enrollment id).
Proof. unfold find_enrollment, read_enrollment. frame. Qed.

Lemma find_enrollment_by_hash_keeps hash : preserves (keeps tables) (find_enrollment_by_hash hash).
Proof. unfold find_enrollment_by_hash, read_enrollment. frame. Qed.

#[export] Hint Resolve find_device_keeps find_user_keeps find_user_by_username_keeps
  find_enrollment_keeps find_enrollment_by_hash_keeps : frame.

(** Every statement a device lookup answers with comes from its row. *)
Lemma find_device_ok id db r db' :
  find_device id db = (Ok r, db') ->
  transpose (read_device_row id <$> db_devices db !! id) = Ok r /\ db' = next_statement db.
Proof.
  unfold find_device. intros (row & db1 & Hs & Hl)%se_bind_ok. apply select_ok in Hs as [-> ->].
  injection Hl as Hl <-. by split.
Qed.
