(* ===== verification/Auth.v ===== *)
(** * [src/auth/]: passwords, enrollment codes, console sessions and the shared lockout

    Who a caller is.  Randomness is an argument: [fill] is what [getrandom::fill] answered, [random]
    what [random_base64url] answered; the clock reading is an argument too. *)

From S2P Require Import Prelude.
From S2P Require Import RustStr.
From S2P Require Import Protocol.
From S2P Require Import Database.

(** ** [src/auth/random.rs] *)

Definition UNAMBIGUOUS_ALPHABET : string := "23456789ABCDEFGHJKLMNPQRSTUVWXYZ".

Definition unambiguous_char (byte : ascii) : ascii :=
  default "2"%char
    (String.get (N.to_nat (byte_val byte) mod str_len UNAMBIGUOUS_ALPHABET) UNAMBIGUOUS_ALPHABET).

(** [fill] is the outcome of filling the [count] bytes. *)
Definition random_unambiguous (count : nat) (fill : nat -> result string string)
    : result string string :=
  bytes ← fill count; Ok (str_map unambiguous_char bytes).

(** ** [src/auth/code.rs] *)

Definition GROUP_LENGTH : nat := 4.
Definition GROUP_COUNT : nat := 3.
Definition GROUP_SEPARATOR : ascii := dash.
Definition DEFAULT_TTL_MINUTES : Z := 15.
Definition MAX_TTL_MINUTES : Z := 24 * 60.

Definition group (characters : string) : string :=
  str_join (String GROUP_SEPARATOR EmptyString) (chunks GROUP_LENGTH characters).

Definition generate_code (fill : nat -> result string string) : result string string :=
  characters ← map_err (fun error => "无法生成接入码：" +:+ error)
                 (random_unambiguous (GROUP_LENGTH * GROUP_COUNT) fill);
  Ok (group characters).

Definition normalize_code (code : string) : option string :=
  let characters := str_map to_ascii_uppercase (str_filter is_ascii_alphanumeric code) in
  if bool_decide (str_len characters = GROUP_LENGTH * GROUP_COUNT) then Some (group characters)
  else None.

Definition clamp_ttl_minutes (requested : option Z) : Z :=
  clamp 1 MAX_TTL_MINUTES (default DEFAULT_TTL_MINUTES requested).

(** ** [src/auth/password.rs]

    Argon2 and the random salt are the crate [argon2]'s: [Argon2] names what the source calls. *)

Class Argon2 : Type := {
  (* [Argon2::default().hash_password(password, salt)] *)
  argon2_hash_password : string -> string -> result string string;
  (* [PasswordHash::new(hash)] followed by [verify_password]; [None] is a hash that does not parse *)
  argon2_verify_password : string -> string -> option bool;
}.

Class Argon2Laws (A : Argon2) : Prop := {
  (* a hash verifies the password it was made of *)
  argon2_verify_own : forall password salt hash,
    argon2_hash_password password salt = Ok hash -> argon2_verify_password password hash = Some true;
}.

Definition GENERATED_PASSWORD_LENGTH : nat := 16.
Definition MIN_PASSWORD_LENGTH : nat := 12.

Section passwords.
Context `{Argon2}.

Definition hash_failure (error : string) : string := "无法处理密码：" +:+ error.

Definition hash_password (salt password : string) : result string string :=
  map_err hash_failure (argon2_hash_password password salt).

Definition verify_password (password hash : string) : bool :=
  match argon2_verify_password password hash with
  | None => false
  | Some matches => matches
  end.

End passwords.

Definition generate_password (fill : nat -> result string string) : result string string :=
  map_err (fun error => "无法生成密码：" +:+ error)
    (random_unambiguous GENERATED_PASSWORD_LENGTH fill).

(** ** [src/auth/session.rs] *)

Definition SESSION_COOKIE_NAME : string := "termexo_relay_session".
Definition SESSION_TOKEN_BYTES : nat := 32.
Definition SESSION_LIFETIME_MS : Z := 7 * 24 * 60 * 60 * 1000.
Definition SESSION_RENEWAL_THRESHOLD_MS : Z := 60 * 60 * 1000.
Definition CSRF_HEADER : string := "x-requested-with".
Definition CSRF_HEADER_VALUE : string := "termexo-console".

Definition renewed_expiry (current_expires_at now : Z) : option Z :=
  let extended := (now + SESSION_LIFETIME_MS)%Z in
  if (SESSION_RENEWAL_THRESHOLD_MS <=? extended - current_expires_at)%Z then Some extended else None.

Definition secure_attribute (secure : bool) : string := if secure then "; Secure" else EmptyString.

Definition session_cookie (token : string) (secure : bool) : string :=
  SESSION_COOKIE_NAME +:+ "=" +:+ token +:+ "; HttpOnly; SameSite=Strict; Path=/; Max-Age="
  +:+ pretty (SESSION_LIFETIME_MS / 1000)%Z +:+ secure_attribute secure.

Definition cleared_session_cookie (secure : bool) : string :=
  SESSION_COOKIE_NAME +:+ "=; HttpOnly; SameSite=Strict; Path=/; Max-Age=0"
  +:+ secure_attribute secure.

Definition session_cookie_value (entry : string) : option string :=
  '(name, value) ← split_once equals (trim entry);
  if String.eqb name SESSION_COOKIE_NAME && negb (is_empty value) then Some value else None.

Definition read_session_cookies (fields : list string) : list string :=
  flat_map (fun field => omap session_cookie_value (split semicolon field)) fields.

Definition has_csrf_marker (header : option string) : bool :=
  match header with
  | Some value => eq_ignore_ascii_case value CSRF_HEADER_VALUE
  | None => false
  end.

Section sessions.
Context `{Protocol}.

Definition create_session (random : nat -> result string string) (now : Z) (user_id : string)
    (ip : option string) : DB string :=
  token ← se_lift (map_err DatabaseError_Random (random SESSION_TOKEN_BYTES));
  create_session_row
    (mkSessionRecord (hash_secret token) user_id now (now + SESSION_LIFETIME_MS)%Z ip) ;;
  mret token.

Definition resolve_session (token : string) (now : Z) : DB (option UserRecord) :=
  let id_hash := hash_secret token in
  found ← find_session id_hash;
  match found with
  | None => mret None
  | Some session =>
      if is_expired session now then delete_session id_hash ;; mret None
      else
        account ← find_user (ss_user_id session);
        match account with
        | None => delete_session id_hash ;; mret None
        | Some user =>
            if us_disabled user then delete_session id_hash ;; mret None
            else
              match renewed_expiry (ss_expires_at session) now with
              | Some expires_at => extend_session id_hash expires_at
              | None => mret tt
              end ;;
              mret (Some user)
        end
  end.

Definition destroy_session (token : string) : DB unit := delete_session (hash_secret token).

Definition hash_code (canonical_code : string) : string := hash_secret canonical_code.

End sessions.

(** ** [LockoutTable] of [src/auth/mod.rs] *)

Definition LOCKED_OUT_MESSAGE : string := "失败次数过多，请稍后再试。".

Section lockout.
Context `{Protocol}.

Definition LockoutTable : Type := FailureThrottle.

Definition is_locked (table : LockoutTable) (source : string) (now : Z) : bool :=
  FailureThrottle_is_locked table source now.

Definition record_failure (source : string) (now : Z) (table : LockoutTable) : LockoutTable :=
  snd (FailureThrottle_record_failure table source now).

Definition lockout_clear (source : string) (table : LockoutTable) : LockoutTable :=
  FailureThrottle_clear table source.

End lockout.

(** ** Lemmas: codes *)

Lemma str_filter_group (s : string) :
  str_all is_ascii_alphanumeric s = true -> str_filter is_ascii_alphanumeric (group s) = s.
Proof.
  intros Hs. unfold group, chunks. rewrite str_filter_join.
  - apply chunks_fuel_join; unfold GROUP_LENGTH; lia.
  - done.
  - intros piece. by apply str_all_chunks.
Qed.

Lemma unambiguous_char_alphanumeric (c : ascii) : is_ascii_alphanumeric (unambiguous_char c) = true.
Proof. by destruct c as [[] [] [] [] [] [] [] []]. Qed.

Lemma unambiguous_char_uppercase (c : ascii) :
  Ascii.eqb (to_ascii_uppercase (unambiguous_char c)) (unambiguous_char c) = true.
Proof. by destruct c as [[] [] [] [] [] [] [] []]. Qed.

Lemma to_ascii_uppercase_idemp (c : ascii) :
  Ascii.eqb (to_ascii_uppercase (to_ascii_uppercase c)) (to_ascii_uppercase c) = true.
Proof. by destruct c as [[] [] [] [] [] [] [] []]. Qed.

Lemma to_ascii_uppercase_alphanumeric (c : ascii) :
  is_ascii_alphanumeric (to_ascii_uppercase c) = is_ascii_alphanumeric c.
Proof. by destruct c as [[] [] [] [] [] [] [] []]. Qed.

Lemma str_all_uppercase (s : string) :
  str_all is_ascii_alphanumeric (str_map to_ascii_uppercase s) = str_all is_ascii_alphanumeric s.
Proof. induction s as [|c s IH]; [done|]. simpl. by rewrite to_ascii_uppercase_alphanumeric, IH. Qed.

Lemma str_all_filter (f : ascii -> bool) (s : string) : str_all f (str_filter f s) = true.
Proof. induction s as [|c s IH]; [done|]. simpl. destruct (f c) eqn:E; [|done]. simpl. by rewrite E. Qed.

(** A canonical spelling is a fixed point of [normalize_code]. *)
Lemma normalize_group (s : string) :
  str_all is_ascii_alphanumeric s = true -> str_map to_ascii_uppercase s = s ->
  str_len s = GROUP_LENGTH * GROUP_COUNT -> normalize_code (group s) = Some (group s).
Proof.
  intros Ha Hu Hn. unfold normalize_code. rewrite str_filter_group by done. rewrite Hu.
  by rewrite bool_decide_eq_true_2.
Qed.

(** ** Lemmas: sessions *)

Lemma find_session_ok id_hash db r db' :
  find_session id_hash db = (Ok r, db') ->
  r = read_session_row <$> db_sessions db !! id_hash /\ db' = next_statement db.
Proof. intros Hf. by apply select_ok in Hf as [-> ->]. Qed.

Lemma find_user_ok id db r db' :
  find_user id db = (Ok r, db') ->
  transpose (read_user_row id <$> db_users db !! id) = Ok r /\ db' = next_statement db.
Proof.
  unfold find_user, read_user. intros (row & db1 & Hs & Hl)%se_bind_ok.
  apply select_ok in Hs as [-> ->]. unfold se_lift in Hl. simpl in Hl.
  injection Hl as Hl <-. split; [|done]. rewrite <- Hl. by destruct (db_users db !! id).
Qed.

Lemma find_user_healthy id db :
  db_faults db = [] ->
  find_user id db = (transpose (read_user_row id <$> db_users db !! id), db).
Proof.
  intros Hf. unfold find_user, read_user. erewrite se_bind_eq by by apply select_healthy.
  unfold se_lift. by destruct (db_users db !! id).
Qed.

Lemma extend_session_healthy id_hash expires_at db s :
  db_faults db = [] -> db_sessions db !! id_hash = Some s ->
  extend_session id_hash expires_at db
  = (Ok tt, set_sessions (<[id_hash := mkSessionRecord (ss_id_hash s) (ss_user_id s)
                              (ss_created_at s) expires_at (ss_ip s)]>) db).
Proof.
  intros Hf Hs. unfold extend_session. erewrite se_bind_eq; [done|].
  rewrite update_row_healthy by done. by rewrite Hs.
Qed.

Lemma read_user_row_id id row user : read_user_row id row = Ok user -> us_id user = id.
Proof.
  unfold read_user_row. run. destruct (UserRole_parse (ur_role row)); [|done]. by intros [= <-].
Qed.

Section session_theorems.
Context `{Protocol}.

(** A session that is stored, readable and live: what [resolve_session] does with it. *)
Definition live_session (db : Database) (token : string) (now : Z) (s : SessionRecord)
    (user : UserRecord) : Prop :=
  db_sessions db !! hash_secret token = Some s
  /\ (now < ss_expires_at s)%Z
  /\ (exists row, db_users db !! ss_user_id s = Some row /\ read_user_row (ss_user_id s) row = Ok user)
  /\ us_disabled user = false.

Lemma resolve_live db token now s user :
  db_faults db = [] -> live_session db token now s user ->
  exists db', resolve_session token now db = (Ok (Some user), db')
  /\ db_faults db' = [] /\ db_users db' = db_users db
  /\ exists s', db_sessions db' !! hash_secret token = Some s'
     /\ ss_user_id s' = ss_user_id s
     /\ (now + SESSION_LIFETIME_MS - SESSION_RENEWAL_THRESHOLD_MS < ss_expires_at s')%Z.
Proof.
  intros Hf (Hs & Hlt & (row & Hrow & Hread) & Hdis). unfold resolve_session.
  erewrite se_bind_eq by by apply select_healthy. rewrite Hs. simpl. unfold is_expired. simpl.
  rewrite (proj2 (Z.leb_gt _ _)) by lia.
  erewrite se_bind_eq; [|rewrite find_user_healthy, Hrow by done; simpl; by rewrite Hread].
  simpl. rewrite Hdis. unfold renewed_expiry. simpl.
  destruct (Z.leb_spec SESSION_RENEWAL_THRESHOLD_MS (now + SESSION_LIFETIME_MS - ss_expires_at s)).
  - erewrite se_bind_eq by by apply extend_session_healthy. eexists. split; [done|].
    split_and!; [done..|]. eexists. split; [simpl; by rewrite lookup_insert_eq|]. split; [done|]. simpl.
    unfold SESSION_RENEWAL_THRESHOLD_MS, SESSION_LIFETIME_MS. lia.
  - erewrite se_bind_eq by done. eexists. split; [done|]. split_and!; [done..|].
    exists s. split_and!; [done..|lia].
Qed.

(** A token that resolves to nobody only ever takes sessions away. *)
Lemma resolve_session_none token now db db' :
  resolve_session token now db = (Ok None, db') ->
  db_sessions db' ⊆ db_sessions db /\ db_users db' = db_users db.
Proof.
  assert (Hdel : forall h (d : Database) a d', (delete_session h ;; (mret None : DB (option UserRecord))) d = (Ok a, d') ->
            db_sessions d' ⊆ db_sessions d /\ db_users d' = db_users d).
  { intros h d a d' Hd. apply se_bind_ok in Hd as ([] & d1 & Hd & [= <- <-]).
    apply write_ok in Hd as ->. simpl. split; [apply delete_subseteq|done]. }
  unfold resolve_session. intros (found & db1 & Hfind & Hrun)%se_bind_ok.
  apply find_session_ok in Hfind as [-> ->].
  destruct (db_sessions db !! hash_secret token) as [s|] eqn:Hs; simpl in Hrun.
  - destruct (is_expired (read_session_row s) now); [by apply Hdel in Hrun|].
    apply se_bind_ok in Hrun as (account & db2 & Hu & Hrun). apply find_user_ok in Hu as [Hu ->].
    destruct account as [u|]; [|by apply Hdel in Hrun].
    destruct (us_disabled u); [by apply Hdel in Hrun|].
    by apply se_bind_ok in Hrun as (? & ? & _ & ?).
  - injection Hrun as <-. done.
Qed.

(** Presenting one token at a sequence of moments. *)
Fixpoint resolve_each (token : string) (times : list Z) : DB (list (option UserRecord)) :=
  match times with
  | [] => mret []
  | now :: rest =>
      answer ← resolve_session token now; answers ← resolve_each token rest; mret (answer :: answers)
  end.

(** No gap between two uses reaches the lifetime less the renewal threshold. *)
Fixpoint paced (previous : Z) (times : list Z) : Prop :=
  match times with
  | [] => True
  | now :: rest =>
      (now - previous <= SESSION_LIFETIME_MS - SESSION_RENEWAL_THRESHOLD_MS)%Z /\ paced now rest
  end.

Lemma resolve_each_paced db token times previous s user row :
  db_faults db = [] -> db_sessions db !! hash_secret token = Some s ->
  (previous + SESSION_LIFETIME_MS - SESSION_RENEWAL_THRESHOLD_MS < ss_expires_at s)%Z ->
  db_users db !! ss_user_id s = Some row -> read_user_row (ss_user_id s) row = Ok user ->
  us_disabled user = false -> paced previous times ->
  fst (resolve_each token times db) = Ok ((fun _ => Some user) <$> times).
Proof.
  revert db previous s. induction times as [|now rest IH]; [done|].
  intros db previous s Hf Hs Hlt Hrow Hread Hdis [Hpace Hrest]. cbn [resolve_each].
  destruct (resolve_live db token now s user) as (db' & Hr & Hf' & Hu' & s' & Hs' & Hid & Hlt').
  { done. }
  { split_and!; [done|lia| |done]. eauto. }
  erewrite se_bind_eq by done.
  specialize (IH db' now s' Hf' Hs' Hlt'). rewrite Hid, Hu' in IH.
  specialize (IH Hrow Hread Hdis Hrest).
  destruct (resolve_each token rest db') as [r db''] eqn:E. simpl in IH. subst r.
  by erewrite se_bind_eq by done.
Qed.

(** A session with another deadline. *)
Definition with_deadline (expires_at : Z) (s : SessionRecord) : SessionRecord :=
  mkSessionRecord (ss_id_hash s) (ss_user_id s) (ss_created_at s) expires_at (ss_ip s).

(** The database with other sessions and nothing else changed; which statements fail is not part of it. *)
Definition sessions_become (sessions : gmap string SessionRecord) (db db' : Database) : Prop :=
  set_faults [] db' = set_faults [] (set_sessions (fun _ => sessions) db).

Lemma resolve_session_some (token : string) (now : Z) (db db' : Database) (user : UserRecord) :
  resolve_session token now db = (Ok (Some user), db') ->
  exists s, live_session db token now s user /\ us_id user = ss_user_id s
  /\ (sessions_become (db_sessions db) db db'
      \/ exists later, (ss_expires_at s < later)%Z
         /\ sessions_become (<[hash_secret token := with_deadline later s]> (db_sessions db)) db db').
Proof.
  unfold resolve_session. intros (found & db1 & Hfind & Hrun)%se_bind_ok.
  apply find_session_ok in Hfind as [-> ->].
  destruct (db_sessions db !! hash_secret token) as [s|] eqn:Hs; [|done]. simpl in Hrun.
  unfold is_expired in Hrun. simpl in Hrun. destruct (Z.leb_spec (ss_expires_at s) now).
  { by apply se_bind_ok in Hrun as (? & ? & _ & ?). }
  apply se_bind_ok in Hrun as (account & db2 & Hu & Hrun). apply find_user_ok in Hu as [Hu ->].
  destruct account as [u|]; [|by apply se_bind_ok in Hrun as (? & ? & _ & ?)].
  destruct (us_disabled u) eqn:Hdis; [by apply se_bind_ok in Hrun as (? & ? & _ & ?)|].
  apply se_bind_ok in Hrun as ([] & db3 & Hext & [= <- <-]). exists s.
  change (db_users (next_statement db)) with (db_users db) in Hu.
  destruct (db_users db !! ss_user_id s) as [row|] eqn:Hrow; [|done]. simpl in Hu.
  destruct (read_user_row (ss_user_id s) row) as [u'|] eqn:Hread; [|done].
  injection Hu as ->. unfold live_session.
  split; [split_and!; eauto|]. split; [by eapply read_user_row_id|].
  unfold renewed_expiry in Hext. simpl in Hext.
  destruct (Z.leb_spec SESSION_RENEWAL_THRESHOLD_MS (now + SESSION_LIFETIME_MS - ss_expires_at s)) in Hext.
  - apply se_bind_ok in Hext as (n & db4 & Hup & [= <-]). apply update_row_ok in Hup.
    change (db_sessions (next_statement (next_statement (next_statement db)))) with (db_sessions db) in Hup.
    rewrite Hs in Hup. destruct Hup as [_ ->]. right. exists (now + SESSION_LIFETIME_MS)%Z.
    split; [unfold SESSION_RENEWAL_THRESHOLD_MS in *; lia|done].
  - injection Hext as <-. left. by destruct db.
Qed.

(** A statement that fails, or only reads, changes nothing that is stored. *)
Lemma statement_failed {A} (f : Database -> result SqliteError (A * Database)) db e db' :
  sql (statement f) db = (Err e, db') -> set_faults [] db' = set_faults [] db.
Proof.
  unfold sql, se_map_err. destruct (statement f db) as [[a|e'] db''] eqn:Hs; [done|]. intros [= _ <-].
  apply statement_err in Hs as [faults ->]. done.
Qed.

Lemma delete_session_failed h db e db' :
  delete_session h db = (Err e, db') -> set_faults [] db' = set_faults [] db.
Proof. apply statement_failed. Qed.

Lemma extend_session_failed h later db e db' :
  extend_session h later db = (Err e, db') -> set_faults [] db' = set_faults [] db.
Proof.
  unfold extend_session, mbind, se_bind, update_row.
  destruct (sql _ db) as [[n|e'] db1] eqn:Hs; [done|]. intros [= _ <-]. by apply statement_failed in Hs.
Qed.

Lemma find_user_reads id db : set_faults [] (snd (find_user id db)) = set_faults [] db.
Proof.
  unfold find_user, read_user, mbind, se_bind.
  destruct (sql _ db) as [[row|e] db1] eqn:Hs; [apply select_ok in Hs as [_ ->]|apply statement_failed in Hs];
    [|done]. simpl. by destruct row.
Qed.

(** What the other answers leave behind: no account only ever costs the token its own session, and a failure
    costs nothing. *)
Lemma resolve_session_other token now db answer db' :
  resolve_session token now db = (answer, db') ->
  match answer with
  | Ok (Some _) => True
  | Ok None => sessions_become (delete (hash_secret token) (db_sessions db)) db db'
  | Err _ => sessions_become (db_sessions db) db db'
  end.
Proof.
  assert (Hsame : forall d, set_faults [] d = set_faults [] db -> sessions_become (db_sessions db) db d)
    by (intros d Hd; unfold sessions_become; rewrite Hd; by destruct db).
  assert (Hgone : forall d r d', set_faults [] d = set_faults [] db ->
    (delete_session (hash_secret token) ;; (mret None : DB (option UserRecord))) d = (r, d') ->
    match r with
    | Ok (Some _) => True
    | Ok None => sessions_become (delete (hash_secret token) (db_sessions db)) db d'
    | Err _ => sessions_become (db_sessions db) db d'
    end).
  { intros d r d' Hd. unfold mbind, se_bind. destruct (delete_session _ d) as [[[]|e] d1] eqn:Hrun; intros [= <- <-].
    - apply write_ok in Hrun as ->. unfold sessions_become. destruct d, db. cbn in *. by injection Hd as -> -> -> -> -> -> ->.
    - apply Hsame. apply delete_session_failed in Hrun. etrans; [exact Hrun|exact Hd]. }
  unfold resolve_session. unfold mbind at 1, se_bind at 1.
  destruct (find_session (hash_secret token) db) as [[found|e] db1] eqn:Hfind;
    [|intros [= <- <-]; by apply Hsame, (statement_failed _ _ _ _ Hfind)].
  apply find_session_ok in Hfind as [-> ->].
  destruct (db_sessions db !! hash_secret token) as [s|] eqn:Hs; cbn [fmap option_fmap option_map].
  2:{ intros [= <- <-]. unfold sessions_become. rewrite delete_id by done. by destruct db. }
  destruct (is_expired _ now); [by apply Hgone|].
  unfold mbind at 1, se_bind at 1. pose proof (find_user_reads (ss_user_id (read_session_row s)) (next_statement db)) as Hu.
  destruct (find_user _ _) as [[account|e] db2]; cbn in Hu; [|intros [= <- <-]; by apply Hsame].
  destruct account as [user|]; [|by apply Hgone]. destruct (us_disabled user); [by apply Hgone|].
  unfold mbind, se_bind. destruct (renewed_expiry _ now) as [later|]; [|by intros [= <- <-]].
  destruct (extend_session _ later db2) as [[[]|e] db3] eqn:Hx; intros [= <- <-]; [done|].
  apply Hsame. apply extend_session_failed in Hx. etrans; [exact Hx|exact Hu].
Qed.

(** ** Properties *)

(** An enrollment code survives being retyped.  Whatever twelve random bytes it was drawn from,
    any text with the same letters and digits - grouped or not, in either case, with spaces or dashes
    anywhere - is brought back to exactly the issued code, and what normalization accepts is a fixed
    point of it. *)
Theorem enrollment_code_roundtrip (bytes code typed : string) :
  str_len bytes = GROUP_LENGTH * GROUP_COUNT ->
  generate_code (fun _ => Ok bytes) = Ok code ->
  (str_map to_ascii_uppercase (str_filter is_ascii_alphanumeric typed)
   = str_filter is_ascii_alphanumeric code -> normalize_code typed = Some code)
  /\ (forall c, normalize_code typed = Some c -> normalize_code c = Some c).
Proof.
  intros Hlen Hgen. split.
  - unfold generate_code, random_unambiguous in Hgen. run_in Hgen. injection Hgen as <-.
    rewrite str_filter_group by (apply str_all_map, unambiguous_char_alphanumeric).
    intros Htyped. unfold normalize_code. rewrite Htyped, str_map_length, Hlen.
    by rewrite bool_decide_eq_true_2.
  - intros c. unfold normalize_code at 1. case_bool_decide as Hn; [|done]. intros [= <-].
    apply normalize_group.
    + rewrite str_all_uppercase. apply str_all_filter.
    + apply str_map_id, str_all_map. intros. apply to_ascii_uppercase_idemp.
    + done.
Qed.

(** C16: a token only ever resolves to the account its stored, unexpired session names, and only while
    that account exists, has a known role and is not disabled - even when the database fails at any
    point - and resolving changes nothing that is stored but that one session's deadline, which only moves
    on.  A token that resolves to no account loses its own session, if it had one, and nothing else
    changes; a failure changes nothing. *)
Theorem session_safety (token : string) (now : Z) (db db' : Database)
    (answer : result DatabaseError (option UserRecord)) :
  resolve_session token now db = (answer, db') ->
  match answer with
  | Ok (Some user) =>
      exists s, live_session db token now s user /\ us_id user = ss_user_id s
      /\ (sessions_become (db_sessions db) db db'
          \/ exists later, (ss_expires_at s < later)%Z
             /\ sessions_become (<[hash_secret token := with_deadline later s]> (db_sessions db)) db db')
  | Ok None => sessions_become (delete (hash_secret token) (db_sessions db)) db db'
  | Err _ => sessions_become (db_sessions db) db db'
  end.
Proof.
  intros Hrun. pose proof (resolve_session_other _ _ _ _ _ Hrun) as Hother.
  destruct answer as [[user|]|e]; [by apply resolve_session_some|done|done].
Qed.

(** C17: a session that is used never runs out.  On a database that works, a session created for an
    account in good standing resolves to that account at every later use, however many there are, as
    long as no two uses are further apart than the lifetime less the renewal threshold (six days and
    twenty-three hours). *)
Theorem session_slides (random : nat -> result string string) (created : Z) (user_id token : string)
    (ip : option string) (db db' : Database) (row : UserRow) (user : UserRecord) (times : list Z) :
  db_faults db = [] ->
  create_session random created user_id ip db = (Ok token, db') ->
  db_users db !! user_id = Some row -> read_user_row user_id row = Ok user ->
  us_disabled user = false ->
  paced created times ->
  fst (resolve_each token times db') = Ok ((fun _ => Some user) <$> times).
Proof.
  intros Hf Hc Hrow Hread Hdis Hp. unfold create_session in Hc.
  apply se_bind_ok in Hc as (t & db1 & Hr & Hc). unfold se_lift in Hr. injection Hr as _ <-.
  apply se_bind_ok in Hc as ([] & db2 & Hins & [= <- <-]).
  unfold create_session_row, sql, se_map_err in Hins. rewrite statement_healthy in Hins by done.
  simpl in Hins. destruct (db_sessions db !! hash_secret t) eqn:Hs; [done|]. injection Hins as <-.
  eapply (resolve_each_paced _ t times created); simpl; [done|by rewrite lookup_insert_eq|..]; eauto.
  simpl. unfold SESSION_RENEWAL_THRESHOLD_MS. lia.
Qed.

End session_theorems.

(** ** Witnesses *)

Lemma enrollment_code_witness :
  str_len "0123456789ab" = GROUP_LENGTH * GROUP_COUNT
  /\ generate_code (fun _ => Ok "0123456789ab") = Ok "JKLM-NPQR-ST34"
  /\ normalize_code " jklmNPQR st3-4" = Some "JKLM-NPQR-ST34".
Proof.
  split; [reflexivity|]. split; [vm_compute; reflexivity|].
  apply (enrollment_code_roundtrip "0123456789ab" "JKLM-NPQR-ST34" " jklmNPQR st3-4");
    vm_compute; reflexivity.
Defined.

Definition sample_user_row : UserRow := mkUserRow "ada" "hash" "user" 0 1 None.

Definition sample_user : UserRecord := mkUserRecord "u1" "ada" "hash" UserRole_User false 1 None.

Definition sample_session : SessionRecord :=
  mkSessionRecord "#t" "u1" 0 SESSION_LIFETIME_MS None.

Definition sample_session_database : Database :=
  set_sessions (fun _ => {[ "#t" := sample_session ]})
    (set_users (fun _ => {[ "u1" := sample_user_row ]}) empty_database).

Lemma session_safety_witness :
  exists db', resolve_session (H := sample_protocol) "t" 5000000 sample_session_database
              = (Ok (Some sample_user), db')
  /\ exists s, live_session (H := sample_protocol) sample_session_database "t" 5000000 s sample_user.
Proof.
  eexists. split; [vm_compute; reflexivity|].
  destruct (session_safety (H := sample_protocol) "t" 5000000 sample_session_database _ (Ok (Some sample_user))
    ltac:(vm_compute; reflexivity)) as (s & Hs & _). exists s. exact Hs.
Defined.

Lemma session_slides_witness :
  fst (resolve_each (H := sample_protocol) "t" [600000000; 1200000000; 1800000000]%Z
         (snd (create_session (H := sample_protocol) (fun _ => Ok "t") 0 "u1" None
                 (set_users (fun _ => {[ "u1" := sample_user_row ]}) empty_database))))
  = Ok [Some sample_user; Some sample_user; Some sample_user].
Proof.
  apply (session_slides (H := sample_protocol) (fun _ => Ok "t") 0 "u1" "t" None
           (set_users (fun _ => {[ "u1" := sample_user_row ]}) empty_database) _ sample_user_row
           sample_user [600000000; 1200000000; 1800000000]%Z);
    try (vm_compute; reflexivity).
  cbn [paced]. unfold SESSION_LIFETIME_MS, SESSION_RENEWAL_THRESHOLD_MS. lia.
Defined.
