(* ===== verification/Address.v ===== *)
(** * [src/address.rs]: the public address of a device, in both routing modes

    Everything that builds a device address or reads one back goes through [DeviceAddressing]; the
    theorem is that reading back what was built finds the device again. *)

From S2P Require Import Prelude.
From S2P Require Import RustStr.
From S2P Require Import Protocol.
From S2P Require Import Config.

Inductive DeviceEntry : Type :=
| DeviceEntry_Path
| DeviceEntry_Subdomain.

#[export] Instance DeviceEntry_eq_dec : EqDecision DeviceEntry.
Proof. solve_decision. Defined.

Record DeviceTarget : Type := mkDeviceTarget {
  dt_device_id : string;
  dt_rest : string;
  dt_entry : DeviceEntry;
}.

Record DeviceAddressing : Type := mkDeviceAddressing {
  da_public_url : PublicUrl;
  da_subdomain_base : option SubdomainBase;
}.

Definition SUBDOMAIN_BASE_PATH : string := "/".
Definition HOST_PORT_SEPARATOR : ascii := colon.
Definition HOST_ROOT_DOT : ascii := dot.
Definition HTTPS_PROTO : string := "https".
Definition HTTP_PROTO : string := "http".

(** [forwarded::scheme]. *)
Definition scheme (secure : bool) : string := if secure then HTTPS_PROTO else HTTP_PROTO.

(** The query of a request, with the [?] that introduces it. *)
Definition query_suffix (query : option string) : string :=
  match query with
  | Some q => String "?" q
  | None => EmptyString
  end.

Definition DeviceAddressing_wildcard_name (a : DeviceAddressing) : option string :=
  wildcard_name <$> da_subdomain_base a.

Section addressing.
Context `{Protocol} `{Platform}.

Definition path_base (device_id : string) : string :=
  DEVICE_PATH_PREFIX +:+ device_id +:+ String slash EmptyString.

Definition base_path (target : DeviceTarget) : string :=
  match dt_entry target with
  | DeviceEntry_Path => path_base (dt_device_id target)
  | DeviceEntry_Subdomain => SUBDOMAIN_BASE_PATH
  end.

Definition device_url (a : DeviceAddressing) (device_id : string) : string :=
  match da_subdomain_base a with
  | Some base =>
      scheme (pu_secure (da_public_url a)) +:+ "://" +:+ device_id
      +:+ String HOST_ROOT_DOT (sb_host base)
      +:+ port_suffix (da_public_url a) +:+ String slash EmptyString
  | None => pu_origin (da_public_url a) +:+ path_base device_id
  end.

Definition path_form_url (a : DeviceAddressing) (device_id rest : string) (query : option string)
    : string :=
  pu_origin (da_public_url a) +:+ path_base device_id +:+ rest +:+ query_suffix query.

Definition normalize_host (host : string) : string :=
  let host := trim host in
  let name :=
    match rsplit_once HOST_PORT_SEPARATOR host with
    | Some (name, _) => if negb (ends_with host "]") then name else host
    | None => host
    end in
  to_lowercase unicode_lowercase (trim_end_char HOST_ROOT_DOT name).

Definition device_from_host (a : DeviceAddressing) (host : string) : option string :=
  base ← da_subdomain_base a;
  label ← label_of base (normalize_host host);
  DeviceId_parse label.

End addressing.

(** ** Lemmas *)

(** The bytes of a lowercase host name. *)
Definition is_name_byte (c : ascii) : bool :=
  is_ascii_lowercase c || is_ascii_digit c || Ascii.eqb c dash || Ascii.eqb c dot.

Lemma is_name_byte_spec (c : ascii) :
  is_name_byte c = true ->
  is_graphic c = true /\ is_ascii c = true /\ to_ascii_lowercase c = c /\ Ascii.eqb c colon = false.
Proof. by destruct c as [[] [] [] [] [] [] [] []]. Qed.

Lemma label_byte_lowercase (c : ascii) :
  is_label_byte (to_ascii_lowercase c) = true -> is_name_byte (to_ascii_lowercase c) = true.
Proof. by destruct c as [[] [] [] [] [] [] [] []]. Qed.

Lemma str_map_fixed (f : ascii -> ascii) (s : string) :
  str_all (fun c => Ascii.eqb (f c) c) s = true -> str_map f s = s.
Proof.
  induction s as [|c s IH]; [done|]. simpl. intros [->%Ascii.eqb_eq Hs]%andb_true_iff. by rewrite IH.
Qed.

Lemma name_lowercase (u : string -> string) (s : string) :
  str_all is_name_byte s = true -> to_lowercase u s = s.
Proof.
  intros Hs. unfold to_lowercase.
  rewrite (str_all_impl is_name_byte is_ascii) by (done || apply is_name_byte_spec).
  apply str_map_fixed. eapply str_all_impl; [|exact Hs].
  intros c Hc. apply Ascii.eqb_eq. by apply is_name_byte_spec.
Qed.

Lemma str_all_join (f : ascii -> bool) (c : ascii) (l : list string) :
  f c = true -> (forall s, s ∈ l -> str_all f s = true) ->
  str_all f (str_join (String c EmptyString) l) = true.
Proof.
  intros Hc Hl. induction l as [|s l IH]; [done|]. destruct l as [|t l]; [apply Hl; left|].
  rewrite str_join_cons by done. rewrite !str_all_app. cbn [str_all].
  rewrite Hc, (Hl s), IH by (left || (intros; apply Hl; by right)). done.
Qed.

Lemma last_is_join (c : ascii) (l : list string) :
  (forall s, s ∈ l -> is_empty s = false /\ last_is c s = false) -> l <> [] ->
  last_is c (str_join (String c EmptyString) l) = false.
Proof.
  intros Hl Hne. induction l as [|s l IH]; [done|]. destruct l as [|t l]; [apply Hl; left|].
  rewrite str_join_cons by done.
  assert (Hrest : last_is c (str_join (String c EmptyString) (t :: l)) = false)
    by (apply IH; [intros; apply Hl; by right|done]).
  unfold last_is in *. rewrite !rev_append.
  destruct (String.rev (str_join (String c EmptyString) (t :: l))) as [|d r] eqn:E; [|done].
  exfalso. assert (He : is_empty (str_join (String c EmptyString) (t :: l)) = true).
  { rewrite <- (rev_involutive (str_join _ (t :: l))), E. done. }
  destruct (Hl t) as [Ht _]; [right; left|]. destruct t as [|d t]; [done|].
  destruct l; by cbn in He.
Qed.

Section lemmas.
Context `{Protocol} `{Platform}.

Lemma str_all_filter_map_split (f : ascii -> bool) (c : ascii) (s : string) :
  f c = true -> (forall piece, piece ∈ split c s -> str_all f piece = true) -> str_all f s = true.
Proof. intros Hc Hp. rewrite <- (str_join_split c s). by apply str_all_join. Qed.

(** What [--subdomain-base] accepts is a lowercase name that does not end in a dot. *)
Lemma SubdomainBase_from_str_name (value : string) (base : SubdomainBase) :
  str_all is_ascii (trim_matches_char HOST_LABEL_SEPARATOR (trim value)) = true ->
  SubdomainBase_from_str value = Ok base ->
  str_all is_name_byte (sb_host base) = true /\ last_is dot (sb_host base) = false.
Proof.
  intros Ha. unfold SubdomainBase_from_str, to_lowercase. rewrite Ha. cbv zeta.
  set (n := str_map to_ascii_lowercase _). destruct (is_empty n || _ || existsb _ _) eqn:E; [done|].
  intros [= <-]. simpl. apply orb_false_iff in E as [_ E]. rewrite existsb_false_iff in E.
  assert (Hp : forall piece, piece ∈ split HOST_LABEL_SEPARATOR n -> is_host_label piece = true).
  { intros piece Hin. specialize (E piece Hin). by apply negb_false_iff in E. }
  split.
  - assert (Hl : str_all (fun c => is_label_byte c || Ascii.eqb c dot) n = true).
    { apply (str_all_filter_map_split _ dot); [done|]. intros piece Hin. specialize (Hp piece Hin).
      unfold is_host_label in Hp. rewrite !andb_true_iff in Hp. destruct Hp as [_ Hp].
      eapply str_all_impl; [|exact Hp]. intros c ->. done. }
    revert Hl. unfold n. generalize (trim_matches_char HOST_LABEL_SEPARATOR (trim value)). intros s.
    induction s as [|c s IH]; [done|]. simpl. rewrite !andb_true_iff. intros [Hc Hs].
    split; [|auto]. apply orb_true_iff in Hc as [Hc|Hc]; [by apply label_byte_lowercase|].
    apply Ascii.eqb_eq in Hc. by rewrite Hc.
  - rewrite <- (str_join_split HOST_LABEL_SEPARATOR n). apply last_is_join; [|apply split_not_nil].
    intros piece Hin. specialize (Hp piece Hin). unfold is_host_label in Hp.
    rewrite !andb_true_iff, negb_true_iff in Hp. destruct Hp as ((((He & _) & _) & _) & Hb).
    split; [done|]. eapply str_all_last; [exact Hb|done].
Qed.

Lemma label_of_self (base : SubdomainBase) (label : string) :
  is_empty label = false -> contains_char label dot = false ->
  label_of base (label +:+ String HOST_ROOT_DOT (sb_host base)) = Some label.
Proof.
  intros He Hd. unfold label_of.
  change (String HOST_ROOT_DOT (sb_host base)) with (String dot EmptyString +:+ sb_host base).
  rewrite <- append_assoc, strip_suffix_app. simpl.
  change (String HOST_LABEL_SEPARATOR EmptyString) with (String dot EmptyString).
  rewrite strip_suffix_app. simpl. unfold HOST_LABEL_SEPARATOR. by rewrite He, Hd.
Qed.

Lemma normalize_host_plain (name : string) :
  str_all is_name_byte name = true -> last_is dot name = false -> normalize_host name = name.
Proof.
  intros Hn Hl. unfold normalize_host.
  rewrite trim_graphic by (eapply str_all_impl; [|exact Hn]; apply is_name_byte_spec).
  rewrite rsplit_once_None.
  - rewrite trim_end_char_id by done. by apply name_lowercase.
  - eapply (str_all_not_contains is_name_byte); done.
Qed.

Lemma normalize_host_port (name port : string) :
  str_all is_name_byte name = true -> last_is dot name = false ->
  str_all is_graphic port = true -> contains_char port colon = false ->
  last_is "]" (String colon port) = false ->
  normalize_host (name +:+ String colon port) = name.
Proof.
  intros Hn Hl Hg Hc Hb. unfold normalize_host. rewrite trim_graphic.
  - unfold HOST_PORT_SEPARATOR. rewrite rsplit_once_app by done. rewrite ends_with_char.
    assert (last_is "]" (name +:+ String colon port) = false) as ->.
    { unfold last_is in *. rewrite rev_append. by destruct (String.rev (String colon port)) eqn:E;
        [rewrite rev_String in E; destruct (String.rev port)|]. }
    rewrite trim_end_char_id by done. by apply name_lowercase.
  - rewrite str_all_app. simpl. rewrite Hg, andb_true_r.
    eapply str_all_impl; [|exact Hn]. apply is_name_byte_spec.
Qed.

End lemmas.

Lemma last_is_append_nonempty (c d : ascii) (s t : string) :
  last_is c (s +:+ String d t) = last_is c (String d t).
Proof.
  unfold last_is. rewrite rev_append. destruct (String.rev (String d t)) eqn:E; [|done].
  rewrite rev_String in E. by destruct (String.rev t).
Qed.

Lemma port_suffix_all (u : PublicUrl) : host_name u = pu_host u -> port_suffix u = EmptyString.
Proof.
  intros Hn. unfold port_suffix. rewrite Hn, Nat.sub_diag. generalize (pu_host u).
  induction s as [|c s IH]; [done|]. simpl. exact IH.
Qed.

(** The port of a public URL, as [port_suffix] keeps it: absent, or one colon and no more. *)
Lemma port_suffix_shape (u : PublicUrl) :
  str_all is_graphic (pu_host u) = true ->
  port_suffix u = EmptyString
  \/ exists port, port_suffix u = String colon port /\ contains_char port colon = false
     /\ str_all is_graphic port = true /\ last_is "]" (String colon port) = false.
Proof.
  intros Hg. destruct (rsplit_once colon (pu_host u)) as [[name port]|] eqn:E.
  - destruct (last_is "]" (pu_host u)) eqn:Hb.
    + left. apply port_suffix_all. unfold host_name. by rewrite E, ends_with_char, Hb.
    + right. exists port. apply rsplit_once_Some in E as [Hh Hc].
      destruct (host_name_port u name port) as [_ Hp]; [done..|].
      rewrite Hh, str_all_app in Hg. simpl in Hg. apply andb_true_iff in Hg as [_ Hg].
      split_and!; [done..|]. by rewrite Hh, last_is_append_nonempty in Hb.
  - left. apply port_suffix_all. unfold host_name. by rewrite E.
Qed.

Section theorems.
Context `{!Protocol} `{!ProtocolLaws _} `{!Platform}.

(** ** Properties *)

(** C19: in subdomain mode the address a relay hands out leads back to the device.  The URL is one
    origin with nothing after it but the slash, and the [Host] a browser sends for it - port included,
    or with a trailing dot instead - names exactly that device, for every base domain the command line accepts
    that is written in ASCII, every public URL whose host is of visible ASCII characters, and every well-formed
    lowercase id.  (An internationalized name in its own script is outside this.) *)
Theorem device_host_roundtrip (value : string) (base : SubdomainBase) (u : PublicUrl) (d : string) :
  SubdomainBase_from_str value = Ok base ->
  str_all is_ascii (trim_matches_char HOST_LABEL_SEPARATOR (trim value)) = true ->
  str_all is_graphic (pu_host u) = true ->
  DeviceId_parse d = Some d -> str_all is_name_byte d = true ->
  exists host,
    device_url (mkDeviceAddressing u (Some base)) d
    = scheme (pu_secure u) +:+ "://" +:+ host +:+ "/"
    /\ device_from_host (mkDeviceAddressing u (Some base)) host = Some d
    /\ device_from_host (mkDeviceAddressing u (Some base)) (d +:+ "." +:+ sb_host base +:+ ".")
       = Some d.
Proof.
  intros Hb Ha Hg Hd Hl. destruct (SubdomainBase_from_str_name value base Ha Hb) as [Hn Hdot].
  destruct (device_id_label d d Hd) as (_ & He & _ & Hnodot).
  assert (Hname : str_all is_name_byte (d +:+ String HOST_ROOT_DOT (sb_host base)) = true)
    by (rewrite str_all_app; simpl; by rewrite Hl, Hn).
  assert (Hlast : last_is dot (d +:+ String HOST_ROOT_DOT (sb_host base)) = false).
  { rewrite last_is_append_nonempty. destruct (sb_host base) as [|c s] eqn:E.
    - exfalso. unfold SubdomainBase_from_str in Hb.
      destruct (is_empty _ || _ || _) eqn:Hm in Hb; [done|]. injection Hb as <-. simpl in E.
      rewrite E in Hm. done.
    - change (String HOST_ROOT_DOT (String c s)) with (String HOST_ROOT_DOT EmptyString +:+ String c s).
      rewrite last_is_append_nonempty. exact Hdot. }
  exists (d +:+ String HOST_ROOT_DOT (sb_host base) +:+ port_suffix u). split; [|split].
  - unfold device_url. simpl. by rewrite !append_assoc.
  - unfold device_from_host. simpl. rewrite <- append_assoc.
    destruct (port_suffix_shape u Hg) as [->|(port & -> & Hc & Hgp & Hlp)].
    + rewrite append_nil_r, normalize_host_plain by done. rewrite label_of_self by done. done.
    + rewrite normalize_host_port by done. rewrite label_of_self by done. done.
  - unfold device_from_host. simpl.
    assert (normalize_host (d +:+ "." +:+ sb_host base +:+ ".")
            = d +:+ String HOST_ROOT_DOT (sb_host base)) as ->; [|by rewrite label_of_self].
    change (d +:+ "." +:+ sb_host base +:+ ".") with (d +:+ String HOST_ROOT_DOT (sb_host base) +:+ ".").
    rewrite <- append_assoc. unfold normalize_host.
    assert (Hdotted : str_all is_name_byte ((d +:+ String HOST_ROOT_DOT (sb_host base)) +:+ ".") = true)
      by (rewrite str_all_app, Hname; done).
    rewrite trim_graphic by (eapply str_all_impl; [|exact Hdotted]; apply is_name_byte_spec).
    unfold HOST_PORT_SEPARATOR.
    rewrite rsplit_once_None by (eapply (str_all_not_contains is_name_byte); done).
    unfold HOST_ROOT_DOT at 1. rewrite trim_end_char_app, trim_end_char_id by done.
    by apply name_lowercase.
Qed.

End theorems.

(** ** Witnesses *)

#[export] Instance sample_platform : Platform := {|
  ip_parse s := if is_empty s || contains_char s comma then None else Some s;
  ip_net_contains network source := starts_with source network;
  unicode_lowercase s := s;
  unicode_chars_lowercase s := s;
|}.

Lemma device_host_witness :
  SubdomainBase_from_str " Relay.Example.com. " = Ok (mkSubdomainBase "relay.example.com")
  /\ exists host,
       device_url (mkDeviceAddressing (mkPublicUrl "https://relay.example.com:8443"
         "relay.example.com:8443" true) (Some (mkSubdomainBase "relay.example.com"))) "dev1"
       = "https://" +:+ host +:+ "/"
       /\ device_from_host (mkDeviceAddressing (mkPublicUrl "https://relay.example.com:8443"
            "relay.example.com:8443" true) (Some (mkSubdomainBase "relay.example.com"))) host
          = Some "dev1".
Proof.
  split; [vm_compute; reflexivity|].
  destruct (device_host_roundtrip " Relay.Example.com. " (mkSubdomainBase "relay.example.com")
    (mkPublicUrl "https://relay.example.com:8443" "relay.example.com:8443" true) "dev1")
    as (host & Hu & Hh & _); [vm_compute; reflexivity..|].
  exists host. split; [exact Hu|exact Hh].
Defined.
