(* ===== verification/Http.v ===== *)
(** * The crates [http] and [axum], as this repository uses them

    Header maps, header values, URIs: not code of this repository, so they are fields of the class
    [HttpCrate] and what the source relies on is [HttpLaws].  A header name is its lowercase text, a
    header value its bytes.  [Response] is what a handler answers; the source only sets the status,
    the headers it names and a body. *)

From S2P Require Import Prelude.
From S2P Require Import RustStr.

Class HttpCrate : Type := {
  HeaderMap : Type;
  header_map_empty : HeaderMap;
  get_all : HeaderMap -> string -> list string;
  header_insert : string -> string -> HeaderMap -> HeaderMap;
  header_append : string -> string -> HeaderMap -> HeaderMap;
  header_remove : string -> HeaderMap -> HeaderMap;
  (* [HeaderValue::to_str], [HeaderValue::from_str], [HeaderName::try_from] *)
  header_to_str : string -> option string;
  header_value_from_str : string -> option string;
  header_name_try_from : string -> option string;
  Uri : Type;
  (* [Uri::builder().scheme("http").authority(..).path_and_query(..).build()] *)
  uri_build : string -> string -> option Uri;
  (* [uri.authority().map(Authority::host)] *)
  uri_host : Uri -> option string;
}.

(** A byte [HeaderValue::to_str] lets through. *)
Definition is_visible (c : ascii) : bool := in_range 32 126 c || in_range 9 9 c.

(** A header name made of letters, digits and dashes. *)
Definition is_simple_name (s : string) : bool := negb (is_empty s) && str_all (fun c => is_ascii_lowercase c || is_ascii_digit c || Ascii.eqb c dash) s.

Class HttpLaws (H : HttpCrate) : Prop := {
  get_all_empty : forall n, get_all header_map_empty n = [];
  get_all_insert_eq : forall h n v, get_all (header_insert n v h) n = [v];
  get_all_insert_ne : forall h n m v, n <> m -> get_all (header_insert n v h) m = get_all h m;
  get_all_append_eq : forall h n v, get_all (header_append n v h) n = get_all h n ++ [v];
  get_all_append_ne : forall h n m v, n <> m -> get_all (header_append n v h) m = get_all h m;
  get_all_remove_eq : forall h n, get_all (header_remove n h) n = [];
  get_all_remove_ne : forall h n m, n <> m -> get_all (header_remove n h) m = get_all h m;
  to_str_spec : forall v, header_to_str v = if str_all is_visible v then Some v else None;
  value_from_str_same : forall s v, header_value_from_str s = Some v -> v = s;
  value_from_visible : forall s, str_all is_visible s = true -> header_value_from_str s = Some s;
  name_try_from_simple : forall n, is_simple_name n = true -> header_name_try_from n = Some n;
  (* a built URI keeps the host of an authority that is nothing but a host *)
  uri_build_host : forall a p u, uri_build a p = Some u ->
    contains_char a colon = false -> contains_char a "@" = false -> uri_host u = Some a;
}.

(** [HeaderMap::get]: the first field of a name. *)
Definition header_get `{HttpCrate} (h : HeaderMap) (name : string) : option string :=
  head (get_all h name).

(** [.get(name).and_then(|value| value.to_str().ok())]. *)
Definition header_str `{HttpCrate} (h : HeaderMap) (name : string) : option string :=
  header_get h name ≫= header_to_str.

(** ** Names of the crate's header constants *)

Definition HOST : string := "host".
Definition COOKIE : string := "cookie".
Definition SET_COOKIE : string := "set-cookie".
Definition CONNECTION : string := "connection".
Definition UPGRADE : string := "upgrade".
Definition AUTHORIZATION : string := "authorization".
Definition LOCATION : string := "location".
Definition CONTENT_TYPE : string := "content-type".

(** ** Requests *)

Inductive Method : Type :=
| Method_GET
| Method_HEAD
| Method_OPTIONS
| Method_POST
| Method_PATCH
| Method_DELETE
| Method_OTHER.

Inductive Version : Type :=
| Version_HTTP_10
| Version_HTTP_11
| Version_HTTP_2.

(** ** Responses *)

Inductive Body : Type :=
| Body_Empty
| Body_Text (text : string)
(* bytes that came out of a tunnel, not looked at *)
| Body_Relayed.

Section response.
Context `{HttpCrate}.

Record Response : Type := mkResponse {
  rsp_status : Z;
  rsp_headers : HeaderMap;
  rsp_body : Body;
}.

(** [(status, "text").into_response()]. *)
Definition text_response (status : Z) (text : string) : Response :=
  mkResponse status header_map_empty (Body_Text text).

(** [(status, [(name, value)], body).into_response()]. *)
Definition header_response (status : Z) (name value : string) (body : Body) : Response :=
  mkResponse status (header_insert name value header_map_empty) body.

End response.

Definition OK : Z := 200.
Definition CREATED : Z := 201.
Definition NO_CONTENT : Z := 204.
Definition SWITCHING_PROTOCOLS : Z := 101.
Definition FOUND : Z := 302.
Definition BAD_REQUEST : Z := 400.
Definition UNAUTHORIZED : Z := 401.
Definition FORBIDDEN : Z := 403.
Definition NOT_FOUND : Z := 404.
Definition CONFLICT : Z := 409.
Definition INTERNAL_SERVER_ERROR : Z := 500.
Definition BAD_GATEWAY : Z := 502.
Definition SERVICE_UNAVAILABLE : Z := 503.

(** ** A concrete instance: fields in the order they were added *)

Definition sample_get_all (h : list (string * string)) (n : string) : list string :=
  omap (fun '(m, v) => if String.eqb m n then Some v else None) h.

Definition sample_remove (n : string) (h : list (string * string)) : list (string * string) :=
  List.filter (fun '(m, _) => negb (String.eqb m n)) h.

#[export] Instance sample_http : HttpCrate := {|
  HeaderMap := list (string * string);
  header_map_empty := [];
  get_all := sample_get_all;
  header_insert n v h := sample_remove n h ++ [(n, v)];
  header_append n v h := h ++ [(n, v)];
  header_remove := sample_remove;
  header_to_str v := if str_all is_visible v then Some v else None;
  header_value_from_str s :=
    if str_all (fun c => is_visible c || in_range 128 255 c) s then Some s else None;
  header_name_try_from n :=
    let l := str_map to_ascii_lowercase n in if is_simple_name l then Some l else None;
  Uri := string * string;
  uri_build a p := if is_empty a then None else Some (a, p);
  uri_host u := Some (fst u);
|}.

Lemma sample_get_all_app h k n : sample_get_all (h ++ k) n = sample_get_all h n ++ sample_get_all k n.
Proof. apply omap_app. Qed.

Lemma sample_get_all_remove h n m :
  sample_get_all (sample_remove n h) m = if String.eqb n m then [] else sample_get_all h m.
Proof.
  induction h as [|[k v] h IH]; [by destruct (String.eqb n m)|]. cbn.
  destruct (String.eqb_spec k n) as [->|Hkn]; cbn; fold (sample_remove n h).
  - destruct (String.eqb_spec n m); [done|]. exact IH.
  - change (omap _ (sample_remove n h)) with (sample_get_all (sample_remove n h) m). rewrite IH.
    destruct (String.eqb_spec k m) as [->|]; [|by destruct (String.eqb n m)].
    by rewrite (proj2 (String.eqb_neq n m)).
Qed.

Lemma simple_name_lowercase s : is_simple_name s = true -> str_map to_ascii_lowercase s = s.
Proof.
  unfold is_simple_name. intros [_ Hs]%andb_true_iff. induction s as [|c s IH]; [done|].
  cbn [str_all] in Hs. apply andb_true_iff in Hs as [Hc Hs]. cbn [str_map]. f_equal; [|auto].
  by destruct c as [[] [] [] [] [] [] [] []].
Qed.

#[export] Instance sample_http_laws : HttpLaws sample_http.
Proof.
  split; simpl.
  - done.
  - intros h n v. rewrite sample_get_all_app, sample_get_all_remove, String.eqb_refl. simpl.
    by rewrite String.eqb_refl.
  - intros h n m v Hne. rewrite sample_get_all_app, sample_get_all_remove. simpl.
    rewrite (proj2 (String.eqb_neq n m)) by done. by rewrite app_nil_r.
  - intros h n v. rewrite sample_get_all_app. simpl. by rewrite String.eqb_refl.
  - intros h n m v Hne. rewrite sample_get_all_app. simpl.
    rewrite (proj2 (String.eqb_neq n m)) by done. by rewrite app_nil_r.
  - intros h n. by rewrite sample_get_all_remove, String.eqb_refl.
  - intros h n m Hne. rewrite sample_get_all_remove. by rewrite (proj2 (String.eqb_neq n m)).
  - done.
  - intros s v. by destruct (str_all _ s); [intros [= <-]|].
  - intros s Hs. rewrite (str_all_impl is_visible) by (done || by intros c ->). done.
  - intros n Hn. rewrite simple_name_lowercase by done. by rewrite Hn.
  - intros a p u. destruct (is_empty a); [done|]. by intros [= <-].
Qed.
