(* ===== verification/Upstream.v ===== *)
(** * [src/upstream/]: this relay as a device of another relay - the pure part

    The addresses the chain above contributes ([addresses.rs]), the preface of the next hop
    ([forward.rs]), what is stored about the upstream ([settings.rs]), the pinned certificate
    ([pinning.rs]), the status the console shows and the supervisor's decision ([mod.rs]). *)

From S2P Require Import Prelude.
From S2P Require Import RustStr.
From S2P Require Import Protocol.
From S2P Require Import Config.
From S2P Require Import Database.
From S2P Require Import Handle.
From S2P Require Import Registry.

(** ** [addresses.rs] *)

Record UpstreamRelay : Type := mkUpstreamRelay {
  upr_relay_id : string;
  upr_relay_name : string;
  upr_origin : string;
  (* u32 *)
  upr_hops : Z;
}.

Record UpstreamReach : Type := mkUpstreamReach {
  reach_relays : list UpstreamRelay;
  reach_chain : list string;
}.

Definition UpstreamReach_default : UpstreamReach := mkUpstreamReach [] [].

Section addresses.
Context `{Protocol}.

Definition device_path (device_id : string) : string :=
  DEVICE_PATH_PREFIX +:+ device_id +:+ String slash EmptyString.

Definition from_welcome (link_device_id upstream_relay_id : string) (addresses : list RelayAddress)
    (chain : list string) : UpstreamReach :=
  let suffix := device_path link_device_id in
  mkUpstreamReach
    (omap (fun address =>
       origin ← strip_suffix suffix (ra_url address);
       Some (mkUpstreamRelay (ra_relay_id address) (ra_relay_name address) origin
               (saturating_add_u32 (ra_hops address) 1))) addresses)
    (upstream_relay_id :: chain).

Definition addresses_for (reach : UpstreamReach) (device_id : string) : list RelayAddress :=
  (fun relay =>
     mkRelayAddress (upr_relay_id relay) (upr_relay_name relay)
       (upr_origin relay +:+ device_path device_id) (upr_hops relay)) <$> reach_relays reach.

End addresses.

(** ** [forward.rs] *)

Inductive StreamRejection : Type :=
| StreamRejection_Preface (error : string)
| StreamRejection_Loop
| StreamRejection_Budget (hops : nat)
| StreamRejection_Unknown (target : string)
| StreamRejection_Open (error : TunnelError)
| StreamRejection_Copy (error : string).

Section forward.
Context `{Protocol}.

Definition extend (preface : StreamPreface) (relay_id : string)
    : result StreamRejection StreamPreface :=
  if existsb (fun hop => String.eqb hop relay_id) (sp_hops preface) then Err StreamRejection_Loop
  else if MAX_HOPS <=? length (sp_hops preface)
       then Err (StreamRejection_Budget (length (sp_hops preface)))
       else Ok (mkStreamPreface (sp_v preface) (sp_target preface) (sp_hops preface ++ [relay_id])).

(** [carry]: [read] is what [read_preface] made of the stream, [open] opens a stream on a link and
    writes the preface on it, [copied] is the outcome of copying bytes until either side closes.  The
    answer also names the link and the preface the stream went out with. *)
Definition carry (relay_id : string) (registry : Registry) (read : result string StreamPreface)
    (open : TunnelHandle -> StreamPreface -> result TunnelError unit) (copied : result string unit)
    : result StreamRejection (TunnelHandle * StreamPreface) :=
  preface ← map_err StreamRejection_Preface read;
  forwarded ← extend preface relay_id;
  r ← ok_or (StreamRejection_Unknown (sp_target forwarded)) (route registry (sp_target forwarded));
  map_err StreamRejection_Open (open (link r) forwarded) ≫= fun _ =>
  map_err StreamRejection_Copy copied ≫= fun _ =>
  Ok (link r, forwarded).

(** A stream the upstream opened: the routing table when its task reads it, and the outcomes of reading
    the preface, of opening the stream of the next hop and of copying. *)
Record InboundStream : Type := mkInboundStream {
  in_registry : Registry;
  in_preface : result string StreamPreface;
  in_open : TunnelHandle -> StreamPreface -> result TunnelError unit;
  in_copied : result string unit;
}.

(** [serve]: the rejection it logs, if there is one.  The stream is dropped either way. *)
Definition serve (relay_id : string) (stream : InboundStream) : option StreamRejection :=
  match carry relay_id (in_registry stream) (in_preface stream) (in_open stream) (in_copied stream) with
  | Err rejection => Some rejection
  | Ok _ => None
  end.

(** What [poll_next_inbound] answers [serve_streams]. *)
Inductive StreamPoll : Type :=
| StreamPoll_Stream (stream : InboundStream)
| StreamPoll_Error (error : string)
| StreamPoll_End.

(** [serve_streams]: what the task of every stream accepted logs, and whether the loop has returned. *)
Fixpoint serve_streams (relay_id : string) (polls : list StreamPoll) : list (option StreamRejection) * bool :=
  match polls with
  | [] => ([], false)
  | StreamPoll_Stream stream :: rest =>
      let '(served, returned) := serve_streams relay_id rest in (serve relay_id stream :: served, returned)
  | StreamPoll_Error _ :: _ | StreamPoll_End :: _ => ([], true)
  end.

(** A stream that is refused ends neither the loop nor another stream. *)
Lemma serve_streams_app relay_id streams polls :
  serve_streams relay_id ((StreamPoll_Stream <$> streams) ++ polls)
  = ((serve relay_id <$> streams) ++ fst (serve_streams relay_id polls), snd (serve_streams relay_id polls)).
Proof.
  induction streams as [|stream streams IH]; cbn; [by destruct (serve_streams relay_id polls)|].
  by rewrite IH.
Qed.

End forward.

(** ** [settings.rs] *)

Definition SECURE_WEBSOCKET_SCHEME : string := "wss://".
Definition PLAIN_WEBSOCKET_SCHEME : string := "ws://".
Definition INVALID_CREDENTIAL : string := "上游中继返回的设备凭据格式不正确。".
Definition UNREADABLE_SETTINGS : string := "已保存的上游中继配置无法解析：".

Record UpstreamSettings : Type := mkUpstreamSettings {
  up_url : string;
  up_credential : string;
  up_certificate_fingerprint : option string;
}.

Definition REDACTED : string := "<redacted>".

(** [Debug], as the fields it names and their values: the credential is not one of them. *)
Definition UpstreamSettings_debug (settings : UpstreamSettings) : list (string * option string) :=
  [("url", Some (up_url settings)); ("credential", Some REDACTED);
   ("certificate_fingerprint", up_certificate_fingerprint settings)].

(** [serde_json] on [UpstreamSettings], and the [Display] of a [DatabaseError]. *)
Class SettingsCodec : Type := {
  settings_to_json : UpstreamSettings -> string;
  settings_from_json : string -> result string UpstreamSettings;
  sqlite_error_to_string : SqliteError -> string;
}.

Class SettingsCodecLaws (C : SettingsCodec) : Prop := {
  settings_json_roundtrip : forall s, settings_from_json (settings_to_json s) = Ok s;
}.

(** [url.split_once("://")]. *)
Fixpoint after_scheme (s : string) : option string :=
  match strip_prefix "://" s with
  | Some rest => Some rest
  | None =>
      match s with
      | EmptyString => None
      | String _ s' => after_scheme s'
      end
  end.

Definition authority (settings : UpstreamSettings) : string :=
  default (up_url settings) (after_scheme (up_url settings)).

Definition is_secure (settings : UpstreamSettings) : bool := starts_with (up_url settings) HTTPS_SCHEME.

Section settings.
Context `{Protocol}.

Definition build (url credential : string) (certificate_fingerprint : option string)
    : result string UpstreamSettings :=
  origin ← map_err ConfigError_to_string (PublicUrl_from_str url);
  let credential := trim credential in
  ok_or INVALID_CREDENTIAL (DeviceCredential_parse credential) ≫= fun _ =>
  Ok (mkUpstreamSettings (pu_origin origin) credential certificate_fingerprint).

Definition tunnel_url (settings : UpstreamSettings) : string :=
  (if is_secure settings then SECURE_WEBSOCKET_SCHEME else PLAIN_WEBSOCKET_SCHEME)
  +:+ authority settings +:+ TUNNEL_PATH.

Definition enroll_url (settings : UpstreamSettings) : string := up_url settings +:+ ENROLL_PATH.

End settings.

Section stored.
Context `{SettingsCodec}.

Definition DatabaseError_to_string (error : DatabaseError) : string :=
  match error with
  | DatabaseError_Sqlite e => "数据库访问失败：" +:+ sqlite_error_to_string e
  | DatabaseError_Random e => "无法生成标识符：" +:+ e
  | DatabaseError_UnknownValue field value => "数据库中的 " +:+ field +:+ " 值无法识别：" +:+ value
  | DatabaseError_UsernameTaken => "用户名已被占用。"
  end.

Definition load : SE Database string (option UpstreamSettings) :=
  stored ← se_map_err DatabaseError_to_string (read_setting SETTING_UPSTREAM);
  match stored with
  | None => mret None
  | Some text =>
      se_lift (map_err (fun error => UNREADABLE_SETTINGS +:+ error)
                 (settings ← settings_from_json text; Ok (Some settings)))
  end.

Definition store (now : Z) (settings : UpstreamSettings) : DB unit :=
  write_setting now SETTING_UPSTREAM (settings_to_json settings).

Definition clear : DB unit := delete_setting SETTING_UPSTREAM.

End stored.

(** ** [pinning.rs] *)

Definition FINGERPRINT_MISMATCH : string := "上游中继的证书指纹与已保存的不一致。".
Definition MALFORMED_FINGERPRINT : string :=
  "证书指纹必须是 SHA-256 的 64 位十六进制值，可以带冒号分隔，不区分大小写。".
Definition FINGERPRINT_LENGTH : nat := 64.
Definition FINGERPRINT_GROUP_SEPARATOR : ascii := colon.

(** [CryptoProvider]: the two checks of a handshake's signature (message, certificate, signature) and the
    code points of the schemes they know. *)
Record CryptoProvider : Type := mkCryptoProvider {
  cp_verify_tls12 : string -> string -> string -> result string unit;
  cp_verify_tls13 : string -> string -> string -> result string unit;
  cp_supported_schemes : list Z;
}.

Record PinnedCertificateVerifier : Type := mkPinnedCertificateVerifier {
  pv_fingerprint : string;
  pv_provider : CryptoProvider;
}.

(** [ClientConfig], as the builder leaves it: the verifier, and no certificate of its own. *)
Record ClientConfig : Type := mkClientConfig {
  cc_verifier : PinnedCertificateVerifier;
  cc_client_auth : option string;
}.

(** [provider] is [aws_lc_rs::default_provider()]. *)
Definition client_config (provider : CryptoProvider) (fingerprint : option string) : option ClientConfig :=
  (fun fingerprint => mkClientConfig (mkPinnedCertificateVerifier fingerprint provider) None) <$> fingerprint.

Section pinning.
Context `{Protocol} `{Platform}.
(* [HEXLOWER.encode(&Sha256::digest(certificate))] *)
Context (certificate_fingerprint : string -> string).

Definition normalize_fingerprint (value : string) : result string string :=
  let kept :=
    str_filter (fun c => negb (Ascii.eqb c FINGERPRINT_GROUP_SEPARATOR)) (trim value) in
  let normalized := to_lowercase unicode_chars_lowercase kept in
  if negb (str_len normalized =? FINGERPRINT_LENGTH) || negb (str_all is_ascii_hexdigit normalized)
  then Err MALFORMED_FINGERPRINT
  else Ok normalized.

(** The intermediates, the name, the OCSP response and the time are ignored. *)
Definition verify_server_cert (self : PinnedCertificateVerifier) (end_entity : string)
    (intermediates : list string) (server_name ocsp_response : string) (now : Z) : result string unit :=
  if tokens_match (pv_fingerprint self) (certificate_fingerprint end_entity) then Ok tt
  else Err FINGERPRINT_MISMATCH.

Definition verify_tls12_signature (self : PinnedCertificateVerifier) (message certificate signature : string)
    : result string unit := cp_verify_tls12 (pv_provider self) message certificate signature.

Definition verify_tls13_signature (self : PinnedCertificateVerifier) (message certificate signature : string)
    : result string unit := cp_verify_tls13 (pv_provider self) message certificate signature.

Definition supported_verify_schemes (self : PinnedCertificateVerifier) : list Z :=
  cp_supported_schemes (pv_provider self).

End pinning.

(** ** The link's status ([mod.rs]) *)

Inductive UpstreamState : Type :=
| UpstreamState_Connecting
| UpstreamState_Connected
| UpstreamState_Error.

Record LinkStatus : Type := mkLinkStatus {
  ls_url : string;
  ls_state : UpstreamState;
  ls_relay_id : option string;
  ls_error : option string;
}.

(** [running] names the supervisor task that is up, if any; cancelling it is dropping it here. *)
Record UpstreamLink : Type := mkUpstreamLink {
  ul_reach : UpstreamReach;
  ul_status : option LinkStatus;
  ul_running : option UpstreamSettings;
}.

Record UpstreamView : Type := mkUpstreamView {
  uv_url : string;
  uv_state : UpstreamState;
  uv_relay_id : option string;
  uv_chain : list string;
  uv_error : option string;
}.

Definition DEFAULT_LINK_NAME : string := "termexo-relay".
Definition NO_UPSTREAM : string := "本中继没有配置上游。".

#[export] Instance UpstreamState_eq_dec : EqDecision UpstreamState.
Proof. solve_decision. Defined.

Definition UpstreamLink_new : UpstreamLink := mkUpstreamLink UpstreamReach_default None None.

Definition chain (l : UpstreamLink) : list string := reach_chain (ul_reach l).

Definition view (l : UpstreamLink) : option UpstreamView :=
  status ← ul_status l;
  Some (mkUpstreamView (ls_url status) (ls_state status) (ls_relay_id status) (chain l)
          (ls_error status)).

Definition set_status (f : option LinkStatus -> option LinkStatus) (l : UpstreamLink) : UpstreamLink :=
  mkUpstreamLink (ul_reach l) (f (ul_status l)) (ul_running l).

Definition set_running (r : option UpstreamSettings) (l : UpstreamLink) : UpstreamLink :=
  mkUpstreamLink (ul_reach l) (ul_status l) r.

Definition set_reach (reach : UpstreamReach) (l : UpstreamLink) : UpstreamLink :=
  mkUpstreamLink reach (ul_status l) (ul_running l).

Definition clear_reach (l : UpstreamLink) : UpstreamLink := set_reach UpstreamReach_default l.

Definition set_connecting (url : string) : UpstreamLink -> UpstreamLink :=
  set_status (fun status =>
    match status with
    | Some existing =>
        if String.eqb (ls_url existing) url
        then Some (mkLinkStatus (ls_url existing) UpstreamState_Connecting (ls_relay_id existing)
                     (ls_error existing))
        else Some (mkLinkStatus url UpstreamState_Connecting None None)
    | None => Some (mkLinkStatus url UpstreamState_Connecting None None)
    end).

Definition set_connected (relay_id : string) : UpstreamLink -> UpstreamLink :=
  set_status (fmap (fun status =>
    mkLinkStatus (ls_url status) UpstreamState_Connected (Some relay_id) None)).

Definition set_error (message : string) : UpstreamLink -> UpstreamLink :=
  set_status (fmap (fun status =>
    mkLinkStatus (ls_url status) UpstreamState_Error (ls_relay_id status) (Some message))).

(** [start] and [stop]: the running task is asked to end first, then the state changes. *)
Definition start (settings : UpstreamSettings) (l : UpstreamLink) : UpstreamLink :=
  set_running (Some settings) (set_connecting (up_url settings) (set_running None l)).

Definition stop (l : UpstreamLink) : UpstreamLink :=
  set_status (fun _ => None) (clear_reach (set_running None l)).

(** ** The end of a session and what the supervisor makes of it *)

Inductive SessionEnd : Type :=
| SessionEnd_Revoked (reason : string)
| SessionEnd_Refused (reason : string)
| SessionEnd_Looped (reason : string)
| SessionEnd_Interrupted (reason : string).

Definition message (e : SessionEnd) : string :=
  match e with
  | SessionEnd_Revoked reason | SessionEnd_Refused reason
  | SessionEnd_Looped reason | SessionEnd_Interrupted reason => reason
  end.

Record SessionOutcome : Type := mkSessionOutcome {
  so_connected : bool;
  so_end : SessionEnd;
}.

Definition failed (e : SessionEnd) : SessionOutcome := mkSessionOutcome false e.

Inductive SupervisorStep : Type :=
| SupervisorStep_Stop
| SupervisorStep_Revoked
| SupervisorStep_Looped
| SupervisorStep_RetryAfter (delay : Z).

Definition next_step `{Protocol} (outcome : SessionOutcome) (backoff : Backoff)
    : SupervisorStep * Backoff :=
  let backoff := if so_connected outcome then Backoff_reset backoff else backoff in
  match so_end outcome with
  | SessionEnd_Revoked _ => (SupervisorStep_Revoked, backoff)
  | SessionEnd_Refused _ => (SupervisorStep_Stop, backoff)
  | SessionEnd_Looped _ => (SupervisorStep_Looped, backoff)
  | SessionEnd_Interrupted _ =>
      let '(delay, backoff) := Backoff_take backoff in (SupervisorStep_RetryAfter delay, backoff)
  end.
