(* ===== verification/Paths.v ===== *)
(** * The data directory and its permissions: [src/paths.rs]

    The files of the host are a small file system: a path holds a directory or a regular file with its
    [st_mode], and the operating system may refuse to create, write or change a path. *)

From S2P Require Import Prelude.
From S2P Require Import RustStr.

(** ** The file system *)

Inductive Node : Type :=
| Node_Directory
| Node_Regular (contents : string).

(** [fi_mode] is the whole [st_mode]: the file type, then the permission bits. *)
Record File : Type := mkFile {
  fi_node : Node;
  fi_mode : Z;
}.

Record FileSystem : Type := mkFileSystem {
  fs_files : gmap string File;
  fs_refused : string -> bool;
  fs_umask : Z;
}.

Definition set_files (f : gmap string File -> gmap string File) (fs : FileSystem) : FileSystem :=
  mkFileSystem (f (fs_files fs)) (fs_refused fs) (fs_umask fs).

Definition REFUSED : string := "Permission denied (os error 13)".
Definition ALREADY_THERE : string := "File exists (os error 17)".
Definition IS_A_DIRECTORY : string := "Is a directory (os error 21)".

(** [S_IFDIR] with [0o777] and [S_IFREG] with [0o666], less the umask. *)
Definition new_mode (node : Node) (umask : Z) : Z :=
  match node with
  | Node_Directory => Z.lor 16384 (Z.ldiff 511 umask)
  | Node_Regular _ => Z.lor 32768 (Z.ldiff 438 umask)
  end.

Definition create (path : string) (node : Node) : SE FileSystem string unit :=
  fun fs =>
    if fs_refused fs path then (Err REFUSED, fs)
    else (Ok tt, set_files <[path := mkFile node (new_mode node (fs_umask fs))]> fs).

(** [fs::write]: an old file keeps its mode. *)
Definition write_file (path contents : string) : SE FileSystem string unit :=
  fun fs =>
    match fs_files fs !! path with
    | Some (mkFile Node_Directory _) => (Err IS_A_DIRECTORY, fs)
    | Some (mkFile (Node_Regular _) mode) =>
        if fs_refused fs path then (Err REFUSED, fs)
        else (Ok tt, set_files <[path := mkFile (Node_Regular contents) mode]> fs)
    | None => create path (Node_Regular contents) fs
    end.

(** [fs::read]. *)
Definition read_contents (path : string) (fs : FileSystem) : option string :=
  file ← fs_files fs !! path;
  match fi_node file with
  | Node_Regular contents => Some contents
  | Node_Directory => None
  end.

Definition create_dir_all (path : string) : SE FileSystem string unit :=
  fun fs =>
    match fs_files fs !! path with
    | Some (mkFile Node_Directory _) => (Ok tt, fs)
    | Some (mkFile (Node_Regular _) _) => (Err ALREADY_THERE, fs)
    | None => create path Node_Directory fs
    end.

(** Opening a file that is created when it is missing. *)
Definition open_or_create (path : string) : SE FileSystem string unit :=
  fun fs =>
    match fs_files fs !! path with
    | Some (mkFile Node_Directory _) => (Err IS_A_DIRECTORY, fs)
    | Some (mkFile (Node_Regular _) _) => if fs_refused fs path then (Err REFUSED, fs) else (Ok tt, fs)
    | None => create path (Node_Regular EmptyString) fs
    end.

(** [Path::join] with a plain file name. *)
Definition path_join (directory name : string) : string :=
  if is_empty directory || ends_with directory "/" then directory +:+ name
  else directory +:+ String slash name.

(** ** [paths.rs] *)

Definition OWNER_BITS : Z := 448.
Definition PERMISSION_BITS : Z := 4095.

Definition tightened (current : Z) : option Z :=
  let narrowed := Z.land current OWNER_BITS in
  if (Z.land current PERMISSION_BITS =? narrowed)%Z then None else Some narrowed.

(** [fs::set_permissions] replaces the permission bits and leaves the file type. *)
Definition set_permissions (narrowed mode : Z) : Z := Z.lor (Z.ldiff mode PERMISSION_BITS) narrowed.

Definition restrict_to_owner (path : string) : SE FileSystem string unit :=
  se_modify (fun fs =>
    match fs_files fs !! path with
    | None => fs
    | Some file =>
        match tightened (fi_mode file) with
        | None => fs
        | Some narrowed =>
            if fs_refused fs path then fs
            else set_files <[path := mkFile (fi_node file) (set_permissions narrowed (fi_mode file))]> fs
        end
    end).

(** [std_absolute] is [std::path::absolute], which fails when there is no working directory. *)
Definition absolute (std_absolute : string -> result string string) (path : string) : string :=
  match std_absolute path with
  | Ok resolved => resolved
  | Err _ => path
  end.

Definition prepare_data_directory (std_absolute : string -> result string string) (path : string)
    : SE FileSystem string string :=
  se_map_err (fun error => "无法创建数据目录 " +:+ path +:+ "：" +:+ error) (create_dir_all path) ;;
  restrict_to_owner path ;;
  mret (absolute std_absolute path).

(** ** Lemmas: permissions *)

(** The bits of group and other. *)
Definition OTHERS_BITS : Z := 63.

Lemma tightened_none (mode : Z) : tightened mode = None -> Z.land mode OTHERS_BITS = 0%Z.
Proof.
  unfold tightened. destruct (Z.eqb_spec (Z.land mode PERMISSION_BITS) (Z.land mode OWNER_BITS)) as [He|];
    [intros _|done].
  change OTHERS_BITS with (Z.land PERMISSION_BITS OTHERS_BITS).
  rewrite Z.land_assoc, He, <- Z.land_assoc. apply Z.land_0_r.
Qed.

(** Bits are only ever taken away, and none of the others' is left. *)
Lemma tightened_some (mode narrowed : Z) :
  tightened mode = Some narrowed ->
  narrowed = Z.land mode OWNER_BITS /\ Z.land narrowed OTHERS_BITS = 0%Z.
Proof.
  unfold tightened. case_match; [done|]. intros [= <-]. split; [done|].
  rewrite <- Z.land_assoc. apply Z.land_0_r.
Qed.

Example tightened_examples :
  tightened <$> [448; 384; 256; 493; 420; 1533; 33188; 33152]%Z
  = [None; None; None; Some 448; Some 384; Some 448; Some 384; None]%Z.
Proof. reflexivity. Qed.

(** The file type is none of the others' bits. *)
Lemma set_permissions_others narrowed mode :
  Z.land narrowed OTHERS_BITS = 0%Z -> Z.land (set_permissions narrowed mode) OTHERS_BITS = 0%Z.
Proof.
  intros Hn. unfold set_permissions. rewrite Z.land_lor_distr_l, Hn, Z.lor_0_r, Z.ldiff_land, <- Z.land_assoc.
  apply Z.land_0_r.
Qed.

(** Nobody but the owner may do anything with the path. *)
Definition private (fs : FileSystem) (path : string) : Prop :=
  exists file, fs_files fs !! path = Some file /\ Z.land (fi_mode file) OTHERS_BITS = 0%Z.

Lemma restrict_to_owner_private path (fs : FileSystem) :
  is_Some (fs_files fs !! path) -> fs_refused fs path = false -> private (snd (restrict_to_owner path fs)) path.
Proof.
  intros [file Hf] Hr. unfold restrict_to_owner, se_modify. cbn. rewrite Hf.
  destruct (tightened (fi_mode file)) as [narrowed|] eqn:Ht.
  - rewrite Hr. cbn. exists (mkFile (fi_node file) (set_permissions narrowed (fi_mode file))).
    cbn. rewrite lookup_insert_eq. split; [done|]. by apply set_permissions_others, (tightened_some (fi_mode file)).
  - exists file. split; [done|]. by apply tightened_none.
Qed.

Lemma restrict_to_owner_run path (fs : FileSystem) :
  restrict_to_owner path fs = (Ok tt, snd (restrict_to_owner path fs)).
Proof. done. Qed.

(** Tightening a path changes no bytes. *)
Lemma restrict_keeps_contents path other (fs : FileSystem) :
  read_contents other (snd (restrict_to_owner path fs)) = read_contents other fs.
Proof.
  unfold restrict_to_owner, se_modify, read_contents. cbn.
  destruct (fs_files fs !! path) as [file|] eqn:E; [|done]. destruct (tightened (fi_mode file)); [|done].
  destruct (fs_refused fs path); [done|]. cbn.
  destruct (decide (other = path)) as [->|Hne]; [by rewrite lookup_insert_eq, E|by rewrite lookup_insert_ne].
Qed.

Lemma path_join_inj directory a b : path_join directory a = path_join directory b -> a = b.
Proof.
  unfold path_join. destruct (_ || _); intros He.
  - by apply append_inj_l in He.
  - apply append_inj_l in He. by injection He.
Qed.

Lemma write_file_ok path contents (fs fs' : FileSystem) :
  write_file path contents fs = (Ok tt, fs') ->
  read_contents path fs' = Some contents
  /\ forall other, other <> path -> fs_files fs' !! other = fs_files fs !! other.
Proof.
  assert (Hdone : forall mode, let fs1 := set_files <[path := mkFile (Node_Regular contents) mode]> fs in
    read_contents path fs1 = Some contents /\ forall other, other <> path -> fs_files fs1 !! other = fs_files fs !! other).
  { intros mode. split; [unfold read_contents; cbn; by rewrite lookup_insert_eq|].
    intros other Hne. cbn. by rewrite lookup_insert_ne. }
  unfold write_file, create. repeat case_match; try done; intros [= <-]; apply Hdone.
Qed.

(** ** Lemmas: what the operations keep *)

Definition is_directory (node : Node) : bool :=
  match node with
  | Node_Directory => true
  | Node_Regular _ => false
  end.

(** A step keeps what the system refuses, every directory and file, and every path that is private. *)
Record orderly (fs fs' : FileSystem) : Prop := {
  or_refused : fs_refused fs' = fs_refused fs;
  or_paths : forall path file, fs_files fs !! path = Some file ->
    exists file', fs_files fs' !! path = Some file' /\ is_directory (fi_node file') = is_directory (fi_node file);
  or_private : forall path, private fs path -> private fs' path;
}.

#[export] Instance orderly_preorder : PreOrder orderly.
Proof.
  split; [intros fs; split; eauto|]. intros f1 f2 f3 [r1 p1 v1] [r2 p2 v2]. split; [congruence| |auto].
  intros path file (file2 & H2 & D2)%p1. destruct (p2 _ _ H2) as (file3 & H3 & D3).
  exists file3. split; [done|congruence].
Qed.

(** A path that is new, or a path whose permissions only narrowed. *)
Lemma orderly_insert path file fs :
  (forall old, fs_files fs !! path = Some old -> is_directory (fi_node file) = is_directory (fi_node old)
     /\ (Z.land (fi_mode old) OTHERS_BITS = 0%Z -> Z.land (fi_mode file) OTHERS_BITS = 0%Z)) ->
  orderly fs (set_files <[path := file]> fs).
Proof.
  intros Hold. split; [done| |].
  - intros other old Ho. cbn. destruct (decide (other = path)) as [->|Hne].
    + rewrite lookup_insert_eq. exists file. split; [done|]. by apply Hold.
    + rewrite lookup_insert_ne by done. by exists old.
  - intros other (old & Ho & Hm). destruct (decide (other = path)) as [->|Hne].
    + exists file. cbn. rewrite lookup_insert_eq. split; [done|]. by apply (Hold old).
    + exists old. cbn. by rewrite lookup_insert_ne.
Qed.

Lemma create_orderly path node fs :
  fs_files fs !! path = None -> orderly fs (snd (create path node fs)).
Proof.
  intros Hn. unfold create. destruct (fs_refused fs path); [done|]. apply orderly_insert. congruence.
Qed.

Lemma write_file_orderly path contents : preserves orderly (write_file path contents).
Proof.
  intros fs. unfold write_file. destruct (fs_files fs !! path) as [[[|old] mode]|] eqn:E; [done| |by apply create_orderly].
  destruct (fs_refused fs path); [done|]. apply orderly_insert. intros file Hf. rewrite E in Hf. by injection Hf as <-.
Qed.

Lemma create_dir_all_orderly path : preserves orderly (create_dir_all path).
Proof.
  intros fs. unfold create_dir_all.
  destruct (fs_files fs !! path) as [[[|old] mode]|] eqn:E; [done..|by apply create_orderly].
Qed.

Lemma open_or_create_orderly path : preserves orderly (open_or_create path).
Proof.
  intros fs. unfold open_or_create.
  destruct (fs_files fs !! path) as [[[|old] mode]|] eqn:E; [done|by destruct (fs_refused fs path)|by apply create_orderly].
Qed.

Lemma restrict_to_owner_orderly path : preserves orderly (restrict_to_owner path).
Proof.
  intros fs. unfold restrict_to_owner, se_modify. cbn. destruct (fs_files fs !! path) as [file|] eqn:E; [|done].
  destruct (tightened (fi_mode file)) as [narrowed|] eqn:Ht; [|done]. destruct (fs_refused fs path); [done|].
  apply orderly_insert. intros old Ho. rewrite E in Ho. injection Ho as <-. split; [done|].
  intros _. by apply set_permissions_others, (tightened_some (fi_mode file)).
Qed.

#[export] Hint Resolve write_file_orderly create_dir_all_orderly open_or_create_orderly
  restrict_to_owner_orderly : frame.

Lemma create_there path node (fs fs' : FileSystem) :
  create path node fs = (Ok tt, fs') -> is_Some (fs_files fs' !! path).
Proof. unfold create. destruct (fs_refused fs path); [done|]. intros [= <-]. cbn. by rewrite lookup_insert_eq. Qed.

Lemma open_or_create_there path (fs fs' : FileSystem) :
  open_or_create path fs = (Ok tt, fs') -> is_Some (fs_files fs' !! path).
Proof.
  unfold open_or_create. destruct (fs_files fs !! path) as [[[|old] mode]|] eqn:E; [done| |apply create_there].
  destruct (fs_refused fs path); [done|]. intros [= <-]. by rewrite E.
Qed.

Lemma create_dir_all_directory path (fs fs' : FileSystem) :
  create_dir_all path fs = (Ok tt, fs') ->
  exists file, fs_files fs' !! path = Some file /\ is_directory (fi_node file) = true.
Proof.
  unfold create_dir_all, create. destruct (fs_files fs !! path) as [[[|old] mode]|] eqn:E; [|done|].
  - intros [= <-]. by eexists.
  - destruct (fs_refused fs path); [done|]. intros [= <-]. cbn. rewrite lookup_insert_eq. by eexists.
Qed.

Lemma create_dir_all_again path (fs : FileSystem) file :
  fs_files fs !! path = Some file -> is_directory (fi_node file) = true -> create_dir_all path fs = (Ok tt, fs).
Proof. unfold create_dir_all. intros ->. by destruct file as [[|] mode]. Qed.

(** The data directory is its owner's alone once it is prepared, unless the system refuses to say so. *)
Lemma prepare_data_directory_private std_absolute path resolved (fs fs' : FileSystem) :
  prepare_data_directory std_absolute path fs = (Ok resolved, fs') ->
  resolved = absolute std_absolute path /\ orderly fs fs' /\ (fs_refused fs path = false -> private fs' path).
Proof.
  intros Hrun. assert (Hp : preserves orderly (prepare_data_directory std_absolute path))
    by (unfold prepare_data_directory; frame).
  specialize (Hp fs). rewrite Hrun in Hp. cbn in Hp.
  apply se_bind_ok in Hrun as ([] & fs1 & H1 & Hrun). apply se_bind_ok in Hrun as ([] & fs2 & H2 & Hrun).
  injection Hrun as <- <-. split; [done|]. split; [done|]. intros Hr.
  unfold se_map_err in H1. destruct (create_dir_all path fs) as [[[]|e] fs1'] eqn:Ec; [|done]. injection H1 as ->.
  rewrite restrict_to_owner_run in H2. injection H2 as <-. apply restrict_to_owner_private.
  - apply create_dir_all_directory in Ec as (file & -> & _). by eexists.
  - pose proof (create_dir_all_orderly path fs) as [Href _ _]. rewrite Ec in Href. cbn in Href. by rewrite Href.
Qed.

(** A directory is only made where nothing was, so no file reads differently afterwards. *)
Lemma create_dir_all_keeps_contents path other (fs : FileSystem) :
  read_contents other (snd (create_dir_all path fs)) = read_contents other fs.
Proof.
  unfold create_dir_all, create. destruct (fs_files fs !! path) as [[[|old] mode]|] eqn:E; [done..|].
  destruct (fs_refused fs path); [done|]. unfold read_contents. cbn.
  destruct (decide (other = path)) as [->|Hne]; [by rewrite lookup_insert_eq, E|by rewrite lookup_insert_ne].
Qed.

Lemma open_or_create_keeps_contents path other (fs : FileSystem) :
  other <> path \/ is_Some (read_contents other fs) ->
  read_contents other (snd (open_or_create path fs)) = read_contents other fs.
Proof.
  unfold open_or_create, create. destruct (fs_files fs !! path) as [[[|old] mode]|] eqn:E; [done|by destruct (fs_refused fs path)|].
  destruct (fs_refused fs path); [done|]. unfold read_contents. cbn.
  destruct (decide (other = path)) as [->|Hne]; [|by rewrite lookup_insert_ne].
  intros [Hn|[contents Hc]]; [done|]. by rewrite E in Hc.
Qed.

Lemma prepare_data_directory_keeps_contents std_absolute path other (fs : FileSystem) :
  read_contents other (snd (prepare_data_directory std_absolute path fs)) = read_contents other fs.
Proof.
  unfold prepare_data_directory, mbind, se_bind, se_map_err.
  pose proof (create_dir_all_keeps_contents path other fs) as Hc.
  destruct (create_dir_all path fs) as [[[]|e] fs1]; cbn in Hc |- *; [|done].
  rewrite <- Hc. apply (restrict_keeps_contents path other fs1).
Qed.

(** ** Lemmas: a host that refuses nothing *)

(** Nothing is refused, and what is at the paths of the two lists is of their kind. *)
Record hospitable (directories files : list string) (fs : FileSystem) : Prop := {
  ho_refused : forall path, fs_refused fs path = false;
  ho_directories : forall path file, path ∈ directories -> fs_files fs !! path = Some file ->
    is_directory (fi_node file) = true;
  ho_files : forall path file, path ∈ files -> fs_files fs !! path = Some file ->
    is_directory (fi_node file) = false;
}.

Lemma path_join_longer directory name : 0 < str_len name -> str_len directory < str_len (path_join directory name).
Proof.
  intros Hn. unfold path_join. destruct (_ || _); rewrite append_length; [lia|]. unfold str_len in *. cbn. lia.
Qed.

Section hospitable.
Context (directories files : list string).
Hypothesis apart : forall path, path ∈ directories -> path ∈ files -> False.

Abbreviation lives := (hospitable directories files).

Lemma hospitable_insert path file fs :
  lives fs -> (path ∈ directories -> is_directory (fi_node file) = true) ->
  (path ∈ files -> is_directory (fi_node file) = false) -> lives (set_files <[path := file]> fs).
Proof.
  intros [Hr Hd Hf] Hdir Hreg. split; [done| |]; cbn; intros other found Hin Hl;
    (destruct (decide (other = path)) as [->|Hne];
     [rewrite lookup_insert_eq in Hl; injection Hl as <-; auto|rewrite lookup_insert_ne in Hl by done; eauto]).
Qed.

Lemma create_dir_all_lives path fs :
  lives fs -> path ∈ directories -> exists fs', create_dir_all path fs = (Ok tt, fs') /\ lives fs'.
Proof.
  intros Hl Hin. unfold create_dir_all, create. destruct (fs_files fs !! path) as [[[|old] mode]|] eqn:E.
  - by exists fs.
  - by pose proof (ho_directories _ _ _ Hl _ _ Hin E).
  - rewrite (ho_refused _ _ _ Hl). eexists. split; [done|]. apply hospitable_insert; [done..|].
    intros Hf. by destruct (apart path).
Qed.

Lemma open_or_create_lives path fs :
  lives fs -> path ∈ files -> exists fs', open_or_create path fs = (Ok tt, fs') /\ lives fs'.
Proof.
  intros Hl Hin. unfold open_or_create, create. destruct (fs_files fs !! path) as [[[|old] mode]|] eqn:E.
  - by pose proof (ho_files _ _ _ Hl _ _ Hin E).
  - rewrite (ho_refused _ _ _ Hl). by exists fs.
  - rewrite (ho_refused _ _ _ Hl). eexists. split; [done|]. apply hospitable_insert; [done| |done].
    intros Hf. by destruct (apart path).
Qed.

Lemma write_file_lives path contents fs :
  lives fs -> path ∈ files -> exists fs', write_file path contents fs = (Ok tt, fs') /\ lives fs'.
Proof.
  intros Hl Hin. unfold write_file, create. destruct (fs_files fs !! path) as [[[|old] mode]|] eqn:E.
  - by pose proof (ho_files _ _ _ Hl _ _ Hin E).
  - rewrite (ho_refused _ _ _ Hl). eexists. split; [done|]. apply hospitable_insert; [done| |done].
    intros Hf. by destruct (apart path).
  - rewrite (ho_refused _ _ _ Hl). eexists. split; [done|]. apply hospitable_insert; [done| |done].
    intros Hf. by destruct (apart path).
Qed.

Lemma restrict_to_owner_lives path fs : lives fs -> lives (snd (restrict_to_owner path fs)).
Proof.
  intros Hl. unfold restrict_to_owner, se_modify. cbn. destruct (fs_files fs !! path) as [file|] eqn:E; [|done].
  destruct (tightened (fi_mode file)); [|done]. destruct (fs_refused fs path); [done|].
  apply hospitable_insert; [done| |]; intros Hin; cbn.
  - exact (ho_directories _ _ _ Hl _ _ Hin E).
  - exact (ho_files _ _ _ Hl _ _ Hin E).
Qed.

Lemma prepare_data_directory_lives std_absolute path fs :
  lives fs -> path ∈ directories ->
  exists fs', prepare_data_directory std_absolute path fs = (Ok (absolute std_absolute path), fs') /\ lives fs'.
Proof.
  intros Hl Hin. destruct (create_dir_all_lives path fs Hl Hin) as (fs1 & Hc & Hl1).
  exists (snd (restrict_to_owner path fs1)). split; [|by apply restrict_to_owner_lives].
  unfold prepare_data_directory. erewrite se_bind_eq; [|unfold se_map_err; by rewrite Hc].
  by erewrite se_bind_eq by apply restrict_to_owner_run.
Qed.

End hospitable.
