(* ===== verification/Tls.v ===== *)
(** * The listener's certificate: [src/tls.rs]

    The self-signed material is files of the data directory; [rcgen], the loading of a chain by [rustls] and
    the digest are parameters. *)

From S2P Require Import Prelude.
From S2P Require Import RustStr.
From S2P Require Import Protocol.
From S2P Require Import Config.
From S2P Require Import Auth.
From S2P Require Import Address.
From S2P Require Import Upstream.
From S2P Require Import Paths.

Definition TLS_DIRECTORY : string := "tls".
Definition CERTIFICATE_FILE : string := "cert.pem".
Definition PRIVATE_KEY_FILE : string := "key.pem".
Definition LOCALHOST_NAME : string := "localhost".
Definition CERTIFICATE_PEM_HEADER : string := "-----BEGIN CERTIFICATE-----".
Definition CERTIFICATE_PEM_FOOTER : string := "-----END CERTIFICATE-----".

Record SubjectNames : Type := mkSubjectNames {
  sn_public_host : string;
  sn_wildcard : option string;
}.

Record PemMaterial : Type := mkPemMaterial {
  pm_certificate : string;
  pm_private_key : string;
}.

Definition subject_alt_names (names : SubjectNames) : list string :=
  let host := trim (sn_public_host names) in
  let all :=
    [LOCALHOST_NAME]
    ++ (if negb (is_empty host) && negb (String.eqb host LOCALHOST_NAME) then [host] else []) in
  all ++ option_list (wildcard ← sn_wildcard names;
                      if existsb (String.eqb wildcard) all then None else Some wildcard).

Record MaterialPaths : Type := mkMaterialPaths {
  mp_certificate : string;
  mp_private_key : string;
}.

Definition MaterialPaths_new (directory : string) : MaterialPaths :=
  mkMaterialPaths (path_join directory CERTIFICATE_FILE) (path_join directory PRIVATE_KEY_FILE).

Definition MaterialPaths_read (files : MaterialPaths) (fs : FileSystem) : option PemMaterial :=
  certificate ← read_contents (mp_certificate files) fs;
  private_key ← read_contents (mp_private_key files) fs;
  Some (mkPemMaterial certificate private_key).

Definition MaterialPaths_write (files : MaterialPaths) (material : PemMaterial)
    : SE FileSystem string unit :=
  se_map_err (fun error => "无法保存自签名证书：" +:+ error)
    (write_file (mp_certificate files) (pm_certificate material) ;;
     write_file (mp_private_key files) (pm_private_key material)).

(** [rcgen] and the loading of a chain and key by [rustls]. *)
Class TlsCrates : Type := {
  generate_simple_self_signed : list string -> result string PemMaterial;
  RustlsConfig : Type;
  from_pem : string -> string -> result string RustlsConfig;
}.

Section tls.
Context `{TlsCrates}.

Definition generate (names : SubjectNames) : result string PemMaterial :=
  map_err (fun error => "无法生成自签名证书：" +:+ error)
    (generate_simple_self_signed (subject_alt_names names)).

Definition load_or_generate (data_directory : string) (names : SubjectNames)
    : SE FileSystem string PemMaterial :=
  let directory := path_join data_directory TLS_DIRECTORY in
  se_map_err (fun error => "无法创建证书目录 " +:+ directory +:+ "：" +:+ error)
    (create_dir_all directory) ;;
  restrict_to_owner directory ;;
  let files := MaterialPaths_new directory in
  found ← se_get (MaterialPaths_read files);
  material ← match found with
             | Some material => mret material
             | None =>
                 material ← se_lift (generate names);
                 MaterialPaths_write files material ;; mret material
             end;
  restrict_to_owner (mp_private_key files) ;;
  mret material.

Definition load_material (material : PemMaterial) : result string RustlsConfig :=
  map_err (fun error => "无法加载 TLS 证书：" +:+ error)
    (from_pem (pm_certificate material) (pm_private_key material)).

Definition read_file (path : string) : SE FileSystem string string :=
  contents ← se_get (read_contents path);
  se_lift (ok_or ("无法读取 " +:+ path +:+ "：No such file or directory (os error 2)") contents).

Definition configure (mode : TlsMode) (data_directory : string) (names : SubjectNames)
    : SE FileSystem string (option RustlsConfig) :=
  match mode with
  | TlsMode_Disabled => mret None
  | TlsMode_Certificate chain key =>
      certificate ← read_file chain;
      private_key ← read_file key;
      config ← se_lift (load_material (mkPemMaterial certificate private_key));
      mret (Some config)
  | TlsMode_SelfSigned =>
      material ← load_or_generate data_directory names;
      config ← se_lift (load_material material);
      mret (Some config)
  end.

End tls.

(** [sha2] and [data_encoding]. *)
Class DigestCrates : Type := {
  sha256 : string -> string;
  base64_decode : string -> option string;
  hexupper : string -> string;
  hexlower : string -> string;
}.

(** A digest has 32 bytes; both spellings have two hexadecimal digits for each byte, and a byte sequence is
    read back from the lower-case one. *)
Class DigestLaws (D : DigestCrates) : Prop := {
  sha256_length : forall s, str_len (sha256 s) = 32;
  hexupper_length : forall s, str_len (hexupper s) = 2 * str_len s;
  hexupper_digits : forall s, str_all is_ascii_hexdigit (hexupper s) = true;
  hexlower_upper : forall s, hexlower s = str_map to_ascii_lowercase (hexupper s);
  hexlower_inj : forall a b, hexlower a = hexlower b -> a = b;
}.

Section fingerprint.
Context `{DigestCrates}.

(** [text.get(start..end)], where both are the ends of ASCII markers. *)
Definition str_get (start finish : nat) (s : string) : option string :=
  if (start <=? finish) && (finish <=? str_len s) then Some (str_take (finish - start) (str_drop start s))
  else None.

Definition certificate_fingerprint (certificate_pem : string) : option string :=
  if is_utf8 certificate_pem then
    header ← str_find CERTIFICATE_PEM_HEADER certificate_pem;
    let start := header + str_len CERTIFICATE_PEM_HEADER in
    finish ← str_find CERTIFICATE_PEM_FOOTER certificate_pem;
    body ← str_get start finish certificate_pem;
    der ← base64_decode (without_whitespace body);
    Some (str_join (String colon EmptyString) (chunks 2 (hexupper (sha256 der))))
  else None.

(** [certificate_fingerprint] of [upstream/pinning.rs], on the certificate itself. *)
Definition pinned_fingerprint (certificate : string) : string := hexlower (sha256 certificate).

End fingerprint.

(** ** Lemmas: the fingerprint *)

Section pinning.
Context `{!Protocol} `{!ProtocolLaws _} `{!Platform} `{!DigestCrates} `{!DigestLaws _}.

(** A PEM text with one certificate in it; [body] is what stands between the markers' lines. *)
Record certificate_pem (pem body : string) : Prop := {
  cp_text : exists before after,
    pem = before +:+ CERTIFICATE_PEM_HEADER +:+ String newline body +:+ CERTIFICATE_PEM_FOOTER +:+ after
    /\ contains_char before dash = false;
  cp_body : contains_char body dash = false;
  cp_ascii : str_all is_ascii pem = true;
}.

Lemma hexdigit_plain c :
  is_ascii_hexdigit c = true ->
  is_graphic c = true /\ negb (Ascii.eqb c colon) = true /\ is_ascii c = true
  /\ is_ascii_hexdigit (to_ascii_lowercase c) = true.
Proof. by destruct c as [[] [] [] [] [] [] [] []]. Qed.

Lemma hexdigits_plain s :
  str_all is_ascii_hexdigit s = true ->
  str_all is_graphic s = true /\ str_all (fun c => negb (Ascii.eqb c colon)) s = true
  /\ str_all is_ascii s = true /\ str_all is_ascii_hexdigit (str_map to_ascii_lowercase s) = true.
Proof.
  induction s as [|c s IH]; [done|]. cbn. intros [Hc Hs]%andb_true_iff.
  apply hexdigit_plain in Hc as (-> & -> & -> & ->). apply IH in Hs as (-> & -> & -> & ->). done.
Qed.

(** What is shown in groups of two is what the settings store. *)
Lemma normalize_shown digest :
  str_len digest = 32 ->
  normalize_fingerprint (str_join (String colon EmptyString) (chunks 2 (hexupper digest))) = Ok (hexlower digest).
Proof.
  intros Hlen. pose proof (hexupper_digits digest) as Hhex. pose proof (hexdigits_plain _ Hhex) as (Hg & Hc & Ha & Hl).
  unfold normalize_fingerprint. rewrite trim_graphic.
  2:{ apply str_all_str_join; [done|]. intros piece. by apply str_all_chunks. }
  rewrite str_filter_join; [|done|intros piece; by apply str_all_chunks].
  unfold chunks. rewrite chunks_fuel_join by lia. unfold to_lowercase. rewrite Ha, str_map_length, hexupper_length, Hlen, Hl.
  by rewrite hexlower_upper.
Qed.

(** The stored spelling is read as itself. *)
Lemma normalize_stored digest :
  str_len digest = 32 -> normalize_fingerprint (hexlower digest) = Ok (hexlower digest).
Proof.
  intros Hlen. rewrite hexlower_upper. set (s := str_map to_ascii_lowercase (hexupper digest)).
  assert (Hhex : str_all is_ascii_hexdigit s = true) by apply hexdigits_plain, hexupper_digits.
  pose proof (hexdigits_plain _ Hhex) as (Hg & Hc & Ha & _).
  unfold normalize_fingerprint. rewrite trim_graphic, str_filter_all by done. unfold to_lowercase. rewrite Ha.
  assert (Hs : str_map to_ascii_lowercase s = s).
  { apply str_map_id. unfold s. apply str_all_map. by intros [[] [] [] [] [] [] [] []]. }
  rewrite Hs, Hhex. unfold s. by rewrite str_map_length, hexupper_length, Hlen.
Qed.

Lemma find_footer body rest :
  str_find CERTIFICATE_PEM_FOOTER (CERTIFICATE_PEM_HEADER +:+ String newline body +:+ rest)
  = Nat.add (S (str_len CERTIFICATE_PEM_HEADER)) <$> str_find CERTIFICATE_PEM_FOOTER (body +:+ rest).
Proof.
  rewrite append_String. generalize (body +:+ rest). intros text.
  change (CERTIFICATE_PEM_HEADER +:+ String newline text)
    with (("-----BEGIN CERTIFICATE-----" +:+ String newline EmptyString) +:+ text).
  unfold CERTIFICATE_PEM_FOOTER. 
  repeat first [rewrite append_String | rewrite append_nil_l | rewrite str_find_step by reflexivity].
  by destruct (str_find _ text).
Qed.

Lemma str_get_middle a b c : str_get (str_len a) (str_len a + str_len b) (a +:+ b +:+ c) = Some b.
Proof.
  unfold str_get. rewrite !append_length.
  destruct (Nat.leb_spec (str_len a) (str_len a + str_len b)); [|lia].
  destruct (Nat.leb_spec (str_len a + str_len b) (str_len a + (str_len b + str_len c))); [|lia].
  cbn [andb]. rewrite str_drop_app. replace (str_len a + str_len b - str_len a) with (str_len b) by lia.
  by rewrite str_take_app.
Qed.

(** A certificate between the markers has a fingerprint. *)
Lemma fingerprint_shown pem body der :
  certificate_pem pem body -> base64_decode (without_whitespace (String newline body)) = Some der ->
  certificate_fingerprint pem = Some (str_join (String colon EmptyString) (chunks 2 (hexupper (sha256 der)))).
Proof.
  intros [(before & after & -> & Hbefore) Hbody Hascii] Hder. unfold certificate_fingerprint.
  rewrite is_utf8_ascii by done.
  assert (Hstart : str_find CERTIFICATE_PEM_HEADER
      (before +:+ CERTIFICATE_PEM_HEADER +:+ String newline body +:+ CERTIFICATE_PEM_FOOTER +:+ after)
      = Some (str_len before)).
  { unfold CERTIFICATE_PEM_HEADER at 1. rewrite str_find_skip by done.
    fold CERTIFICATE_PEM_HEADER. rewrite str_find_here. cbn. by rewrite Nat.add_0_r. }
  assert (Hfinish : str_find CERTIFICATE_PEM_FOOTER
      (before +:+ CERTIFICATE_PEM_HEADER +:+ String newline body +:+ CERTIFICATE_PEM_FOOTER +:+ after)
      = Some (str_len before + (str_len CERTIFICATE_PEM_HEADER + str_len (String newline body)))).
  { unfold CERTIFICATE_PEM_FOOTER at 1. rewrite str_find_skip by done. fold CERTIFICATE_PEM_FOOTER.
    rewrite find_footer. unfold CERTIFICATE_PEM_FOOTER at 1. rewrite str_find_skip by done.
    fold CERTIFICATE_PEM_FOOTER. rewrite str_find_here. cbn. f_equal. unfold str_len. cbn. lia. }
  rewrite Hstart. cbn [mbind option_bind]. rewrite Hfinish. cbn [mbind option_bind].
  assert (Hget : str_get (str_len before + str_len CERTIFICATE_PEM_HEADER)
      (str_len before + (str_len CERTIFICATE_PEM_HEADER + str_len (String newline body)))
      (before +:+ CERTIFICATE_PEM_HEADER +:+ String newline body +:+ CERTIFICATE_PEM_FOOTER +:+ after)
      = Some (String newline body)).
  { rewrite <- (append_assoc before), Nat.add_assoc, <- (append_length before). apply str_get_middle. }
  rewrite Hget. cbn [mbind option_bind]. by rewrite Hder.
Qed.

End pinning.

(** ** Lemmas: the self-signed material *)

Lemma material_read files fs m :
  MaterialPaths_read files fs = Some m <->
  read_contents (mp_certificate files) fs = Some (pm_certificate m)
  /\ read_contents (mp_private_key files) fs = Some (pm_private_key m).
Proof.
  unfold MaterialPaths_read. destruct (read_contents (mp_certificate files) fs); [|naive_solver].
  destruct (read_contents (mp_private_key files) fs); [|naive_solver]. simpl.
  destruct m; naive_solver.
Qed.

Lemma read_contents_ext path (fs fs' : FileSystem) :
  fs_files fs' !! path = fs_files fs !! path -> read_contents path fs' = read_contents path fs.
Proof. unfold read_contents. by intros ->. Qed.

(** What was written is what is read back. *)
Lemma material_written directory m (fs fs' : FileSystem) :
  MaterialPaths_write (MaterialPaths_new directory) m fs = (Ok tt, fs') ->
  MaterialPaths_read (MaterialPaths_new directory) fs' = Some m.
Proof.
  unfold MaterialPaths_write, se_map_err. case_match eqn:E. destruct r as [[]|]; [|done]. intros [= <-].
  apply se_bind_ok in E as ([] & fs1 & (H1 & _)%write_file_ok & (H2 & Ho)%write_file_ok).
  apply material_read. split; [|done]. rewrite <- H1. apply read_contents_ext, Ho.
  by intros ?%path_join_inj.
Qed.

Lemma restrict_keeps_material path files (fs : FileSystem) :
  MaterialPaths_read files (snd (restrict_to_owner path fs)) = MaterialPaths_read files fs.
Proof. unfold MaterialPaths_read. by rewrite !restrict_keeps_contents. Qed.

Section material.
Context `{!TlsCrates}.

Lemma load_or_generate_orderly data_directory names : preserves orderly (load_or_generate data_directory names).
Proof. unfold load_or_generate, MaterialPaths_write. frame. Qed.

(** A start leaves the material it answers on disk, its directory there and the private key to its owner. *)
Lemma load_or_generate_effect data_directory names m (fs fs' : FileSystem) :
  let files := MaterialPaths_new (path_join data_directory TLS_DIRECTORY) in
  load_or_generate data_directory names fs = (Ok m, fs') ->
  MaterialPaths_read files fs' = Some m
  /\ create_dir_all (path_join data_directory TLS_DIRECTORY) fs' = (Ok tt, fs')
  /\ (fs_refused fs (mp_private_key files) = false -> private fs' (mp_private_key files)).
Proof.
  intros files. unfold load_or_generate. fold files. intros Hrun.
  apply se_bind_ok in Hrun as ([] & fs1 & H1 & Hrun). apply se_bind_ok in Hrun as ([] & fs2 & H2 & Hrun).
  assert (Hdir : exists file, fs_files fs1 !! path_join data_directory TLS_DIRECTORY = Some file
    /\ is_directory (fi_node file) = true).
  { unfold se_map_err in H1. destruct (create_dir_all _ fs) as [[[]|e] fs1'] eqn:Ec; [|done]. injection H1 as ->.
    by eapply create_dir_all_directory. }
  assert (Hrest : forall A (m : SE FileSystem string A) a f f', preserves orderly m -> m f = (Ok a, f') -> orderly f f').
  { intros A p a f f' Hp Hm. specialize (Hp f). by rewrite Hm in Hp. }
  assert (Ho1 : orderly fs fs1) by (eapply Hrest, H1; frame).
  assert (Ho2 : orderly fs1 fs2) by (eapply Hrest, H2; frame).
  apply se_bind_ok in Hrun as (found & fs2' & Hf & Hrun). injection Hf as <- <-.
  apply se_bind_ok in Hrun as (m' & fs3 & Hm & Hrun).
  apply se_bind_ok in Hrun as ([] & fs4 & H4 & Hrun). injection Hrun as -> <-.
  assert (Ho3 : orderly fs2 fs3) by (eapply Hrest, Hm; unfold MaterialPaths_write; frame).
  assert (Hread : MaterialPaths_read files fs3 = Some m).
  { destruct (MaterialPaths_read files fs2) as [stored|] eqn:Estored; [by injection Hm as <- <-|].
    apply se_bind_ok in Hm as (m0 & fs2' & Hg & Hm). injection Hg as _ <-.
    apply se_bind_ok in Hm as ([] & fs3' & Hw & Hm). injection Hm as -> <-. by eapply material_written. }
  apply (f_equal snd) in H4. cbn [snd] in H4. subst fs4. split; [by rewrite restrict_keeps_material|].
  pose proof (restrict_to_owner_orderly (mp_private_key files) fs3) as Ho4. split.
  - assert (Hall : orderly fs1 (snd (restrict_to_owner (mp_private_key files) fs3)))
      by (etrans; [done|]; etrans; [done|done]).
    destruct Hdir as (file & Hd & Hk). destruct (or_paths _ _ Hall _ _ Hd) as (file' & Hd' & Hk').
    eapply create_dir_all_again; [done|congruence].
  - intros Hr. apply restrict_to_owner_private.
    + apply material_read in Hread as [_ Hk]. unfold read_contents in Hk.
      destruct (fs_files fs3 !! mp_private_key files); [done|discriminate Hk].
    + by rewrite (or_refused _ _ Ho3), (or_refused _ _ Ho2), (or_refused _ _ Ho1).
Qed.

(** On a host that refuses nothing the material is found or made. *)
Lemma load_or_generate_lives directories regular data_directory names (fs : FileSystem) :
  let directory := path_join data_directory TLS_DIRECTORY in
  let files := MaterialPaths_new directory in
  (forall path, path ∈ directories -> path ∈ regular -> False) -> hospitable directories regular fs ->
  directory ∈ directories -> mp_certificate files ∈ regular -> mp_private_key files ∈ regular ->
  (forall wanted, exists made, generate_simple_self_signed wanted = Ok made) ->
  exists m fs', load_or_generate data_directory names fs = (Ok m, fs')
    /\ (MaterialPaths_read files fs = Some m \/ generate_simple_self_signed (subject_alt_names names) = Ok m).
Proof.
  intros directory files Hapart Hl Hdir Hcert Hkey Hmade.
  destruct (create_dir_all_lives _ _ Hapart directory fs Hl Hdir) as (fs1 & Hc & Hl1).
  pose proof (restrict_to_owner_lives _ _ directory fs1 Hl1) as Hl2.
  set (fs2 := snd (restrict_to_owner directory fs1)) in *.
  assert (Hread : MaterialPaths_read files fs2 = MaterialPaths_read files fs).
  { unfold fs2. rewrite restrict_keeps_material. unfold MaterialPaths_read.
    replace fs1 with (snd (create_dir_all directory fs)) by (by rewrite Hc). by rewrite !create_dir_all_keeps_contents. }
  unfold load_or_generate. fold directory files. erewrite se_bind_eq; [|unfold se_map_err; by rewrite Hc].
  erewrite se_bind_eq by apply restrict_to_owner_run. fold fs2. erewrite se_bind_eq by reflexivity.
  rewrite Hread. destruct (MaterialPaths_read files fs) as [stored|].
  { erewrite se_bind_eq by reflexivity. erewrite se_bind_eq by apply restrict_to_owner_run. eauto. }
  destruct (Hmade (subject_alt_names names)) as [made Hm].
  destruct (write_file_lives _ _ Hapart _ (pm_certificate made) fs2 Hl2 Hcert) as (fs3 & Hw1 & Hl3).
  destruct (write_file_lives _ _ Hapart _ (pm_private_key made) fs3 Hl3 Hkey) as (fs4 & Hw2 & _).
  erewrite se_bind_eq.
  2:{ unfold se_lift, generate. rewrite Hm. cbn [map_err]. erewrite se_bind_eq by reflexivity.
      unfold MaterialPaths_write. erewrite se_bind_eq; [reflexivity|].
      unfold se_map_err. erewrite se_bind_eq by exact Hw1. by rewrite Hw2. }
  erewrite se_bind_eq by apply restrict_to_owner_run. eauto 6.
Qed.

(** The self-signed material survives.  When a start on a data directory answers material, it is on disk, the
    private key is its owner's alone, and the next start answers the same material whatever names it asks
    for - a certificate is never quietly replaced. *)
Lemma self_signed_material (data_directory : string) (names : SubjectNames) (m : PemMaterial)
    (fs fs' : FileSystem) :
  let files := MaterialPaths_new (path_join data_directory TLS_DIRECTORY) in
  load_or_generate data_directory names fs = (Ok m, fs') ->
  (fs_refused fs (mp_private_key files) = false -> private fs' (mp_private_key files))
  /\ read_contents (mp_certificate files) fs' = Some (pm_certificate m)
  /\ read_contents (mp_private_key files) fs' = Some (pm_private_key m)
  /\ forall names', fst (load_or_generate data_directory names' fs') = Ok m.
Proof.
  intros files Hrun. destruct (load_or_generate_effect data_directory names m fs fs' Hrun) as (Hread & Hdir & Hkey).
  pose proof Hread as [Hc Hk]%material_read. split_and!; [done..|]. intros names'.
  unfold load_or_generate. erewrite se_bind_eq.
  2:{ unfold se_map_err. by rewrite Hdir. }
  fold files. erewrite se_bind_eq by apply restrict_to_owner_run. erewrite se_bind_eq by reflexivity.
  fold files in Hread. rewrite restrict_keeps_material, Hread. erewrite se_bind_eq by reflexivity.
  by erewrite se_bind_eq by apply restrict_to_owner_run.
Qed.

End material.

(** ** Witnesses *)

#[export] Instance sample_tls : TlsCrates := {|
  generate_simple_self_signed names := Ok (mkPemMaterial ("cert for " +:+ str_join "," names) "key");
  RustlsConfig := unit;
  from_pem _ key := if String.eqb key "key" then Ok tt else Err "invalid private key";
|}.

Definition sample_file_system : FileSystem := mkFileSystem ∅ (fun _ => false) 18.

Lemma self_signed_witness :
  let fs' := snd (load_or_generate "data" (mkSubjectNames "relay.example.com" None) sample_file_system) in
  fst (load_or_generate "data" (mkSubjectNames "other.example.com" None) fs')
  = Ok (mkPemMaterial "cert for localhost,relay.example.com" "key").
Proof.
  intros fs'.
  refine (proj2 (proj2 (proj2 (self_signed_material "data" (mkSubjectNames "relay.example.com" None)
    (mkPemMaterial "cert for localhost,relay.example.com" "key") sample_file_system fs' _))) _).
  apply run_answer; evaluate.
Defined.

(** Digests that keep the first 32 bytes, and text that is its own base64. *)
#[export] Instance sample_digests : DigestCrates := {|
  sha256 s := str_take 32 (s +:+ "................................");
  base64_decode s := Some s;
  hexupper := str_flat_map hex_byte;
  hexlower s := str_map to_ascii_lowercase (str_flat_map hex_byte s);
|}.

Lemma str_take_length n s : n <= str_len s -> str_len (str_take n s) = n.
Proof.
  revert s. unfold str_len. induction n as [|n IH]; intros [|c s] Hs; cbn in *; try lia.
  by rewrite IH by lia.
Qed.

Definition hex_value (c : ascii) : N :=
  let n := byte_val c in if (n <? 58)%N then n - 48 else n - 87.

Lemma hex_byte_inj c s c' s' :
  str_map to_ascii_lowercase (hex_byte c +:+ s) = str_map to_ascii_lowercase (hex_byte c' +:+ s') ->
  c = c' /\ str_map to_ascii_lowercase s = str_map to_ascii_lowercase s'.
Proof.
  assert (Hread : forall c, ascii_of_N (16 * hex_value (to_ascii_lowercase (hex_digit (byte_val c / 16)))
    + hex_value (to_ascii_lowercase (hex_digit (byte_val c mod 16)))) = c)
    by by intros [[] [] [] [] [] [] [] []].
  unfold hex_byte. rewrite !append_String, !append_nil_l. cbn [str_map]. intros [= H1 H2 Hs]. split; [|done].
  by rewrite <- (Hread c), <- (Hread c'), H1, H2.
Qed.

#[export] Instance sample_digest_laws : DigestLaws sample_digests.
Proof.
  split.
  - intros s. cbn -[str_take]. apply str_take_length. rewrite append_length. cbn. lia.
  - intros s. cbn. induction s as [|c s IH]; [done|]. cbn [str_flat_map].
    rewrite append_length. unfold str_len in *. rewrite IH. cbn. lia.
  - intros s. cbn. induction s as [|c s IH]; [done|]. cbn [str_flat_map]. rewrite str_all_app, IH, andb_true_r.
    by destruct c as [[] [] [] [] [] [] [] []].
  - done.
  - intros a. cbn. induction a as [|c a IH]; intros [|c' b]; cbn [str_flat_map]; try done.
    by intros [-> ->%IH]%hex_byte_inj.
Qed.
