(* ===== verification/Schema.v ===== *)
(** * The schema and its migration: [Database::open], [migrate] and [ensure_column] of
    [src/db/mod.rs], over [migrations/0001_initial.sql]

    Here a table is what the file holds: the columns it was created with, in their order, and rows of
    untyped values.  [migrate] runs its statements one by one, each of which the engine may fail; the
    columns the released versions added come through [ensure_column].  [database_of] reads a store the
    way the statements of [src/db/*.rs] do - a list of column names, then [row.get(0)],
    [row.get(1)], ... at the type of each field - and gives the typed tables of [Database]. *)

From S2P Require Import Prelude.
From S2P Require Import Protocol.
From S2P Require Import Database.

(** ** What the file holds *)

Inductive SqlType : Type :=
| INTEGER
| TEXT.

Inductive SqlValue : Type :=
| Null
| Integer (value : Z)
| Text (value : string).

Inductive Key : Type :=
| Key_None
| Key_Primary
| Key_AutoIncrement
| Key_Unique
| Key_References (table : string).

#[export] Instance SqlType_eq_dec : EqDecision SqlType.
Proof. solve_decision. Defined.

#[export] Instance SqlValue_eq_dec : EqDecision SqlValue.
Proof. solve_decision. Defined.

#[export] Instance Key_eq_dec : EqDecision Key.
Proof. solve_decision. Defined.

Record Column : Type := mkColumn {
  co_name : string;
  co_type : SqlType;
  co_not_null : bool;
  co_default : option SqlValue;
  co_key : Key;
}.

#[export] Instance Column_eq_dec : EqDecision Column.
Proof. solve_decision. Defined.

Record Table : Type := mkTable {
  ta_columns : list Column;
  ta_rows : list (list SqlValue);
}.

(** [so_faults] says which of the coming statements the engine fails. *)
Record Store : Type := mkStore {
  so_tables : gmap string Table;
  so_indexes : gmap string (string * list string);
  so_foreign_keys : bool;
  so_faults : list bool;
}.

Definition set_tables (f : gmap string Table -> gmap string Table) (s : Store) : Store :=
  mkStore (f (so_tables s)) (so_indexes s) (so_foreign_keys s) (so_faults s).

Definition set_indexes f (s : Store) : Store :=
  mkStore (so_tables s) (f (so_indexes s)) (so_foreign_keys s) (so_faults s).

Definition set_foreign_keys (on : bool) (s : Store) : Store :=
  mkStore (so_tables s) (so_indexes s) on (so_faults s).

Definition with_faults (faults : list bool) (s : Store) : Store :=
  mkStore (so_tables s) (so_indexes s) (so_foreign_keys s) faults.

(** A file SQLite has just created. *)
Definition empty_store : Store := mkStore ∅ ∅ false [].

(** ** Statements *)

Inductive Statement : Type :=
| CreateTable (name : string) (columns : list Column)
| CreateIndex (name table : string) (columns : list string)
| AddColumn (table : string) (column : Column)
| ForeignKeysOn.

Definition has_column (table : Table) (name : string) : bool :=
  existsb (fun c => String.eqb (co_name c) name) (ta_columns table).

(** The value a row that was there before the column takes in it. *)
Definition column_default (c : Column) : SqlValue := default Null (co_default c).

Definition add_column (c : Column) (table : Table) : Table :=
  mkTable (ta_columns table ++ [c]) ((fun row => row ++ [column_default c]) <$> ta_rows table).

(** [CREATE ... IF NOT EXISTS] leaves what is there alone, whatever its shape; an index needs its
    columns; [ALTER TABLE ... ADD COLUMN] needs the table, refuses a column that is there, and a
    [NOT NULL] column whose default is null when there are rows. *)
Definition perform (statement : Statement) (s : Store) : result SqliteError Store :=
  match statement with
  | CreateTable name columns =>
      match so_tables s !! name with
      | Some _ => Ok s
      | None => Ok (set_tables <[name := mkTable columns []]> s)
      end
  | CreateIndex name table columns =>
      match so_indexes s !! name with
      | Some _ => Ok s
      | None =>
          match so_tables s !! table with
          | Some found =>
              if forallb (has_column found) columns
              then Ok (set_indexes <[name := (table, columns)]> s)
              else Err SqliteError_Other
          | None => Err SqliteError_Other
          end
      end
  | AddColumn table column =>
      match so_tables s !! table with
      | Some found =>
          if has_column found (co_name column) then Err SqliteError_Other
          else if co_not_null column && bool_decide (column_default column = Null)
                  && negb (bool_decide (ta_rows found = []))
          then Err SqliteError_Other
          else Ok (set_tables <[table := add_column column found]> s)
      | None => Err SqliteError_Other
      end
  | ForeignKeysOn => Ok (set_foreign_keys true s)
  end.

(** One call into the engine. *)
Definition engine {A : Type} (f : Store -> result SqliteError (A * Store)) : SE Store SqliteError A :=
  fun s =>
    match so_faults s with
    | true :: faults => (Err SqliteError_Other, with_faults faults s)
    | faults =>
        let s := with_faults (tail faults) s in
        match f s with
        | Ok (a, s') => (Ok a, s')
        | Err e => (Err e, s)
        end
    end.

Definition execute (statement : Statement) : SE Store SqliteError unit :=
  engine (fun s => s' ← perform statement s; Ok (tt, s')).

(** [execute_batch] stops at the first statement that fails. *)
Definition execute_batch (statements : list Statement) : SE Store SqliteError unit :=
  se_for statements execute.

(** [PRAGMA table_info(...)]: the names of the columns, none for a table that is not there. *)
Definition table_info (table : string) : SE Store SqliteError (list string) :=
  engine (fun s => Ok (from_option (fun found => co_name <$> ta_columns found) [] (so_tables s !! table), s)).

(** ** [migrations/0001_initial.sql] *)

Definition column (name : string) (type : SqlType) : Column := mkColumn name type false None Key_None.
Definition not_null (c : Column) : Column :=
  mkColumn (co_name c) (co_type c) true (co_default c) (co_key c).
Definition with_default (value : SqlValue) (c : Column) : Column :=
  mkColumn (co_name c) (co_type c) (co_not_null c) (Some value) (co_key c).
Definition with_key (key : Key) (c : Column) : Column :=
  mkColumn (co_name c) (co_type c) (co_not_null c) (co_default c) key.

Definition SETTINGS_TABLE : list Column :=
  [with_key Key_Primary (column "key" TEXT);
   not_null (column "value" TEXT);
   not_null (column "updated_at" INTEGER)].

Definition USERS_TABLE : list Column :=
  [with_key Key_Primary (column "id" TEXT);
   with_key Key_Unique (not_null (column "username" TEXT));
   not_null (column "password_hash" TEXT);
   not_null (column "role" TEXT);
   with_default (Integer 0) (not_null (column "disabled" INTEGER));
   not_null (column "created_at" INTEGER);
   column "last_login_at" INTEGER].

Definition DEVICES_TABLE : list Column :=
  [with_key Key_Primary (column "id" TEXT);
   not_null (column "kind" TEXT);
   not_null (column "name" TEXT);
   with_key (Key_References "users") (column "owner_user_id" TEXT);
   not_null (column "secret_hash" TEXT);
   column "note" TEXT;
   not_null (column "created_at" INTEGER);
   column "revoked_at" INTEGER;
   column "last_seen_at" INTEGER;
   column "last_ip" TEXT;
   column "last_version" TEXT;
   with_default (Text "public") (not_null (column "access" TEXT))].

Definition ENROLLMENTS_TABLE : list Column :=
  [with_key Key_Primary (column "id" TEXT);
   with_key Key_Unique (not_null (column "code_hash" TEXT));
   not_null (column "kind" TEXT);
   column "owner_user_id" TEXT;
   not_null (column "created_by" TEXT);
   column "note" TEXT;
   with_default (Integer 0) (not_null (column "created_at" INTEGER));
   not_null (column "expires_at" INTEGER);
   column "used_at" INTEGER;
   column "used_by_device_id" TEXT;
   column "cancelled_at" INTEGER].

Definition SESSIONS_TABLE : list Column :=
  [with_key Key_Primary (column "id" TEXT);
   not_null (column "user_id" TEXT);
   not_null (column "created_at" INTEGER);
   not_null (column "expires_at" INTEGER);
   column "ip" TEXT].

Definition AUDIT_TABLE : list Column :=
  [with_key Key_AutoIncrement (column "id" INTEGER);
   not_null (column "at" INTEGER);
   not_null (column "actor_kind" TEXT);
   column "actor_id" TEXT;
   not_null (column "action" TEXT);
   column "target_kind" TEXT;
   column "target_id" TEXT;
   column "ip" TEXT;
   column "detail" TEXT].

Definition INITIAL_MIGRATION : list Statement :=
  [CreateTable "relay_settings" SETTINGS_TABLE;
   CreateTable "users" USERS_TABLE;
   CreateTable "devices" DEVICES_TABLE;
   CreateIndex "idx_devices_owner" "devices" ["owner_user_id"];
   CreateTable "enrollment_codes" ENROLLMENTS_TABLE;
   CreateTable "console_sessions" SESSIONS_TABLE;
   CreateIndex "idx_console_sessions_user" "console_sessions" ["user_id"];
   CreateTable "audit_events" AUDIT_TABLE;
   CreateIndex "idx_audit_events_at" "audit_events" ["at"];
   CreateIndex "idx_audit_events_target" "audit_events" ["target_id"]].

(** ** [src/db/mod.rs] *)

Definition DATABASE_FILE : string := "relay.db".

(** [declaration] is the column's name with the text after it. *)
Definition ensure_column (table : string) (declaration : Column) : SE Store SqliteError unit :=
  existing ← table_info table;
  if existsb (String.eqb (co_name declaration)) existing then mret tt
  else execute (AddColumn table declaration).

Definition CANCELLED_AT : Column := column "cancelled_at" INTEGER.
Definition CREATED_AT : Column := with_default (Integer 0) (not_null (column "created_at" INTEGER)).

(** The default is [DeviceAccess::default().as_str()]. *)
Definition ACCESS : Column :=
  with_default (Text (DeviceAccess_as_str DeviceAccess_Public)) (not_null (column "access" TEXT)).

Definition migrate : SE Store DatabaseError unit :=
  se_map_err DatabaseError_Sqlite
    (execute_batch INITIAL_MIGRATION ;;
     ensure_column "enrollment_codes" CANCELLED_AT ;;
     ensure_column "enrollment_codes" CREATED_AT ;;
     ensure_column "devices" ACCESS).

(** [Database::open] once the connection to the file is there. *)
Definition open_connection : SE Store DatabaseError unit :=
  se_map_err DatabaseError_Sqlite (execute_batch [ForeignKeysOn]) ;;
  migrate.

(** ** Reading rows: the column lists and [row.get] *)

Fixpoint value_of (name : string) (columns : list Column) (row : list SqlValue) : option SqlValue :=
  match columns, row with
  | c :: columns', v :: row' => if String.eqb (co_name c) name then Some v else value_of name columns' row'
  | _, _ => None
  end.

(** [SELECT <names> FROM ...] on one row. *)
Definition select_columns (names : list string) (columns : list Column) (row : list SqlValue)
    : option (list SqlValue) :=
  mapM (fun name => value_of name columns row) names.

(** [row.get::<_, String>], [row.get::<_, i64>] and their [Option]s. *)
Definition as_text (v : SqlValue) : option string :=
  match v with
  | Text s => Some s
  | _ => None
  end.

Definition as_integer (v : SqlValue) : option Z :=
  match v with
  | Integer z => Some z
  | _ => None
  end.

Definition as_optional {A : Type} (f : SqlValue -> option A) (v : SqlValue) : option (option A) :=
  match v with
  | Null => Some None
  | _ => Some <$> f v
  end.

Definition SETTING_COLUMNS : list string := ["key"; "value"; "updated_at"].
Definition USER_COLUMNS : list string :=
  ["id"; "username"; "password_hash"; "role"; "disabled"; "created_at"; "last_login_at"].
Definition DEVICE_COLUMNS : list string :=
  ["id"; "kind"; "name"; "owner_user_id"; "secret_hash"; "note"; "created_at"; "revoked_at";
   "last_seen_at"; "last_ip"; "last_version"; "access"].
Definition ENROLLMENT_COLUMNS : list string :=
  ["id"; "code_hash"; "kind"; "owner_user_id"; "created_by"; "note"; "created_at"; "expires_at";
   "used_at"; "used_by_device_id"; "cancelled_at"].
Definition SESSION_COLUMNS : list string := ["id"; "user_id"; "created_at"; "expires_at"; "ip"].
Definition AUDIT_COLUMNS : list string :=
  ["id"; "at"; "actor_kind"; "actor_id"; "action"; "target_kind"; "target_id"; "ip"; "detail"].

Definition get_setting_row (values : list SqlValue) : option (string * SettingRow) :=
  match values with
  | [key; value; updated_at] =>
      key ← as_text key; value ← as_text value; updated_at ← as_integer updated_at;
      Some (key, mkSettingRow value updated_at)
  | _ => None
  end.

Definition get_user_row (values : list SqlValue) : option (string * UserRow) :=
  match values with
  | [id; username; password_hash; role; disabled; created_at; last_login_at] =>
      id ← as_text id; username ← as_text username; password_hash ← as_text password_hash;
      role ← as_text role; disabled ← as_integer disabled; created_at ← as_integer created_at;
      last_login_at ← as_optional as_integer last_login_at;
      Some (id, mkUserRow username password_hash role disabled created_at last_login_at)
  | _ => None
  end.

Definition get_device_row (values : list SqlValue) : option (string * DeviceRow) :=
  match values with
  | [id; kind; name; owner; secret; note; created_at; revoked_at; last_seen_at; last_ip; version; access] =>
      id ← as_text id; kind ← as_text kind; name ← as_text name; owner ← as_optional as_text owner;
      secret ← as_text secret; note ← as_optional as_text note; created_at ← as_integer created_at;
      revoked_at ← as_optional as_integer revoked_at; last_seen_at ← as_optional as_integer last_seen_at;
      last_ip ← as_optional as_text last_ip; version ← as_optional as_text version;
      access ← as_text access;
      Some (id, mkDeviceRow kind name owner secret note created_at revoked_at last_seen_at last_ip version
                  access)
  | _ => None
  end.

Definition get_enrollment_row (values : list SqlValue) : option (string * EnrollmentRow) :=
  match values with
  | [id; code_hash; kind; owner; created_by; note; created_at; expires_at; used_at; used_by; cancelled_at] =>
      id ← as_text id; code_hash ← as_text code_hash; kind ← as_text kind;
      owner ← as_optional as_text owner; created_by ← as_text created_by; note ← as_optional as_text note;
      created_at ← as_integer created_at; expires_at ← as_integer expires_at;
      used_at ← as_optional as_integer used_at; used_by ← as_optional as_text used_by;
      cancelled_at ← as_optional as_integer cancelled_at;
      Some (id, mkEnrollmentRow code_hash kind owner created_by note created_at expires_at used_at used_by
                  cancelled_at)
  | _ => None
  end.

Definition get_session_row (values : list SqlValue) : option (string * SessionRecord) :=
  match values with
  | [id; user_id; created_at; expires_at; ip] =>
      id ← as_text id; user_id ← as_text user_id; created_at ← as_integer created_at;
      expires_at ← as_integer expires_at; ip ← as_optional as_text ip;
      Some (id, mkSessionRecord id user_id created_at expires_at ip)
  | _ => None
  end.

Definition get_audit_row (values : list SqlValue) : option AuditRecord :=
  match values with
  | [id; at_; actor_kind; actor_id; action; target_kind; target_id; ip; detail] =>
      id ← as_integer id; at_ ← as_integer at_; actor_kind ← as_text actor_kind;
      actor_id ← as_optional as_text actor_id; action ← as_text action;
      target_kind ← as_optional as_text target_kind; target_id ← as_optional as_text target_id;
      ip ← as_optional as_text ip; detail ← as_optional as_text detail;
      Some (mkAuditRecord id at_ actor_kind actor_id action target_kind target_id ip detail)
  | _ => None
  end.

(** Every row of a table through a reader; [None] when the table, a column or a value of the reader's
    type is missing. *)
Definition read_table {A : Type} (name : string) (names : list string) (get : list SqlValue -> option A)
    (s : Store) : option (list A) :=
  table ← so_tables s !! name;
  mapM (fun row => select_columns names (ta_columns table) row ≫= get) (ta_rows table).

(** The typed tables of a store: every statement of [src/db/*.rs] sees these.  The next
    [AUTOINCREMENT] id is above every id there is. *)
Definition database_of (s : Store) : option Database :=
  settings ← read_table "relay_settings" SETTING_COLUMNS get_setting_row s;
  users ← read_table "users" USER_COLUMNS get_user_row s;
  devices ← read_table "devices" DEVICE_COLUMNS get_device_row s;
  enrollments ← read_table "enrollment_codes" ENROLLMENT_COLUMNS get_enrollment_row s;
  sessions ← read_table "console_sessions" SESSION_COLUMNS get_session_row s;
  audit ← read_table "audit_events" AUDIT_COLUMNS get_audit_row s;
  Some (mkDatabase (list_to_map settings) (list_to_map users) (list_to_map devices)
          (list_to_map enrollments) (list_to_map sessions) audit
          (foldr (fun record last => Z.max (ar_id record) last) 0%Z audit) (so_faults s)).
