(* ===== verification/SchemaTheorems.v ===== *)
(** * The migration brings every released database up to date

    A store of an earlier release lacks tables, indexes and the columns that were added since.
    [migrate] - run on every start, failures in its middle included - ends with the schema every
    statement of the relay reads, keeps every row, and gives old rows the default of each new column. *)

From S2P Require Import Prelude.
From S2P Require Import Protocol.
From S2P Require Import Database.
From S2P Require Import Schema.

(** ** What the migration amounts to *)

Definition SCHEMA : list (string * list Column) :=
  [("relay_settings", SETTINGS_TABLE); ("users", USERS_TABLE); ("devices", DEVICES_TABLE);
   ("enrollment_codes", ENROLLMENTS_TABLE); ("console_sessions", SESSIONS_TABLE); ("audit_events", AUDIT_TABLE)].

Definition ADDED : list (string * Column) :=
  [("enrollment_codes", CANCELLED_AT); ("enrollment_codes", CREATED_AT); ("devices", ACCESS)].

Definition steps : list Statement :=
  INITIAL_MIGRATION ++ ((fun p => AddColumn (fst p) (snd p)) <$> ADDED).

(** What a step is there for is there already. *)
Definition done (step : Statement) (s : Store) : bool :=
  match step with
  | CreateTable name _ => bool_decide (is_Some (so_tables s !! name))
  | CreateIndex name _ _ => bool_decide (is_Some (so_indexes s !! name))
  | AddColumn table c => from_option (fun found => has_column found (co_name c)) false (so_tables s !! table)
  | ForeignKeysOn => so_foreign_keys s
  end.

Definition ensure (step : Statement) (s : Store) : result SqliteError Store :=
  if done step s then Ok s else perform step s.

Fixpoint ensure_all (l : list Statement) (s : Store) : result SqliteError Store :=
  match l with
  | [] => Ok s
  | step :: l' => s' ← ensure step s; ensure_all l' s'
  end.

(** A store some release wrote: a table it has holds every column the schema gives it but those the
    migration adds, and columns of the schema's names are the schema's columns. *)
Definition shaped (t : string) (columns : list Column) (table : Table) : Prop :=
  (forall c, c ∈ columns -> c ∈ ta_columns table \/ (t, c) ∈ ADDED)
  /\ forall c c', c ∈ columns -> c' ∈ ta_columns table -> co_name c' = co_name c -> c' = c.

Definition older (s : Store) : Prop :=
  forall t columns table, (t, columns) ∈ SCHEMA -> so_tables s !! t = Some table -> shaped t columns table.

(** Every table and every column of the schema is there. *)
Definition current (s : Store) : Prop :=
  forall t columns, (t, columns) ∈ SCHEMA ->
    exists table, so_tables s !! t = Some table /\ forall c, c ∈ columns -> c ∈ ta_columns table.

(** A value its column can hold; no primary key is null. *)
Definition nullable (c : Column) : bool :=
  negb (co_not_null c) && negb (bool_decide (co_key c = Key_Primary) || bool_decide (co_key c = Key_AutoIncrement)).

Definition fits (c : Column) (v : SqlValue) : Prop :=
  match v with
  | Null => nullable c = true
  | Integer _ => co_type c = INTEGER
  | Text _ => co_type c = TEXT
  end.

Definition well_typed (table : Table) : Prop :=
  forall row, row ∈ ta_rows table -> Forall2 fits (ta_columns table) row.

Definition typed (s : Store) : Prop :=
  forall t table, so_tables s !! t = Some table -> well_typed table.

(** Tables only gain columns, and a row keeps its values and gains the defaults. *)
Definition extended (table table' : Table) : Prop :=
  exists added, ta_columns table' = ta_columns table ++ added
    /\ ta_rows table' = (fun row => row ++ (column_default <$> added)) <$> ta_rows table.

Definition grown (s s' : Store) : Prop :=
  forall t table, so_tables s !! t = Some table ->
    exists table', so_tables s' !! t = Some table' /\ extended table table'.

#[export] Instance extended_preorder : PreOrder extended.
Proof.
  split.
  - intros [cs rows]. exists []. cbn. rewrite app_nil_r. split; [done|].
    rewrite <- (list_fmap_id rows) at 1. apply list_fmap_ext. intros i row _. by rewrite app_nil_r.
  - intros t1 t2 t3 (a & Hc1 & Hr1) (b & Hc2 & Hr2). exists (a ++ b).
    rewrite Hc2, Hc1, Hr2, Hr1, app_assoc. split; [done|]. rewrite <- list_fmap_compose.
    apply list_fmap_ext. intros i row _. cbn. by rewrite fmap_app, app_assoc.
Qed.

#[export] Instance grown_preorder : PreOrder grown.
Proof.
  split.
  - intros s t table Ht. by exists table.
  - intros s1 s2 s3 H12 H23 t table Ht. destruct (H12 _ _ Ht) as (table2 & Ht2 & He2).
    destruct (H23 _ _ Ht2) as (table3 & Ht3 & He3). exists table3. split; [done|]. by etrans.
Qed.

(** ** Lemmas: one step *)

Lemma has_column_spec table name :
  has_column table name = true <-> exists c, c ∈ ta_columns table /\ co_name c = name.
Proof.
  unfold has_column. rewrite existsb_true_iff. split; intros (c & Hc & Hn); exists c; split; try done.
  - by apply String.eqb_eq.
  - by apply String.eqb_eq.
Qed.

Lemma ensure_done step s s' : ensure step s = Ok s' -> done step s' = true.
Proof.
  unfold ensure. destruct (done step s) eqn:E; [by intros [= <-]|]. destruct step; cbn in *.
  - destruct (so_tables s !! name); [done|]. intros [= <-]. cbn. by rewrite lookup_insert_eq.
  - destruct (so_indexes s !! name); [done|]. destruct (so_tables s !! table); [|done].
    case_match; [|done]. intros [= <-]. cbn. by rewrite lookup_insert_eq.
  - destruct (so_tables s !! table) as [found|]; [|done]. cbn in E. rewrite E. case_match; [done|].
    intros [= <-]. cbn. rewrite lookup_insert_eq.
    apply (has_column_spec (add_column _ _)). exists column. split; [|done]. apply elem_of_app. right. by left.
  - by intros [= <-].
Qed.

Lemma ensure_grown step s s' : ensure step s = Ok s' -> grown s s'.
Proof.
  unfold ensure. destruct (done step s) eqn:E; [by intros [= <-]|]. destruct step; cbn in *.
  - destruct (so_tables s !! name) eqn:En; [done|]. intros [= <-] t found Ht. exists found. cbn.
    rewrite lookup_insert_ne by congruence. by split.
  - destruct (so_indexes s !! name); [done|]. destruct (so_tables s !! table); [|done].
    case_match; [|done]. intros [= <-] t' other Ht. by exists other.
  - destruct (so_tables s !! table) as [found|] eqn:Ef; [|done]. cbn in E. rewrite E. case_match; [done|].
    intros [= <-] t other Ht. cbn. destruct (decide (t = table)) as [->|Hne].
    + rewrite lookup_insert_eq. exists (add_column column found). split; [done|].
      rewrite Ef in Ht. injection Ht as <-. by exists [column].
    + rewrite lookup_insert_ne by done. by exists other.
  - intros [= <-] t other Ht. by exists other.
Qed.

(** What is there stays there. *)
Lemma ensure_monotone step other s s' : ensure other s = Ok s' -> done step s = true -> done step s' = true.
Proof.
  intros He Hd. pose proof (ensure_grown _ _ _ He) as Hg. destruct step; cbn in *.
  - apply bool_decide_eq_true in Hd as [table Ht]. destruct (Hg _ _ Ht) as (table' & Ht' & _).
    apply bool_decide_eq_true. by rewrite Ht'.
  - apply bool_decide_eq_true in Hd as [i Hi]. apply bool_decide_eq_true. revert He. unfold ensure.
    destruct (done other s); [intros [= <-]; by rewrite Hi|]. destruct other; cbn; repeat (case_match; [done|]);
      repeat case_match; try done; intros [= <-]; cbn; rewrite ?Hi; try done.
    destruct (decide (name = name0)) as [->|Hne]; [by rewrite lookup_insert_eq|by rewrite lookup_insert_ne, Hi].
  - destruct (so_tables s !! table) as [found|] eqn:Ef; [|done]. destruct (Hg _ _ Ef) as (table' & Ht' & added & Hc & _).
    rewrite Ht'. cbn in *. apply has_column_spec in Hd as (c & Hc1 & Hn). apply has_column_spec. exists c.
    rewrite Hc. split; [|done]. apply elem_of_app. by left.
  - revert He. unfold ensure. destruct (done other s); [by intros [= <-]|]. destruct other; cbn; repeat case_match;
      try done; intros [= <-]; done.
Qed.

(** ** Lemmas: a sequence of steps *)

Lemma ensure_all_app l1 l2 s s1 : ensure_all l1 s = Ok s1 -> ensure_all (l1 ++ l2) s = ensure_all l2 s1.
Proof.
  revert s. induction l1 as [|step l1 IH]; intros s; cbn; [by intros [= ->]|].
  destruct (ensure step s) as [s'|e]; cbn; [apply IH|done].
Qed.

Lemma ensure_all_monotone step l s s' : ensure_all l s = Ok s' -> done step s = true -> done step s' = true.
Proof.
  revert s. induction l as [|other l IH]; intros s; cbn; [by intros [= ->]|].
  destruct (ensure other s) as [s1|e] eqn:E; cbn; [|by intros]. intros Hl Hd. apply (IH s1 Hl).
  by apply (ensure_monotone _ _ _ _ E).
Qed.

Lemma ensure_all_done l s s' step : ensure_all l s = Ok s' -> step ∈ l -> done step s' = true.
Proof.
  revert s. induction l as [|other l IH]; intros s; cbn; [by intros _ ?%not_elem_of_nil|].
  destruct (ensure other s) as [s1|e] eqn:E; cbn; [|by intros]. intros Hl [->|Hin]%elem_of_cons.
  - eapply ensure_all_monotone; [exact Hl|]. by eapply ensure_done.
  - by eapply IH.
Qed.

Lemma ensure_all_again l s : (forall step, step ∈ l -> done step s = true) -> ensure_all l s = Ok s.
Proof.
  induction l as [|step l IH]; intros Hd; cbn; [done|]. unfold ensure. rewrite Hd by left. cbn.
  apply IH. intros. apply Hd. by right.
Qed.

Lemma ensure_all_grown l s s' : ensure_all l s = Ok s' -> grown s s'.
Proof.
  revert s. induction l as [|step l IH]; intros s; cbn; [by intros [= ->]|].
  destruct (ensure step s) as [s1|e] eqn:E; cbn; [|done]. intros Hl. etrans; [by eapply ensure_grown|by apply IH].
Qed.

(** ** Lemmas: the engine *)

Lemma perform_faults step f s :
  perform step (with_faults f s) = (s' ← perform step s; Ok (with_faults f s')).
Proof. destruct step; cbn; repeat case_match; done. Qed.

Lemma done_faults step f s : done step (with_faults f s) = done step s.
Proof. by destruct step. Qed.

Lemma ensure_faults step f s : ensure step (with_faults f s) = (s' ← ensure step s; Ok (with_faults f s')).
Proof. unfold ensure. rewrite done_faults. destruct (done step s); [done|]. apply perform_faults. Qed.

Lemma ensure_all_faults l f s :
  ensure_all l (with_faults f s) = (s' ← ensure_all l s; Ok (with_faults f s')).
Proof.
  revert s. induction l as [|step l IH]; intros s; cbn; [done|]. rewrite ensure_faults.
  by destruct (ensure step s); cbn.
Qed.

Lemma with_faults_same s : with_faults (so_faults s) s = s.
Proof. by destruct s. Qed.

Lemma perform_same_faults step s s' : perform step s = Ok s' -> so_faults s' = so_faults s.
Proof. destruct step; cbn; repeat case_match; intros; simplify_eq; done. Qed.

Lemma ensure_same_faults step s s' : ensure step s = Ok s' -> so_faults s' = so_faults s.
Proof. unfold ensure. destruct (done step s); [by intros [= ->]|]. apply perform_same_faults. Qed.

Lemma execute_run step s s' : so_faults s = [] -> perform step s = Ok s' -> execute step s = (Ok tt, s').
Proof.
  intros Hf Hp. unfold execute, engine. rewrite Hf. cbn.
  replace (with_faults [] s) with s by (rewrite <- Hf; by rewrite with_faults_same). by rewrite Hp.
Qed.

Lemma execute_cases step s :
  exists f, (exists s', perform step s = Ok s' /\ execute step s = (Ok tt, with_faults f s'))
            \/ exists e, execute step s = (Err e, with_faults f s).
Proof.
  unfold execute, engine. destruct (so_faults s) as [|[] f]; cbn.
  - exists []. rewrite perform_faults. destruct (perform step s) as [s'|e]; cbn; eauto.
  - exists f. eauto.
  - exists f. rewrite perform_faults. destruct (perform step s) as [s'|e]; cbn; eauto.
Qed.

(** A computation that takes the steps of [l] in their order: it stops between two steps when the engine
    fails, and takes them all when the engine works and each is possible. *)
Definition takes {E} (l : list Statement) (m : SE Store E unit) : Prop :=
  (forall s, exists f taken rest s', l = taken ++ rest /\ ensure_all taken s = Ok s'
     /\ (rest = [] /\ m s = (Ok tt, with_faults f s') \/ exists e, m s = (Err e, with_faults f s')))
  /\ forall s s', so_faults s = [] -> ensure_all l s = Ok s' -> m s = (Ok tt, s').

Lemma ensure_all_same_faults l s s' : ensure_all l s = Ok s' -> so_faults s' = so_faults s.
Proof.
  revert s. induction l as [|step l IH]; intros s; cbn; [by intros [= ->]|].
  destruct (ensure step s) as [s1|e] eqn:E; cbn; [|done]. intros ->%IH. by eapply ensure_same_faults.
Qed.

Lemma takes_nothing {E} : takes (E := E) [] (mret tt).
Proof.
  split.
  - intros s. exists (so_faults s), [], [], s. split; [done|]. split; [done|]. left. by rewrite with_faults_same.
  - by intros s s' _ [= ->].
Qed.

Lemma takes_then {E} l1 l2 (m1 m2 : SE Store E unit) :
  takes l1 m1 -> takes l2 m2 -> takes (l1 ++ l2) (m1 ;; m2).
Proof.
  intros [H1 H1'] [H2 H2']. split.
  - intros s. destruct (H1 s) as (f & taken & rest & s1 & -> & He & [[-> Hm]|(e & Hm)]).
    + rewrite app_nil_r. destruct (H2 (with_faults f s1)) as (f2 & taken2 & rest2 & s2 & -> & He2 & Hm2).
      rewrite ensure_all_faults in He2. destruct (ensure_all taken2 s1) as [s2'|e] eqn:E2; [|done].
      cbn in He2. injection He2 as <-. exists f2, (taken ++ taken2), rest2, s2'. rewrite app_assoc.
      split; [done|]. split; [by rewrite (ensure_all_app _ _ _ _ He)|].
      unfold mbind, se_bind. rewrite Hm. exact Hm2.
    + exists f, taken, (rest ++ l2), s1. rewrite app_assoc. split; [done|]. split; [done|]. right. exists e.
      unfold mbind, se_bind. by rewrite Hm.
  - intros s s' Hf Hl. destruct (ensure_all l1 s) as [s1|e] eqn:E1.
    + rewrite (ensure_all_app _ _ _ _ E1) in Hl. unfold mbind, se_bind. rewrite (H1' _ _ Hf E1). apply H2'; [|done].
      by rewrite (ensure_all_same_faults _ _ _ E1).
    + exfalso. clear -E1 Hl. revert s E1 Hl. induction l1 as [|step l1 IH]; intros s; cbn; [done|].
      destruct (ensure step s); cbn; [apply IH|done].
Qed.

Lemma takes_map_err {E F} (f : E -> F) l m : takes l m -> takes l (se_map_err f m).
Proof.
  intros [H1 H2]. split.
  - intros s. destruct (H1 s) as (g & taken & rest & s' & Hl & He & Hm). exists g, taken, rest, s'.
    split; [done|]. split; [done|]. unfold se_map_err. destruct Hm as [[-> ->]|(e & ->)]; [by left|right; eauto].
  - intros s s' Hf Hl. unfold se_map_err. by rewrite (H2 _ _ Hf Hl).
Qed.

Lemma takes_execute step :
  (forall s, done step s = true -> perform step s = Ok s) -> takes [step] (execute step).
Proof.
  intros Hd. assert (Hp : forall s, ensure step s = perform step s).
  { intros s. unfold ensure. destruct (done step s) eqn:E; [by rewrite Hd|done]. }
  split.
  - intros s. destruct (execute_cases step s) as (f & [(s' & Hs & Hm)|(e & Hm)]).
    + exists f, [step], [], s'. cbn. rewrite Hp, Hs. split; [done|]. split; [done|]. by left.
    + exists f, [], [step], s. split; [done|]. split; [done|]. right. by exists e.
  - intros s s' Hf. cbn. rewrite Hp. destruct (perform step s) as [s1|e] eqn:E; [|done]. intros [= <-].
    by apply execute_run.
Qed.

Lemma create_again step s :
  match step with AddColumn _ _ => False | _ => True end -> done step s = true -> perform step s = Ok s.
Proof.
  destruct step; cbn; intros Hs Hd.
  - apply bool_decide_eq_true in Hd as [table Ht]. by rewrite Ht.
  - apply bool_decide_eq_true in Hd as [i Hi]. by rewrite Hi.
  - done.
  - destruct s; cbn in *. by subst.
Qed.

Lemma takes_batch l :
  Forall (fun step => match step with AddColumn _ _ => False | _ => True end) l -> takes l (execute_batch l).
Proof.
  induction 1 as [|step l Hs _ IH]; [apply takes_nothing|].
  apply (takes_then [step] l); [|done]. apply takes_execute. intros s. by apply create_again.
Qed.

Lemma table_info_run table s :
  exists f, table_info table s = (Err SqliteError_Other, with_faults f s)
    \/ table_info table s
       = (Ok (from_option (fun found => co_name <$> ta_columns found) [] (so_tables s !! table)), with_faults f s).
Proof. unfold table_info, engine. destruct (so_faults s) as [|[] f]; cbn; eauto. Qed.

Lemma names_has_column (found : option Table) name :
  existsb (String.eqb name) (from_option (fun found => co_name <$> ta_columns found) [] found)
  = from_option (fun found => has_column found name) false found.
Proof.
  destruct found as [[cs rows]|]; cbn; [|done]. unfold has_column. cbn.
  induction cs as [|c cs IH]; cbn; [done|]. by rewrite IH, String.eqb_sym.
Qed.

Lemma takes_column table c : takes [AddColumn table c] (ensure_column table c).
Proof.
  split.
  - intros s. unfold ensure_column, mbind, se_bind. destruct (table_info_run table s) as (f & [->| ->]).
    { exists f, [], [AddColumn table c], s. split; [done|]. split; [done|]. right. eauto. }
    rewrite names_has_column. destruct (from_option _ false _) eqn:E.
    + exists f, [AddColumn table c], [], s. split; [done|]. cbn. unfold ensure. cbn. rewrite E. split; [done|]. by left.
    + destruct (execute_cases (AddColumn table c) (with_faults f s)) as (g & [(s' & Hs & Hm)|(e & Hm)]).
      * rewrite perform_faults in Hs. destruct (perform _ s) as [s1|e] eqn:Ep; [|done]. injection Hs as <-.
        exists g, [AddColumn table c], [], s1. cbn [ensure_all]. unfold ensure. cbn [done]. rewrite E, Ep.
        split; [done|]. split; [done|]. by left.
      * exists g, [], [AddColumn table c], s. split; [done|]. split; [done|]. right. by exists e.
  - intros s s' Hf. cbn [ensure_all]. unfold ensure. cbn [done]. unfold ensure_column, mbind, se_bind.
    unfold table_info, engine. rewrite Hf. cbn [tail].
    replace (with_faults [] s) with s by (rewrite <- Hf; by rewrite with_faults_same).
    rewrite names_has_column. destruct (from_option _ false _) eqn:E; [by intros [= <-]|].
    destruct (perform _ s) as [s1|e] eqn:Ep; cbn [result_bind]; [|done]. intros [= <-]. by apply execute_run.
Qed.

Lemma migrate_takes : takes steps migrate.
Proof.
  apply takes_map_err, takes_then; [apply takes_batch; repeat constructor|].
  apply (takes_then [_] [_; _]); [apply takes_column|].
  apply (takes_then [_] [_]); apply takes_column.
Qed.

(** ** Lemmas: stores of earlier releases *)

Lemma elem_of_SCHEMA t columns :
  (t, columns) ∈ SCHEMA <-> CreateTable t columns ∈ steps.
Proof.
  unfold SCHEMA, steps, INITIAL_MIGRATION, ADDED. cbn. rewrite !elem_of_cons, !elem_of_nil. naive_solver.
Qed.

(** The columns of a table have different names, and an added column is one of its table's. *)
Lemma schema_names t columns c c' :
  (t, columns) ∈ SCHEMA -> c ∈ columns -> c' ∈ columns -> co_name c' = co_name c -> c' = c.
Proof.
  assert (Hall : Forall (fun p => Forall (fun c => Forall (fun c' => co_name c' <> co_name c \/ c' = c) (snd p)) (snd p))
    SCHEMA) by (refine (bool_decide_unpack _ _); vm_compute; exact I).
  rewrite Forall_forall in Hall. intros Hs Hc Hc'. specialize (Hall _ Hs). cbn in Hall.
  rewrite Forall_forall in Hall. specialize (Hall _ Hc). rewrite Forall_forall in Hall. by destruct (Hall _ Hc').
Qed.

Lemma schema_added t columns c : (t, columns) ∈ SCHEMA -> (t, c) ∈ ADDED -> c ∈ columns.
Proof.
  assert (Hall : Forall (fun p => Forall (fun q => fst q <> fst p \/ snd q ∈ snd p) ADDED) SCHEMA)
    by (refine (bool_decide_unpack _ _); vm_compute; exact I).
  rewrite Forall_forall in Hall. intros Hs Ha. specialize (Hall _ Hs). rewrite Forall_forall in Hall.
  by destruct (Hall _ Ha).
Qed.

Lemma schema_functional t columns columns' : (t, columns) ∈ SCHEMA -> (t, columns') ∈ SCHEMA -> columns' = columns.
Proof.
  assert (Hall : Forall (fun p => Forall (fun q => fst q <> fst p \/ snd q = snd p) SCHEMA) SCHEMA)
    by (refine (bool_decide_unpack _ _); vm_compute; exact I).
  rewrite Forall_forall in Hall. intros Hs Hs'. specialize (Hall _ Hs). rewrite Forall_forall in Hall.
  by destruct (Hall _ Hs').
Qed.

Lemma elem_of_ADDED t c : (t, c) ∈ ADDED <-> AddColumn t c ∈ steps.
Proof.
  unfold steps, INITIAL_MIGRATION, ADDED. cbn. rewrite !elem_of_cons, !elem_of_nil. naive_solver.
Qed.

Lemma ensure_tables step s s' t table' :
  ensure step s = Ok s' -> so_tables s' !! t = Some table' ->
  so_tables s !! t = Some table'
  \/ (exists columns, step = CreateTable t columns /\ table' = mkTable columns [])
  \/ exists table c, step = AddColumn t c /\ so_tables s !! t = Some table /\ table' = add_column c table
                     /\ has_column table (co_name c) = false.
Proof.
  unfold ensure. destruct (done step s) eqn:E; [intros [= <-]; by left|]. destruct step; cbn in *.
  - destruct (so_tables s !! name) eqn:En; [done|]. intros [= <-]. cbn. destruct (decide (t = name)) as [->|Hne].
    + rewrite lookup_insert_eq. intros [= <-]. right. left. by exists columns.
    + rewrite lookup_insert_ne by done. by left.
  - destruct (so_indexes s !! name); [done|]. destruct (so_tables s !! table); [|done].
    case_match; [|done]. intros [= <-]. by left.
  - destruct (so_tables s !! table) as [found|] eqn:Ef; [|done]. cbn in E. rewrite E. case_match; [done|].
    intros [= <-]. cbn. destruct (decide (t = table)) as [->|Hne].
    + rewrite lookup_insert_eq. intros [= <-]. right. right. by exists found, column.
    + rewrite lookup_insert_ne by done. by left.
  - intros [= <-]. by left.
Qed.

Lemma ensure_older step s s' : step ∈ steps -> older s -> ensure step s = Ok s' -> older s'.
Proof.
  intros Hin Ho He t columns table' Hs Ht. destruct (ensure_tables _ _ _ _ _ He Ht) as
    [Hold|[(columns' & -> & ->)|(table & c & -> & Hold & -> & Hno)]].
  - by eapply Ho.
  - apply elem_of_SCHEMA in Hin. pose proof (schema_functional _ _ _ Hs Hin) as ->. split; cbn; [by left|].
    intros c c'. by apply (schema_names t).
  - destruct (Ho _ _ _ Hs Hold) as [H1 H2]. apply elem_of_ADDED in Hin. split; cbn.
    + intros c0 [Hc|Ha]%H1; [left; apply elem_of_app; by left|by right].
    + intros c0 c' Hc0 [Hc'|Hc']%elem_of_app; [by apply H2|]. apply list_elem_of_singleton in Hc' as ->.
      intros Hn. eapply schema_names; [exact Hs|done| |done]. by eapply schema_added.
Qed.

Lemma ensure_typed step s s' : step ∈ steps -> typed s -> ensure step s = Ok s' -> typed s'.
Proof.
  intros Hin Hty He t table' Ht. destruct (ensure_tables _ _ _ _ _ He Ht) as
    [Hold|[(columns & -> & ->)|(table & c & -> & Hold & -> & _)]].
  - by eapply Hty.
  - by intros row ?%not_elem_of_nil.
  - intros row (row0 & -> & Hrow)%list_elem_of_fmap. cbn. apply Forall2_app; [by eapply Hty|].
    constructor; [|done]. apply elem_of_ADDED in Hin. unfold ADDED in Hin.
    rewrite !elem_of_cons, elem_of_nil in Hin.
    destruct Hin as [Hp|[Hp|[Hp|[]]]]; injection Hp as -> ->; done.
Qed.

(** Columns every older version of a table has. *)
Definition always_there (t : string) (names : list string) : bool :=
  existsb (fun p => bool_decide (fst p = t)
    && forallb (fun name => existsb (fun c => bool_decide (co_name c = name) && negb (bool_decide ((t, c) ∈ ADDED)))
                              (snd p)) names) SCHEMA.

Arguments always_there : simpl never.

(** A list of steps each of which is possible on an older store that has the tables [seen]. *)
Fixpoint possible (seen : list string) (l : list Statement) : bool :=
  match l with
  | [] => true
  | CreateTable t _ :: l' => possible (t :: seen) l'
  | CreateIndex _ t names :: l' =>
      bool_decide (t ∈ seen)
      && always_there t names
      && possible seen l'
  | AddColumn t c :: l' =>
      bool_decide (t ∈ seen)
      && negb (co_not_null c && bool_decide (column_default c = Null))
      && possible seen l'
  | ForeignKeysOn :: l' => possible seen l'
  end.

Definition present (seen : list string) (s : Store) : Prop := forall t, t ∈ seen -> is_Some (so_tables s !! t).

Lemma present_grown seen s s' : grown s s' -> present seen s -> present seen s'.
Proof. intros Hg Hp t [table Ht]%Hp. destruct (Hg _ _ Ht) as (table' & -> & _). done. Qed.

Lemma index_columns s t columns found names :
  older s -> (t, columns) ∈ SCHEMA -> so_tables s !! t = Some found ->
  forallb (fun name => existsb (fun c => bool_decide (co_name c = name) && negb (bool_decide ((t, c) ∈ ADDED)))
    columns) names = true ->
  forallb (has_column found) names = true.
Proof.
  intros Ho Hs Hf. rewrite !forallb_true_iff. intros Hall name Hname.
  specialize (Hall _ Hname). apply existsb_true_iff in Hall as (c & Hc & Hd).
  apply andb_prop in Hd as [Hn%bool_decide_eq_true Ha%negb_true_iff%bool_decide_eq_false].
  apply has_column_spec. exists c. split; [|done]. by destruct (Ho _ _ _ Hs Hf) as [[?|?]%(fun H => H c Hc) _].
Qed.

Lemma ensure_all_possible seen l s :
  (forall step, step ∈ l -> step ∈ steps) -> older s -> present seen s -> possible seen l = true ->
  exists s', ensure_all l s = Ok s' /\ older s'.
Proof.
  revert seen s. induction l as [|step l IH]; intros seen s Hin Ho Hp Hl; [by exists s|].
  assert (Hnext : forall s' seen', ensure step s = Ok s' -> present seen' s' -> possible seen' l = true ->
    exists s'', ensure_all (step :: l) s = Ok s'' /\ older s'').
  { intros s' seen' He Hp' Hl'. cbn. rewrite He. cbn. apply (IH seen' s'); [|by eapply ensure_older, He; [apply Hin; left|]|done..].
    intros. apply Hin. by right. }
  destruct (done step s) eqn:Ed.
  { assert (He : ensure step s = Ok s) by (unfold ensure; by rewrite Ed).
    destruct step; cbn in Hl.
    - apply (Hnext s (name :: seen) He); [|done]. intros t [->|Ht]%elem_of_cons; [|by apply Hp].
      by apply bool_decide_eq_true in Ed.
    - apply (Hnext s seen He Hp). by apply andb_prop in Hl as [_ Hl].
    - apply (Hnext s seen He Hp). by apply andb_prop in Hl as [_ Hl].
    - by apply (Hnext s seen He Hp). }
  assert (He : ensure step s = perform step s) by (unfold ensure; by rewrite Ed).
  destruct step; cbn in Hl, He, Ed.
  - apply bool_decide_eq_false in Ed. destruct (so_tables s !! name) eqn:En; [by destruct Ed|].
    apply (Hnext _ (name :: seen) He); [|done]. intros t [->|Ht]%elem_of_cons; cbn; [by rewrite lookup_insert_eq|].
    destruct (Hp t Ht) as [table Htab]. rewrite lookup_insert_ne, Htab; [done|congruence].
  - apply bool_decide_eq_false in Ed. destruct (so_indexes s !! name) eqn:En; [by destruct Ed|].
    apply andb_prop in Hl as [[Ht%bool_decide_eq_true Hc]%andb_prop Hl]. destruct (Hp _ Ht) as [found Hf].
    apply existsb_true_iff in Hc as ((t & cols) & Hs & [Heq%bool_decide_eq_true Hc]%andb_prop). cbn in Heq, Hc. subst t.
    rewrite Hf, (index_columns s table cols) in He by done. by apply (Hnext _ seen He).
  - apply andb_prop in Hl as [[Ht%bool_decide_eq_true Hd%negb_true_iff]%andb_prop Hl].
    destruct (Hp _ Ht) as [found Hf]. rewrite Hf in Ed, He. cbn in Ed.
    rewrite Ed, Hd in He. cbn in He. apply (Hnext _ seen He); [|done].
    eapply present_grown, Hp. by eapply ensure_grown.
  - by apply (Hnext _ seen He).
Qed.

Lemma migration_possible s : older s -> exists s', ensure_all steps s = Ok s' /\ older s'.
Proof. intros Ho. apply (ensure_all_possible []); [done|done|by intros t ?%not_elem_of_nil|by vm_compute]. Qed.

Lemma ensure_all_typed l s s' :
  (forall step, step ∈ l -> step ∈ steps) -> typed s -> ensure_all l s = Ok s' -> typed s'.
Proof.
  revert s. induction l as [|step l IH]; intros s Hin Ht; cbn; [by intros [= <-]|].
  destruct (ensure step s) as [s1|e] eqn:E; cbn; [|done]. apply IH; [intros; apply Hin; by right|].
  eapply ensure_typed, E; [|done]. apply Hin. by left.
Qed.

Lemma migrated_current s s' : older s' -> ensure_all steps s = Ok s' -> current s'.
Proof.
  intros Ho He t columns Hs.
  pose proof (ensure_all_done _ _ _ _ He (proj1 (elem_of_SCHEMA _ _) Hs)) as Hd. cbn in Hd.
  apply bool_decide_eq_true in Hd as [table Ht]. exists table. split; [done|]. intros c Hc.
  destruct (Ho _ _ _ Hs Ht) as [H1 H2]. destruct (H1 c Hc) as [?|Ha]; [done|].
  pose proof (ensure_all_done _ _ _ _ He (proj1 (elem_of_ADDED _ _) Ha)) as Hd. cbn in Hd.
  rewrite Ht in Hd. cbn in Hd. apply has_column_spec in Hd as (c' & Hc' & Hn). by rewrite <- (H2 c c').
Qed.

(** ** Lemmas: reading a typed store *)

Lemma value_typed columns row c :
  Forall2 fits columns row -> c ∈ columns ->
  (forall c', c' ∈ columns -> co_name c' = co_name c -> c' = c) ->
  exists v, value_of (co_name c) columns row = Some v /\ fits c v.
Proof.
  induction 1 as [|c1 v columns row Hv _ IH]; [by intros ?%not_elem_of_nil|].
  intros Hc Hu. cbn. destruct (String.eqb_spec (co_name c1) (co_name c)) as [Hn|Hn].
  - exists v. split; [done|]. rewrite <- (Hu c1); [done|by left|done].
  - apply elem_of_cons in Hc as [->|Hc]; [done|]. apply IH; [done|]. intros c' Hc'. apply Hu. by right.
Qed.

Lemma select_typed wanted columns row :
  Forall2 fits columns row -> (forall c, c ∈ wanted -> c ∈ columns) ->
  (forall c c', c ∈ wanted -> c' ∈ columns -> co_name c' = co_name c -> c' = c) ->
  exists values, select_columns (co_name <$> wanted) columns row = Some values /\ Forall2 fits wanted values.
Proof.
  intros Hrow Hin Hu. induction wanted as [|c wanted IH]; [by exists []|].
  destruct (value_typed columns row c) as (v & Hv & Hf); [done|apply Hin; by left|intros; apply Hu; [by left|done..]|].
  destruct IH as (values & Hvs & Hfs); [intros; apply Hin; by right|intros ????; apply Hu; [by right|done]|].
  exists (v :: values). split; [|by constructor]. unfold select_columns in *. cbn. by rewrite Hv, Hvs.
Qed.

Lemma read_typed {A} t wanted (get : list SqlValue -> option A) s :
  typed s -> current s -> older s -> (t, wanted) ∈ SCHEMA ->
  (forall values, Forall2 fits wanted values -> is_Some (get values)) ->
  exists l, read_table t (co_name <$> wanted) get s = Some l.
Proof.
  intros Hty Hcur Ho Hs Hget. destruct (Hcur _ _ Hs) as (table & Ht & Hin). unfold read_table. rewrite Ht. cbn.
  assert (Hall : Forall (fun row => is_Some (select_columns (co_name <$> wanted) (ta_columns table) row ≫= get)) (ta_rows table)).
  { apply Forall_forall. intros row Hrow. destruct (select_typed wanted (ta_columns table) row) as (values & -> & Hv);
      [by eapply Hty|done|apply (Ho _ _ _ Hs Ht)|]. cbn. by apply Hget. }
  by apply mapM_is_Some_2 in Hall.
Qed.

(** One value after the other, at the type of its column. *)
Ltac read_values :=
  repeat match goal with
  | H : Forall2 fits [] _ |- _ => apply Forall2_nil_inv_l in H; subst
  | H : Forall2 fits (_ :: _) _ |- _ =>
      let v := fresh "v" in let Hv := fresh "Hv" in
      apply Forall2_cons_inv_l in H as (v & ? & Hv & H & ->);
      destruct v; try discriminate Hv; clear Hv
  end; eexists; reflexivity.

Lemma get_setting_typed values : Forall2 fits SETTINGS_TABLE values -> is_Some (get_setting_row values).
Proof. unfold SETTINGS_TABLE. intros H. read_values. Qed.

Lemma get_user_typed values : Forall2 fits USERS_TABLE values -> is_Some (get_user_row values).
Proof. unfold USERS_TABLE. intros H. read_values. Qed.

Lemma get_device_typed values : Forall2 fits DEVICES_TABLE values -> is_Some (get_device_row values).
Proof. unfold DEVICES_TABLE. intros H. read_values. Qed.

Lemma get_enrollment_typed values : Forall2 fits ENROLLMENTS_TABLE values -> is_Some (get_enrollment_row values).
Proof. unfold ENROLLMENTS_TABLE. intros H. read_values. Qed.

Lemma get_session_typed values : Forall2 fits SESSIONS_TABLE values -> is_Some (get_session_row values).
Proof. unfold SESSIONS_TABLE. intros H. read_values. Qed.

Lemma get_audit_typed values : Forall2 fits AUDIT_TABLE values -> is_Some (get_audit_row values).
Proof. unfold AUDIT_TABLE. intros H. read_values. Qed.

(** A typed store with the schema of this release has its typed tables. *)
Lemma database_of_typed s : typed s -> current s -> older s -> is_Some (database_of s).
Proof.
  intros Hty Hcur Ho. unfold database_of.
  destruct (read_typed "relay_settings" SETTINGS_TABLE get_setting_row s) as [settings Hr1];
    [done..|unfold SCHEMA; set_solver|apply get_setting_typed|].
  destruct (read_typed "users" USERS_TABLE get_user_row s) as [users Hr2];
    [done..|unfold SCHEMA; set_solver|apply get_user_typed|].
  destruct (read_typed "devices" DEVICES_TABLE get_device_row s) as [devices Hr3];
    [done..|unfold SCHEMA; set_solver|apply get_device_typed|].
  destruct (read_typed "enrollment_codes" ENROLLMENTS_TABLE get_enrollment_row s) as [codes Hr4];
    [done..|unfold SCHEMA; set_solver|apply get_enrollment_typed|].
  destruct (read_typed "console_sessions" SESSIONS_TABLE get_session_row s) as [sessions Hr5];
    [done..|unfold SCHEMA; set_solver|apply get_session_typed|].
  destruct (read_typed "audit_events" AUDIT_TABLE get_audit_row s) as [audit Hr6];
    [done..|unfold SCHEMA; set_solver|apply get_audit_typed|].
  change SETTING_COLUMNS with (co_name <$> SETTINGS_TABLE). change USER_COLUMNS with (co_name <$> USERS_TABLE).
  change DEVICE_COLUMNS with (co_name <$> DEVICES_TABLE). change SESSION_COLUMNS with (co_name <$> SESSIONS_TABLE).
  change ENROLLMENT_COLUMNS with (co_name <$> ENROLLMENTS_TABLE). change AUDIT_COLUMNS with (co_name <$> AUDIT_TABLE).
  rewrite Hr1, Hr2, Hr3, Hr4, Hr5, Hr6. by eexists.
Qed.

(** ** Lemmas: the value of an added column in an old row *)

Lemma value_of_app columns added row values name :
  length columns = length row ->
  value_of name (columns ++ added) (row ++ values)
  = match value_of name columns row with
    | Some v => Some v
    | None => value_of name added values
    end.
Proof.
  revert row. induction columns as [|c columns IH]; intros [|v row]; cbn; try done. intros [= Hlen].
  destruct (String.eqb (co_name c) name); [done|]. by apply IH.
Qed.

Lemma value_of_missing name columns row :
  existsb (fun c => String.eqb (co_name c) name) columns = false -> value_of name columns row = None.
Proof.
  revert row. induction columns as [|c columns IH]; intros [|v row]; cbn; try done.
  intros [Hc Hl]%orb_false_iff. rewrite Hc. by apply IH.
Qed.

Lemma value_of_default c added :
  c ∈ added -> (forall c', c' ∈ added -> co_name c' = co_name c -> c' = c) ->
  value_of (co_name c) added (column_default <$> added) = Some (column_default c).
Proof.
  induction added as [|c1 added IH]; [by intros ?%not_elem_of_nil|]. intros Hc Hu. cbn.
  destruct (String.eqb_spec (co_name c1) (co_name c)) as [Hn|Hn].
  - rewrite <- (Hu c1); [done|by left|done].
  - apply elem_of_cons in Hc as [->|Hc]; [done|]. apply IH; [done|]. intros c' Hc'. apply Hu. by right.
Qed.

(** Every row of a grown table holds the default of a column the table had not. *)
Lemma grown_default t columns c table table' row :
  (t, columns) ∈ SCHEMA -> c ∈ columns -> shaped t columns table' -> well_typed table ->
  extended table table' -> has_column table (co_name c) = false -> has_column table' (co_name c) = true ->
  row ∈ ta_rows table' -> value_of (co_name c) (ta_columns table') row = Some (column_default c).
Proof.
  intros Hs Hc [_ Hu] Hty (added & Hcols & Hrows) Hno Hyes Hrow.
  rewrite Hrows in Hrow. apply list_elem_of_fmap in Hrow as (old & -> & Hold).
  rewrite Hcols, value_of_app by (eapply Forall2_length, Hty, Hold).
  rewrite value_of_missing by exact Hno. apply has_column_spec in Hyes as (c' & Hc' & Hn).
  pose proof (Hu c c' Hc Hc' Hn) as ->. rewrite Hcols in Hc'. apply elem_of_app in Hc' as [Hc'|Hc'].
  - assert (has_column table (co_name c) = true) by (apply has_column_spec; eauto). congruence.
  - apply value_of_default; [done|]. intros c' Hin. apply Hu; [done|]. rewrite Hcols. apply elem_of_app. by right.
Qed.

Lemma select_lookup names columns row values i name :
  select_columns names columns row = Some values -> names !! i = Some name ->
  values !! i = value_of name columns row.
Proof.
  intros Hs%mapM_Some Hi. destruct (Forall2_lookup_l _ _ _ _ _ Hs Hi) as (v & Hv & He). by rewrite Hv, He.
Qed.

Lemma read_table_row {A} t names (get : list SqlValue -> option A) s l a :
  read_table t names get s = Some l -> a ∈ l ->
  exists table row values, so_tables s !! t = Some table /\ row ∈ ta_rows table
    /\ select_columns names (ta_columns table) row = Some values /\ get values = Some a.
Proof.
  unfold read_table. destruct (so_tables s !! t) as [table|]; [|done]. cbn. intros Hm%mapM_Some Ha.
  apply list_elem_of_lookup in Ha as [i Hi]. destruct (Forall2_lookup_r _ _ _ _ _ Hm Hi) as (row & Hrow & Hg).
  exists table, row. destruct (select_columns names (ta_columns table) row) as [values|] eqn:E; [|done].
  exists values. split; [done|]. split; [by eapply list_elem_of_lookup_2|done].
Qed.

Lemma as_text_Some v s : as_text v = Some s -> v = Text s.
Proof. destruct v; cbn; congruence. Qed.

Lemma as_integer_Some v z : as_integer v = Some z -> v = Integer z.
Proof. destruct v; cbn; congruence. Qed.

Lemma get_device_access values id row :
  get_device_row values = Some (id, row) -> values !! 11 = Some (Text (dr_access row)).
Proof.
  unfold get_device_row. do 12 (destruct values as [|? values]; [done|]). destruct values; [|done].
  intros H. repeat (apply bind_Some in H as (? & ? & H)). injection H as <- <-. cbn.
  f_equal. by apply as_text_Some.
Qed.

Lemma get_enrollment_moments values id row :
  get_enrollment_row values = Some (id, row) ->
  values !! 6 = Some (Integer (er_created_at row))
  /\ (values !! 10 = Some Null -> er_cancelled_at row = None).
Proof.
  unfold get_enrollment_row. do 11 (destruct values as [|? values]; [done|]). destruct values; [|done].
  intros H. repeat (apply bind_Some in H as (? & ? & H)). injection H as <- <-. cbn.
  split; [f_equal; by apply as_integer_Some|]. intros [= ->]. by simplify_eq/=.
Qed.

(** What every row of a grown store holds in a column its table had not. *)
Lemma migrated_default {A} t columns c (get : list SqlValue -> option A) i s s' l a :
  (t, columns) ∈ SCHEMA -> columns !! i = Some c -> older s' -> current s' -> typed s -> grown s s' ->
  is_Some (so_tables s !! t) ->
  (forall table, so_tables s !! t = Some table -> has_column table (co_name c) = false) ->
  read_table t (co_name <$> columns) get s' = Some l -> a ∈ l ->
  exists values, get values = Some a /\ values !! i = Some (column_default c).
Proof.
  intros Hs Hi Ho Hcur Hty Hg [table Ht] Hno Hr Ha.
  destruct (read_table_row _ _ _ _ _ _ Hr Ha) as (table' & row & values & Ht' & Hrow & Hsel & Hget).
  exists values. split; [done|]. rewrite (select_lookup _ _ _ _ i (co_name c) Hsel) by by rewrite list_lookup_fmap, Hi.
  destruct (Hg _ _ Ht) as (table2 & Ht2 & Hext). rewrite Ht' in Ht2. injection Ht2 as <-.
  apply (grown_default t columns c table table'); try done; [by eapply list_elem_of_lookup_2|by eapply Ho|by eapply Hty|by apply Hno|].
  destruct (Hcur _ _ Hs) as (table2 & Ht2 & Hin). rewrite Ht' in Ht2. injection Ht2 as <-.
  apply has_column_spec. exists c. split; [|done]. by eapply Hin, list_elem_of_lookup_2.
Qed.

(** The tables of a database are those its store reads. *)
Lemma database_of_tables s db :
  database_of s = Some db ->
  (exists devices, read_table "devices" DEVICE_COLUMNS get_device_row s = Some devices
                   /\ db_devices db = list_to_map devices)
  /\ exists codes, read_table "enrollment_codes" ENROLLMENT_COLUMNS get_enrollment_row s = Some codes
                   /\ db_enrollments db = list_to_map codes.
Proof.
  unfold database_of. intros H. repeat (apply bind_Some in H as (? & ? & H)). injection H as <-.
  split; eexists; (split; [eassumption|done]).
Qed.

(** ** The properties *)

(** A store of an earlier release, or a new one: its tables lack at most what the migration adds, and its
    values are of their columns' types. *)
Record released (s : Store) : Prop := {
  re_older : older s;
  re_typed : typed s;
}.

(** [t] is there and has no column of the name. *)
Definition lacks (s : Store) (t name : string) : Prop :=
  exists table, so_tables s !! t = Some table /\ has_column table name = false.

(** C13: the migration brings every released database up to date.  On a working engine [migrate] succeeds on
    any store an earlier release left, a new file included; afterwards every table and column of the schema
    is there, every row kept its values, every statement reads the store at its types, and migrating again
    changes nothing.  Devices from before access rules are public, codes from before the two columns are
    from the epoch and not cancelled. *)
Theorem migration_upgrades (s : Store) :
  released s -> so_faults s = [] ->
  exists s' db, migrate s = (Ok tt, s') /\ current s' /\ grown s s' /\ database_of s' = Some db
    /\ migrate s' = (Ok tt, s')
    /\ (lacks s "devices" "access" ->
        forall id row, db_devices db !! id = Some row -> dr_access row = PUBLIC_ACCESS)
    /\ (lacks s "enrollment_codes" "created_at" ->
        forall id row, db_enrollments db !! id = Some row -> er_created_at row = 0%Z)
    /\ (lacks s "enrollment_codes" "cancelled_at" ->
        forall id row, db_enrollments db !! id = Some row -> er_cancelled_at row = None).
Proof.
  intros [Ho Hty] Hf. destruct (migration_possible s Ho) as (s' & He & Ho').
  pose proof (ensure_all_typed _ _ _ (fun _ H => H) Hty He) as Hty'.
  pose proof (migrated_current _ _ Ho' He) as Hcur. pose proof (ensure_all_grown _ _ _ He) as Hg.
  destruct (database_of_typed s' Hty' Hcur Ho') as [db Hdb]. exists s', db.
  destruct (database_of_tables _ _ Hdb) as [(devices & Hd & Hdd) (codes & Hc & Hcc)].
  split; [by apply (proj2 migrate_takes)|]. split; [done|]. split; [done|]. split; [done|].
  split; [apply (proj2 migrate_takes); [by rewrite (ensure_all_same_faults _ _ _ He)|]; apply ensure_all_again;
          intros step; by apply (ensure_all_done _ _ _ _ He)|].
  assert (Hmoment : forall c i, ENROLLMENTS_TABLE !! i = Some c -> lacks s "enrollment_codes" (co_name c) ->
    forall id row, db_enrollments db !! id = Some row ->
      exists values, get_enrollment_row values = Some (id, row) /\ values !! i = Some (column_default c)).
  { intros c i Hi (table & Ht & Hno) id row Hrow. rewrite Hcc in Hrow. apply elem_of_list_to_map_2 in Hrow.
    apply (migrated_default "enrollment_codes" ENROLLMENTS_TABLE c get_enrollment_row i s s' codes); try done;
      [unfold SCHEMA; set_solver|intros; by simplify_eq]. }
  split; [|split].
  - intros (table & Ht & Hno) id row Hrow. rewrite Hdd in Hrow. apply elem_of_list_to_map_2 in Hrow.
    destruct (migrated_default "devices" DEVICES_TABLE ACCESS get_device_row 11 s s' devices (id, row)) as (values & Hget & Hv);
      try done; [unfold SCHEMA; set_solver|intros; by simplify_eq|].
    apply get_device_access in Hget. rewrite Hget in Hv. by injection Hv.
  - intros Hl id row Hrow. destruct (Hmoment CREATED_AT 6 eq_refl Hl id row Hrow) as (values & Hget & Hv).
    apply get_enrollment_moments in Hget as [Hget _]. rewrite Hget in Hv. by injection Hv.
  - intros Hl id row Hrow. destruct (Hmoment CANCELLED_AT 10 eq_refl Hl id row Hrow) as (values & Hget & Hv).
    apply get_enrollment_moments in Hget as [_ Hget]. by apply Hget.
Qed.

Lemma older_faults f s : older s -> older (with_faults f s).
Proof. done. Qed.

(** C14: an interrupted migration is completed, on a store any release left or a new one.  Whichever statements
    the engine fails, the store only grew, and the next start on what was left ends with the very store an uninterrupted one had reached. *)
Theorem migration_resumes (s s1 : Store) (r : result DatabaseError unit) :
  older s -> migrate s = (r, s1) ->
  exists s2, migrate (with_faults [] s) = (Ok tt, s2) /\ migrate (with_faults [] s1) = (Ok tt, s2)
    /\ grown s s1 /\ grown s1 s2 /\ (r = Ok tt -> with_faults [] s1 = s2).
Proof.
  intros Ho Hrun. destruct (migration_possible _ (older_faults [] s Ho)) as (s2 & He & _). exists s2.
  split; [by apply (proj2 migrate_takes)|].
  destruct (proj1 migrate_takes s) as (f & taken & rest & s' & Hl & Ht & Hm).
  assert (Hs1 : s1 = with_faults f s').
  { destruct Hm as [[_ Hm]|(e & Hm)]; rewrite Hm in Hrun; by injection Hrun. }
  assert (Hprefix : ensure_all taken (with_faults [] s1) = Ok (with_faults [] s1)).
  { apply ensure_all_again. intros step Hstep. rewrite Hs1, done_faults, done_faults. by eapply ensure_all_done. }
  assert (Hrest : ensure_all rest (with_faults [] s1) = Ok s2).
  { rewrite <- He, Hl. erewrite (ensure_all_app taken rest (with_faults [] s)).
    2:{ rewrite ensure_all_faults, Ht. reflexivity. } by rewrite Hs1. }
  split; [apply (proj2 migrate_takes); [done|]; by rewrite Hl, (ensure_all_app _ _ _ _ Hprefix)|].
  split; [rewrite Hs1; exact (ensure_all_grown _ _ _ Ht)|].
  split; [exact (ensure_all_grown _ _ _ Hrest)|]. intros ->.
  destruct Hm as [[-> _]|(e & Hm)]; [by injection Hrest|by rewrite Hm in Hrun].
Qed.

(** A file SQLite has just created becomes the empty database. *)
Example fresh_store_empty : database_of (snd (migrate empty_store)) = Some empty_database.
Proof. reflexivity. Qed.

(** ** Witnesses *)

(** A data directory of a release without access rules and without cancelling. *)
Definition first_release (columns : list Column) (t : string) : list Column :=
  List.filter (fun c => negb (bool_decide ((t, c) ∈ ADDED))) columns.

Definition sample_old_store : Store :=
  mkStore
    {[ "devices" := mkTable (first_release DEVICES_TABLE "devices")
         [[Text "d1"; Text "desktop"; Text "Laptop"; Null; Text "hash"; Null; Integer 5; Null; Null; Null; Null]];
       "enrollment_codes" := mkTable (first_release ENROLLMENTS_TABLE "enrollment_codes")
         [[Text "c1"; Text "digest"; Text "desktop"; Null; Text "u1"; Null; Integer 9; Null; Null]] ]} ∅ true [].

Lemma sample_old_released : released sample_old_store.
Proof.
  split.
  - intros t columns table Hs Ht. unfold SCHEMA in Hs. rewrite !elem_of_cons, elem_of_nil in Hs.
    assert (Hcheck : Forall (fun c => c ∈ ta_columns table \/ (t, c) ∈ ADDED) columns
      /\ Forall (fun c => Forall (fun c' => co_name c' <> co_name c \/ c' = c) (ta_columns table)) columns).
    { destruct Hs as [Hs|[Hs|[Hs|[Hs|[Hs|[Hs|[]]]]]]]; injection Hs as -> ->; try discriminate Ht;
        injection Ht as <-; (split; refine (bool_decide_unpack _ _); vm_compute; exact I). }
    destruct Hcheck as [H1 H2]. split.
    + intros c Hc. rewrite Forall_forall in H1. by apply H1.
    + intros c c' Hc Hc' Hn. rewrite Forall_forall in H2. specialize (H2 _ Hc). rewrite Forall_forall in H2.
      by destruct (H2 _ Hc').
  - intros t table Ht row Hrow. unfold sample_old_store, so_tables in Ht. apply lookup_insert_Some in Ht as [[<- <-]|[_ Ht]].
    + apply list_elem_of_singleton in Hrow as ->. repeat constructor.
    + apply lookup_singleton_Some in Ht as [<- <-].
      apply list_elem_of_singleton in Hrow as ->. repeat constructor.
Qed.

Lemma migration_upgrades_witness :
  exists s' db, migrate sample_old_store = (Ok tt, s') /\ database_of s' = Some db
    /\ forall id row, db_devices db !! id = Some row -> dr_access row = PUBLIC_ACCESS.
Proof.
  destruct (migration_upgrades sample_old_store sample_old_released eq_refl)
    as (s' & db & Hrun & _ & _ & Hdb & _ & Haccess & _).
  exists s', db. split; [exact Hrun|]. split; [exact Hdb|]. apply Haccess. eexists. split; reflexivity.
Defined.

(** The engine fails in the middle of the first start. *)
Lemma migration_resumes_witness :
  let interrupted := with_faults [false; false; false; true] empty_store in
  exists s2, migrate (with_faults [] interrupted) = (Ok tt, s2)
    /\ migrate (with_faults [] (snd (migrate interrupted))) = (Ok tt, s2).
Proof.
  intros interrupted.
  destruct (migration_resumes interrupted (snd (migrate interrupted)) (Err (DatabaseError_Sqlite SqliteError_Other)))
    as (s2 & H1 & H2 & _); [by intros t columns table _ H|reflexivity|].
  exists s2. split; [exact H1|exact H2].
Defined.
