(* ===== verification/DatabaseInvariant.v ===== *)
(** * What is always true of the database

    [db_wf]: every row reads back as the record its columns spell, the columns the schema keeps unique
    are, every device's owner has an account, a code is spent or cancelled but never both, a session is
    filed under its own hash and the audit trail is numbered from one without a gap.  Every operation
    of [Database] keeps it, whatever the engine does, and on an engine that works a read never fails. *)

From stdpp Require Import sorting.
From S2P Require Import Prelude.
From S2P Require Import RustStr.
From S2P Require Import Protocol.
From S2P Require Import Database.
From S2P Require Import Auth.
From S2P Require Import Upstream.

(** ** The invariant *)

(** A code that was used names the device it was used for, and was not cancelled. *)
Definition settled_once (row : EnrollmentRow) : Prop :=
  (is_Some (er_used_at row) <-> is_Some (er_used_by_device_id row))
  /\ (is_Some (er_used_at row) -> er_cancelled_at row = None).

Record db_wf (db : Database) : Prop := {
  wf_users : forall id row, db_users db !! id = Some row -> exists user, read_user_row id row = Ok user;
  wf_usernames : forall id1 id2 row1 row2,
    db_users db !! id1 = Some row1 -> db_users db !! id2 = Some row2 ->
    ur_username row1 = ur_username row2 -> id1 = id2;
  wf_devices : forall id row, db_devices db !! id = Some row ->
    exists device, read_device_row id row = Ok device;
  wf_owners : forall id row owner, db_devices db !! id = Some row ->
    dr_owner_user_id row = Some owner -> is_Some (db_users db !! owner);
  wf_enrollments : forall id row, db_enrollments db !! id = Some row ->
    (exists enrollment, read_enrollment_row id row = Ok enrollment) /\ settled_once row;
  wf_codes : forall id1 id2 row1 row2,
    db_enrollments db !! id1 = Some row1 -> db_enrollments db !! id2 = Some row2 ->
    er_code_hash row1 = er_code_hash row2 -> id1 = id2;
  wf_sessions : forall id_hash session, db_sessions db !! id_hash = Some session -> ss_id_hash session = id_hash;
  wf_audit : ar_id <$> db_audit db = seqZ 1 (db_audit_sequence db)
    /\ db_audit_sequence db = Z.of_nat (length (db_audit db));
}.

(** [healthy] says whether the engine is known to work. *)
Definition db_ok (healthy : bool) (db : Database) : Prop :=
  db_wf db /\ (healthy = true -> db_faults db = []).

(** The error of an engine that does not. *)
Definition broken {E} (healthy : bool) (e : E) : Prop := healthy = false.

Lemma empty_wf faults : db_wf (set_faults faults empty_database).
Proof. by split. Qed.

(** ** Columns read back *)

Lemma UserRole_parse_as_str (role : UserRole) : UserRole_parse (UserRole_as_str role) = Ok role.
Proof. by destruct role. Qed.

Lemma parse_device_kind_label (kind : DeviceKind) : parse_device_kind (device_kind_label kind) = Ok kind.
Proof. by destruct kind. Qed.

Lemma parse_kind_label (kind : DeviceKind) : parse_kind (device_kind_label kind) = Ok kind.
Proof. by destruct kind. Qed.

Lemma DeviceAccess_parse_as_str (access : DeviceAccess) :
  DeviceAccess_from_str (DeviceAccess_as_str access) = Ok access.
Proof. by destruct access. Qed.

(** Whether a row reads depends on its role alone. *)
Lemma user_row_reads id row :
  (exists user, read_user_row id row = Ok user) <-> exists role, UserRole_parse (ur_role row) = Ok role.
Proof.
  unfold read_user_row. run. destruct (UserRole_parse (ur_role row)); naive_solver.
Qed.

(** ... of its kind and its access rule, ... *)
Lemma device_row_reads id row :
  (exists device, read_device_row id row = Ok device)
  <-> (exists kind, parse_device_kind (dr_kind row) = Ok kind)
      /\ (exists access, DeviceAccess_from_str (dr_access row) = Ok access).
Proof.
  unfold read_device_row, parse_device_row. run.
  destruct (parse_device_kind (dr_kind row)); [|naive_solver].
  destruct (DeviceAccess_from_str (dr_access row)); naive_solver.
Qed.

(** ... of its kind. *)
Lemma enrollment_row_reads id row :
  (exists enrollment, read_enrollment_row id row = Ok enrollment)
  <-> exists kind, parse_kind (er_kind row) = Ok kind.
Proof. unfold read_enrollment_row. run. destruct (parse_kind (er_kind row)); naive_solver. Qed.

(** ** Statements *)

Section statements.
Variable healthy : bool.

(** [P] is what else is known before the statement, whatever faults are to come. *)
Lemma statement_triple {A} (P : Database -> Prop) (X : SqliteError -> Prop)
    (f : Database -> result SqliteError (A * Database)) :
  (forall faults db, P db -> P (set_faults faults db)) ->
  (forall e, broken healthy e -> X e) ->
  (forall db, db_ok healthy db -> P db ->
     match f db with Ok (_, db') => db_ok healthy db' | Err e => X e end) ->
  triple (fun db => db_ok healthy db /\ P db) (statement f) (fun _ => db_ok healthy)
    (fun e db => db_ok healthy db /\ X e).
Proof.
  intros HP HX Hf db [[Hwf Hh] Hp]. unfold statement. revert Hh.
  assert (Hset : forall faults, (healthy = true -> faults = []) -> db_ok healthy (set_faults faults db)).
  { intros faults Hfs. split; [|done]. by destruct Hwf; split. }
  assert (Hrun : forall faults, (healthy = true -> faults = []) ->
    match match f (set_faults faults db) with Ok (a, db') => (Ok a, db') | Err e => (Err e, set_faults faults db) end with
    | (Ok _, db') => db_ok healthy db'
    | (Err e, db') => db_ok healthy db' /\ X e
    end).
  { intros faults Hfs. specialize (Hf _ (Hset faults Hfs) (HP faults db Hp)).
    destruct (f _) as [[a db']|e]; [done|]. split; [by apply Hset|done]. }
  destruct (db_faults db) as [|[] faults]; intros Hh; [by apply Hrun| |].
  - split; [apply Hset; intros Ht; by specialize (Hh Ht)|].
    apply HX, not_true_is_false. intros Ht. by specialize (Hh Ht).
  - apply Hrun. intros Ht. by specialize (Hh Ht).
Qed.

Lemma statement_sound {A} (X : SqliteError -> Prop) (f : Database -> result SqliteError (A * Database)) :
  (forall e, broken healthy e -> X e) ->
  (forall db, db_ok healthy db ->
     match f db with Ok (_, db') => db_ok healthy db' | Err e => X e end) ->
  sound (db_ok healthy) X (statement f).
Proof.
  intros HX Hf db Hok. apply (statement_triple (fun _ => True) X); [done..| |done].
  intros d Hd _. by apply Hf.
Qed.

Lemma select_sound {A} (f : Database -> A) : sound (db_ok healthy) (broken healthy) (select f).
Proof. by apply statement_sound. Qed.

Lemma write_sound (f : Database -> Database) :
  (forall db, db_wf db -> db_wf (f db)) -> (forall db, db_faults (f db) = db_faults db) ->
  sound (db_ok healthy) (broken healthy) (write f).
Proof.
  intros Hf Hfs. apply statement_sound; [done|]. intros db [Hwf Hh]. split; [by apply Hf|].
  by rewrite Hfs.
Qed.

(** An update of one row keeps the invariant when the new row may take the old one's place. *)
Lemma update_row_sound {R} (get : Database -> gmap string R)
    (put : (gmap string R -> gmap string R) -> Database -> Database) id guard f :
  (forall db row, db_wf db -> get db !! id = Some row -> guard row = true ->
     db_wf (put (<[id := f row]>) db)) ->
  (forall g db, db_faults (put g db) = db_faults db) ->
  sound (db_ok healthy) (broken healthy) (update_row get put id guard f).
Proof.
  intros Hput Hfs. apply statement_sound; [done|]. intros db [Hwf Hh].
  destruct (get db !! id) as [row|] eqn:E; [destruct (guard row) eqn:Eg|]; [|done..].
  split; [by apply Hput|by rewrite Hfs].
Qed.

(** [sql] renames the error and keeps the rest. *)
Lemma sql_sound {A} (m : SE Database SqliteError A) :
  sound (db_ok healthy) (broken healthy) m -> sound (db_ok healthy) (broken healthy) (sql m).
Proof. intros Hm. by apply sound_map_err. Qed.

Lemma map_err_sound {A} (X : DatabaseError -> Prop) f (m : SE Database SqliteError A) :
  sound (db_ok healthy) (fun e => X (f e)) m -> sound (db_ok healthy) X (se_map_err f m).
Proof. apply sound_map_err. Qed.

End statements.

#[export] Hint Resolve select_sound sql_sound : sound.

(** ** Replacing one row *)

Section rows.
Context {db : Database} (Hwf : db_wf db).

Lemma wf_set_users_insert id row :
  (exists role, UserRole_parse (ur_role row) = Ok role) ->
  (forall i r, db_users db !! i = Some r -> ur_username r = ur_username row -> i = id) ->
  db_wf (set_users (<[id := row]>) db).
Proof using Hwf.
  intros Hrole Hname. destruct Hwf. split; cbn; try done.
  - intros i r [[<- <-]|[_ Hr]]%lookup_insert_Some; [by apply user_row_reads|eauto].
  - intros i1 i2 r1 r2 [[<- <-]|[_ H1]]%lookup_insert_Some [[<- <-]|[_ H2]]%lookup_insert_Some He;
      [done|symmetry; by apply (Hname _ _ H2)|by apply (Hname _ _ H1)|eauto].
  - intros i r owner Hr Ho. destruct (decide (owner = id)) as [->|Hne].
    + by rewrite lookup_insert_eq.
    + rewrite lookup_insert_ne by done. eauto.
Qed.

Lemma wf_set_devices_insert id row :
  (exists device, read_device_row id row = Ok device) ->
  (forall owner, dr_owner_user_id row = Some owner -> is_Some (db_users db !! owner)) ->
  db_wf (set_devices (<[id := row]>) db).
Proof using Hwf.
  intros Hread Howner. destruct Hwf. split; cbn; try done.
  - intros i r [[<- <-]|[_ Hr]]%lookup_insert_Some; eauto.
  - intros i r owner [[<- <-]|[_ Hr]]%lookup_insert_Some; eauto.
Qed.

Lemma wf_set_enrollments_insert id row :
  (exists kind, parse_kind (er_kind row) = Ok kind) -> settled_once row ->
  (forall i r, db_enrollments db !! i = Some r -> er_code_hash r = er_code_hash row -> i = id) ->
  db_wf (set_enrollments (<[id := row]>) db).
Proof using Hwf.
  intros Hread Hsettled Hcode. destruct Hwf. split; cbn; try done.
  - intros i r [[<- <-]|[_ Hr]]%lookup_insert_Some; [|eauto].
    split; [by apply enrollment_row_reads|done].
  - intros i1 i2 r1 r2 [[<- <-]|[_ H1]]%lookup_insert_Some [[<- <-]|[_ H2]]%lookup_insert_Some He;
      [done|symmetry; by apply (Hcode _ _ H2)|by apply (Hcode _ _ H1)|eauto].
Qed.

Lemma wf_set_sessions (m : gmap string SessionRecord) :
  (forall id_hash session, m !! id_hash = Some session -> ss_id_hash session = id_hash) ->
  db_wf (set_sessions (fun _ => m) db).
Proof using Hwf. intros Hm. by destruct Hwf; split. Qed.

End rows.

(** ** Operations: settings and sessions *)

Section operations.
Variable healthy : bool.
Abbreviation OK op := (sound (db_ok healthy) (broken healthy) op).

Lemma read_setting_sound key : OK (read_setting key).
Proof. apply sql_sound, select_sound. Qed.

Lemma write_setting_sound now key value : OK (write_setting now key value).
Proof. apply sql_sound, write_sound; [|done]. intros db Hwf. by destruct Hwf; split. Qed.

Lemma delete_setting_sound key : OK (delete_setting key).
Proof. apply sql_sound, write_sound; [|done]. intros db Hwf. by destruct Hwf; split. Qed.

Lemma find_session_sound id_hash : OK (find_session id_hash).
Proof. apply sql_sound, select_sound. Qed.

Lemma extend_session_sound id_hash expires_at : OK (extend_session id_hash expires_at).
Proof.
  unfold extend_session. apply sound_bind; [|intros; apply sound_ret].
  apply sql_sound, update_row_sound; [|done]. intros db s Hwf Hs _. apply wf_set_sessions; [done|].
  intros i r [[<- <-]|[_ Hr]]%lookup_insert_Some; cbn; by eapply wf_sessions.
Qed.

(** Sessions that are left are the ones that were there. *)
Lemma fewer_sessions db (m : gmap string SessionRecord) :
  db_wf db -> m ⊆ db_sessions db -> db_wf (set_sessions (fun _ => m) db).
Proof.
  intros Hwf Hm. apply wf_set_sessions; [done|]. intros i s Hs. eapply wf_sessions; [done|].
  by eapply lookup_weaken.
Qed.

Lemma delete_session_sound id_hash : OK (delete_session id_hash).
Proof.
  apply sql_sound, write_sound; [|done]. intros db Hwf.
  apply (fewer_sessions db (delete id_hash (db_sessions db)) Hwf), delete_subseteq.
Qed.

Lemma delete_sessions_of_user_sound user_id : OK (delete_sessions_of_user user_id).
Proof.
  apply sql_sound, write_sound; [|done]. intros db Hwf.
  eapply (fewer_sessions db _ Hwf), map_filter_subseteq.
Qed.

Lemma delete_sessions_of_user_keeps user_id :
  preserves (keeps db_devices) (delete_sessions_of_user user_id).
Proof.
  intros db. unfold keeps, delete_sessions_of_user, sql, se_map_err, write, statement.
  by destruct (db_faults db) as [|[] faults].
Qed.

Lemma delete_expired_sessions_sound now : OK (delete_expired_sessions now).
Proof.
  apply sql_sound, statement_sound; [done|]. intros db [Hwf Hh]. split; [|done].
  eapply (fewer_sessions db _ Hwf), map_filter_subseteq.
Qed.

(** A session is new unless its hash is taken. *)
Lemma create_session_row_sound session : sound (db_ok healthy) (fun _ => True) (create_session_row session).
Proof.
  apply map_err_sound, statement_sound; [done|]. intros db [Hwf Hh].
  destruct (db_sessions db !! ss_id_hash session); [done|]. split; [|done].
  apply wf_set_sessions; [done|]. intros i s [[<- <-]|[_ Hs]]%lookup_insert_Some; [done|].
  by eapply wf_sessions.
Qed.

(** ** Operations: users *)

Lemma count_users_sound : OK count_users.
Proof. apply sql_sound, select_sound. Qed.

(** Rows that read are read. *)
Lemma select_rows_sound {R A} (rows : Database -> R) (read : R -> result DatabaseError A) :
  (forall db, db_wf db -> exists a, read (rows db) = Ok a) ->
  OK (selected ← sql (select rows); se_lift (read selected)).
Proof.
  intros Hread. apply (triple_bind _ _ _ (fun selected db => db_ok healthy db /\ exists a, read selected = Ok a)).
  - intros db Hok. pose proof (select_sound healthy rows db Hok) as Hs.
    unfold sql, se_map_err. destruct (select rows db) as [[selected|e] db'] eqn:E; [|done].
    split; [done|]. assert (selected = rows (next_statement db)) as ->.
    { by apply statement_ok in E; injection E as <- _. }
    apply Hread. destruct Hok as [Hwf _]. by destruct Hwf; split.
  - intros selected db [Hok [a Ha]]. unfold se_lift. by rewrite Ha.
Qed.

Lemma read_user_sound (select_row : Database -> option (string * UserRow)) :
  (forall db id row, select_row db = Some (id, row) -> db_users db !! id = Some row) ->
  OK (read_user select_row).
Proof.
  intros Hsel. apply (select_rows_sound select_row
    (fun row => transpose ((fun '(id, r) => read_user_row id r) <$> row))).
  intros db Hwf. destruct (select_row db) as [[id row]|] eqn:E; [|by eexists].
  destruct (wf_users db Hwf id row (Hsel _ _ _ E)) as [user Hu]. cbn. rewrite Hu. by eexists.
Qed.

Lemma find_user_sound id : OK (find_user id).
Proof.
  apply read_user_sound. intros db i row. destruct (db_users db !! id) eqn:E; [|done].
  cbn. by intros [= <- <-].
Qed.

Lemma find_user_by_username_sound username : OK (find_user_by_username username).
Proof. apply read_user_sound. by intros db id row [? _]%head_filter_lookup. Qed.

(** Rows in any order, all of which read. *)
Lemma collect_rows {R A} (m : gmap string R) (rows : list (string * R))
    (read : string -> R -> result DatabaseError A) :
  (forall p, p ∈ rows -> p ∈ map_to_list m) ->
  (forall id row, m !! id = Some row -> exists a, read id row = Ok a) ->
  exists l, collect ((fun '(id, r) => read id r) <$> rows) = Ok l.
Proof.
  intros Hrows Hread. induction rows as [|[id row] rows IH]; [by eexists|].
  destruct (Hread id row) as [a Ha]; [by apply elem_of_map_to_list, Hrows; left|].
  destruct IH as [l Hl]; [intros p Hp; apply Hrows; by right|].
  rewrite fmap_cons. cbn [collect]. rewrite Ha. run. rewrite Hl. by eexists.
Qed.

(** The records read are those of the rows, in the rows' order. *)
Lemma collect_records {R A B} (read : string -> R -> result DatabaseError A) (f : A -> B) (g : string * R -> B)
    (rows : list (string * R)) :
  (forall id row a, read id row = Ok a -> f a = g (id, row)) ->
  forall l, collect ((fun '(id, r) => read id r) <$> rows) = Ok l -> f <$> l = g <$> rows.
Proof.
  intros Hfg. induction rows as [|[id row] rows IH]; intros l; [by intros [= <-]|].
  rewrite fmap_cons. cbn [collect]. destruct (read id row) as [a|] eqn:Ea; [|done]. run.
  destruct (collect _) as [rest|]; [|done]. intros [= <-]. cbn. by rewrite (Hfg _ _ _ Ea), (IH rest).
Qed.

Lemma list_users_sound : OK list_users.
Proof.
  apply (select_rows_sound _ (fun rows => collect ((fun '(id, r) => read_user_row id r) <$> rows))).
  intros db Hwf. apply (collect_rows (db_users db)); [|by apply wf_users].
  intros p. by rewrite merge_sort_Permutation.
Qed.

(** An update of an account changes neither its name nor whether its role reads. *)
Lemma update_users_row_sound id f :
  (forall row, ur_username (f row) = ur_username row) ->
  (forall row, (exists role, UserRole_parse (ur_role row) = Ok role) ->
     exists role, UserRole_parse (ur_role (f row)) = Ok role) ->
  OK (update_users_row id f).
Proof.
  intros Hname Hrole. unfold update_users_row. apply sound_bind; [|intros; apply sound_ret].
  apply sql_sound, update_row_sound; [|done]. intros db row Hwf Hrow _.
  apply wf_set_users_insert; [done| |].
  - apply Hrole, (user_row_reads id). by eapply wf_users.
  - intros i r Hr He. eapply wf_usernames; [done|exact Hr|exact Hrow|]. by rewrite <- (Hname row).
Qed.

Lemma when_some_sound {A} (value : option A) body :
  (forall a, OK (body a)) -> OK (when_some value body).
Proof. intros Hb. destruct value; [apply Hb|apply sound_ret]. Qed.

Lemma update_user_sound id update : OK (update_user id update).
Proof.
  unfold update_user. repeat (apply sound_bind; [|intros []]); [..|apply sound_ret];
    apply when_some_sound; intros value; apply update_users_row_sound; try done.
  intros row _. eexists. apply UserRole_parse_as_str.
Qed.

Lemma record_user_login_sound now id : OK (record_user_login now id).
Proof. by apply update_users_row_sound. Qed.

(** The errors of creating an account on an engine that works: the name is taken. *)
Definition taken (e : DatabaseError) : Prop := broken healthy e \/ e = DatabaseError_UsernameTaken.

Lemma create_user_sound (X : DatabaseError -> Prop) random now username hash role :
  (forall e, taken e -> X e) -> (forall e, random = Err e -> X (DatabaseError_Random e)) ->
  sound (db_ok healthy) X (create_user random now username hash role).
Proof.
  intros HX Hrandom. unfold create_user. apply sound_bind.
  { apply sound_lift. intros e. destruct random as [id|r]; [done|]. intros [= <-]. by apply Hrandom. }
  intros id. apply sound_bind; [|intros; apply sound_ret]. apply map_err_sound, statement_sound.
  { intros e Hb. apply HX. by left. }
  assert (Htaken : X (map_username_conflict SqliteError_ConstraintViolation)) by (apply HX; by right).
  intros db [Hwf Hh]. cbn. destruct (db_users db !! id); [done|].
  destruct (username_in_use username db) eqn:Eu; [done|]. split; [|done].
  apply wf_set_users_insert; [done| |].
  - eexists. apply UserRole_parse_as_str.
  - cbn. intros i r Hr He. unfold username_in_use in Eu. rewrite existsb_false_iff in Eu.
    specialize (Eu (i, r)). rewrite elem_of_map_to_list in Eu. specialize (Eu Hr). cbn in Eu.
    by rewrite He, String.eqb_refl in Eu.
Qed.

(** An account no device refers to can be deleted. *)
Definition owns_nothing (id : string) (db : Database) : Prop :=
  forall d row, db_devices db !! d = Some row -> dr_owner_user_id row <> Some id.

Lemma delete_user_wf id db : db_wf db -> owns_nothing id db -> db_wf (set_users (delete id) db).
Proof.
  intros Hwf Hno. destruct Hwf. split; cbn; try done.
  - intros i r [_ Hr]%lookup_delete_Some. eauto.
  - intros i1 i2 r1 r2 [_ H1]%lookup_delete_Some [_ H2]%lookup_delete_Some. eauto.
  - intros i r owner Hr Ho. rewrite lookup_delete_ne; [eauto|]. intros ->. by apply (Hno i r).
Qed.

(** The schema keeps an account that devices refer to. *)
Lemma references_seen id db :
  existsb (fun '(_, row) => bool_decide (dr_owner_user_id row = Some id)) (map_to_list (db_devices db)) = false
  <-> owns_nothing id db.
Proof.
  rewrite existsb_false_iff. split.
  - intros He d row Hd Ho. specialize (He (d, row)). rewrite elem_of_map_to_list in He.
    specialize (He Hd). by apply bool_decide_eq_false in He.
  - intros Hno [d row] Hd. apply bool_decide_eq_false. apply (Hno d). by apply elem_of_map_to_list.
Qed.

Lemma delete_user_statement id db :
  db_ok healthy db ->
  match (if existsb (fun '(_, row) => bool_decide (dr_owner_user_id row = Some id)) (map_to_list (db_devices db))
            && bool_decide (is_Some (db_users db !! id))
         then Err SqliteError_ConstraintViolation
         else Ok (tt, set_users (delete id) db)) with
  | Ok (_, db') => db_ok healthy db'
  | Err e => ~ owns_nothing id db
  end.
Proof.
  intros [Hwf Hh]. destruct (existsb _ _) eqn:E; cbn.
  - case_bool_decide as Hu; [by rewrite <- references_seen, E|].
    apply eq_None_not_Some in Hu. split; [|done].
    destruct Hwf; split; cbn; rewrite ?delete_id by done; try done.
  - split; [|done]. apply delete_user_wf; [done|]. by apply references_seen.
Qed.

Lemma delete_user_sound id : sound (db_ok healthy) (fun _ => True) (delete_user id).
Proof.
  apply map_err_sound, statement_sound; [done|]. intros db Hok.
  pose proof (delete_user_statement id db Hok) as Hd. by case_match.
Qed.

(** Nothing stands in the way of deleting an account that owns nothing. *)
Lemma delete_user_free id :
  triple (fun db => db_ok healthy db /\ owns_nothing id db) (delete_user id)
    (fun _ => db_ok healthy) (fun e db => db_ok healthy db /\ broken healthy e).
Proof.
  apply (triple_map_err _ _ _ _ (fun e db => db_ok healthy db /\ broken healthy e)).
  apply (statement_triple healthy (owns_nothing id) (broken healthy)); [done..|].
  intros d Hok Hno. pose proof (delete_user_statement id d Hok) as Hd. by case_match.
Qed.

End operations.

#[export] Hint Resolve read_setting_sound write_setting_sound delete_setting_sound find_session_sound
  extend_session_sound delete_session_sound delete_sessions_of_user_sound delete_expired_sessions_sound
  count_users_sound find_user_sound find_user_by_username_sound list_users_sound update_user_sound
  record_user_login_sound delete_user_sound : sound.

(** ** Operations: devices *)

Section device_operations.
Variable healthy : bool.
Abbreviation OK op := (sound (db_ok healthy) (broken healthy) op).

Lemma find_device_sound id : OK (find_device id).
Proof.
  apply (select_rows_sound healthy (fun db => db_devices db !! id)
           (fun row => transpose (read_device_row id <$> row))).
  intros db Hwf. destruct (db_devices db !! id) as [row|] eqn:E; [|by eexists].
  destruct (wf_devices db Hwf id row E) as [device Hd]. cbn. rewrite Hd. by eexists.
Qed.

Lemma query_devices_sound keep : OK (query_devices keep).
Proof.
  apply (select_rows_sound healthy _ (fun rows => collect ((fun '(id, r) => read_device_row id r) <$> rows))).
  intros db Hwf. apply (collect_rows (db_devices db)); [|by apply wf_devices].
  intros p. rewrite merge_sort_Permutation, !list_elem_of_In, List.filter_In. naive_solver.
Qed.

(** A new device is refused when its id is taken or its owner is gone. *)
Lemma create_device_sound now device : sound (db_ok healthy) (fun _ => True) (create_device now device).
Proof.
  unfold create_device. apply sound_bind; [|intros; apply sound_ret].
  apply map_err_sound, statement_sound; [done|]. intros db [Hwf Hh]. cbn.
  destruct (db_devices db !! nd_id device); [done|].
  assert (Hread : forall row, dr_kind row = device_kind_label (nd_kind device) -> dr_access row = PUBLIC_ACCESS ->
            exists d, read_device_row (nd_id device) row = Ok d).
  { intros row Hk Ha. apply device_row_reads. rewrite Hk, Ha, parse_device_kind_label. eauto. }
  destruct (nd_owner_user_id device) as [owner|] eqn:Eo; [case_bool_decide as Hu; [|done]|];
    (split; [apply wf_set_devices_insert; [done|by apply Hread|cbn]|done]); by intros o [= <-].
Qed.

(** An update of a device leaves its owner and its kind, and an access rule that reads. *)
Lemma update_row_devices_sound id guard f :
  (forall row, dr_owner_user_id (f row) = dr_owner_user_id row) ->
  (forall row, (exists device, read_device_row id row = Ok device) ->
     exists device, read_device_row id (f row) = Ok device) ->
  OK (update_row db_devices set_devices id guard f).
Proof.
  intros Ho Hr. apply update_row_sound; [|done]. intros db row Hwf Hrow _.
  apply wf_set_devices_insert; [done| |].
  - apply Hr. by eapply wf_devices.
  - intros owner. rewrite Ho. by apply (wf_owners db Hwf id).
Qed.

Lemma update_devices_row_sound id f :
  (forall row, dr_owner_user_id (f row) = dr_owner_user_id row) ->
  (forall row, (exists device, read_device_row id row = Ok device) ->
     exists device, read_device_row id (f row) = Ok device) ->
  OK (update_devices_row id f).
Proof.
  intros Ho Hr. unfold update_devices_row. apply sound_bind; [|intros; apply sound_ret].
  apply sql_sound. by apply update_row_devices_sound.
Qed.

(** Columns other than the kind and the access rule do not matter to whether a row reads. *)
Lemma device_row_columns id row row' :
  dr_kind row' = dr_kind row -> dr_access row' = dr_access row ->
  (exists device, read_device_row id row = Ok device) -> exists device, read_device_row id row' = Ok device.
Proof. rewrite !device_row_reads. by intros -> ->. Qed.

Lemma update_device_sound id update : OK (update_device id update).
Proof.
  unfold update_device. repeat (apply sound_bind; [|intros []]); [..|apply sound_ret];
    apply when_some_sound; intros value; apply update_devices_row_sound; try done; intros row;
    [by apply device_row_columns..|].
  rewrite !device_row_reads. cbn. rewrite DeviceAccess_parse_as_str. naive_solver.
Qed.

Lemma revoke_device_sound now id : OK (revoke_device now id).
Proof.
  unfold revoke_device. apply sound_bind; [|intros; apply sound_ret].
  apply sql_sound, update_row_devices_sound; [done|]. intros row. by apply device_row_columns.
Qed.

Lemma revoke_each_sound clock ids : forall i, OK (revoke_each clock i ids).
Proof.
  induction ids as [|id ids IH]; intros i; [apply sound_ret|].
  apply sound_bind; [apply revoke_device_sound|intros _; apply IH].
Qed.

Lemma revoke_devices_owned_by_sound clock owner : OK (revoke_devices_owned_by clock owner).
Proof.
  unfold revoke_devices_owned_by. apply sound_bind; [apply query_devices_sound|intros devices].
  apply sound_bind; [apply revoke_each_sound|intros _; apply sound_ret].
Qed.

Lemma record_device_connection_sound now id ip version : OK (record_device_connection now id ip version).
Proof. apply update_devices_row_sound; [done|]. intros row. by apply device_row_columns. Qed.

Lemma record_device_disconnection_sound now id : OK (record_device_disconnection now id).
Proof. apply update_devices_row_sound; [done|]. intros row. by apply device_row_columns. Qed.

Definition disowned (owner : string) (r : DeviceRow) : DeviceRow :=
  if owned_by owner r then without_owner r else r.

Lemma disowned_owner owner r o : dr_owner_user_id (disowned owner r) = Some o -> dr_owner_user_id r = Some o /\ o <> owner.
Proof.
  unfold disowned, owned_by. case_bool_decide as Ho; [done|]. intros He. split; [done|]. by intros ->.
Qed.

(** Afterwards the account owns nothing. *)
Lemma disown_devices_of_effect owner :
  triple (db_ok healthy) (disown_devices_of owner)
    (fun _ db => db_ok healthy db /\ owns_nothing owner db) (fun e db => db_ok healthy db /\ broken healthy e).
Proof.
  intros db Hok. pose proof (write_sound healthy (set_devices (fmap (disowned owner)))) as Hw.
  assert (Hs : sound (db_ok healthy) (broken healthy) (disown_devices_of owner)).
  { apply sql_sound, Hw; [|done]. intros d Hwf. destruct Hwf. split; cbn; try done.
    - intros id row. rewrite lookup_fmap. intros (r & Hr & ->)%fmap_Some.
      eapply device_row_columns; [..|eauto]; unfold disowned; by case_match.
    - intros id row o. rewrite lookup_fmap. intros (r & Hr & ->)%fmap_Some [Ho _]%disowned_owner. eauto. }
  specialize (Hs db Hok). destruct (disown_devices_of owner db) as [[u|e] db'] eqn:E; [|done].
  split; [done|]. apply write_ok in E as ->. intros d row. cbn. rewrite lookup_fmap.
  intros (r & Hr & ->)%fmap_Some Ho. by apply disowned_owner in Ho as [_ ?].
Qed.

End device_operations.

#[export] Hint Resolve find_device_sound query_devices_sound update_device_sound revoke_device_sound
  revoke_devices_owned_by_sound record_device_connection_sound record_device_disconnection_sound : sound.

Lemma list_devices_sound healthy : sound (db_ok healthy) (broken healthy) list_devices.
Proof. apply query_devices_sound. Qed.

Lemma list_devices_owned_by_sound healthy owner :
  sound (db_ok healthy) (broken healthy) (list_devices_owned_by owner).
Proof. apply query_devices_sound. Qed.

#[export] Hint Resolve list_devices_sound list_devices_owned_by_sound : sound.

(** ** Operations: enrollments and the audit trail *)

Section enrollment_operations.
Variable healthy : bool.
Abbreviation OK op := (sound (db_ok healthy) (broken healthy) op).

Lemma read_enrollment_sound (select_row : Database -> option (string * EnrollmentRow)) :
  (forall db id row, select_row db = Some (id, row) -> db_enrollments db !! id = Some row) ->
  OK (read_enrollment select_row).
Proof.
  intros Hsel. apply (select_rows_sound healthy select_row
    (fun row => transpose ((fun '(id, r) => read_enrollment_row id r) <$> row))).
  intros db Hwf. destruct (select_row db) as [[id row]|] eqn:E; [|by eexists].
  destruct (wf_enrollments db Hwf id row (Hsel _ _ _ E)) as [[e He] _]. cbn. rewrite He. by eexists.
Qed.

Lemma find_enrollment_sound id : OK (find_enrollment id).
Proof.
  apply read_enrollment_sound. intros db i row. destruct (db_enrollments db !! id) eqn:E; [|done].
  cbn. by intros [= <- <-].
Qed.

Lemma find_enrollment_by_hash_sound hash : OK (find_enrollment_by_hash hash).
Proof. apply read_enrollment_sound. by intros db id row [? _]%head_filter_lookup. Qed.

Lemma list_enrollments_sound : OK list_enrollments.
Proof.
  apply (select_rows_sound healthy _
           (fun rows => collect ((fun '(id, r) => read_enrollment_row id r) <$> rows))).
  intros db Hwf. apply (collect_rows (db_enrollments db)); [|by apply wf_enrollments].
  intros p. by rewrite merge_sort_Permutation.
Qed.

(** A new code is refused when its id or its hash is taken. *)
Lemma create_enrollment_sound random now enrollment :
  sound (db_ok healthy) (fun _ => True) (create_enrollment random now enrollment).
Proof.
  unfold create_enrollment. apply sound_bind; [by apply sound_lift|intros id].
  apply sound_bind; [|intros; apply sound_ret]. apply map_err_sound, statement_sound; [done|].
  intros db [Hwf Hh]. cbn. destruct (db_enrollments db !! id); [done|].
  destruct (code_hash_in_use (ne_code_hash enrollment) db) eqn:Ec; [done|]. split; [|done].
  apply wf_set_enrollments_insert; [done| | |].
  - eexists. apply parse_kind_label.
  - split; [split|]; by intros [? ?].
  - cbn. intros i r Hr He. unfold code_hash_in_use in Ec. rewrite existsb_false_iff in Ec.
    specialize (Ec (i, r)). rewrite elem_of_map_to_list in Ec. specialize (Ec Hr). cbn in Ec.
    by rewrite He, String.eqb_refl in Ec.
Qed.

(** An open code is settled one way. *)
Lemma settle_row_sound id f :
  (forall row, er_code_hash (f row) = er_code_hash row) -> (forall row, er_kind (f row) = er_kind row) ->
  (forall row, is_open row = true -> settled_once row -> settled_once (f row)) ->
  OK (update_row db_enrollments set_enrollments id is_open f).
Proof.
  intros Hh Hk Hs. apply update_row_sound; [|done]. intros db row Hwf Hrow Ho.
  destruct (wf_enrollments db Hwf id row Hrow) as [Hread Hsettled].
  apply wf_set_enrollments_insert; [done| |auto|].
  - rewrite Hk. by apply (enrollment_row_reads id).
  - intros i r Hr He. eapply wf_codes; [done|exact Hr|exact Hrow|]. by rewrite <- (Hh row).
Qed.

Lemma is_open_spec row : is_open row = true <-> er_used_at row = None /\ er_cancelled_at row = None.
Proof.
  unfold is_open, is_none. destruct (er_used_at row), (er_cancelled_at row); naive_solver.
Qed.

Lemma mark_enrollment_used_sound now id device_id : OK (mark_enrollment_used now id device_id).
Proof.
  unfold mark_enrollment_used. apply sound_bind; [|intros; apply sound_ret].
  apply sql_sound, settle_row_sound; [done..|]. intros row [_ Hc]%is_open_spec _.
  by split; [split; intros _; eexists|].
Qed.

Lemma cancel_enrollment_sound now id : OK (cancel_enrollment now id).
Proof.
  unfold cancel_enrollment. apply sound_bind; [|intros; apply sound_ret].
  apply sql_sound, settle_row_sound; [done..|]. intros row [Hu _]%is_open_spec [Hb _].
  split; [done|]. cbn. rewrite Hu. by intros [? ?].
Qed.

Lemma write_audit_sound record : OK (write_audit record).
Proof.
  apply sql_sound, write_sound; [|done]. intros db Hwf. destruct Hwf. destruct wf_audit0 as [Hids Hseq].
  split; try done. cbn. rewrite fmap_app, length_app, Hids, Hseq. split; [|cbn; lia].
  replace (Z.of_nat (length (db_audit db)) + 1)%Z with (Z.of_nat (S (length (db_audit db)))) by lia.
  rewrite seqZ_S. f_equal. cbn [fmap list_fmap ar_id]. f_equal. lia.
Qed.

Lemma list_audit_sound query : OK (list_audit query).
Proof.
  unfold list_audit. apply sound_bind; [apply sql_sound, select_sound|intros; apply sound_ret].
Qed.

End enrollment_operations.

#[export] Hint Resolve find_enrollment_sound find_enrollment_by_hash_sound list_enrollments_sound
  mark_enrollment_used_sound cancel_enrollment_sound write_audit_sound list_audit_sound : sound.

(** ** Console sessions and the stored upstream *)

Section sessions.
Context `{!Protocol}.
Variable healthy : bool.
Abbreviation OK op := (sound (db_ok healthy) (broken healthy) op).

Lemma resolve_session_sound token now : OK (resolve_session token now).
Proof. unfold resolve_session. sound. Qed.

Lemma destroy_session_sound token : OK (destroy_session token).
Proof. apply delete_session_sound. Qed.

Lemma create_session_sound random now user_id ip :
  sound (db_ok healthy) (fun _ => True) (create_session random now user_id ip).
Proof.
  unfold create_session. apply sound_bind; [by apply sound_lift|intros token].
  apply sound_bind; [apply create_session_row_sound|intros; apply sound_ret].
Qed.

Lemma read_or_initialize_setting_sound now key fallback :
  sound (db_ok healthy) (fun _ => True) (read_or_initialize_setting now key fallback).
Proof.
  unfold read_or_initialize_setting. apply sound_bind; [by eapply sound_weaken; [apply read_setting_sound|]|].
  intros stored. destruct stored; [apply sound_ret|].
  apply sound_bind; [by apply sound_lift|intros value]. apply sound_bind; [|intros; apply sound_ret].
  by eapply sound_weaken; [apply write_setting_sound|].
Qed.

Context `{!SettingsCodec}.

Lemma load_sound : sound (db_ok healthy) (fun _ => True) load.
Proof.
  unfold load. apply sound_bind; [|intros stored; destruct stored; [by apply sound_lift|apply sound_ret]].
  apply sound_map_err. by eapply sound_weaken; [apply read_setting_sound|].
Qed.

Lemma store_sound now settings : OK (store now settings).
Proof. apply write_setting_sound. Qed.

Lemma clear_sound : OK clear.
Proof. apply delete_setting_sound. Qed.

End sessions.

#[export] Hint Resolve resolve_session_sound destroy_session_sound load_sound store_sound clear_sound : sound.

(** ** Listings on an engine that works *)

Lemma list_users_answers db :
  db_wf db -> db_faults db = [] ->
  exists users, list_users db = (Ok users, db)
    /\ (fun user => (us_id user, us_username user)) <$> users
       ≡ₚ (fun p => (p.1, ur_username p.2)) <$> map_to_list (db_users db).
Proof.
  intros Hwf Hf. unfold list_users. erewrite se_bind_eq by by apply select_healthy. unfold se_lift.
  set (rows := merge_sort _ _).
  assert (Hperm : rows ≡ₚ map_to_list (db_users db)) by apply merge_sort_Permutation.
  destruct (collect_rows (db_users db) rows read_user_row) as [users Hu];
    [intros p; by rewrite Hperm|by apply wf_users|].
  exists users. rewrite Hu. split; [done|]. rewrite <- Hperm. apply reflexive_eq.
  eapply collect_records; [|exact Hu]. intros id row user. unfold read_user_row. run.
  destruct (UserRole_parse (ur_role row)); [|done]. by intros [= <-].
Qed.

Lemma list_devices_answers db :
  db_wf db -> db_faults db = [] ->
  exists devices, list_devices db = (Ok devices, db)
    /\ (fun device => (dv_id device, dv_owner_user_id device)) <$> devices
       ≡ₚ (fun p => (p.1, dr_owner_user_id p.2)) <$> map_to_list (db_devices db).
Proof.
  intros Hwf Hf. unfold list_devices, query_devices. erewrite se_bind_eq by by apply select_healthy.
  unfold se_lift. set (rows := merge_sort _ _).
  assert (Hperm : rows ≡ₚ map_to_list (db_devices db)).
  { unfold rows. rewrite merge_sort_Permutation. apply reflexive_eq, filter_all. by intros [i r] _. }
  destruct (collect_rows (db_devices db) rows read_device_row) as [devices Hd];
    [intros p; by rewrite Hperm|by apply wf_devices|].
  exists devices. rewrite Hd. split; [done|]. rewrite <- Hperm. apply reflexive_eq.
  eapply collect_records; [|exact Hd]. intros id row device. unfold read_device_row. run.
  destruct (parse_device_row _ _) as [[kind access]|]; [|done]. by intros [= <-].
Qed.

Lemma list_enrollments_answers db :
  db_wf db -> db_faults db = [] ->
  exists codes, list_enrollments db = (Ok codes, db)
    /\ (fun code => (ec_id code, (ec_used_at code, ec_used_by_device_id code, ec_cancelled_at code))) <$> codes
       ≡ₚ (fun p => (p.1, (er_used_at p.2, er_used_by_device_id p.2, er_cancelled_at p.2)))
            <$> map_to_list (db_enrollments db).
Proof.
  intros Hwf Hf. unfold list_enrollments. erewrite se_bind_eq by by apply select_healthy. unfold se_lift.
  set (rows := merge_sort _ _).
  assert (Hperm : rows ≡ₚ map_to_list (db_enrollments db)) by apply merge_sort_Permutation.
  destruct (collect_rows (db_enrollments db) rows read_enrollment_row) as [codes Hc];
    [intros p; by rewrite Hperm|by apply wf_enrollments|].
  exists codes. rewrite Hc. split; [done|]. rewrite <- Hperm. apply reflexive_eq.
  eapply collect_records; [|exact Hc]. intros id row code. unfold read_enrollment_row. run.
  destruct (parse_kind (er_kind row)); [|done]. by intros [= <-].
Qed.
