(* ===== verification/State.v ===== *)
(** * [src/state.rs], [src/forwarded.rs], [src/audit.rs]: the state every handler shares

    [RelayState] is the source's struct with the mutable world around it written out: the database,
    the routing table, the lockout table and the upstream link are its fields, the channels into the
    tunnels, the clock and the random sources are the environment a handler acts on.  A handler is a
    computation in [SE RelayState]. *)

From S2P Require Import Prelude.
From S2P Require Import RustStr.
From S2P Require Import Protocol.
From S2P Require Import Handle.
From S2P Require Import Registry.
From S2P Require Import Config.
From S2P Require Import Database.
From S2P Require Import Auth.
From S2P Require Import Address.
From S2P Require Import Http.
From S2P Require Import Upstream.

(** ** JSON values, as [serde_json] writes them *)

Inductive Value : Type :=
| Value_String (text : string)
| Value_Bool (value : bool)
| Value_Number (value : Z).

Class JsonCodec : Type := {
  json_object_to_string : gmap string Value -> string;
}.

(** A concrete serializer: the names of the fields. *)
#[export] Instance sample_json : JsonCodec := {|
  json_object_to_string m := str_join "," (fst <$> map_to_list m);
|}.

Section state.
Context `{Protocol}.

Record RelayState : Type := mkRelayState {
  rs_database : Database;
  rs_registry : Registry;
  rs_upstream : UpstreamLink;
  rs_lockout : LockoutTable;
  rs_relay_id : string;
  rs_addressing : DeviceAddressing;
  rs_trusted_proxies : list string;
  rs_tls_enabled : bool;
  (* the environment *)
  rs_channels : Channels;
  rs_clock : nat -> Z;
  rs_reads : nat;
  rs_random : nat -> nat -> result string string;
  rs_draws : nat;
  (* [DeviceCredential::generate] *)
  rs_credentials : nat -> result string DeviceCredential;
}.

Definition put_database (db : Database) (s : RelayState) : RelayState :=
  mkRelayState db (rs_registry s) (rs_upstream s) (rs_lockout s) (rs_relay_id s) (rs_addressing s)
    (rs_trusted_proxies s) (rs_tls_enabled s) (rs_channels s) (rs_clock s) (rs_reads s)
    (rs_random s) (rs_draws s) (rs_credentials s).

Definition put_registry (r : Registry) (s : RelayState) : RelayState :=
  mkRelayState (rs_database s) r (rs_upstream s) (rs_lockout s) (rs_relay_id s) (rs_addressing s)
    (rs_trusted_proxies s) (rs_tls_enabled s) (rs_channels s) (rs_clock s) (rs_reads s)
    (rs_random s) (rs_draws s) (rs_credentials s).

Definition put_upstream (u : UpstreamLink) (s : RelayState) : RelayState :=
  mkRelayState (rs_database s) (rs_registry s) u (rs_lockout s) (rs_relay_id s) (rs_addressing s)
    (rs_trusted_proxies s) (rs_tls_enabled s) (rs_channels s) (rs_clock s) (rs_reads s)
    (rs_random s) (rs_draws s) (rs_credentials s).

Definition put_lockout (t : LockoutTable) (s : RelayState) : RelayState :=
  mkRelayState (rs_database s) (rs_registry s) (rs_upstream s) t (rs_relay_id s) (rs_addressing s)
    (rs_trusted_proxies s) (rs_tls_enabled s) (rs_channels s) (rs_clock s) (rs_reads s)
    (rs_random s) (rs_draws s) (rs_credentials s).

Definition put_channels (c : Channels) (s : RelayState) : RelayState :=
  mkRelayState (rs_database s) (rs_registry s) (rs_upstream s) (rs_lockout s) (rs_relay_id s)
    (rs_addressing s) (rs_trusted_proxies s) (rs_tls_enabled s) c (rs_clock s) (rs_reads s)
    (rs_random s) (rs_draws s) (rs_credentials s).

Definition tick (reads draws : nat) (s : RelayState) : RelayState :=
  mkRelayState (rs_database s) (rs_registry s) (rs_upstream s) (rs_lockout s) (rs_relay_id s)
    (rs_addressing s) (rs_trusted_proxies s) (rs_tls_enabled s) (rs_channels s) (rs_clock s) reads
    (rs_random s) draws (rs_credentials s).

Abbreviation App := (SE RelayState).

(** ** Reading the environment *)

Definition now_millis {E} : App E Z :=
  fun s => (Ok (rs_clock s (rs_reads s)), tick (S (rs_reads s)) (rs_draws s) s).

(** The clock readings of a loop that reads it once per round, for at most [n] rounds. *)
Definition clock_readings {E} (n : nat) : App E (nat -> Z) :=
  fun s => (Ok (fun i => rs_clock s (rs_reads s + i)), tick (rs_reads s + n) (rs_draws s) s).

(** One draw of random bytes: the outcome by number of bytes. *)
Definition draw {E} : App E (nat -> result string string) :=
  fun s => (Ok (rs_random s (rs_draws s)), tick (rs_reads s) (S (rs_draws s)) s).

Definition generate_credential {E} : App E (result string DeviceCredential) :=
  fun s => (Ok (rs_credentials s (rs_draws s)), tick (rs_reads s) (S (rs_draws s)) s).

Definition database {A} (op : DB A) : App DatabaseError A := se_zoom rs_database put_database op.

Definition on_registry {E A} (f : Registry -> A * Registry) : App E A :=
  se_state (fun s => let '(a, r) := f (rs_registry s) in (a, put_registry r s)).

Definition on_upstream {E} (f : UpstreamLink -> UpstreamLink) : App E unit :=
  se_modify (fun s => put_upstream (f (rs_upstream s)) s).

Definition on_channels {E} (f : Channels -> Channels) : App E unit :=
  se_modify (fun s => put_channels (f (rs_channels s)) s).

Definition lockout_is_locked {E} (source : string) : App E bool :=
  now ← now_millis; se_get (fun s => is_locked (rs_lockout s) source now).

Definition lockout_record_failure {E} (source : string) : App E unit :=
  now ← now_millis; se_modify (fun s => put_lockout (record_failure source now (rs_lockout s)) s).

Definition lockout_forget {E} (source : string) : App E unit :=
  se_modify (fun s => put_lockout (lockout_clear source (rs_lockout s)) s).

(** ** [src/state.rs] *)

Definition RELAY_VERSION : string := "0.10.2".

Definition public_url (s : RelayState) : PublicUrl := da_public_url (rs_addressing s).

Definition is_public_secure (s : RelayState) : bool := pu_secure (public_url s).

Definition device_access_url (s : RelayState) (device_id : string) : string :=
  device_url (rs_addressing s) device_id.

Definition relay_address (s : RelayState) (device_id : string) : RelayAddress :=
  mkRelayAddress (rs_relay_id s) (pu_host (public_url s)) (device_access_url s device_id) 0.

Definition device_addresses (s : RelayState) (device_id : string) : list RelayAddress :=
  relay_address s device_id :: addresses_for (ul_reach (rs_upstream s)) device_id.

Definition upstream_chain (s : RelayState) : list string := chain (rs_upstream s).

(** [upstream::publish_addresses]: the new address list goes to every directly attached tunnel. *)
Definition publish_addresses (s : RelayState) : Channels :=
  fold_left (fun chans device =>
    match od_route device with
    | Route_Direct handle =>
        send_frame handle (ControlFrame_Addresses (device_addresses s (od_device_id device))) chans
    | Route_Via _ _ => chans
    end) (snapshot (rs_registry s)) (rs_channels s).

(** ** [src/forwarded.rs] *)

Record ClientContext : Type := mkClientContext {
  cc_ip : string;
  cc_proto : string;
  cc_host : string;
}.

Section forwarded.
Context `{Platform} `{HttpCrate}.

Definition first_forwarded_address (value : string) : option string :=
  entry ← head (split comma value);
  ip_parse (trim_end_char "]" (trim_start_char "[" (trim entry))).

Definition resolve (state : RelayState) (headers : HeaderMap) (peer : SocketAddr) : ClientContext :=
  let trusted :=
    negb (rs_tls_enabled state) && is_trusted_proxy (rs_trusted_proxies state) (sa_ip peer) in
  let fallback_host := default (pu_host (public_url state)) (header_str headers HOST) in
  if negb trusted then
    mkClientContext (sa_ip peer) (scheme (is_public_secure state)) fallback_host
  else
    mkClientContext
      (default (sa_ip peer) (header_str headers HEADER_FORWARDED_FOR ≫= first_forwarded_address))
      (default (scheme (is_public_secure state)) (header_str headers HEADER_FORWARDED_PROTO))
      (default fallback_host (header_str headers HEADER_FORWARDED_HOST)).

End forwarded.

End state.

Abbreviation App := (SE RelayState).

(** ** [src/audit.rs] *)

Module action.
Definition LOGIN : string := "login".
Definition LOGIN_FAILED : string := "login-failed".
Definition ENROLL : string := "enroll".
Definition ENROLL_FAILED : string := "enroll-failed".
Definition DEVICE_REVOKED : string := "device-revoked".
Definition DEVICE_DISCONNECTED : string := "device-disconnected".
Definition DEVICE_UPDATED : string := "device-updated".
Definition DEVICE_ACCESS_CHANGED : string := "device-access-changed".
Definition TUNNEL_CONNECTED : string := "tunnel-connected".
Definition TUNNEL_DISCONNECTED : string := "tunnel-disconnected".
Definition TUNNEL_REJECTED : string := "tunnel-rejected".
Definition USER_CREATED : string := "user-created".
Definition USER_UPDATED : string := "user-updated".
Definition USER_DELETED : string := "user-deleted".
Definition ENROLLMENT_CREATED : string := "enrollment-created".
Definition ENROLLMENT_CANCELLED : string := "enrollment-cancelled".
Definition BOOTSTRAP_ADMIN : string := "bootstrap-admin".
Definition UPSTREAM_LINKED : string := "upstream-linked".
Definition UPSTREAM_UNLINKED : string := "upstream-unlinked".
Definition UPSTREAM_CONNECTED : string := "upstream-connected".
Definition UPSTREAM_DISCONNECTED : string := "upstream-disconnected".
Definition UPSTREAM_LOOP_REFUSED : string := "upstream-loop-refused".
Definition UPSTREAM_REVOKED : string := "upstream-revoked".
End action.

Module target.
Definition USER : string := "user".
Definition DEVICE : string := "device".
Definition ENROLLMENT : string := "enrollment".
Definition RELAY : string := "relay".
End target.

Inductive ActorKind : Type :=
| ActorKind_User
| ActorKind_Device
| ActorKind_System.

Definition ActorKind_as_str (kind : ActorKind) : string :=
  match kind with
  | ActorKind_User => "user"
  | ActorKind_Device => "device"
  | ActorKind_System => "system"
  end.

Record AuditEntry : Type := mkAuditEntry {
  ae_actor_kind : ActorKind;
  ae_actor_id : option string;
  ae_action : string;
  ae_target_kind : option string;
  ae_target_id : option string;
  ae_ip : option string;
  ae_detail : gmap string Value;
}.

Definition AuditEntry_new (kind : ActorKind) (action : string) : AuditEntry :=
  mkAuditEntry kind None action None None None ∅.

Definition actor (id : string) (e : AuditEntry) : AuditEntry :=
  mkAuditEntry (ae_actor_kind e) (Some id) (ae_action e) (ae_target_kind e) (ae_target_id e)
    (ae_ip e) (ae_detail e).

Definition on_target (kind id : string) (e : AuditEntry) : AuditEntry :=
  mkAuditEntry (ae_actor_kind e) (ae_actor_id e) (ae_action e) (Some kind) (Some id) (ae_ip e)
    (ae_detail e).

Definition from_ip (ip : string) (e : AuditEntry) : AuditEntry :=
  mkAuditEntry (ae_actor_kind e) (ae_actor_id e) (ae_action e) (ae_target_kind e) (ae_target_id e)
    (Some ip) (ae_detail e).

Definition detail (key : string) (value : Value) (e : AuditEntry) : AuditEntry :=
  mkAuditEntry (ae_actor_kind e) (ae_actor_id e) (ae_action e) (ae_target_kind e) (ae_target_id e)
    (ae_ip e) (<[key := value]> (ae_detail e)).

Definition by_user (user_id action : string) : AuditEntry :=
  actor user_id (AuditEntry_new ActorKind_User action).

Definition by_device (device_id action : string) : AuditEntry :=
  on_target target.DEVICE device_id (actor device_id (AuditEntry_new ActorKind_Device action)).

Definition by_system (action : string) : AuditEntry := AuditEntry_new ActorKind_System action.

Section audit.
Context `{JsonCodec}.

Definition into_record (now : Z) (e : AuditEntry) : AuditRecord :=
  mkAuditRecord 0 now (ActorKind_as_str (ae_actor_kind e)) (ae_actor_id e) (ae_action e)
    (ae_target_kind e) (ae_target_id e) (ae_ip e)
    (if decide (ae_detail e = ∅) then None else Some (json_object_to_string (ae_detail e))).

(** [audit::record]: a failed write goes to the log and no further. *)
Definition audit_record `{Protocol} {E} (entry : AuditEntry) : App E unit :=
  now ← now_millis; se_try (database (write_audit (into_record now entry))) ;; mret tt.

End audit.

(** ** Lemmas: running a component's operation inside the state *)

Section lemmas.
Context `{Protocol}.

Lemma database_run {A} (op : DB A) (s : RelayState) :
  database op s = (fst (op (rs_database s)), put_database (snd (op (rs_database s))) s).
Proof. unfold database, se_zoom. by destruct (op (rs_database s)). Qed.

Lemma database_ok {A} (op : DB A) (s : RelayState) a s' :
  database op s = (Ok a, s') ->
  exists db, op (rs_database s) = (Ok a, db) /\ s' = put_database db s.
Proof.
  rewrite database_run. destruct (op (rs_database s)) as [r db]. simpl. intros [= -> <-]. eauto.
Qed.

Lemma try_database {A F} (op : DB A) (s : RelayState) :
  se_try (F := F) (database op) s
  = (Ok (fst (op (rs_database s))), put_database (snd (op (rs_database s))) s).
Proof. unfold se_try. by rewrite database_run. Qed.

Lemma on_registry_run {E A} (f : Registry -> A * Registry) (s : RelayState) :
  on_registry (E := E) f s = (Ok (fst (f (rs_registry s))), put_registry (snd (f (rs_registry s))) s).
Proof. unfold on_registry, se_state. by destruct (f (rs_registry s)). Qed.

(** Two states that differ in nothing but the database, the lockout table and the environment's
    counters: the routing table, the channels and the upstream link are the same. *)
Definition same_routing (s s' : RelayState) : Prop :=
  rs_registry s' = rs_registry s /\ rs_relay_id s' = rs_relay_id s
  /\ rs_channels s' = rs_channels s /\ rs_upstream s' = rs_upstream s
  /\ rs_addressing s' = rs_addressing s.

#[global] Instance same_routing_preorder : PreOrder same_routing.
Proof. split; [done|]. intros s1 s2 s3 (?&?&?&?&?) (?&?&?&?&?). repeat split; congruence. Qed.

Lemma database_same_routing {A} (op : DB A) : preserves same_routing (database op).
Proof. intros s. by rewrite database_run. Qed.

Lemma now_millis_same_routing {E} : preserves same_routing (now_millis (E := E)).
Proof. by intros s. Qed.

Lemma draw_same_routing {E} : preserves same_routing (draw (E := E)).
Proof. by intros s. Qed.

Lemma credential_same_routing {E} : preserves same_routing (generate_credential (E := E)).
Proof. by intros s. Qed.

Lemma clock_readings_same_routing {E} n : preserves same_routing (clock_readings (E := E) n).
Proof. by intros s. Qed.

Lemma record_failure_same_routing {E} ip : preserves same_routing (lockout_record_failure (E := E) ip).
Proof. by intros s. Qed.

Lemma forget_same_routing {E} ip : preserves same_routing (lockout_forget (E := E) ip).
Proof. by intros s. Qed.

Lemma is_locked_same_routing {E} ip : preserves same_routing (lockout_is_locked (E := E) ip).
Proof. by intros s. Qed.

End lemmas.

#[export] Hint Resolve database_same_routing now_millis_same_routing draw_same_routing
  credential_same_routing clock_readings_same_routing record_failure_same_routing
  forget_same_routing is_locked_same_routing : frame.

Lemma audit_record_same_routing `{Protocol} `{JsonCodec} {E} entry :
  preserves same_routing (audit_record (E := E) entry).
Proof. unfold audit_record. frame. Qed.

#[export] Hint Resolve audit_record_same_routing : frame.

Lemma keeps_registry `{Protocol} {E A} (m : App E A) :
  preserves same_routing m -> preserves (keeps rs_registry) m.
Proof. intros Hm s. apply (Hm s). Qed.

Lemma on_channels_keeps_registry `{Protocol} {E} f :
  preserves (keeps rs_registry) (on_channels (E := E) f).
Proof. by intros s. Qed.

#[export] Hint Resolve on_channels_keeps_registry : frame.

(** ... and the ones that leave every table but the audit trail as it is. *)
Definition stored `{Protocol} (s : RelayState) : Database := tables (rs_database s).

Lemma database_keeps_stored `{Protocol} {A} (op : DB A) :
  preserves (keeps tables) op -> preserves (keeps stored) (database op).
Proof. intros Hop s. rewrite database_run. apply (Hop (rs_database s)). Qed.

#[export] Hint Resolve database_keeps_stored : frame.

(** The steps that only read the environment or write another part. *)
Ltac other_part := let s := fresh in intros s; reflexivity.

#[export] Hint Extern 1 (preserves (keeps stored) now_millis) => other_part : frame.
#[export] Hint Extern 1 (preserves (keeps stored) draw) => other_part : frame.
#[export] Hint Extern 1 (preserves (keeps stored) (lockout_is_locked _)) => other_part : frame.
#[export] Hint Extern 1 (preserves (keeps stored) (lockout_record_failure _)) => other_part : frame.
#[export] Hint Extern 1 (preserves (keeps stored) (lockout_forget _)) => other_part : frame.
#[export] Hint Extern 1 (preserves (keeps stored) (on_channels _)) => other_part : frame.

Lemma audit_record_keeps_stored `{Protocol} `{JsonCodec} {E} entry :
  preserves (keeps stored) (audit_record (E := E) entry).
Proof. unfold audit_record. frame. Qed.

#[export] Hint Resolve audit_record_keeps_stored : frame.

#[export] Hint Extern 3 (preserves (keeps rs_registry) _) =>
  apply keeps_registry; solve [auto 2 with frame] : frame.

(** Recording an event never fails, and touches the audit trail only. *)
Lemma audit_record_run `{Protocol} `{JsonCodec} {E} entry s :
  exists s', audit_record (E := E) entry s = (Ok tt, s')
    /\ same_routing s s' /\ stored s' = stored s /\ rs_lockout s' = rs_lockout s.
Proof.
  pose proof (audit_record_same_routing (E := E) entry s) as Hr.
  pose proof (audit_record_keeps_stored (E := E) entry s) as Hs.
  revert Hr Hs. unfold audit_record. erewrite se_bind_eq by reflexivity.
  erewrite se_bind_eq by apply try_database. intros Hr Hs. by eexists.
Qed.

(** A database that works goes on working. *)
Definition stays_healthy `{Protocol} (s s' : RelayState) : Prop :=
  db_faults (rs_database s) = [] -> db_faults (rs_database s') = [].

#[export] Instance stays_healthy_preorder `{Protocol} : PreOrder stays_healthy.
Proof. split; [by intros s Hf|]. intros s1 s2 s3. unfold stays_healthy. auto. Qed.

Lemma audit_record_healthy `{Protocol} `{JsonCodec} {E} entry :
  preserves stays_healthy (audit_record (E := E) entry).
Proof.
  intros s Hf. unfold audit_record. erewrite se_bind_eq by reflexivity.
  erewrite se_bind_eq by apply try_database. cbn. unfold write_audit.
  rewrite write_healthy by done. exact Hf.
Qed.

#[export] Hint Resolve audit_record_healthy : frame.
