(* ===== verification/Access.v ===== *)
(** * [src/access.rs]: the gate in front of a [relay-login] device

    [guard] answers [None] when a request may go on and the refusal otherwise.  The page every refusal
    is rendered with is [proxy::html_page]. *)

From S2P Require Import Prelude.
From S2P Require Import RustStr.
From S2P Require Import Protocol.
From S2P Require Import Config.
From S2P Require Import Database.
From S2P Require Import Auth.
From S2P Require Import Address.
From S2P Require Import Http.
From S2P Require Import Registry.
From S2P Require Import Upstream.
From S2P Require Import State.

Definition LOGIN_PATH : string := "/console/login".
Definition NEXT_PARAMETER : string := "next".
Definition FORBIDDEN_TITLE : string := "无权访问该设备".
Definition FORBIDDEN_BODY : string :=
  "<p>这台设备只允许它的所有者或中继管理员访问。</p>" +:+ "<p>如果你认为这是配置问题，请联系中继管理员。</p>".

(** [proxy::html_page]'s document. *)
Definition quoted (s : string) : string := String dquote (s +:+ String dquote EmptyString).

Definition html_document (title body : string) : string :=
  "<!doctype html><html lang=" +:+ quoted "zh-CN" +:+ "><head><meta charset=" +:+ quoted "utf-8"
  +:+ "><meta name=" +:+ quoted "viewport" +:+ " content="
  +:+ quoted "width=device-width, initial-scale=1" +:+ "><title>" +:+ title
  +:+ "</title><style>body{margin:0;min-height:100vh;display:grid;"
  +:+ "place-items:center;background:#10151c;color:#e6edf3;font-family:system-ui,"
  +:+ quoted "Segoe UI" +:+ "," +:+ quoted "Microsoft YaHei"
  +:+ ",sans-serif}main{max-width:32rem;padding:2rem;text-align:center;line-height:1.7}"
  +:+ "</style></head><body><main><h1>" +:+ title +:+ "</h1>" +:+ body +:+ "</main></body></html>".

(** RFC 3986's unreserved set. *)
Definition is_unreserved (byte : ascii) : bool :=
  is_ascii_uppercase byte || is_ascii_lowercase byte || is_ascii_digit byte
  || Ascii.eqb byte dash || Ascii.eqb byte dot || Ascii.eqb byte "_" || Ascii.eqb byte "~".

Definition percent_encode (value : string) : string :=
  str_flat_map (fun byte =>
    if is_unreserved byte then String byte EmptyString else String "%" (hex_byte byte)) value.

Definition login_url (base rest : string) (query : option string) : string :=
  LOGIN_PATH +:+ "?" +:+ NEXT_PARAMETER +:+ "="
  +:+ percent_encode (base +:+ rest +:+ query_suffix query).

Section access.
Context `{Protocol} `{Platform} `{HttpCrate}.

Definition html_page (status : Z) (title body : string) : Response :=
  header_response status CONTENT_TYPE "text/html; charset=utf-8" (Body_Text (html_document title body)).

Definition forbidden_page : Response := html_page FORBIDDEN FORBIDDEN_TITLE FORBIDDEN_BODY.

Definition redirect (location : string) : Response :=
  match header_value_from_str location with
  | Some value => header_response FOUND LOCATION value Body_Empty
  | None => forbidden_page
  end.

(** The loop of [signed_in_user] over the candidate tokens. *)
Fixpoint first_signed_in {E} (now : Z) (tokens : list string) : App E (option UserRecord) :=
  match tokens with
  | [] => mret None
  | token :: rest =>
      answer ← se_try (database (resolve_session token now));
      match answer with
      | Ok (Some user) => mret (Some user)
      | Ok None => first_signed_in now rest
      | Err _ => mret None
      end
  end.

(** The [Cookie] fields of a request that are text. *)
Definition cookie_fields (headers : HeaderMap) : list string :=
  omap header_to_str (get_all headers COOKIE).

Definition signed_in_user {E} (headers : HeaderMap) : App E (option UserRecord) :=
  now ← now_millis; first_signed_in now (read_session_cookies (cookie_fields headers)).

Definition guard {E} (headers : HeaderMap) (device : option DeviceRecord) (target : DeviceTarget)
    (query : option string) : App E (option Response) :=
  match device with
  | None => mret None
  | Some device =>
      if negb (requires_console_session (dv_access device)) then mret None
      else if bool_decide (dt_entry target = DeviceEntry_Subdomain) then
        location ← se_get (fun s =>
          path_form_url (rs_addressing s) (dt_device_id target) (dt_rest target) query);
        mret (Some (redirect location))
      else
        user ← signed_in_user headers;
        match user with
        | None => mret (Some (redirect (login_url (base_path target) (dt_rest target) query)))
        | Some user =>
            if is_reachable_by device (us_id user) (is_admin (us_role user)) then mret None
            else mret (Some forbidden_page)
        end
  end.

End access.

(** ** Lemmas: percent-encoding *)

(** The reference inverse: [%XY] is the byte with that value. *)
Definition hex_value (c : ascii) : N :=
  (if is_ascii_digit c then byte_val c - 48 else byte_val c - 55)%N.

Fixpoint percent_decode (s : string) : string :=
  match s with
  | EmptyString => EmptyString
  | String a rest =>
      match rest with
      | String b (String c rest') =>
          if Ascii.eqb a "%"
          then String (ascii_of_N (hex_value b * 16 + hex_value c)) (percent_decode rest')
          else String a (percent_decode rest)
      | _ => String a (percent_decode rest)
      end
  end.

Lemma percent_decode_byte (byte : ascii) (rest : string) :
  percent_decode ((if is_unreserved byte then String byte EmptyString
                   else String "%" (hex_byte byte)) +:+ rest) = String byte (percent_decode rest).
Proof.
  destruct (is_unreserved byte) eqn:E.
  - rewrite append_String, append_nil_l.
    assert (Ascii.eqb byte "%" = false) as Hne by (apply Ascii.eqb_neq; intros ->; done).
    destruct rest as [|b [|c rest]]; cbn [percent_decode]; [done..|]. by rewrite Hne.
  - unfold hex_byte. rewrite !append_String, append_nil_l. cbn [percent_decode].
    change (Ascii.eqb "%" "%") with true. cbv iota. f_equal.
    clear E rest. by destruct byte as [[] [] [] [] [] [] [] []].
Qed.

Lemma percent_decode_encode (s : string) : percent_decode (percent_encode s) = s.
Proof.
  unfold percent_encode. induction s as [|c s IH]; [done|]. cbn [str_flat_map].
  by rewrite percent_decode_byte, IH.
Qed.

Definition is_encoded (c : ascii) : bool := is_unreserved c || Ascii.eqb c "%".

Lemma percent_encode_safe (s : string) : str_all is_encoded (percent_encode s) = true.
Proof.
  unfold percent_encode. induction s as [|c s IH]; [done|]. cbn [str_flat_map].
  rewrite str_all_app, IH, andb_true_r. destruct (is_unreserved c) eqn:E.
  - cbn [str_all]. unfold is_encoded. by rewrite E.
  - clear E. by destruct c as [[] [] [] [] [] [] [] []].
Qed.

Lemma is_encoded_visible (c : ascii) : is_encoded c = true -> is_visible c = true.
Proof. by destruct c as [[] [] [] [] [] [] [] []]. Qed.

(** ** Properties *)

Section theorems.
Context `{!Protocol} `{!Platform} `{!HttpCrate} `{!HttpLaws _}.

Lemma first_signed_in_sound {E} now tokens (s s' : RelayState) user :
  first_signed_in (E := E) now tokens s = (Ok (Some user), s') ->
  exists token sess, token ∈ tokens /\ live_session (rs_database s) token now sess user.
Proof.
  revert s. induction tokens as [|token rest IH]; intros s; [done|]. cbn [first_signed_in].
  intros (answer & s1 & Htry & Hrun)%se_bind_ok. rewrite try_database in Htry.
  destruct (resolve_session token now (rs_database s)) as [r db] eqn:E1. simpl in Htry.
  injection Htry as <- <-. destruct r as [[u|]|e]; simpl in Hrun.
  - injection Hrun as <- <-. apply resolve_session_some in E1 as (sess & Hlive & _).
    exists token, sess. split; [left|done].
  - apply IH in Hrun as (token' & sess & Hin & (Hs & Hlt & (row & Hrow & Hread) & Hd)).
    apply resolve_session_none in E1 as [Hsub Husers]. simpl in *. exists token', sess.
    split; [by right|]. split_and!; [|done| |done].
    + eapply lookup_weaken; [exact Hs|exact Hsub].
    + exists row. by rewrite <- Husers.
  - done.
Qed.

(** [guard] reads the database and the clock and leaves the routing alone. *)
Lemma first_signed_in_frame {E} now tokens :
  preserves same_routing (first_signed_in (E := E) now tokens).
Proof. induction tokens as [|token rest IH]; cbn [first_signed_in]; frame. Qed.

Lemma guard_frame {E} headers device target query :
  preserves same_routing (guard (E := E) headers device target query).
Proof. pose proof @first_signed_in_frame. unfold guard, signed_in_user. frame. Qed.

Lemma guard_sound (E : Type) (headers : HeaderMap) (device : DeviceRecord)
    (target : DeviceTarget) (query : option string) (s s' : RelayState) :
  guard (E := E) headers (Some device) target query s = (Ok None, s') ->
  dv_access device = DeviceAccess_RelayLogin ->
  dt_entry target = DeviceEntry_Path
  /\ exists token sess user,
       token ∈ read_session_cookies (cookie_fields headers)
       /\ live_session (rs_database s) token (rs_clock s (rs_reads s)) sess user
       /\ (us_role user = UserRole_Admin \/ dv_owner_user_id device = Some (us_id user)).
Proof.
  intros Hg Ha. unfold guard in Hg. rewrite Ha in Hg. simpl in Hg. case_bool_decide as Hentry.
  { by apply se_bind_ok in Hg as (? & ? & _ & ?). }
  split; [by destruct (dt_entry target)|].
  apply se_bind_ok in Hg as (user & s1 & Hu & Hg). destruct user as [user|]; [|done].
  destruct (is_reachable_by _ _ _) eqn:Hr; [|done].
  unfold signed_in_user in Hu. apply se_bind_ok in Hu as (now & s2 & Hn & Hu).
  injection Hn as <- <-. apply first_signed_in_sound in Hu as (token & sess & Hin & Hlive).
  exists token, sess, user. split; [done|]. split; [done|].
  unfold is_reachable_by in Hr. apply orb_true_iff in Hr as [Hr|Hr].
  - left. by destruct (us_role user).
  - right. by apply bool_decide_eq_true in Hr.
Qed.

(** C20: a [relay-login] device is only ever let through for its owner or an administrator.  Whatever
    the request carries and however the database behaves, [guard] lets it go on only on the path form
    and only when one of its cookies is the token of a live session of an account in good standing
    that owns the device or administers the relay. *)
Theorem access_gate_sound (E : Type) (headers : HeaderMap) (device : DeviceRecord)
    (target : DeviceTarget) (query : option string) (s s' : RelayState) :
  guard (E := E) headers (Some device) target query s = (Ok None, s') ->
  dv_access device = DeviceAccess_RelayLogin ->
  dt_entry target = DeviceEntry_Path
  /\ exists token sess user,
       token ∈ read_session_cookies (cookie_fields headers)
       /\ live_session (rs_database s) token (rs_clock s (rs_reads s)) sess user
       /\ (us_role user = UserRole_Admin \/ dv_owner_user_id device = Some (us_id user)).
Proof. apply guard_sound. Qed.

(** The redirect to the login page carries the request and nothing else.  Whatever bytes the path
    and the query hold, the [Location] header is always accepted, it is the login path with one
    parameter made only of unreserved characters and percent signs, and decoding that parameter gives
    back exactly the address that was asked for. *)
Theorem login_redirect_exact (base rest : string) (query : option string) :
  exists next,
    redirect (login_url base rest query)
    = header_response FOUND LOCATION ("/console/login?next=" +:+ next) Body_Empty
    /\ str_all is_encoded next = true
    /\ percent_decode next = base +:+ rest +:+ query_suffix query.
Proof.
  exists (percent_encode (base +:+ rest +:+ query_suffix query)).
  split; [|split; [apply percent_encode_safe|apply percent_decode_encode]].
  unfold redirect. change (login_url base rest query)
    with ("/console/login?next=" +:+ percent_encode (base +:+ rest +:+ query_suffix query)).
  rewrite value_from_visible; [done|]. rewrite str_all_app. simpl.
  eapply str_all_impl; [apply is_encoded_visible|apply percent_encode_safe].
Qed.

End theorems.

(** ** Witness *)

Definition sample_device : DeviceRecord :=
  mkDeviceRecord "dev1" DeviceKind_Desktop "desk" (Some "u1") "#s" None 1 None None None None
    DeviceAccess_RelayLogin.

Definition sample_state (db : Database) : RelayState :=
  mkRelayState db (Registry.new "relay-a") UpstreamLink_new FailureThrottle_default "relay-a"
    (mkDeviceAddressing (mkPublicUrl "https://relay.example.com" "relay.example.com" true) None)
    [] true ∅ (fun n => 5000000 + Z.of_nat n)%Z 0 (fun _ _ => Ok "token") 0
    (fun _ => Ok (mkDeviceCredential "dev9" "secret")).

Lemma access_gate_witness :
  fst (guard (E := unit) [("cookie", "a=b; termexo_relay_session=t")] (Some sample_device)
         (mkDeviceTarget "dev1" "" DeviceEntry_Path) None (sample_state sample_session_database))
  = Ok None
  /\ exists token sess user,
       token ∈ read_session_cookies (cookie_fields [("cookie", "a=b; termexo_relay_session=t")])
       /\ live_session (sample_session_database) token 5000000 sess user.
Proof.
  split; [evaluate|].
  edestruct (@access_gate_sound sample_protocol sample_http unit [("cookie", "a=b; termexo_relay_session=t")] sample_device
    (mkDeviceTarget "dev1" "" DeviceEntry_Path) None (sample_state sample_session_database))
    as [_ (token & sess & user & Hin & Hlive & _)];
    [apply run_answer; evaluate|reflexivity|].
  exists token, sess, user. split; [exact Hin|exact Hlive].
Defined.

Lemma login_redirect_witness :
  exists next,
    redirect (login_url "/d/dev1/" "a b" (Some "x=1"))
    = header_response FOUND LOCATION ("/console/login?next=" +:+ next) Body_Empty
    /\ percent_decode next = "/d/dev1/a b?x=1".
Proof.
  destruct (@login_redirect_exact sample_http _ "/d/dev1/" "a b" (Some "x=1")) as (next & Hr & _ & Hd).
  exists next. split; [exact Hr|exact Hd].
Defined.
