(* ===== verification/Proxy.v ===== *)
(** * [src/proxy.rs]: the public reverse proxy

    A browser request becomes one HTTP/1.1 exchange inside a tunnel: the access gate, the URI and the
    headers the device sees, the stream the exchange runs on, the response the browser gets.  What the
    network and the device do is the environment [Network]. *)

From S2P Require Import Prelude.
From S2P Require Import RustStr.
From S2P Require Import Protocol.
From S2P Require Import Handle.
From S2P Require Import Registry.
From S2P Require Import Config.
From S2P Require Import Database.
From S2P Require Import Auth.
From S2P Require Import Address.
From S2P Require Import Http.
From S2P Require Import Upstream.
From S2P Require Import State.
From S2P Require Import Access.

(** ** Constants *)

Definition TUNNEL_AUTHORITY_SUFFIX : string := ".termexo-tunnel".
Definition FORWARD_FAILED : string := "设备连接失败。".
Definition MAX_REQUEST_BODY_BYTES : Z := 1024 * 1024.
Definition HOP_BY_HOP_HEADERS : list string :=
  ["connection"; "keep-alive"; "proxy-authenticate"; "proxy-authorization"; "te"; "trailer";
   "transfer-encoding"; "upgrade"].
Definition TUNNEL_HTTP_VERSION : Version := Version_HTTP_11.
Definition WEBSOCKET_UPGRADE : string := "websocket".

(** ** Device paths *)

Inductive DevicePath : Type :=
| DevicePath_NeedsSlash (device_id : string)
| DevicePath_Resource (device_id rest : string).

Definition parse_device_path `{Protocol} (path : string) : option DevicePath :=
  remainder ← strip_prefix DEVICE_PATH_PREFIX path;
  match split_once slash remainder with
  | Some (device_id, rest) =>
      if negb (is_empty device_id) then Some (DevicePath_Resource device_id rest) else None
  | None => if is_empty remainder then None else Some (DevicePath_NeedsSlash remainder)
  end.

(** ** Cookies *)

Definition cookie_name (entry : string) : option string :=
  first ← head (split semicolon entry);
  '(name, _) ← split_once equals first;
  Some (trim name).

Definition without_cookie (header name : string) : string :=
  str_join "; "
    (List.filter (fun entry => negb (is_empty entry) && negb (bool_decide (cookie_name entry = Some name)))
       (trim <$> split semicolon header)).

(** ** Text of the pages *)

Definition replace_char (c : ascii) (by_text : string) (s : string) : string :=
  str_flat_map (fun b => if Ascii.eqb b c then by_text else String b EmptyString) s.

Definition escape_html (value : string) : string :=
  replace_char dquote "&quot;"
    (replace_char ">" "&gt;" (replace_char "<" "&lt;" (replace_char "&" "&amp;" value))).

Definition MINUTE : Z := 60 * 1000.
Definition HOUR : Z := 60 * MINUTE.
Definition DAY : Z := 24 * HOUR.

Definition describe_last_seen (last_seen_at : option Z) (now : Z) : string :=
  match last_seen_at with
  | None => "从未接入"
  | Some last_seen_at =>
      let elapsed := Z.max (now - last_seen_at) 0 in
      if (elapsed <? MINUTE)%Z then "刚刚"
      else if (elapsed <? HOUR)%Z then pretty (elapsed / MINUTE)%Z +:+ " 分钟前"
      else if (elapsed <? DAY)%Z then pretty (elapsed / HOUR)%Z +:+ " 小时前"
      else pretty (elapsed / DAY)%Z +:+ " 天前"
  end.

Section proxy.
Context `{Protocol} `{Platform} `{HttpCrate}.

(** ** Headers *)

Definition set_header (name value : string) (headers : HeaderMap) : HeaderMap :=
  match header_value_from_str value with
  | Some value => header_insert name value headers
  | None => header_remove name headers
  end.

Definition take_console_session (headers : HeaderMap) : HeaderMap :=
  match header_str headers COOKIE with
  | None => headers
  | Some value =>
      let remaining := without_cookie value SESSION_COOKIE_NAME in
      if is_empty remaining then header_remove COOKIE headers else set_header COOKIE remaining headers
  end.

Definition refuse_console_session_cookies (headers : HeaderMap) : HeaderMap :=
  let kept :=
    List.filter (fun value =>
      match header_to_str value with
      | Some value => negb (bool_decide (cookie_name value = Some SESSION_COOKIE_NAME))
      | None => false
      end) (get_all headers SET_COOKIE) in
  fold_left (fun h value => header_append SET_COOKIE value h) kept (header_remove SET_COOKIE headers).

(** The names the first [Connection] field lists. *)
Definition listed_headers (headers : HeaderMap) : list string :=
  match header_str headers CONNECTION with
  | Some value => omap (fun name => header_name_try_from (trim name)) (split comma value)
  | None => []
  end.

Definition strip_hop_by_hop (keep_upgrade : bool) (headers : HeaderMap) : HeaderMap :=
  let listed := listed_headers headers in
  fold_left (fun h name =>
    if keep_upgrade && (String.eqb name CONNECTION || String.eqb name UPGRADE) then h
    else header_remove name h)
    (omap header_name_try_from HOP_BY_HOP_HEADERS ++ listed) headers.

Definition is_websocket_upgrade (headers : HeaderMap) : bool :=
  match header_str headers UPGRADE with
  | Some value => eq_ignore_ascii_case value WEBSOCKET_UPGRADE
  | None => false
  end.

Definition prepare_request_headers (client : ClientContext) (base : string) (websocket : bool)
    (headers : HeaderMap) : HeaderMap :=
  set_header HEADER_TERMEXO_BASE base
    (set_header HEADER_FORWARDED_HOST (cc_host client)
       (set_header HEADER_FORWARDED_PROTO (cc_proto client)
          (set_header HEADER_FORWARDED_FOR (cc_ip client)
             (take_console_session
                (header_remove HOST (strip_hop_by_hop websocket headers)))))).

Definition relay_response (response : Response) : Response :=
  let upgrading := (rsp_status response =? SWITCHING_PROTOCOLS)%Z in
  mkResponse (rsp_status response)
    (refuse_console_session_cookies (strip_hop_by_hop upgrading (rsp_headers response)))
    (rsp_body response).

(** ** Addresses inside a tunnel *)

Definition tunnel_uri (device_id rest : string) (query : option string) : option Uri :=
  uri_build (device_id +:+ TUNNEL_AUTHORITY_SUFFIX) (String slash rest +:+ query_suffix query).

Definition authority_device_id (uri : Uri) : option string :=
  host ← uri_host uri; strip_suffix TUNNEL_AUTHORITY_SUFFIX host.

Definition stream_preface (route : Route) (device_id relay_id : string) : StreamPreface :=
  match route with
  | Route_Direct _ => StreamPreface_new device_id
  | Route_Via _ _ => StreamPreface_with_hop (StreamPreface_new device_id) relay_id
  end.

(** ** Pages *)

Definition unknown_device_page : Response :=
  html_page NOT_FOUND "设备不存在" "<p>这个地址没有对应的设备。请确认链接是否完整。</p>".

Definition offline_page {E} (name : string) (last_seen_at : option Z) : App E Response :=
  now ← now_millis;
  mret (html_page SERVICE_UNAVAILABLE "设备离线"
          ("<p><strong>" +:+ escape_html name +:+ "</strong> 当前没有连接到中继。</p><p>最近在线："
           +:+ describe_last_seen last_seen_at now
           +:+ "</p><p>请确认这台电脑已开机，并且 Termexo 的中继接入处于开启状态。</p>")).

Definition internal_error : Response := text_response INTERNAL_SERVER_ERROR "中继内部错误。".

Definition bad_gateway : Response := text_response BAD_GATEWAY FORWARD_FAILED.

Definition redirect_to_directory (device_id : string) : Response :=
  match header_value_from_str (DEVICE_PATH_PREFIX +:+ device_id +:+ String slash EmptyString) with
  | Some value => header_response FOUND LOCATION value Body_Empty
  | None => unknown_device_page
  end.

Definition unreachable_page {E} (device_id : string) (record : option DeviceRecord)
    : App E Response :=
  match record with
  | Some record => offline_page (dv_name record) (dv_last_seen_at record)
  | None =>
      known ← se_get (fun s => last_known (rs_registry s) device_id);
      match known with
      | Some known => offline_page (kd_name known) (Some (kd_last_seen_at known))
      | None => mret unknown_device_page
      end
  end.

(** ** Forwarding *)

(** A browser's request.  [rq_authority] is the authority of its URI: an HTTP/2 client names the host there
    ([:authority]) and sends no [Host] field. *)
Record Request : Type := mkRequest {
  rq_method : Method;
  rq_authority : option string;
  rq_path : string;
  rq_query : option string;
  rq_version : Version;
  rq_headers : HeaderMap;
  rq_body : string;
}.

(** [Body::empty()], or [Limited::new(body, limit)]. *)
Inductive ProxyBody : Type :=
| ProxyBody_Empty
| ProxyBody_Limited (limit : Z) (body : string).

(** What leaves for the device: the stream's address and the request on it. *)
Record Outbound : Type := mkOutbound {
  ob_method : Method;
  ob_uri : Uri;
  ob_version : Version;
  ob_headers : HeaderMap;
  ob_body : ProxyBody;
}.

(** What the network and the device do. *)
Record Network : Type := mkNetwork {
  (* opening a stream on a link and writing its preface *)
  net_open : TunnelHandle -> StreamPreface -> result TunnelError unit;
  (* a connection hyper's pool still holds for this authority *)
  net_pooled : Uri -> option TunnelHandle;
  (* the HTTP/1.1 handshake on a fresh stream of the WebSocket path *)
  net_handshake : TunnelHandle -> bool;
  (* the device's answer: its status and headers, or a failed exchange *)
  net_exchange : TunnelHandle -> Outbound -> option (Z * HeaderMap);
}.

(** [TunnelConnector::call]. *)
Definition connector_call (net : Network) (s : RelayState) (uri : Uri)
    : result TunnelError TunnelHandle :=
  device_id ← ok_or TunnelError_InvalidTarget (authority_device_id uri);
  r ← ok_or TunnelError_Offline (route (rs_registry s) device_id);
  net_open net (link r) (stream_preface r device_id (rs_relay_id s)) ≫= fun _ => Ok (link r).

(** The answer of a handler and the exchange it started inside a tunnel, if it did. *)
Definition Crossing : Type := option (TunnelHandle * Outbound).

(** The browser's body goes no further: [parts] has an empty one. *)
Definition bridge_websocket {E} (net : Network) (parts : Outbound) : App E (Response * Crossing) :=
  let device_id := default EmptyString (authority_device_id (ob_uri parts)) in
  stream ← se_get (fun s => connector_call net s (ob_uri parts));
  match stream with
  | Err _ => page ← offline_page device_id None; mret (page, None)
  | Ok l =>
      if negb (net_handshake net l) then mret (bad_gateway, None)
      else
        match net_exchange net l parts with
        | None => mret (bad_gateway, Some (l, parts))
        | Some (status, headers) =>
            if (status =? SWITCHING_PROTOCOLS)%Z
            then mret (relay_response (mkResponse status headers Body_Empty), Some (l, parts))
            else mret (relay_response (mkResponse status headers Body_Relayed), Some (l, parts))
        end
  end.

(** The pooled client: a connection it still holds for the authority, or a new stream. *)
Definition client_request (net : Network) (s : RelayState) (outbound : Outbound)
    : result TunnelError TunnelHandle :=
  match net_pooled net (ob_uri outbound) with
  | Some l => Ok l
  | None => connector_call net s (ob_uri outbound)
  end.

Definition forward {E} (net : Network) (client : ClientContext) (target : DeviceTarget)
    (request : Request) : App E (Response * Crossing) :=
  let device_id := dt_device_id target in
  found ← se_try (database (find_device device_id));
  match found with
  | Err _ => mret (internal_error, None)
  | Ok device =>
      refusal ← guard (rq_headers request) device target (rq_query request);
      match refusal with
      | Some refusal => mret (refusal, None)
      | None =>
          online ← se_get (fun s => is_online (rs_registry s) device_id);
          if negb online then page ← unreachable_page device_id device; mret (page, None)
          else
            match tunnel_uri device_id (dt_rest target) (rq_query request) with
            | None => mret (text_response BAD_REQUEST "请求路径无效。", None)
            | Some uri =>
                let websocket := is_websocket_upgrade (rq_headers request) in
                let outbound :=
                  mkOutbound (rq_method request) uri TUNNEL_HTTP_VERSION
                    (prepare_request_headers client (base_path target) websocket
                       (rq_headers request)) in
                if websocket then bridge_websocket net (outbound ProxyBody_Empty)
                else
                  let outbound := outbound (ProxyBody_Limited MAX_REQUEST_BODY_BYTES (rq_body request)) in
                  stream ← se_get (fun s => client_request net s outbound);
                  match stream with
                  | Err _ => page ← unreachable_page device_id device; mret (page, None)
                  | Ok l =>
                      match net_exchange net l outbound with
                      | Some (status, headers) =>
                          mret (relay_response (mkResponse status headers Body_Relayed),
                                Some (l, outbound))
                      | None => mret (bad_gateway, Some (l, outbound))
                      end
                  end
            end
      end
  end.

End proxy.

(** ** Lemmas: cookies *)

(** The non-empty entries of one [Cookie] field. *)
Definition cookie_entries (field : string) : list string :=
  List.filter (fun entry => negb (is_empty entry)) (trim <$> split semicolon field).

Definition is_console_entry (entry : string) : bool :=
  bool_decide (cookie_name entry = Some SESSION_COOKIE_NAME).

Lemma elem_of_pieces (field entry : string) :
  entry ∈ trim <$> split semicolon field -> trim entry = entry /\ contains_char entry semicolon = false.
Proof.
  intros (piece & -> & Hin)%list_elem_of_fmap. split; [apply trim_idemp|].
  apply trim_contains. by eapply split_no_char.
Qed.

Lemma cookie_entries_join (l : list string) :
  (forall e, e ∈ l -> trim e = e /\ contains_char e semicolon = false /\ is_empty e = false) ->
  cookie_entries (str_join "; " l) = l.
Proof.
  intros Hl. unfold cookie_entries. change "; " with (String semicolon (String " " EmptyString)).
  rewrite split_str_join; [|intros e He; by apply Hl|done]. destruct l as [|e l]; [done|].
  assert (trim <$> (e :: l) = e :: l) as ->.
  { apply list_eq. intros i. rewrite list_lookup_fmap. destruct ((e :: l) !! i) as [x|] eqn:E; [|done].
    simpl. f_equal. apply Hl. by eapply list_elem_of_lookup_2. }
  apply filter_all. intros x Hx. destruct (Hl x Hx) as (_ & _ & He). by rewrite He.
Qed.

(** Taking one cookie out leaves every other entry, in order. *)
Lemma cookie_entries_without (field name : string) :
  cookie_entries (without_cookie field name)
  = List.filter (fun entry => negb (bool_decide (cookie_name entry = Some name))) (cookie_entries field).
Proof.
  unfold without_cookie. rewrite cookie_entries_join.
  - unfold cookie_entries. by rewrite filter_filter.
  - intros e [Hin Hf]%elem_of_filter_b. apply andb_true_iff in Hf as [He _].
    apply elem_of_pieces in Hin as [Ht Hc]. split_and!; [done..|]. by apply negb_true_iff.
Qed.

Lemma session_cookie_value_trim (entry : string) :
  session_cookie_value (trim entry) = session_cookie_value entry.
Proof. unfold session_cookie_value. by rewrite trim_idemp. Qed.

Lemma session_cookie_value_console (entry token : string) :
  trim entry = entry -> contains_char entry semicolon = false ->
  session_cookie_value entry = Some token -> is_console_entry entry = true.
Proof.
  intros Ht Hc. unfold session_cookie_value, is_console_entry, cookie_name. rewrite Ht, split_single by done.
  simpl. destruct (split_once equals entry) as [[name value]|]; [|done]. simpl.
  destruct (String.eqb_spec name SESSION_COOKIE_NAME) as [->|]; [|done]. done.
Qed.

Lemma read_session_cookies_entries (field : string) :
  read_session_cookies [field] = omap session_cookie_value (cookie_entries field).
Proof.
  unfold read_session_cookies, cookie_entries. simpl. rewrite app_nil_r.
  induction (split semicolon field) as [|piece pieces IH]; [done|].
  rewrite fmap_cons. cbn [omap list_omap List.filter]. rewrite <- (session_cookie_value_trim piece).
  destruct (is_empty (trim piece)) eqn:He; simpl.
  - destruct (trim piece); [|done]. simpl. exact IH.
  - destruct (session_cookie_value (trim piece)); [f_equal|]; exact IH.
Qed.

Lemma omap_none {A B} (f : A -> option B) (l : list A) :
  (forall x, x ∈ l -> f x = None) -> omap f l = [].
Proof.
  induction l as [|x l IH]; intros Hl; [done|]. simpl. rewrite (Hl x) by left.
  apply IH. intros. apply Hl. by right.
Qed.

(** No console token is left in a field the console's cookie was taken out of. *)
Lemma without_cookie_no_token (field : string) :
  read_session_cookies [without_cookie field SESSION_COOKIE_NAME] = [].
Proof.
  rewrite read_session_cookies_entries, cookie_entries_without. apply omap_none.
  intros e [Hin Hf]%elem_of_filter_b. unfold cookie_entries in Hin.
  apply elem_of_filter_b in Hin as [Hin _]. apply elem_of_pieces in Hin as [Ht Hc].
  destruct (session_cookie_value e) as [token|] eqn:E; [|done].
  apply session_cookie_value_console in E; [|done..]. unfold is_console_entry in E.
  rewrite E in Hf. done.
Qed.

Lemma without_cookie_visible (field name : string) :
  str_all is_visible field = true -> str_all is_visible (without_cookie field name) = true.
Proof.
  intros Hf. apply str_all_str_join; [done|]. intros e [Hin _]%elem_of_filter_b.
  apply list_elem_of_fmap in Hin as (piece & -> & Hin). apply str_all_trim. by eapply str_all_split.
Qed.

Lemma cookie_entries_empty (field : string) : is_empty field = true -> cookie_entries field = [].
Proof. by destruct field. Qed.

(** ** Lemmas: header maps *)

Section header_lemmas.
Context `{!Protocol} `{!ProtocolLaws _} `{!HttpCrate} `{!HttpLaws _}.

(** The field [set_header] leaves: one, when the text can be a header value at all. *)
Definition header_field (value : string) : list string :=
  if header_value_from_str value then [value] else [].

Lemma get_all_set_header_eq name value h : get_all (set_header name value h) name = header_field value.
Proof.
  unfold set_header, header_field. destruct (header_value_from_str value) as [v|] eqn:E.
  - apply value_from_str_same in E as ->. apply get_all_insert_eq.
  - apply get_all_remove_eq.
Qed.

Lemma get_all_set_header_ne name name' value h :
  name <> name' -> get_all (set_header name value h) name' = get_all h name'.
Proof.
  intros Hne. unfold set_header. destruct (header_value_from_str value);
    [by apply get_all_insert_ne | by apply get_all_remove_ne].
Qed.

Lemma get_all_fold_remove (keep : string -> bool) (names : list string) h n :
  get_all (fold_left (fun h name => if keep name then h else header_remove name h) names h) n
  = if bool_decide (n ∈ names) && negb (keep n) then [] else get_all h n.
Proof.
  revert h. induction names as [|name names IH]; intros h; [done|]. cbn [fold_left]. rewrite IH.
  destruct (decide (n = name)) as [->|Hne].
  - rewrite (bool_decide_eq_true_2 (name ∈ name :: names)) by left.
    destruct (keep name) eqn:Hk; simpl; [by rewrite andb_false_r|].
    rewrite get_all_remove_eq. by destruct (bool_decide (name ∈ names)).
  - assert (bool_decide (n ∈ name :: names) = bool_decide (n ∈ names)) as ->
      by (apply bool_decide_ext; rewrite elem_of_cons; naive_solver).
    destruct (bool_decide (n ∈ names) && negb (keep n)); [done|].
    destruct (keep name); [done|]. by apply get_all_remove_ne.
Qed.

Lemma hop_by_hop_names : omap header_name_try_from HOP_BY_HOP_HEADERS = HOP_BY_HOP_HEADERS.
Proof. unfold HOP_BY_HOP_HEADERS. simpl. by rewrite !name_try_from_simple by reflexivity. Qed.

(** The headers [strip_hop_by_hop] takes off a message. *)
Definition is_stripped (keep_upgrade : bool) (h : HeaderMap) (n : string) : bool :=
  bool_decide (n ∈ HOP_BY_HOP_HEADERS ++ listed_headers h)
  && negb (keep_upgrade && (String.eqb n CONNECTION || String.eqb n UPGRADE)).

Lemma not_stripped keep_upgrade h n :
  n ∉ HOP_BY_HOP_HEADERS -> n ∉ listed_headers h -> is_stripped keep_upgrade h n = false.
Proof.
  intros Hh Hl. unfold is_stripped. apply andb_false_iff. left. apply bool_decide_eq_false.
  rewrite elem_of_app. tauto.
Qed.

Lemma cookie_headers_pass : COOKIE ∉ HOP_BY_HOP_HEADERS /\ SET_COOKIE ∉ HOP_BY_HOP_HEADERS.
Proof. split; by apply (bool_decide_unpack _). Qed.

Lemma get_all_strip keep_upgrade h n :
  get_all (strip_hop_by_hop keep_upgrade h) n
  = if is_stripped keep_upgrade h n then [] else get_all h n.
Proof.
  unfold strip_hop_by_hop. rewrite hop_by_hop_names.
  by rewrite (get_all_fold_remove (fun n => keep_upgrade && (String.eqb n CONNECTION || String.eqb n UPGRADE))).
Qed.

Lemma header_str_spec h n v rest :
  get_all h n = v :: rest -> header_str h n = if str_all is_visible v then Some v else None.
Proof. intros Hg. unfold header_str, header_get. rewrite Hg. simpl. apply to_str_spec. Qed.

Lemma get_all_take_other h n : n <> COOKIE -> get_all (take_console_session h) n = get_all h n.
Proof.
  intros Hne. unfold take_console_session. destruct (header_str h COOKIE); [|done].
  destruct (is_empty _); [by apply get_all_remove_ne | by apply get_all_set_header_ne].
Qed.

(** What [take_console_session] does to the [Cookie] fields. *)
Lemma get_all_take_cookie h :
  get_all (take_console_session h) COOKIE
  = match get_all h COOKIE with
    | [] => []
    | v :: rest =>
        if str_all is_visible v then
          if is_empty (without_cookie v SESSION_COOKIE_NAME) then []
          else [without_cookie v SESSION_COOKIE_NAME]
        else v :: rest
    end.
Proof.
  unfold take_console_session. destruct (get_all h COOKIE) as [|v rest] eqn:Hg.
  - unfold header_str, header_get. by rewrite Hg.
  - rewrite (header_str_spec h COOKIE v rest Hg). destruct (str_all is_visible v) eqn:Hv; [|done].
    destruct (is_empty (without_cookie v SESSION_COOKIE_NAME)); [apply get_all_remove_eq|].
    rewrite get_all_set_header_eq. unfold header_field.
    by rewrite value_from_visible by by apply without_cookie_visible.
Qed.

(** Every header of the prepared request, by name. *)
Lemma get_all_prepared client base websocket h n :
  let h' := prepare_request_headers client base websocket h in
  get_all h' "x-forwarded-for" = header_field (cc_ip client)
  /\ get_all h' "x-forwarded-proto" = header_field (cc_proto client)
  /\ get_all h' "x-forwarded-host" = header_field (cc_host client)
  /\ get_all h' "x-termexo-base" = header_field base
  /\ get_all h' HOST = []
  /\ (n ∉ ["x-forwarded-for"; "x-forwarded-proto"; "x-forwarded-host"; "x-termexo-base"; HOST] ->
      get_all h' n
      = get_all (take_console_session (header_remove HOST (strip_hop_by_hop websocket h))) n).
Proof.
  destruct forwarding_header_names as (Hf & Hp & Hh & Hb). cbv zeta. unfold prepare_request_headers.
  rewrite Hf, Hp, Hh, Hb. split_and!.
  - rewrite !(get_all_set_header_ne _ "x-forwarded-for") by done. apply get_all_set_header_eq.
  - rewrite !(get_all_set_header_ne _ "x-forwarded-proto") by done. apply get_all_set_header_eq.
  - rewrite !(get_all_set_header_ne _ "x-forwarded-host") by done. apply get_all_set_header_eq.
  - apply get_all_set_header_eq.
  - rewrite !get_all_set_header_ne by done. rewrite get_all_take_other by done. apply get_all_remove_eq.
  - rewrite !not_elem_of_cons. intros (? & ? & ? & ? & ? & _).
    by rewrite !get_all_set_header_ne by done.
Qed.

Lemma get_all_prepared_cookie client base websocket h :
  get_all (prepare_request_headers client base websocket h) COOKIE
  = get_all (take_console_session (header_remove HOST (strip_hop_by_hop websocket h))) COOKIE.
Proof.
  destruct (get_all_prepared client base websocket h COOKIE) as (_ & _ & _ & _ & _ & Hc).
  apply Hc. rewrite !not_elem_of_cons. split_and!; try done. apply not_elem_of_nil.
Qed.

End header_lemmas.

(** ** Lemmas: device paths *)

Lemma path_base_append `{!Protocol} (d rest : string) :
  DEVICE_PATH_PREFIX +:+ d +:+ String slash rest = path_base d +:+ rest.
Proof. unfold path_base. by rewrite !append_assoc. Qed.

Lemma device_path_resource `{!Protocol} (path d rest : string) :
  parse_device_path path = Some (DevicePath_Resource d rest) ->
  path = path_base d +:+ rest /\ is_empty d = false /\ contains_char d slash = false.
Proof.
  unfold parse_device_path.
  destruct (strip_prefix _ path) as [r|] eqn:Ep; [|done]. simpl. apply strip_prefix_Some in Ep as ->.
  destruct (split_once slash r) as [[d' rest']|] eqn:Es; [|by destruct (is_empty r)].
  destruct (is_empty d') eqn:He; [done|]. simpl. intros [= <- <-].
  apply split_once_Some in Es as [-> Hc]. by rewrite path_base_append.
Qed.

(** ** Properties *)

Section theorems.
Context `{!Protocol} `{!ProtocolLaws _} `{!Platform} `{!HttpCrate} `{!HttpLaws _}.

(** Splitting a path is exactly the inverse of building one.  A path is a resource of device [d]
    if and only if it is [d]'s base followed by the rest; it needs the slash if and only if it is the
    base without its last slash; and no other path is a device path. *)
Theorem device_path_inverse (path d rest : string) :
  (parse_device_path path = Some (DevicePath_Resource d rest)
   <-> path = path_base d +:+ rest /\ is_empty d = false /\ contains_char d slash = false)
  /\ (parse_device_path path = Some (DevicePath_NeedsSlash d)
      <-> path +:+ "/" = path_base d /\ is_empty d = false /\ contains_char d slash = false).
Proof.
  split; split; [apply device_path_resource|..]; unfold parse_device_path.
  - rewrite <- path_base_append. intros (-> & He & Hc). rewrite strip_prefix_app. simpl.
    rewrite (proj2 (split_once_Some slash (d +:+ String slash rest) d rest)) by done. by rewrite He.
  - destruct (strip_prefix _ path) as [r|] eqn:Ep; [|done]. simpl. apply strip_prefix_Some in Ep as ->.
    destruct (split_once slash r) as [[d' rest']|] eqn:Es; [by destruct (is_empty d')|].
    destruct (is_empty r) eqn:He; [done|]. intros [= <-]. apply split_once_None in Es.
    unfold path_base. by rewrite !append_assoc.
  - unfold path_base. intros (Hp & He & Hc). assert (path = DEVICE_PATH_PREFIX +:+ d) as ->.
    { apply (append_inj_r _ _ "/"). by rewrite Hp, !append_assoc. }
    rewrite strip_prefix_app. simpl. rewrite (proj2 (split_once_None slash d)) by done. by rewrite He.
Qed.

(** C21: the console's session cookie stays on this side of a tunnel - when the request carries its
    cookies in one readable field.  Nothing the device is sent resolves to a session, and every other
    cookie reaches it unchanged and in order. *)
Theorem console_session_stays (client : ClientContext) (base value : string) (websocket : bool)
    (headers : HeaderMap) :
  get_all headers COOKIE = [value] -> str_all is_visible value = true ->
  let sent := cookie_fields (prepare_request_headers client base websocket headers) in
  read_session_cookies sent = []
  /\ (COOKIE ∉ listed_headers headers ->
      flat_map cookie_entries sent
      = List.filter (fun entry => negb (is_console_entry entry)) (cookie_entries value)).
Proof.
  intros Hg Hv. cbv zeta. unfold cookie_fields.
  rewrite get_all_prepared_cookie, get_all_take_cookie, get_all_remove_ne, get_all_strip, Hg by done.
  destruct (is_stripped websocket headers COOKIE) eqn:Hs.
  { split; [done|]. intros Hl. rewrite not_stripped in Hs; [done|apply cookie_headers_pass|done]. }
  rewrite Hv. unfold is_console_entry. rewrite <- cookie_entries_without.
  pose proof (without_cookie_visible value SESSION_COOKIE_NAME Hv) as Hwv.
  pose proof (without_cookie_no_token value) as Hno.
  destruct (is_empty (without_cookie value SESSION_COOKIE_NAME)) eqn:He.
  - split; [done|]. intros _. by rewrite cookie_entries_empty.
  - simpl. rewrite to_str_spec, Hwv. split; [done|]. intros _. simpl. by rewrite app_nil_r.
Qed.

(** ... and it does not when they come in several fields or hold other bytes, as HTTP/2 clients
    send them.  When the first [Cookie] field holds a byte outside printable ASCII the request crosses
    with all its cookies, so the device can read every console token in it; when the first field is
    readable, every cookie of the other fields is lost. *)
Theorem console_cookie_first_field_only (client : ClientContext) (base first : string)
    (rest : list string) (websocket : bool) (headers : HeaderMap) :
  get_all headers COOKIE = first :: rest -> COOKIE ∉ listed_headers headers ->
  let sent := cookie_fields (prepare_request_headers client base websocket headers) in
  (str_all is_visible first = false ->
   read_session_cookies sent = read_session_cookies (cookie_fields headers))
  /\ (str_all is_visible first = true ->
      sent = (if is_empty (without_cookie first SESSION_COOKIE_NAME) then []
              else [without_cookie first SESSION_COOKIE_NAME])).
Proof.
  intros Hg Hl. cbv zeta. unfold cookie_fields.
  rewrite get_all_prepared_cookie, get_all_take_cookie, get_all_remove_ne, get_all_strip, Hg by done.
  rewrite not_stripped by (done || apply cookie_headers_pass).
  split; intros Hv; rewrite Hv; [done|].
  pose proof (without_cookie_visible first SESSION_COOKIE_NAME Hv) as Hwv.
  destruct (is_empty (without_cookie first SESSION_COOKIE_NAME)); [done|].
  simpl. by rewrite to_str_spec, Hwv.
Qed.

(** C22: what the device is told, header by header.  The four forwarding headers hold exactly what the
    relay believes about the client, whatever the browser sent under those names; [Host] is gone; every
    hop-by-hop header, those the [Connection] field lists included, is gone unless it is what upgrades
    a WebSocket; and every other header but [Cookie] arrives as it was. *)
Theorem request_headers_exact (client : ClientContext) (base : string) (websocket : bool)
    (headers : HeaderMap) (n : string) :
  let sent := prepare_request_headers client base websocket headers in
  get_all sent "x-forwarded-for" = header_field (cc_ip client)
  /\ get_all sent "x-forwarded-proto" = header_field (cc_proto client)
  /\ get_all sent "x-forwarded-host" = header_field (cc_host client)
  /\ get_all sent "x-termexo-base" = header_field base
  /\ get_all sent HOST = []
  /\ (n ∉ ["x-forwarded-for"; "x-forwarded-proto"; "x-forwarded-host"; "x-termexo-base"; HOST; COOKIE] ->
      get_all sent n
      = if bool_decide (n ∈ HOP_BY_HOP_HEADERS ++ listed_headers headers)
           && negb (websocket && (String.eqb n CONNECTION || String.eqb n UPGRADE))
        then [] else get_all headers n).
Proof.
  cbv zeta. destruct (get_all_prepared client base websocket headers n) as (? & ? & ? & ? & ? & Hn).
  split_and!; [done..|]. rewrite !not_elem_of_cons. intros (? & ? & ? & ? & Hhost & Hcookie & _).
  rewrite Hn by (rewrite !not_elem_of_cons; split_and!; try done; apply not_elem_of_nil).
  rewrite get_all_take_other, get_all_remove_ne by congruence. apply get_all_strip.
Qed.

Lemma get_all_fold_append (values : list string) (h : HeaderMap) n m :
  get_all (fold_left (fun h value => header_append n value h) values h) m
  = if String.eqb n m then get_all h n ++ values else get_all h m.
Proof.
  revert h. induction values as [|v values IH]; intros h; simpl.
  - destruct (String.eqb_spec n m) as [->|]; [by rewrite app_nil_r|done].
  - rewrite IH. destruct (String.eqb_spec n m) as [->|].
    + by rewrite get_all_append_eq, <- app_assoc.
    + by rewrite get_all_append_ne.
Qed.

(** C23: a device cannot plant a console session.  Whatever it answers, no [Set-Cookie] the browser
    receives from the shared origin names the console's cookie; the readable ones that name others
    pass, in order, and a header that is neither hop-by-hop nor [Set-Cookie] is untouched. *)
Theorem device_cannot_set_console_session (response : Response) (value n : string) :
  (value ∈ get_all (rsp_headers (relay_response response)) SET_COOKIE ->
   value ∈ get_all (rsp_headers response) SET_COOKIE
   /\ str_all is_visible value = true /\ cookie_name value <> Some SESSION_COOKIE_NAME)
  /\ (SET_COOKIE ∉ listed_headers (rsp_headers response) ->
      get_all (rsp_headers (relay_response response)) SET_COOKIE
      = List.filter (fun v => str_all is_visible v && negb (is_console_entry v))
          (get_all (rsp_headers response) SET_COOKIE))
  /\ (n ∉ HOP_BY_HOP_HEADERS -> n ∉ listed_headers (rsp_headers response) -> n <> SET_COOKIE ->
      get_all (rsp_headers (relay_response response)) n = get_all (rsp_headers response) n).
Proof.
  unfold relay_response, refuse_console_session_cookies. cbn [rsp_headers].
  set (up := (rsp_status response =? SWITCHING_PROTOCOLS)%Z).
  assert (Hall : forall m, get_all (fold_left (fun h v => header_append SET_COOKIE v h)
      (List.filter (fun v => match header_to_str v with
        | Some v => negb (bool_decide (cookie_name v = Some SESSION_COOKIE_NAME)) | None => false end)
        (get_all (strip_hop_by_hop up (rsp_headers response)) SET_COOKIE))
      (header_remove SET_COOKIE (strip_hop_by_hop up (rsp_headers response)))) m
    = if String.eqb SET_COOKIE m
      then List.filter (fun v => str_all is_visible v && negb (is_console_entry v))
             (get_all (strip_hop_by_hop up (rsp_headers response)) SET_COOKIE)
      else get_all (strip_hop_by_hop up (rsp_headers response)) m).
  { intros m. rewrite get_all_fold_append, get_all_remove_eq. simpl.
    destruct (String.eqb_spec SET_COOKIE m) as [->|]; [|by apply get_all_remove_ne].
    apply List.filter_ext. intros v. rewrite to_str_spec. by destruct (str_all is_visible v). }
  rewrite !Hall, String.eqb_refl, !get_all_strip. split_and!.
  - intros [Hin Hf]%elem_of_filter_b. apply andb_true_iff in Hf as [Hv Hc].
    destruct (is_stripped up (rsp_headers response) SET_COOKIE); [by apply not_elem_of_nil in Hin|].
    split_and!; [done..|]. apply negb_true_iff in Hc. by apply bool_decide_eq_false in Hc.
  - intros Hl. by rewrite not_stripped by (done || apply cookie_headers_pass).
  - intros Hh Hl Hne. rewrite (proj2 (String.eqb_neq SET_COOKIE n)) by done.
    by rewrite not_stripped.
Qed.

Lemma connector_call_ok net (s : RelayState) uri d l :
  authority_device_id uri = Some d -> connector_call net s uri = Ok l ->
  exists r, route (rs_registry s) d = Some r /\ l = link r
            /\ net_open net l (stream_preface r d (rs_relay_id s)) = Ok tt.
Proof.
  intros Hd. unfold connector_call. rewrite Hd. run.
  destruct (route (rs_registry s) d) as [r|]; [|done]. simpl.
  destruct (net_open _ _ _) as [[]|] eqn:Ho; [|done]. intros [= <-]. eauto.
Qed.

Lemma tunnel_uri_device d rest query uri :
  contains_char d colon = false -> contains_char d "@" = false ->
  tunnel_uri d rest query = Some uri -> authority_device_id uri = Some d.
Proof.
  intros Hc Ha Hu. apply uri_build_host in Hu;
    [|rewrite contains_char_app, ?Hc, ?Ha; reflexivity..].
  unfold authority_device_id. rewrite Hu. simpl. apply strip_suffix_app.
Qed.

(** The stream an exchange runs on. *)
Definition crossed_to (net : Network) (s : RelayState) (d : string) (uri : Uri) (l : TunnelHandle)
    : Prop :=
  net_pooled net uri = Some l
  \/ exists r, route (rs_registry s) d = Some r /\ l = link r
               /\ net_open net l (stream_preface r d (rs_relay_id s)) = Ok tt.

Lemma bridge_crossing {E} net parts (s s' : RelayState) d resp l ob :
  authority_device_id (ob_uri parts) = Some d ->
  bridge_websocket (E := E) net parts s = (Ok (resp, Some (l, ob)), s') ->
  ob = parts /\ crossed_to net s d (ob_uri parts) l.
Proof.
  intros Hd. unfold bridge_websocket. intros (stream & s1 & Hs & Hrun)%se_bind_ok.
  injection Hs as <- <-. destruct (connector_call net s (ob_uri parts)) as [l'|e] eqn:Ec.
  - apply (connector_call_ok _ _ _ _ _ Hd) in Ec. unfold crossed_to.
    destruct (net_handshake net l'); [|done]. simpl in Hrun.
    destruct (net_exchange net l' parts) as [[status headers]|]; [destruct (status =? _)%Z|];
      injection Hrun as _ <- <- _; auto.
  - by apply se_bind_ok in Hrun as (? & ? & _ & ?).
Qed.

Lemma bridge_parts net parts {E} (s s' : RelayState) resp l ob :
  bridge_websocket (E := E) net parts s = (Ok (resp, Some (l, ob)), s') -> ob = parts.
Proof.
  unfold bridge_websocket. intros (stream & s1 & Hs & Hrun)%se_bind_ok.
  injection Hs as <- <-. destruct (connector_call net s (ob_uri parts)) as [l'|e].
  - destruct (net_handshake net l'); [|done]. simpl in Hrun.
    destruct (net_exchange net l' parts) as [[status headers]|]; [destruct (status =? _)%Z|];
      by injection Hrun.
  - by apply se_bind_ok in Hrun as (? & ? & _ & ?).
Qed.

(** A request for [target] as it leaves for the device, up to the address of the stream. *)
Definition carried (client : ClientContext) (target : DeviceTarget) (request : Request) (ob : Outbound) : Prop :=
  ob_method ob = rq_method request
  /\ ob_version ob = Version_HTTP_11
  /\ ob_headers ob = prepare_request_headers client (base_path target)
                       (is_websocket_upgrade (rq_headers request)) (rq_headers request)
  /\ ob_body ob = if is_websocket_upgrade (rq_headers request) then ProxyBody_Empty
                  else ProxyBody_Limited (1024 * 1024) (rq_body request).

(** What crosses, for any target. *)
Lemma forward_gated {E} (net : Network) (client : ClientContext) (target : DeviceTarget)
    (request : Request) (s s' : RelayState) (resp : Response) (l : TunnelHandle) (ob : Outbound) :
  forward (E := E) net client target request s = (Ok (resp, Some (l, ob)), s') ->
  is_online (rs_registry s) (dt_device_id target) = true
  /\ tunnel_uri (dt_device_id target) (dt_rest target) (rq_query request) = Some (ob_uri ob)
  /\ (authority_device_id (ob_uri ob) = Some (dt_device_id target) ->
      crossed_to net s (dt_device_id target) (ob_uri ob) l)
  /\ carried client target request ob
  /\ (forall row, db_devices (rs_database s) !! dt_device_id target = Some row ->
       DeviceAccess_from_str (dr_access row) = Ok DeviceAccess_RelayLogin ->
       dt_entry target = DeviceEntry_Path
       /\ exists token sess user,
            token ∈ read_session_cookies (cookie_fields (rq_headers request))
            /\ live_session (rs_database s) token (rs_clock s (rs_reads s)) sess user
            /\ (us_role user = UserRole_Admin \/ dr_owner_user_id row = Some (us_id user))).
Proof.
  unfold forward. intros (found & s1 & Hf & Hrun)%se_bind_ok.
  rewrite try_database in Hf. destruct (find_device (dt_device_id target) (rs_database s)) as [r db] eqn:Hfind.
  simpl in Hf. injection Hf as <- <-. destruct r as [device|]; [|done].
  apply find_device_ok in Hfind as [Hrow ->].
  apply se_bind_ok in Hrun as (refusal & s2 & Hg & Hrun). destruct refusal; [done|].
  pose proof (guard_frame (E := E) (rq_headers request) device target (rq_query request)
    (put_database (next_statement (rs_database s)) s)) as Hframe.
  rewrite Hg in Hframe. destruct Hframe as (Hreg & Hid & _). simpl in Hreg, Hid.
  apply se_bind_ok in Hrun as (online & s3 & Ho & Hrun). injection Ho as <- <-. rewrite Hreg in Hrun.
  assert (Hgate : forall row, db_devices (rs_database s) !! dt_device_id target = Some row ->
    DeviceAccess_from_str (dr_access row) = Ok DeviceAccess_RelayLogin ->
    dt_entry target = DeviceEntry_Path /\ exists token sess user,
      token ∈ read_session_cookies (cookie_fields (rq_headers request))
      /\ live_session (rs_database s) token (rs_clock s (rs_reads s)) sess user
      /\ (us_role user = UserRole_Admin \/ dr_owner_user_id row = Some (us_id user))).
  { intros row Hlook Hacc. rewrite Hlook in Hrow. simpl in Hrow. unfold read_device_row in Hrow.
    unfold parse_device_row in Hrow. run_in Hrow. rewrite Hacc in Hrow.
    destruct (parse_device_kind (dr_kind row)) as [kind|]; [|done]. simpl in Hrow.
    injection Hrow as <-. apply guard_sound in Hg; [|done]. exact Hg. }
  destruct (is_online (rs_registry s) (dt_device_id target)) eqn:Honline;
    [|by apply se_bind_ok in Hrun as (? & ? & _ & ?)].
  simpl in Hrun. destruct (tunnel_uri _ _ _) as [uri|] eqn:Huri; [|done].
  assert (Hsame : forall u l, crossed_to net s2 (dt_device_id target) u l ->
                              crossed_to net s (dt_device_id target) u l)
    by (unfold crossed_to; rewrite Hreg, Hid; done).
  split; [done|]. destruct (is_websocket_upgrade (rq_headers request)) eqn:Hws.
  - pose proof Hrun as Hob. apply bridge_parts in Hob as ->. cbn [ob_uri].
    split; [done|]. split; [|split; [by unfold carried; rewrite Hws|done]]. intros Hauth. apply Hsame. by eapply bridge_crossing in Hrun as [_ Hc].
  - apply se_bind_ok in Hrun as (stream & s4 & Hs & Hrun). injection Hs as <- <-.
    unfold client_request in Hrun. simpl in Hrun.
    assert (Hpick : forall l', (match net_pooled net uri with Some l => Ok l
              | None => connector_call net s2 uri end) = Ok l' ->
              authority_device_id uri = Some (dt_device_id target) ->
              crossed_to net s2 (dt_device_id target) uri l').
    { intros l'. unfold crossed_to. destruct (net_pooled net uri) as [p|]; [intros [= <-]; by left|].
      intros Hc Hauth. right. by apply (connector_call_ok _ _ _ _ _ Hauth). }
    destruct (match net_pooled net uri with Some l => Ok l | None => connector_call net s2 uri end)
      as [l'|e]; [|by apply se_bind_ok in Hrun as (? & ? & _ & ?)].
    specialize (Hpick l' eq_refl). destruct (net_exchange _ _ _) as [[status headers]|];
      injection Hrun as _ <- <- _; cbn [ob_uri];
      (split; [done|]; split; [by auto|]; split; [by unfold carried; rewrite Hws|done]).
Qed.

(** What crosses a tunnel is gated, addressed and prepared.  When a request reaches a device at
    all, the device is in the routing table, the exchange runs on the link of its route with the
    preface of that route (or on a connection hyper still pools for the same authority), its head is
    the prepared one - and if this relay's record restricts the device, the request came in on the
    path form with a live session of the owner or an administrator. *)
Theorem forward_crosses_gated (E : Type) (net : Network) (client : ClientContext)
    (target : DeviceTarget) (request : Request) (s s' : RelayState) (resp : Response)
    (l : TunnelHandle) (ob : Outbound) :
  contains_char (dt_device_id target) colon = false ->
  contains_char (dt_device_id target) "@" = false ->
  forward (E := E) net client target request s = (Ok (resp, Some (l, ob)), s') ->
  is_online (rs_registry s) (dt_device_id target) = true
  /\ crossed_to net s (dt_device_id target) (ob_uri ob) l
  /\ carried client target request ob
  /\ (forall row, db_devices (rs_database s) !! dt_device_id target = Some row ->
       DeviceAccess_from_str (dr_access row) = Ok DeviceAccess_RelayLogin ->
       dt_entry target = DeviceEntry_Path
       /\ exists token sess user,
            token ∈ read_session_cookies (cookie_fields (rq_headers request))
            /\ live_session (rs_database s) token (rs_clock s (rs_reads s)) sess user
            /\ (us_role user = UserRole_Admin \/ dr_owner_user_id row = Some (us_id user))).
Proof.
  intros Hcolon Hat (Ho & Hu & Hc & Hh & Hg)%forward_gated. split_and!; try done.
  apply Hc. by eapply tunnel_uri_device.
Qed.

End theorems.

(** ** Witnesses *)

Definition sample_client : ClientContext := mkClientContext "203.0.113.7" "https" "relay.example.com".

Lemma console_session_stays_witness :
  let headers : @HeaderMap sample_http := [("cookie", "theme=dark; termexo_relay_session=t; lang=zh")] in
  let sent := cookie_fields (prepare_request_headers sample_client "/d/dev1/" false headers) in
  read_session_cookies (cookie_fields headers) = ["t"]
  /\ read_session_cookies sent = [] /\ flat_map cookie_entries sent = ["theme=dark"; "lang=zh"].
Proof.
  cbv zeta. split; [vm_compute; reflexivity|].
  destruct (@console_session_stays sample_protocol _ sample_http _ sample_client "/d/dev1/"
    "theme=dark; termexo_relay_session=t; lang=zh" false
    [("cookie", "theme=dark; termexo_relay_session=t; lang=zh")]) as [Hno Hothers];
    [vm_compute; reflexivity..|].
  split; [exact Hno|]. rewrite Hothers by (by apply (bool_decide_unpack _)). vm_compute. reflexivity.
Defined.

(** A browser that holds one cookie with a byte outside ASCII: the device receives the console token. *)
Lemma console_cookie_leak_witness :
  let headers : @HeaderMap sample_http := [("cookie", "nick=é"); ("cookie", "termexo_relay_session=t")] in
  read_session_cookies
    (cookie_fields (prepare_request_headers sample_client "/d/dev1/" false headers)) = ["t"].
Proof.
  cbv zeta.
  destruct (@console_cookie_first_field_only sample_protocol _ sample_http _ sample_client "/d/dev1/"
    "nick=é" ["termexo_relay_session=t"] false
    [("cookie", "nick=é"); ("cookie", "termexo_relay_session=t")]) as [Hleak _];
    [vm_compute; reflexivity|by apply (bool_decide_unpack _)|].
  rewrite Hleak by (vm_compute; reflexivity). vm_compute. reflexivity.
Defined.

Lemma request_headers_witness :
  let headers : @HeaderMap sample_http := [("x-forwarded-for", "10.0.0.1"); ("accept", "*/*"); ("connection", "x-hop");
                  ("x-hop", "1")] in
  let sent := prepare_request_headers sample_client "/d/dev1/" false headers in
  get_all sent "x-forwarded-for" = ["203.0.113.7"] /\ get_all sent "accept" = ["*/*"]
  /\ get_all sent "x-hop" = [].
Proof.
  cbv zeta. set (headers := [("x-forwarded-for", "10.0.0.1"); ("accept", "*/*");
                             ("connection", "x-hop"); ("x-hop", "1")]).
  destruct (@request_headers_exact sample_protocol _ sample_http _ sample_client "/d/dev1/" false
    headers "accept") as (Hip & _ & _ & _ & _ & Haccept).
  destruct (@request_headers_exact sample_protocol _ sample_http _ sample_client "/d/dev1/" false
    headers "x-hop") as (_ & _ & _ & _ & _ & Hhop).
  split; [rewrite Hip; vm_compute; reflexivity|].
  split; [rewrite Haccept by (by apply (bool_decide_unpack _))
         |rewrite Hhop by (by apply (bool_decide_unpack _))]; vm_compute; reflexivity.
Defined.

Lemma device_cannot_set_witness :
  let response := @mkResponse sample_http 200 [("set-cookie", "termexo_relay_session=evil; Path=/");
                                  ("set-cookie", "theme=dark"); ("content-type", "text/css")] Body_Relayed in
  get_all (rsp_headers (relay_response response)) SET_COOKIE = ["theme=dark"]
  /\ get_all (rsp_headers (relay_response response)) "content-type" = ["text/css"].
Proof.
  cbv zeta.
  destruct (@device_cannot_set_console_session sample_http _
    (@mkResponse sample_http 200 [("set-cookie", "termexo_relay_session=evil; Path=/");
       ("set-cookie", "theme=dark"); ("content-type", "text/css")] Body_Relayed) EmptyString
    "content-type") as (_ & Hset & Hother).
  split; [rewrite Hset by (by apply (bool_decide_unpack _)); vm_compute; reflexivity|].
  rewrite Hother by (by apply (bool_decide_unpack _)). vm_compute. reflexivity.
Defined.

(** A network where every link answers 200. *)
Definition sample_network : @Network sample_http :=
  mkNetwork (fun _ _ => Ok tt) (fun _ => None) (fun _ => true) (fun _ _ => Some (200%Z, [])).

Definition sample_request : @Request sample_http :=
  mkRequest Method_GET None "/d/dev1/index.html" None Version_HTTP_11 [("cookie", "termexo_relay_session=t")] "".

(** The state of [sample_state] with a restricted device [dev1] of [u1] that is connected. *)
Definition sample_online_state : RelayState :=
  put_registry
    (snd (Registry.connect 1 (mkDirectPresence "dev1" "desk" DeviceKind_Desktop None None None
            (mkTunnelHandle "dev1" 1)) (Registry.new "relay-a")))
    (sample_state
       (set_devices (fun _ => {[ "dev1" := mkDeviceRow "desktop" "desk" (Some "u1") "#s" None 1 None
                                             None None None "relay-login" ]})
          sample_session_database)).

Lemma forward_witness :
  exists resp ob s',
    forward (E := unit) sample_network sample_client
      (mkDeviceTarget "dev1" "index.html" DeviceEntry_Path) sample_request sample_online_state
    = (Ok (resp, Some (mkTunnelHandle "dev1" 1, ob)), s')
  /\ exists token sess user,
       token ∈ read_session_cookies (cookie_fields (rq_headers sample_request))
       /\ live_session (rs_database sample_online_state) token 5000000 sess user.
Proof.
  assert (Hrun : match fst (forward (E := unit) sample_network sample_client
      (mkDeviceTarget "dev1" "index.html" DeviceEntry_Path) sample_request sample_online_state) with
    | Ok (_, Some (l, _)) => bool_decide (l = mkTunnelHandle "dev1" 1)
    | _ => false
    end = true) by evaluate.
  destruct (forward _ _ _ _ _) as [[[resp [[l ob]|]]|e] s'] eqn:E; [|done..].
  apply bool_decide_eq_true in Hrun. subst l. exists resp, ob, s'. split; [done|].
  destruct (@forward_crosses_gated sample_protocol sample_http _ unit sample_network sample_client
    (mkDeviceTarget "dev1" "index.html" DeviceEntry_Path) sample_request sample_online_state s' resp
    (mkTunnelHandle "dev1" 1) ob eq_refl eq_refl E) as (_ & _ & _ & Hgate).
  destruct (Hgate (mkDeviceRow "desktop" "desk" (Some "u1") "#s" None 1 None None None None "relay-login"))
    as [_ (token & sess & user & Hin & Hlive & _)]; [evaluate|evaluate|].
  exists token, sess, user. split; [exact Hin|exact Hlive].
Defined.
