(* ===== verification/Cascade.v ===== *)
(** * Relays in a chain: [upstream/forward.rs] and [upstream/addresses.rs] across a network

    The components of one relay put side by side: a stream hops from relay to relay through [carry],
    each relay deciding by its own routing table; addresses travel the other way through
    [from_welcome].  The network is any assignment of routing tables to relay ids and of a peer to each
    end of a link; nothing says the tables agree with each other. *)

From S2P Require Import Prelude.
From S2P Require Import RustStr.
From S2P Require Import Protocol.
From S2P Require Import Handle.
From S2P Require Import Registry.
From S2P Require Import Config.
From S2P Require Import Database.
From S2P Require Import Auth.
From S2P Require Import Address.
From S2P Require Import Http.
From S2P Require Import Upstream.
From S2P Require Import State.
From S2P Require Import Access.
From S2P Require Import Proxy.

(** ** A network of relays *)

Record RelayNetwork : Type := mkRelayNetwork {
  (* the routing table of each relay *)
  rn_tables : string -> Registry;
  (* the relay on the far end of one of a relay's links; [None] is a device *)
  rn_peer : string -> TunnelHandle -> option string;
}.

Inductive Journey : Type :=
| Journey_Delivered (handle : TunnelHandle) (preface : StreamPreface)
| Journey_Refused (relay_id : string) (reason : StreamRejection)
| Journey_OutOfFuel.

Section cascade.
Context `{Protocol}.

(** A stream that arrives at [relay_id] with [preface]; every link it asks for accepts it. *)
Fixpoint travel (fuel : nat) (net : RelayNetwork) (relay_id : string) (preface : StreamPreface)
    : Journey :=
  match fuel with
  | O => Journey_OutOfFuel
  | S fuel' =>
      match carry relay_id (rn_tables net relay_id) (Ok preface) (fun _ _ => Ok tt) (Ok tt) with
      | Err reason => Journey_Refused relay_id reason
      | Ok (l, forwarded) =>
          match rn_peer net relay_id l with
          | None => Journey_Delivered l forwarded
          | Some next => travel fuel' net next forwarded
          end
      end
  end.

(** A stream the proxy of [relay_id] opens for [device_id]. *)
Definition depart (fuel : nat) (net : RelayNetwork) (relay_id device_id : string) : option Journey :=
  r ← route (rn_tables net relay_id) device_id;
  let preface := stream_preface r device_id relay_id in
  Some (match rn_peer net relay_id (link r) with
        | None => Journey_Delivered (link r) preface
        | Some next => travel fuel net next preface
        end).

(** The tables agree about [device_id] along the way from [relay_id]: each relay's route names the
    relays the stream will cross, as the announcements that installed it did. *)
Inductive chained (net : RelayNetwork) (device_id : string) : string -> list string -> TunnelHandle -> Prop :=
| chained_direct r h :
    route (rn_tables net r) device_id = Some (Route_Direct h) ->
    rn_peer net r h = None ->
    chained net device_id r [] h
| chained_via r l next hops h :
    route (rn_tables net r) device_id = Some (Route_Via l (next :: hops)) ->
    rn_peer net r l = Some next ->
    is_announcement_routable r (next :: hops) = true ->
    chained net device_id next hops h ->
    chained net device_id r (next :: hops) h.


(** ** Lemmas *)

Lemma extend_ok preface relay_id forwarded :
  extend preface relay_id = Ok forwarded ->
  relay_id ∉ sp_hops preface /\ length (sp_hops preface) < MAX_HOPS
  /\ forwarded = mkStreamPreface (sp_v preface) (sp_target preface) (sp_hops preface ++ [relay_id]).
Proof.
  unfold extend. destruct (existsb _ _) eqn:E; [done|].
  destruct (Nat.leb_spec MAX_HOPS (length (sp_hops preface))); [done|]. intros [= <-].
  split; [|split; [lia|done]]. intros Hin. rewrite existsb_false_iff in E.
  specialize (E relay_id Hin). by rewrite String.eqb_refl in E.
Qed.

Lemma extend_runs preface relay_id :
  relay_id ∉ sp_hops preface -> length (sp_hops preface) < MAX_HOPS ->
  extend preface relay_id
  = Ok (mkStreamPreface (sp_v preface) (sp_target preface) (sp_hops preface ++ [relay_id])).
Proof.
  intros Hin Hlt. unfold extend. assert (existsb (fun hop => String.eqb hop relay_id) (sp_hops preface) = false) as ->.
  { apply existsb_false_iff. intros x Hx. apply String.eqb_neq. congruence. }
  by destruct (Nat.leb_spec MAX_HOPS (length (sp_hops preface))); [lia|].
Qed.

Lemma carry_ok relay_id registry preface open copied l forwarded :
  carry relay_id registry (Ok preface) open copied = Ok (l, forwarded) ->
  extend preface relay_id = Ok forwarded
  /\ exists r, route registry (sp_target preface) = Some r /\ l = link r.
Proof.
  unfold carry. run. destruct (extend preface relay_id) as [f|] eqn:E; [|done].
  apply extend_ok in E as (_ & _ & Hf). destruct (route registry (sp_target f)) as [r|] eqn:Er; [|done].
  simpl. destruct (open (link r) f); [|done]. simpl. destruct copied; [|done]. simpl.
  intros [= <- <-]. split; [done|]. exists r. split; [|done]. by subst f.
Qed.

(** What [serve] refuses: a stream it logs nothing about was forwarded by a route of the table, and this
    relay is no hop of what it read. *)
Lemma serve_unrejected relay_id stream preface :
  in_preface stream = Ok preface -> serve relay_id stream = None ->
  relay_id ∉ sp_hops preface /\ length (sp_hops preface) < MAX_HOPS
  /\ is_Some (route (in_registry stream) (sp_target preface)).
Proof.
  unfold serve. intros ->. destruct (carry _ _ _ _ _) as [[l forwarded]|] eqn:E; [|done]. intros _.
  apply carry_ok in E as [(Hin & Hlen & ->)%extend_ok (r & Hr & _)]. by eauto.
Qed.

Lemma carry_runs relay_id registry preface r :
  relay_id ∉ sp_hops preface -> length (sp_hops preface) < MAX_HOPS ->
  route registry (sp_target preface) = Some r ->
  carry relay_id registry (Ok preface) (fun _ _ => Ok tt) (Ok tt)
  = Ok (link r, mkStreamPreface (sp_v preface) (sp_target preface) (sp_hops preface ++ [relay_id])).
Proof. intros Hin Hlt Hr. unfold carry. run. rewrite extend_runs by done. simpl. by rewrite Hr. Qed.


Lemma chained_travel net device_id fuel relay_id hops h preface :
  chained net device_id relay_id hops h ->
  sp_target preface = device_id ->
  relay_id ∉ sp_hops preface -> (forall r, r ∈ hops -> r ∉ sp_hops preface) ->
  length (sp_hops preface) + length hops < MAX_HOPS -> length hops < fuel ->
  exists delivered, travel fuel net relay_id preface = Journey_Delivered h delivered
  /\ sp_target delivered = device_id /\ sp_hops delivered = sp_hops preface ++ relay_id :: hops.
Proof.
  intros Hc. revert fuel preface. induction Hc as [r h Hr Hp|r l next hops h Hr Hp Hroutable Hc IH];
    intros fuel preface Ht Hin Hdisj Hlen Hfuel; destruct fuel as [|fuel]; simpl in *; try lia.
  - rewrite (carry_runs _ _ _ (Route_Direct h)) by (done || lia || by rewrite Ht). simpl. rewrite Hp.
    by eexists.
  - rewrite (carry_runs _ _ _ (Route_Via l (next :: hops))) by (done || lia || by rewrite Ht). simpl.
    rewrite Hp. unfold is_announcement_routable in Hroutable.
    apply andb_true_iff in Hroutable as [_ Hnot]. apply negb_true_iff, bool_decide_eq_false in Hnot.
    edestruct (IH fuel (mkStreamPreface (sp_v preface) (sp_target preface) (sp_hops preface ++ [r])))
      as (delivered & Hd & Ht' & Hh).
    + done.
    + simpl. rewrite elem_of_app, list_elem_of_singleton. intros [?| ->].
      * apply (Hdisj next); [left|done].
      * apply Hnot. left.
    + simpl. intros r' Hr'. rewrite elem_of_app, list_elem_of_singleton. intros [?| ->].
      * apply (Hdisj r'); [by right|done].
      * apply Hnot. by right.
    + simpl. rewrite length_app. simpl. lia.
    + lia.
    + exists delivered. rewrite Hd. split_and!; [done..|]. rewrite Hh. simpl. by rewrite <- app_assoc.
Qed.

End cascade.

(** ** Properties *)

Section theorems.
Context `{!Protocol} `{!ProtocolLaws _} `{!Platform} `{!HttpCrate} `{!HttpLaws _}.


(** C26: a route the announcements installed is a route that delivers.  When the tables along a route
    agree and each relay accepted its announcement as routable, a stream reaches the device's own
    tunnel, and its preface lists exactly the relays of the route behind the one it started from -
    the budget of announcements and the budget of prefaces never disagree. *)
Theorem cascade_delivers (net : RelayNetwork) (relay_id device_id : string) (hops : list string)
    (h : TunnelHandle) :
  chained net device_id relay_id hops h ->
  exists delivered,
    depart (S MAX_HOPS) net relay_id device_id = Some (Journey_Delivered h delivered)
    /\ sp_target delivered = device_id
    /\ sp_hops delivered = match hops with [] => [] | _ => relay_id :: hops end.
Proof.
  intros Hc. unfold depart. destruct Hc as [r h Hr Hp|r l next hops h Hr Hp Hroutable Hc].
  - rewrite Hr. simpl. rewrite Hp. eexists. split; [done|].
    by rewrite preface_new_target, preface_new_hops.
  - rewrite Hr. cbn [mbind option_bind link stream_preface]. rewrite Hp.
    unfold is_announcement_routable in Hroutable.
    apply andb_true_iff in Hroutable as [Hlt Hnot]. apply bool_decide_eq_true in Hlt.
    apply negb_true_iff, bool_decide_eq_false in Hnot. simpl in Hlt.
    destruct (chained_travel net device_id (S MAX_HOPS) next hops h
      (StreamPreface_with_hop (StreamPreface_new device_id) r) Hc) as (delivered & -> & Ht & Hh).
    + by rewrite preface_with_hop_target, preface_new_target.
    + rewrite preface_with_hop_hops, preface_new_hops, app_nil_l, list_elem_of_singleton. intros ->. apply Hnot. left.
    + intros r' Hr'. rewrite preface_with_hop_hops, preface_new_hops, app_nil_l, list_elem_of_singleton.
      intros ->. apply Hnot. by right.
    + rewrite preface_with_hop_hops, preface_new_hops. simpl. lia.
    + lia.
    + exists delivered. split; [done|]. split; [done|].
      by rewrite Hh, preface_with_hop_hops, preface_new_hops.
Qed.

(** One more relay between a device and the address. *)
Definition one_hop_further (a : RelayAddress) : RelayAddress :=
  mkRelayAddress (ra_relay_id a) (ra_relay_name a) (ra_url a) (saturating_add_u32 (ra_hops a) 1).

Lemma reach_readback (reach : UpstreamReach) (link d id : string) (ch : list string) :
  addresses_for (from_welcome link id (addresses_for reach link) ch) d
  = one_hop_further <$> addresses_for reach d.
Proof.
  unfold addresses_for, from_welcome. cbn [reach_relays].
  induction (reach_relays reach) as [|relay relays IH]; [done|].
  rewrite !fmap_cons. cbn [omap list_omap ra_url]. rewrite strip_suffix_app. cbn [mbind option_bind].
  rewrite fmap_cons. f_equal. exact IH.
Qed.

Lemma subdomain_url_no_path (a : DeviceAddressing) (base : SubdomainBase) (link : string) :
  da_subdomain_base a = Some base ->
  contains_char link slash = false -> contains_char link dot = false ->
  contains_char (sb_host base) slash = false -> contains_char (port_suffix (da_public_url a)) slash = false ->
  strip_suffix (device_path link) (device_url a link) = None.
Proof.
  intros Hb Hl Hdot Hs Hp. destruct (strip_suffix _ _) as [r|] eqn:E; [|done]. exfalso.
  apply strip_suffix_Some in E. unfold device_url, device_path in E. rewrite Hb in E.
  rewrite device_path_prefix_shape in E.
  set (host := link +:+ String HOST_ROOT_DOT (sb_host base) +:+ port_suffix (da_public_url a)).
  assert (Hhost : contains_char host slash = false).
  { unfold host. change (String HOST_ROOT_DOT (sb_host base)) with (String dot EmptyString +:+ sb_host base).
    rewrite !contains_char_app, Hl, Hs, Hp. done. }
  assert (E' : (scheme (pu_secure (da_public_url a)) +:+ ":/") +:+ String slash host
               = (r +:+ "/d") +:+ String slash link).
  { apply (append_inj_r _ _ "/"). unfold host. autorewrite with relay_str in E |- *. exact E. }
  apply (f_equal (rsplit_once slash)) in E'. rewrite !rsplit_once_app in E' by done.
  injection E' as _ E'. apply (f_equal (fun s => contains_char s dot)) in E'. unfold host in E'.
  change (String HOST_ROOT_DOT (sb_host base)) with (String dot EmptyString +:+ sb_host base) in E'.
  rewrite !contains_char_app, Hdot in E'. simpl in E'. done.
Qed.

(** The addresses the chain above contributes are the upstream's own, one hop further - when the
    upstream hands out the path form.  What a relay builds for one of its devices out of the upstream's
    welcome is exactly what the upstream would hand that device, relay by relay.  An upstream in
    subdomain mode loses its own entry: the address of the nearest relay vanishes from every list. *)
Theorem upstream_addresses_exact (s : RelayState) (link d : string) :
  contains_char link slash = false -> contains_char link dot = false ->
  (forall base, da_subdomain_base (rs_addressing s) = Some base ->
     contains_char (sb_host base) slash = false
     /\ contains_char (port_suffix (public_url s)) slash = false) ->
  addresses_for (from_welcome link (rs_relay_id s) (device_addresses s link) (upstream_chain s)) d
  = one_hop_further <$> match da_subdomain_base (rs_addressing s) with
                        | None => device_addresses s d
                        | Some _ => tail (device_addresses s d)
                        end.
Proof.
  intros Hl Hdot Hbase.
  pose proof (reach_readback (ul_reach (rs_upstream s)) link d (rs_relay_id s) (upstream_chain s)) as Hr.
  unfold device_addresses, from_welcome in *. cbn [omap list_omap relay_address ra_url].
  unfold device_access_url.
  destruct (da_subdomain_base (rs_addressing s)) as [base|] eqn:Hb.
  - destruct (Hbase base eq_refl) as [Hs Hp].
    rewrite (subdomain_url_no_path (rs_addressing s) base) by done. exact Hr.
  - assert (device_url (rs_addressing s) link
            = pu_origin (da_public_url (rs_addressing s)) +:+ device_path link) as ->
      by (unfold device_url; by rewrite Hb).
    rewrite strip_suffix_app. cbn [mbind option_bind]. unfold addresses_for in *. cbn [reach_relays] in *.
    rewrite !fmap_cons. f_equal; [|exact Hr]. unfold one_hop_further, relay_address, device_access_url.
    cbn. unfold device_url. by rewrite Hb.
Qed.

(** A device's [relay-login] policy stops at the relay it is enrolled with.  A relay above has no
    row for the device, so its gate lets everybody through; the relay that holds the row and the policy
    carries the stream without looking at either.  A request without any session reaches the device's
    own tunnel, whatever that relay's database says about it. *)
Theorem access_policy_not_carried (E : Type) (net : Network) (client : ClientContext)
    (target : DeviceTarget) (request : Request) (sA sB : RelayState) (l h : TunnelHandle)
    (hops : list string) (uri : Uri) (row : DeviceRow) :
  (* the relay the request arrives at only knows the device from an announcement *)
  db_faults (rs_database sA) = [] -> db_devices (rs_database sA) !! dt_device_id target = None ->
  route (rs_registry sA) (dt_device_id target) = Some (Route_Via l hops) ->
  (* an ordinary request, and a network that works *)
  is_websocket_upgrade (rq_headers request) = false ->
  tunnel_uri (dt_device_id target) (dt_rest target) (rq_query request) = Some uri ->
  contains_char (dt_device_id target) colon = false ->
  contains_char (dt_device_id target) "@" = false ->
  net_pooled net uri = None -> (forall h p, net_open net h p = Ok tt) ->
  (forall h ob, is_Some (net_exchange net h ob)) ->
  (* the relay below holds the device and restricts it *)
  route (rs_registry sB) (dt_device_id target) = Some (Route_Direct h) ->
  db_devices (rs_database sB) !! dt_device_id target = Some row ->
  DeviceAccess_from_str (dr_access row) = Ok DeviceAccess_RelayLogin ->
  rs_relay_id sA <> rs_relay_id sB -> 2 <= MAX_HOPS ->
  exists resp ob s' forwarded,
    forward (E := E) net client target request sA = (Ok (resp, Some (l, ob)), s')
    /\ carry (rs_relay_id sB) (rs_registry sB)
         (Ok (stream_preface (Route_Via l hops) (dt_device_id target) (rs_relay_id sA)))
         (net_open net) (Ok tt)
       = Ok (h, forwarded).
Proof.
  intros Hf Hnone Hroute Hws Huri Hc Ha Hpool Hopen Hex HrouteB _ _ Hne Hmax.
  pose proof (tunnel_uri_device _ _ _ _ Hc Ha Huri) as Hauth.
  assert (Hcarry : exists forwarded, carry (rs_relay_id sB) (rs_registry sB)
      (Ok (stream_preface (Route_Via l hops) (dt_device_id target) (rs_relay_id sA)))
      (net_open net) (Ok tt) = Ok (h, forwarded)).
  { unfold carry, stream_preface. run. rewrite extend_runs.
    - simpl. rewrite preface_with_hop_target, preface_new_target, HrouteB. simpl. rewrite Hopen. simpl. eauto.
    - rewrite preface_with_hop_hops, preface_new_hops, app_nil_l, list_elem_of_singleton. congruence.
    - rewrite preface_with_hop_hops, preface_new_hops. simpl. lia. }
  destruct Hcarry as [forwarded Hcarry]. unfold forward.
  destruct (Hex l (mkOutbound (rq_method request) uri TUNNEL_HTTP_VERSION
    (prepare_request_headers client (base_path target) false (rq_headers request))
    (ProxyBody_Limited MAX_REQUEST_BODY_BYTES (rq_body request)))) as [[status headers] Hans].
  assert (Hfind : find_device (dt_device_id target) (rs_database sA) = (Ok None, rs_database sA)).
  { unfold find_device. erewrite se_bind_eq by by apply select_healthy. by rewrite Hnone. }
  erewrite se_bind_eq by apply try_database. rewrite Hfind. cbn [fst snd].
  erewrite se_bind_eq by reflexivity. cbv beta iota. erewrite se_bind_eq by reflexivity.
  cbn [rs_registry put_database].
  assert (is_online (rs_registry sA) (dt_device_id target) = true) as ->.
  { unfold is_online, route in *. apply bool_decide_eq_true.
    destruct (reg_entries (rs_registry sA) !! dt_device_id target); [by eexists|done]. }
  cbn [negb]. rewrite Huri, Hws. cbv beta iota zeta. erewrite se_bind_eq by reflexivity.
  unfold client_request. cbn [ob_uri]. rewrite Hpool. unfold connector_call.
  rewrite Hauth. run. rewrite Hroute. simpl. rewrite Hopen. simpl. rewrite Hans.
  do 4 eexists. split; [reflexivity|exact Hcarry].
Qed.

End theorems.

(** ** Witnesses *)

Definition handle_of (name : string) (channel : nat) : TunnelHandle := mkTunnelHandle name channel.

Definition announced_via (via : list string) : AnnouncedDevice := mkAnnouncedDevice "dev1" "desk" true via.

(** Three relays in a row: [a] has [b] as a downstream, [b] has [c], and [dev1] is attached to [c]. *)
Definition chain_network : RelayNetwork :=
  mkRelayNetwork
    (fun r =>
       if String.eqb r "a" then snd (announce_device 1 "link-b" (handle_of "link-b" 1) (announced_via ["b"; "c"]) (new "a"))
       else if String.eqb r "b" then snd (announce_device 1 "link-c" (handle_of "link-c" 2) (announced_via ["c"]) (new "b"))
       else snd (connect 1 (mkDirectPresence "dev1" "desk" DeviceKind_Desktop None None None (handle_of "dev1" 3)) (new "c")))
    (fun _ h => if String.eqb (th_device_id h) "link-b" then Some "b"
                else if String.eqb (th_device_id h) "link-c" then Some "c" else None).



Lemma chain_network_chained : chained chain_network "dev1" "a" ["b"; "c"] (handle_of "dev1" 3).
Proof.
  apply (chained_via chain_network "dev1" "a" (handle_of "link-b" 1)); [vm_compute; reflexivity..|].
  apply (chained_via chain_network "dev1" "b" (handle_of "link-c" 2)); [vm_compute; reflexivity..|].
  apply chained_direct; vm_compute; reflexivity.
Qed.

Lemma cascade_delivers_witness :
  exists delivered,
    depart (S MAX_HOPS) chain_network "a" "dev1" = Some (Journey_Delivered (handle_of "dev1" 3) delivered)
    /\ sp_hops delivered = ["a"; "b"; "c"].
Proof.
  destruct (@cascade_delivers sample_protocol _ chain_network "a" "dev1" ["b"; "c"] (handle_of "dev1" 3)
    chain_network_chained) as (delivered & Hd & _ & Hh).
  exists delivered. split; [exact Hd|exact Hh].
Defined.

(** An upstream [relay.example.com] in subdomain mode that has an upstream of its own. *)
Definition sample_upstream_state : RelayState :=
  put_upstream
    (set_reach (mkUpstreamReach [mkUpstreamRelay "root" "root.example.com" "https://root.example.com" 1] ["root"])
       UpstreamLink_new)
    (mkRelayState empty_database (new "mid") UpstreamLink_new FailureThrottle_default "mid"
       (mkDeviceAddressing (mkPublicUrl "https://relay.example.com" "relay.example.com" true)
          (Some (mkSubdomainBase "relay.example.com")))
       [] true ∅ (fun _ => 1%Z) 0 (fun _ _ => Ok "x") 0 (fun _ => Err "none")).

Lemma upstream_addresses_witness :
  addresses_for (from_welcome "link" "mid" (device_addresses sample_upstream_state "link") ["root"]) "dev1"
  = [mkRelayAddress "root" "root.example.com" "https://root.example.com/d/dev1/" 2].
Proof.
  etrans; [apply (@upstream_addresses_exact sample_protocol _ sample_upstream_state "link" "dev1")|].
  - reflexivity.
  - reflexivity.
  - intros base [= <-]. split; vm_compute; reflexivity.
  - vm_compute. reflexivity.
Defined.

Definition relay_above : RelayState :=
  put_registry (rn_tables chain_network "b") (sample_state empty_database).

Definition relay_below : RelayState :=
  mkRelayState (rs_database sample_online_state) (rs_registry sample_online_state) UpstreamLink_new
    FailureThrottle_default "relay-c" (rs_addressing sample_online_state) [] true ∅ (fun _ => 1%Z) 0
    (fun _ _ => Ok "x") 0 (fun _ => Err "none").

Lemma access_policy_witness :
  exists resp ob s' forwarded,
    forward (E := unit) sample_network sample_client (mkDeviceTarget "dev1" "" DeviceEntry_Path)
      (@mkRequest sample_http Method_GET None "/d/dev1/" None Version_HTTP_11 [] "") relay_above
    = (Ok (resp, Some (handle_of "link-c" 2, ob)), s')
    /\ carry "relay-c" (rs_registry relay_below)
         (Ok (stream_preface (Route_Via (handle_of "link-c" 2) ["c"]) "dev1" "relay-a"))
         (net_open sample_network) (Ok tt)
       = Ok (handle_of "dev1" 1, forwarded).
Proof.
  apply (@access_policy_not_carried sample_protocol _ sample_http _ unit sample_network sample_client
    (mkDeviceTarget "dev1" "" DeviceEntry_Path) (@mkRequest sample_http Method_GET None "/d/dev1/" None Version_HTTP_11 [] "") relay_above
    relay_below (handle_of "link-c" 2) (handle_of "dev1" 1) ["c"] ("dev1.termexo-tunnel", "/")
    (mkDeviceRow "desktop" "desk" (Some "u1") "#s" None 1 None None None None "relay-login"));
    try evaluate; try done. simpl. lia.
Defined.
