(* ===== verification/ApiError.v ===== *)
(** * [src/api/error.rs]: the one error shape of [/api/*]

    A status and a sentence.  The JSON body [{ "error": ... }] is serialized by [serde_json], which is
    not code of this repository. *)

From S2P Require Import Prelude.
From S2P Require Import RustStr.
From S2P Require Import Database.
From S2P Require Import Http.
From S2P Require Import Protocol.
From S2P Require Import Upstream.
From S2P Require Import State.

Record ApiError : Type := mkApiError {
  ae_status : Z;
  ae_message : string;
}.

#[export] Instance ApiError_eq_dec : EqDecision ApiError.
Proof. solve_decision. Defined.

Definition INTERNAL_MESSAGE : string := "中继内部错误，请查看服务日志。".

Definition bad_request (message : string) : ApiError := mkApiError BAD_REQUEST message.
Definition unauthorized (message : string) : ApiError := mkApiError UNAUTHORIZED message.
Definition forbidden (message : string) : ApiError := mkApiError FORBIDDEN message.
Definition not_found (message : string) : ApiError := mkApiError NOT_FOUND message.
Definition conflict (message : string) : ApiError := mkApiError CONFLICT message.
Definition internal : ApiError := mkApiError INTERNAL_SERVER_ERROR INTERNAL_MESSAGE.

(** [From<DatabaseError>]: the one database failure that is the caller's fault is a conflict. *)
Definition ApiError_from (error : DatabaseError) : ApiError :=
  match error with
  | DatabaseError_UsernameTaken => conflict "用户名已被占用。"
  | _ => internal
  end.

(** The serializer of the [/api/*] bodies. *)
Class ApiJson : Type := {
  (* [Json(ErrorBody { error })] *)
  error_body : string -> string;
}.

#[export] Instance sample_api_json : ApiJson := {| error_body message := message |}.

Definition error_response `{HttpCrate} `{ApiJson} (e : ApiError) : Response :=
  text_response (ae_status e) (error_body (ae_message e)).

(** A database operation whose failure ends the handler. *)
Definition query `{Protocol} {A} (op : DB A) : App ApiError A := se_map_err ApiError_from (database op).

(** ** Lemmas *)

Lemma query_ok `{Protocol} {A} (op : DB A) (s : RelayState) a s' :
  query op s = (Ok a, s') -> exists db, op (rs_database s) = (Ok a, db) /\ s' = put_database db s.
Proof.
  unfold query, se_map_err. destruct (database op s) as [[b|e] s1] eqn:E; [|done].
  intros [= -> <-]. by apply database_ok.
Qed.

(** A failed query is a conflict or an internal error, never a refusal of the caller. *)
Lemma query_error `{Protocol} {A} (op : DB A) (s : RelayState) e s' :
  query op s = (Err e, s') -> e = internal \/ ae_status e = CONFLICT.
Proof.
  unfold query, se_map_err. destruct (database op s) as [[b|d] s1]; [done|].
  intros [= <- _]. destruct d; auto.
Qed.
