(* ===== verification/Tunnel.v ===== *)
(** * [src/tunnel/]: the [/tunnel] endpoint and the session behind it

    The credential check, the handshake, the two frame pumps, what a device's control frames do,
    and [run], which ties them together.  The WebSocket, yamux and the
    scheduler are the environment: a pump is a function of the events it meets, in the order it meets
    them. *)

From S2P Require Import Prelude.
From S2P Require Import RustStr.
From S2P Require Import Protocol.
From S2P Require Import Handle.
From S2P Require Import Registry.
From S2P Require Import Config.
From S2P Require Import Database.
From S2P Require Import Auth.
From S2P Require Import Http.
From S2P Require Import Upstream.
From S2P Require Import State.
From S2P Require Import ApiError.

(** ** Constants *)

Definition BEARER_PREFIX : string := "Bearer ".
Definition INVALID_CREDENTIAL_MESSAGE : string := "设备凭据无效或已被撤销。".
Definition MAX_CONCURRENT_STREAMS : nat := 64.
Definition PER_STREAM_RECEIVE_WINDOW : Z := 256 * 1024.
Definition REASON_REPLACED : string := "设备已在别处重新接入。".
Definition REASON_PROTOCOL : string := "未收到有效的 hello 帧。".
Definition REASON_VERSION_MISMATCH : string := "隧道协议版本不匹配。".
Definition REASON_KIND_MISMATCH : string := "设备类型与中继记录不一致。".
Definition REASON_CLOSING : string := "中继正在关闭这条隧道。".

(** ** WebSocket messages *)

Inductive Message : Type :=
| Message_Text (text : string)
| Message_Binary (bytes : string)
| Message_Ping
| Message_Pong
| Message_Close (frame : option (Z * string)).

#[export] Instance Message_eq_dec : EqDecision Message.
Proof. solve_decision. Defined.

Inductive CloseCause : Type :=
| CloseCause_PeerClosed
| CloseCause_Idle
| CloseCause_Transport
| CloseCause_Local.

Definition CloseCause_as_str (cause : CloseCause) : string :=
  match cause with
  | CloseCause_PeerClosed => "peer-closed"
  | CloseCause_Idle => "idle-timeout"
  | CloseCause_Transport => "transport-error"
  | CloseCause_Local => "closed-by-relay"
  end.

Record Hello : Type := mkHello {
  he_kind : DeviceKind;
  he_version : string;
  he_relay_id : option string;
}.

Definition kind_label (hello : Hello) : string := device_kind_label (he_kind hello).

Section tunnel.
Context `{Protocol}.

(** ** Closing a tunnel *)

Definition revoke_tunnel (handle : TunnelHandle) (reason : string) (chans : Channels) : Channels :=
  close handle CLOSE_REVOKED reason (send_frame handle (ControlFrame_Revoked reason) chans).

Definition disconnect_tunnel (handle : TunnelHandle) (reason : string) (chans : Channels) : Channels :=
  close handle CLOSE_GOING_AWAY reason chans.

(** ** The credential check *)

Section endpoint.
Context `{Platform} `{HttpCrate} `{JsonCodec} `{ApiJson}.

Definition bearer_credential (headers : HeaderMap) : option DeviceCredential :=
  value ← header_str headers AUTHORIZATION;
  token ← strip_prefix BEARER_PREFIX value;
  DeviceCredential_parse (trim token).

(** The error is the [RejectionReason]. *)
Definition authenticate (headers : HeaderMap) : App string DeviceRecord :=
  credential ← se_lift (ok_or "malformed-credential" (bearer_credential headers));
  found ← se_map_err (fun _ => "lookup-failed") (database (find_device (dc_device_id credential)));
  device ← se_lift (ok_or "unknown-device" found);
  if is_revoked device then se_fail "revoked"
  else if negb (secret_matches_hash (dc_secret credential) (dv_secret_hash device))
       then se_fail "secret-mismatch"
       else mret device.

(** [upgrade]: a refusal, or the device and the address its session runs under. *)
Definition upgrade (headers : HeaderMap) (peer : SocketAddr)
    : App Response (DeviceRecord * string) :=
  client ← se_get (fun s => resolve s headers peer);
  locked ← lockout_is_locked (cc_ip client);
  if locked : bool then se_fail (error_response (unauthorized LOCKED_OUT_MESSAGE))
  else
    device ← se_try (authenticate headers);
    match device with
    | Err reason =>
        lockout_record_failure (cc_ip client) ;;
        audit_record
          (detail "reason" (Value_String reason)
             (from_ip (cc_ip client) (AuditEntry_new ActorKind_Device action.TUNNEL_REJECTED))) ;;
        se_fail (error_response (unauthorized INVALID_CREDENTIAL_MESSAGE))
    | Ok device => lockout_forget (cc_ip client) ;; mret (device, cc_ip client)
    end.

End endpoint.

(** ** The handshake *)

(** The two messages of a refusal after the upgrade. *)
Definition reject (reason : string) : list Message :=
  [Message_Text (ControlFrame_encode (ControlFrame_AuthFailed reason));
   Message_Close (Some (CLOSE_UNAUTHORIZED, EmptyString))].

(** [first] is the message that arrived within [HELLO_TIMEOUT], [sent] whether the welcome could be
    sent.  The answer is what was sent and the accepted [hello]. *)
Definition accept_hello (state : RelayState) (device : DeviceRecord) (first : option Message)
    (sent : bool) : list Message * option Hello :=
  let frame :=
    match first with
    | Some (Message_Text text) => ControlFrame_decode text
    | _ => None
    end in
  match frame with
  | Some (ControlFrame_Hello protocol kind version _ relay_id) =>
      if negb (protocol =? PROTOCOL_VERSION)%Z then (reject REASON_VERSION_MISMATCH, None)
      else if negb (bool_decide (kind = dv_kind device)) then (reject REASON_KIND_MISMATCH, None)
      else
        let welcome :=
          ControlFrame_Welcome (dv_id device) (rs_relay_id state)
            (device_addresses state (dv_id device)) (upstream_chain state) in
        if negb sent then ([], None)
        else ([Message_Text (ControlFrame_encode welcome)], Some (mkHello kind version relay_id))
  | _ => (reject REASON_PROTOCOL, None)
  end.

(** ** The writer *)

(** What the writer's [select!] meets next; [None] is a channel whose senders are gone. *)
Inductive WriterEvent : Type :=
| WriterEvent_Data (bytes : option string)
| WriterEvent_Outgoing (command : option Outgoing)
| WriterEvent_Ping.

(** Each event with whether the socket took the message.  The answer is what was sent before the sink
    was closed, and whether the writer ended (the events may run out first). *)
Fixpoint write_frames (events : list (WriterEvent * bool)) : list Message * bool :=
  match events with
  | [] => ([], false)
  | (event, sent) :: rest =>
      match
        match event with
        | WriterEvent_Data None => Err []
        | WriterEvent_Data (Some bytes) => Ok (Message_Binary bytes)
        | WriterEvent_Outgoing None => Err []
        | WriterEvent_Outgoing (Some (Outgoing_Control frame)) =>
            Ok (Message_Text (ControlFrame_encode frame))
        | WriterEvent_Outgoing (Some (Outgoing_Close code reason)) =>
            Err (if (sent : bool) then [Message_Close (Some (code, reason))] else [])
        | WriterEvent_Ping => Ok (Message_Text (ControlFrame_encode ControlFrame_Ping))
        end
      with
      | Err last => (last, true)
      | Ok message =>
          if sent then let '(more, ended) := write_frames rest in (message :: more, ended)
          else ([], true)
      end
  end.

(** ** The reader *)

(** One control frame from a device of the given kind. *)
Definition handle_control_frame {E} (handle : TunnelHandle) (kind : DeviceKind) (frame : ControlFrame)
    : App E unit :=
  match frame, kind with
  | ControlFrame_Ping, _ => on_channels (send_frame handle ControlFrame_Pong)
  | ControlFrame_Pong, _ => mret tt
  | ControlFrame_Announce devices, DeviceKind_Relay =>
      (* one reading per installed or withdrawn device; the table bounds how many there can be *)
      size ← se_get (fun s => length devices + size (reg_entries (rs_registry s)));
      clock ← clock_readings size;
      on_registry (fun r => (tt, apply_announcement clock (th_device_id handle) handle devices r))
  | ControlFrame_DeviceOnline id name via, DeviceKind_Relay =>
      now ← now_millis;
      on_registry (fun r =>
        announce_device now (th_device_id handle) handle (mkAnnouncedDevice id name true via) r) ;;
      mret tt
  | ControlFrame_DeviceOffline id, DeviceKind_Relay =>
      now ← now_millis;
      on_registry (fun r => (tt, withdraw_device now (th_device_id handle) id r))
  | _, _ => mret tt
  end.

(** What the reader's [select!] meets next. *)
Inductive ReaderEvent : Type :=
| ReaderEvent_Shutdown
| ReaderEvent_IdleTimeout
| ReaderEvent_End
| ReaderEvent_Error
(* a message, and whether the multiplexer still takes bytes *)
| ReaderEvent_Message (message : Message) (inbound_open : bool).

(** The answer is the cause the loop ended with; [None] when the events run out first. *)
Fixpoint read_frames {E} (handle : TunnelHandle) (kind : DeviceKind) (events : list ReaderEvent)
    : App E (option CloseCause) :=
  match events with
  | [] => mret None
  | event :: rest =>
      match event with
      | ReaderEvent_Shutdown => mret (Some CloseCause_Local)
      | ReaderEvent_IdleTimeout => mret (Some CloseCause_Idle)
      | ReaderEvent_End | ReaderEvent_Message (Message_Close _) _ => mret (Some CloseCause_PeerClosed)
      | ReaderEvent_Error => mret (Some CloseCause_Transport)
      | ReaderEvent_Message (Message_Text text) _ =>
          match ControlFrame_decode text with
          | Some frame => handle_control_frame handle kind frame ;; read_frames handle kind rest
          | None => read_frames handle kind rest
          end
      | ReaderEvent_Message (Message_Binary _) inbound_open =>
          if (inbound_open : bool) then read_frames handle kind rest
          else mret (Some CloseCause_Transport)
      | ReaderEvent_Message Message_Ping _ | ReaderEvent_Message Message_Pong _ =>
          read_frames handle kind rest
      end
  end.

(** ** The session *)

Section session.
Context `{JsonCodec}.

(** The part of [run] before the first frame is read: [channel] names the tunnel's fresh channels. *)
Definition open_session {E} (device : DeviceRecord) (peer : string) (hello : Hello) (channel : nat)
    : App E (TunnelHandle * Registration) :=
  on_channels (fun chans => <[channel := []]> chans) ;;
  let handle := mkTunnelHandle (dv_id device) channel in
  now ← now_millis;
  registration ← on_registry
    (connect now (mkDirectPresence (dv_id device) (dv_name device) (he_kind hello) (he_relay_id hello)
                    (Some peer) (Some (he_version hello)) handle));
  match rg_displaced registration with
  | Some previous => on_channels (close previous CLOSE_GOING_AWAY REASON_REPLACED)
  | None => mret tt
  end ;;
  now ← now_millis;
  se_try (database (record_device_connection now (dv_id device) peer (he_version hello))) ;;
  audit_record
    (detail "version" (Value_String (he_version hello))
       (detail "kind" (Value_String (kind_label hello))
          (from_ip peer (by_device (dv_id device) action.TUNNEL_CONNECTED)))) ;;
  mret (handle, registration).

(** The part after the last frame: the writer's end drops the receiver of the channel. *)
Definition close_session {E} (device : DeviceRecord) (peer : string) (handle : TunnelHandle)
    (registration : Registration) (cause : CloseCause) : App E unit :=
  on_channels (close handle CLOSE_GOING_AWAY REASON_CLOSING) ;;
  on_channels (delete (th_channel handle)) ;;
  on_registry (disconnect (dv_id device) (rg_serial registration)) ;;
  now ← now_millis;
  se_try (database (record_device_disconnection now (dv_id device))) ;;
  audit_record
    (detail "cause" (Value_String (CloseCause_as_str cause))
       (from_ip peer (by_device (dv_id device) action.TUNNEL_DISCONNECTED))).

(** [run], for the events of one session with nothing else happening in between.  The answer is the
    messages of the handshake and the cause the session ended with. *)
Definition run_session {E} (device : DeviceRecord) (peer : string) (channel : nat)
    (first : option Message) (sent : bool) (events : list ReaderEvent)
    : App E (list Message * option CloseCause) :=
  handshake ← se_get (fun s => accept_hello s device first sent);
  let '(messages, hello) := handshake : list Message * option Hello in
  match hello with
  | None => mret (messages, None)
  | Some hello =>
      opened ← open_session device peer hello channel;
      let '(handle, registration) := opened : TunnelHandle * Registration in
      cause ← read_frames handle (he_kind hello) events;
      match cause with
      | None => mret (messages, None)
      | Some cause =>
          close_session device peer handle registration cause ;; mret (messages, Some cause)
      end
  end.

End session.

End tunnel.
