(* ===== verification/TunnelTheorems.v ===== *)
(** * What the tunnel endpoint and a tunnel session guarantee

    The theorems about [Tunnel]: who is let in, what the frames of an attached device can change, what
    a finished session leaves behind, and what a revocation puts on the wire. *)

From S2P Require Import Prelude.
From S2P Require Import RustStr.
From S2P Require Import Protocol.
From S2P Require Import Handle.
From S2P Require Import Registry.
From S2P Require Import RegistryProofs.
From S2P Require Import RegistryTheorems.
From S2P Require Import Config.
From S2P Require Import Database.
From S2P Require Import Auth.
From S2P Require Import Address.
From S2P Require Import Http.
From S2P Require Import Upstream.
From S2P Require Import State.
From S2P Require Import Access.
From S2P Require Import ApiError.
From S2P Require Import Tunnel.

(** ** What is meant *)

Section definitions.
Context `{Protocol} `{Platform} `{HttpCrate}.

(** The credential of the request is that of the device and the device is in good standing. *)
Definition presents_valid_credential (headers : HeaderMap) (db : Database) (device : DeviceRecord) : Prop :=
  exists credential row,
    bearer_credential headers = Some credential
    /\ db_devices db !! dc_device_id credential = Some row
    /\ read_device_row (dc_device_id credential) row = Ok device
    /\ dr_revoked_at row = None
    /\ secret_matches_hash (dc_secret credential) (dr_secret_hash row) = true.

(** A device attached to this relay itself. *)
Definition attached (e : Entry) : Prop :=
  is_direct_origin e /\ is_direct (od_route (en_device e)) = true.

(** What a link may do to the routing table: the attached devices stay, and whatever is new is routed
    through the link, by a chain this relay is not part of. *)
Definition table_frame (handle : TunnelHandle) (r r' : Registry) : Prop :=
  reg_relay_id r' = reg_relay_id r
  /\ reg_relay_links r' = reg_relay_links r
  /\ (forall id e, reg_entries r !! id = Some e -> attached e -> reg_entries r' !! id = Some e)
  /\ (forall id e, reg_entries r' !! id = Some e ->
        reg_entries r !! id = Some e
        \/ en_origin e = Origin_Announced (th_device_id handle)
           /\ exists via, od_route (en_device e) = Route_Via handle via
                /\ reg_relay_id r ∉ via /\ length via < MAX_HOPS).

(** ... and to the rest of the state: only its own queue moves. *)
Definition link_frame (handle : TunnelHandle) (s s' : RelayState) : Prop :=
  table_frame handle (rs_registry s) (rs_registry s')
  /\ rs_database s' = rs_database s /\ rs_lockout s' = rs_lockout s /\ rs_upstream s' = rs_upstream s
  /\ forall channel, channel <> th_channel handle ->
        rs_channels s' !! channel = rs_channels s !! channel.

#[global] Instance table_frame_preorder handle : PreOrder (table_frame handle).
Proof.
  split.
  - intros r. unfold table_frame. auto.
  - intros r1 r2 r3 (Hi1 & Hl1 & Hd1 & Hn1) (Hi2 & Hl2 & Hd2 & Hn2).
    split; [congruence|]. split; [congruence|]. split; [auto|].
    intros id e He. destruct (Hn2 id e He) as [Hin|(Ho & via & Hr & Hni & Hlt)]; [by apply Hn1|].
    right. split; [done|]. exists via. by rewrite <- Hi1.
Qed.

#[global] Instance link_frame_preorder handle : PreOrder (link_frame handle).
Proof.
  split.
  - intros s. split; [reflexivity|auto].
  - intros s1 s2 s3 (Ht1 & ? & ? & ? & Hc1) (Ht2 & ? & ? & ? & Hc2).
    split; [by etrans|]. split_and!; try congruence. intros c Hc. by rewrite Hc2, Hc1.
Qed.

End definitions.

(** ** Lemmas: the routing table under a link's announcements *)

Section table.
Context `{Protocol}.

Lemma announce_device_frame now (l : TunnelHandle) d r :
  table_frame l r (snd (announce_device now (th_device_id l) l d r)).
Proof.
  unfold announce_device. destruct (is_announcement_routable _ _) eqn:Hr; simpl; [|reflexivity].
  unfold next_sequence. cbn -[announce_locked].
  set (r0 := mkRegistry _ _ _ _ _ _).
  destruct (announce_locked _ _ _ _ _ _) as [[c r1]|] eqn:E; simpl; [|subst r0; split; auto].
  apply announce_locked_Some in E as (Hrep & _ & ->). cbn in *.
  unfold is_announcement_routable in Hr. apply andb_true_iff in Hr as [Hlen Hin].
  apply bool_decide_eq_true in Hlen. apply negb_true_iff, bool_decide_eq_false in Hin.
  split; [done|]. split; [done|]. split; cbn.
  - intros id e He [_ Hd]. destruct (decide (id = ad_id d)) as [->|Hne].
    + specialize (Hrep e He). unfold replaces in Hrep. by destruct (od_route (en_device e)).
    + by rewrite lookup_insert_ne.
  - intros id e [[<- <-]|[_ He]]%lookup_insert_Some; [|by left].
    right. cbn. split; [done|]. by exists (ad_via d).
Qed.

Lemma withdraw_device_frame now (l : TunnelHandle) id r :
  table_frame l r (withdraw_device now (th_device_id l) id r).
Proof.
  pose proof (withdraw_device_entries now (th_device_id l) id r) as Hent.
  assert (Hfix : reg_relay_id (withdraw_device now (th_device_id l) id r) = reg_relay_id r
    /\ reg_relay_links (withdraw_device now (th_device_id l) id r) = reg_relay_links r).
  { unfold withdraw_device.
    by destruct (withdraw_locked_cases now (th_device_id l) id r) as [(e & _ & _ & ->)|[-> _]]. }
  split; [apply Hfix|]. split; [apply Hfix|]. split.
  - intros j e He [Hd _]. rewrite Hent, He. unfold announced_by, is_direct_origin in *.
    case_decide; [|done]. by destruct (en_origin e).
  - intros j e He. left. rewrite Hent in He. destruct (reg_entries r !! j) as [e'|];
      case_decide; try done. by destruct (announced_by _ _).
Qed.

Lemma install_all_frame now (l : TunnelHandle) devices : forall i r,
  table_frame l r (snd (install_all now i (th_device_id l) l devices r)).
Proof.
  induction devices as [|d devices IH]; intros i r; cbn [install_all]; [reflexivity|].
  destruct (ad_online d); cbn [negb]; [|apply IH].
  pose proof (announce_device_frame (now i) l d r) as Ha.
  destruct (announce_device _ _ _ _ _) as [accepted r1]. specialize (IH (S i) r1).
  destruct (install_all _ _ _ _ _ _) as [installed r2]. simpl in *. by etrans.
Qed.

Lemma withdraw_all_frame now (l : TunnelHandle) stale : forall i r,
  table_frame l r (withdraw_all now i (th_device_id l) stale r).
Proof.
  induction stale as [|id stale IH]; intros i r; cbn [withdraw_all]; [reflexivity|].
  etrans; [apply withdraw_device_frame|apply IH].
Qed.

Lemma apply_announcement_frame now (l : TunnelHandle) devices r :
  table_frame l r (apply_announcement now (th_device_id l) l devices r).
Proof.
  unfold apply_announcement. pose proof (install_all_frame now l devices 0 r) as Hi.
  destruct (install_all _ _ _ _ _ _) as [installed r1]. simpl in Hi.
  etrans; [exact Hi|apply withdraw_all_frame].
Qed.

End table.

(** ** Lemmas: the state under a link's frames *)

Section frames.
Context `{Protocol}.

Lemma on_registry_frame {E A} (l : TunnelHandle) (f : Registry -> A * Registry) :
  (forall r, table_frame l r (snd (f r))) -> preserves (link_frame l) (on_registry (E := E) f).
Proof.
  intros Hf s. unfold on_registry, se_state. specialize (Hf (rs_registry s)).
  destruct (f (rs_registry s)) as [a r]. simpl in *. split; [done|]. by split_and!.
Qed.

Lemma send_frame_frame {E} (l : TunnelHandle) frame :
  preserves (link_frame l) (on_channels (E := E) (send_frame l frame)).
Proof.
  intros s. split; [reflexivity|]. split_and!; try done. intros c Hc. simpl.
  by apply try_send_other.
Qed.

Lemma now_millis_link_frame {E} l : preserves (link_frame l) (now_millis (E := E)).
Proof. intros s. split; [reflexivity|done]. Qed.

Lemma clock_readings_link_frame {E} l n : preserves (link_frame l) (clock_readings (E := E) n).
Proof. intros s. split; [reflexivity|done]. Qed.

End frames.

#[export] Hint Resolve send_frame_frame now_millis_link_frame clock_readings_link_frame : frame.

Section sessions.
Context `{Protocol}.

Lemma handle_control_frame_frame {E} (l : TunnelHandle) kind frame :
  preserves (link_frame l) (handle_control_frame (E := E) l kind frame).
Proof.
  unfold handle_control_frame. frame; apply on_registry_frame; intros r;
    [apply apply_announcement_frame|apply announce_device_frame|apply withdraw_device_frame].
Qed.

Lemma read_frames_frame {E} (l : TunnelHandle) kind events :
  preserves (link_frame l) (read_frames (E := E) l kind events).
Proof.
  pose proof @handle_control_frame_frame.
  induction events as [|event rest IH]; cbn [read_frames]; [frame|].
  destruct event; frame.
Qed.

Lemma desktop_frames_registry {E} (l : TunnelHandle) events s :
  rs_registry (snd (read_frames (E := E) l DeviceKind_Desktop events s)) = rs_registry s.
Proof.
  revert s. induction events as [|event rest IH]; intros s; [done|]. cbn [read_frames].
  destruct event as [| | | |[text|bytes| | |close] []]; try done; try apply IH.
  all: destruct (ControlFrame_decode text) as [frame|]; [|apply IH].
  all: unfold mbind, se_bind; destruct frame; (etrans; [apply IH|done]).
Qed.

End sessions.

(** ** Lemmas: opening and closing a session *)

Section session_lemmas.
Context `{Protocol} `{JsonCodec}.

Lemma connect_entries now presence r :
  let id := dp_device_id presence in
  exists e, attached e /\ en_origin e = Origin_Direct (rg_serial (fst (connect now presence r)))
    /\ reg_entries (snd (connect now presence r)) = <[id := e]> (reg_entries r)
    /\ reg_relay_id (snd (connect now presence r)) = reg_relay_id r.
Proof.
  unfold connect, next_sequence, connect_locked. cbn.
  destruct (dp_relay_id presence), (dp_kind presence); cbn;
    (eexists; split; [|split; [|split; [reflexivity|reflexivity]]]; [by split|done]).
Qed.

(** What is left of the table once the session's own registration is cleaned up. *)
Lemma session_cleanup device_id serial (l : TunnelHandle) (r r1 r2 : Registry) e :
  th_device_id l = device_id -> attached e -> en_origin e = Origin_Direct serial ->
  reg_entries r1 = <[device_id := e]> (reg_entries r) ->
  table_frame l r1 r2 ->
  let r' := snd (disconnect device_id serial r2) in
  route r' device_id = None
  /\ (forall id x, reg_entries r' !! id = Some x -> announced_by device_id x = false)
  /\ reg_entries r' ⊆ reg_entries r
  /\ (forall id x, id <> device_id -> reg_entries r !! id = Some x -> attached x ->
        reg_entries r' !! id = Some x).
Proof.
  intros Hl Ha Ho He (_ & _ & Hkeep & Hnew). unfold disconnect.
  assert (Hin : reg_entries r2 !! device_id = Some e).
  { apply Hkeep; [|done]. by rewrite He, lookup_insert_eq. }
  destruct (disconnect_locked device_id serial r2) as [[cs r']|] eqn:E.
  2:{ exfalso. apply (proj1 (disconnect_locked_None _ _ _) E). eauto. }
  pose proof (disconnect_entries _ _ _ _ _ E) as Hd. cbn. split_and!.
  - unfold route. cbn. rewrite Hd, Hin, decide_True by done. done.
  - intros id x. rewrite Hd. destruct (reg_entries r2 !! id) as [y|]; [|done].
    case_decide; [done|]. destruct (announced_by device_id y) eqn:Ey; [done|]. by intros [= <-].
  - apply map_subseteq_spec. intros id x. rewrite Hd.
    destruct (reg_entries r2 !! id) as [y|] eqn:Ey; [|done].
    case_decide as Hid; [done|]. destruct (announced_by device_id y) eqn:Eb; [done|]. intros [= <-].
    destruct (Hnew id y Ey) as [Hin1|[Hann _]].
    + by rewrite He, lookup_insert_ne in Hin1.
    + unfold announced_by in Eb. rewrite Hann, Hl in Eb. by rewrite String.eqb_refl in Eb.
  - intros id x Hid Hx Hax. rewrite Hd, (Hkeep id x).
    + rewrite decide_False by done. destruct Hax as [Hdir _]. unfold announced_by, is_direct_origin in *.
      by destruct (en_origin x).
    + by rewrite He, lookup_insert_ne.
    + done.
Qed.

Lemma open_session_ok {E} device peer hello channel s handle registration s1 :
  open_session (E := E) device peer hello channel s = (Ok (handle, registration), s1) ->
  handle = mkTunnelHandle (dv_id device) channel
  /\ exists e, attached e /\ en_origin e = Origin_Direct (rg_serial registration)
       /\ reg_entries (rs_registry s1) = <[dv_id device := e]> (reg_entries (rs_registry s))
       /\ reg_relay_id (rs_registry s1) = reg_relay_id (rs_registry s).
Proof.
  unfold open_session. intros (? & s2 & Hc & Hr)%se_bind_ok. injection Hc as <- <-.
  apply se_bind_ok in Hr as (now & s3 & Hn & Hr). injection Hn as <- <-.
  apply se_bind_ok in Hr as (reg & s4 & Hreg & Hr).
  set (presence := mkDirectPresence _ _ _ _ _ _ _) in Hreg.
  destruct (connect_entries (rs_clock s (rs_reads s)) presence (rs_registry s))
    as (e & Ha & Ho & He & Hid).
  unfold on_registry, se_state in Hreg. cbn -[connect] in Hreg.
  destruct (connect _ presence _) as [reg' r'] eqn:Ec. cbn in Hreg, Ho, He, Hid.
  injection Hreg as <- <-.
  match type of Hr with ?m ?s0 = _ => assert (preserves (keeps rs_registry) m) as Hk; [|specialize (Hk s0)] end.
  { destruct (rg_displaced reg'); frame. }
  rewrite Hr in Hk. cbn in Hk.
  assert (handle = mkTunnelHandle (dv_id device) channel /\ registration = reg') as [-> ->].
  { repeat (apply se_bind_ok in Hr as (? & ? & _ & Hr)). injection Hr as <- <- _. done. }
  split; [done|]. exists e. rewrite Hk. done.
Qed.

Lemma close_session_registry {E} device peer handle registration cause s :
  rs_registry (snd (close_session (E := E) device peer handle registration cause s))
  = snd (disconnect (dv_id device) (rg_serial registration) (rs_registry s))
  /\ rs_channels (snd (close_session (E := E) device peer handle registration cause s))
     !! th_channel handle = None.
Proof.
  unfold close_session. do 2 (erewrite se_bind_eq by reflexivity).
  erewrite se_bind_eq by apply on_registry_run.
  match goal with |- context [rs_registry (snd (?m ?s0))] =>
    assert (preserves same_routing m) as Hk; [frame|specialize (Hk s0) as (Hr & _ & Hc & _)] end.
  rewrite Hr, Hc. split; [done|]. apply lookup_delete_eq.
Qed.

(** The device is attached, under this serial. *)
Definition registered_under (serial : N) (device_id : string) (r : Registry) : Prop :=
  en_origin <$> reg_entries r !! device_id = Some (Origin_Direct serial).

(** A clean-up by the serial the device is registered under, and by any other. *)
Lemma disconnect_by_serial device_id serial r :
  let r' := snd (disconnect device_id serial r) in
  (registered_under serial device_id r ->
     route r' device_id = None
     /\ forall id, reg_entries r' !! id =
          if decide (id = device_id) then None
          else match reg_entries r !! id with
               | Some e => if announced_by device_id e then None else Some e
               | None => None
               end)
  /\ (~ registered_under serial device_id r -> r' = r).
Proof.
  intros r'. unfold r', registered_under, disconnect. destruct (disconnect_locked device_id serial r) as [[cs r1]|] eqn:E.
  - split; [|intros Hn; exfalso; apply Hn;
      destruct (disconnect_locked_Some _ _ _ _ _ E) as (e & _ & He & Ho & _); by rewrite He; cbn; rewrite Ho].
    intros _. assert (Hentries : forall id, reg_entries r1 !! id = if decide (id = device_id) then None
          else match reg_entries r !! id with
               | Some e => if announced_by device_id e then None else Some e
               | None => None
               end).
    { intros id. rewrite (disconnect_entries _ _ _ _ _ E). by destruct (reg_entries r !! id); case_decide. }
    split; [|exact Hentries]. unfold route. cbn. by rewrite Hentries, decide_True.
  - split; [|done]. intros Hr. exfalso. apply (proj1 (disconnect_locked_None _ _ _) E).
    apply fmap_Some in Hr as (e & He & Ho). by exists e.
Qed.

(** A session with nothing else happening in between. *)
Lemma run_session_alone {E} device peer channel first sent events (s s' : RelayState) messages cause :
  run_session (E := E) device peer channel first sent events s = (Ok (messages, cause), s') ->
  (snd (accept_hello s device first sent) = None -> s' = s)
  /\ (is_Some cause ->
      route (rs_registry s') (dv_id device) = None
      /\ (forall id e, reg_entries (rs_registry s') !! id = Some e -> announced_by (dv_id device) e = false)
      /\ rs_channels s' !! channel = None
      /\ reg_entries (rs_registry s') ⊆ reg_entries (rs_registry s)
      /\ (forall id e, id <> dv_id device -> reg_entries (rs_registry s) !! id = Some e -> attached e ->
            reg_entries (rs_registry s') !! id = Some e)).
Proof.
  unfold run_session. erewrite se_bind_eq by reflexivity.
  destruct (accept_hello s device first sent) as [sent_messages [hello|]].
  2:{ intros [= <- <- <-]. split; [done|]. by intros [? [=]]. }
  intros Hrun. split; [done|]. intros [c ->].
  apply se_bind_ok in Hrun as ([handle registration] & s1 & Hopen & Hrun).
  apply open_session_ok in Hopen as (-> & e & Ha & Ho & He & _).
  apply se_bind_ok in Hrun as (answer & s2 & Hread & Hrun).
  pose proof (read_frames_frame (E := E) (mkTunnelHandle (dv_id device) channel) (he_kind hello) events s1)
    as (Htable & _). rewrite Hread in Htable. cbn in Htable.
  destruct answer as [c'|]; [|done]. apply se_bind_ok in Hrun as (u & s3 & Hclose & Hret).
  injection Hret as <- -> <-.
  pose proof (close_session_registry (E := E) device peer (mkTunnelHandle (dv_id device) channel)
                registration c s2) as [Hreg Hchan].
  rewrite Hclose in Hreg, Hchan. cbn -[disconnect] in Hreg, Hchan. rewrite Hreg.
  destruct (session_cleanup (dv_id device) (rg_serial registration)
              (mkTunnelHandle (dv_id device) channel) (rs_registry s) (rs_registry s1)
              (rs_registry s2) e) as (Hroute & Hnone & Hsub & Hkept); done || by split_and!.
Qed.

End session_lemmas.

(** ** Lemmas: the credential check *)

Section admission.
Context `{Protocol} `{Platform} `{HttpCrate} `{JsonCodec} `{ApiJson}.

Lemma authenticate_frame headers :
  preserves same_routing (authenticate headers) /\ preserves (keeps stored) (authenticate headers)
  /\ preserves (keeps (fun s => (rs_lockout s, rs_clock s, rs_reads s))) (authenticate headers).
Proof.
  split_and!; unfold authenticate; frame.
  intros s. by rewrite database_run.
Qed.

Lemma authenticate_ok headers (s s' : RelayState) device :
  authenticate headers s = (Ok device, s') -> presents_valid_credential headers (rs_database s) device.
Proof.
  unfold authenticate. intros (credential & s1 & Hc & Hr)%se_bind_ok.
  unfold se_lift, ok_or in Hc. destruct (bearer_credential headers) as [c|] eqn:Eb; [|done].
  injection Hc as <- <-. apply se_bind_ok in Hr as (found & s2 & Hf & Hr).
  unfold se_map_err in Hf. destruct (database _ _) as [[f|e] sd] eqn:Ed; [|done]. injection Hf as <- <-.
  apply database_ok in Ed as (db & Hfd & ->). apply find_device_ok in Hfd as [Hrow ->].
  apply se_bind_ok in Hr as (d & s3 & Hd & Hr). destruct f as [d'|]; [|done]. injection Hd as <- <-.
  destruct (is_revoked d') eqn:Erev; [done|]. destruct (secret_matches_hash _ _) eqn:Es; [|done].
  injection Hr as <- _. destruct (db_devices (rs_database s) !! dc_device_id c) as [row|] eqn:El; [|done].
  cbn in Hrow. destruct (read_device_row (dc_device_id c) row) as [d|] eqn:Erow; [|done].
  injection Hrow as ->. exists c, row. pose proof Erow as Hread. unfold read_device_row in Erow.
  run_in Erow. destruct (parse_device_row _ _) as [[k a]|]; [|done]. injection Erow as <-.
  split_and!; try done. cbn in *. unfold is_revoked in Erev. apply bool_decide_eq_false in Erev.
  destruct (dr_revoked_at row); [|done]. by destruct Erev.
Qed.

Lemma authenticate_complete headers (s : RelayState) device :
  db_faults (rs_database s) = [] -> presents_valid_credential headers (rs_database s) device ->
  fst (authenticate headers s) = Ok device.
Proof.
  intros Hf (c & row & Hb & Hrow & Hread & Hrev & Hsec). unfold authenticate.
  erewrite se_bind_eq by (by rewrite Hb). cbv beta.
  assert (Hdb : se_map_err (fun _ => "lookup-failed") (database (find_device (dc_device_id c))) s
                = (Ok (Some device), s)).
  { unfold se_map_err. rewrite database_run. unfold find_device.
    erewrite se_bind_eq by (by apply select_healthy). unfold se_lift. cbn. rewrite Hrow. cbn.
    rewrite Hread. by destruct s. }
  erewrite se_bind_eq by exact Hdb. cbn.
  unfold read_device_row in Hread. run_in Hread.
  destruct (parse_device_row _ _) as [[k a]|]; [|done]. injection Hread as <-.
  run. unfold is_revoked. cbn. rewrite Hrev, Hsec. done.
Qed.

End admission.

(** ** Lemmas: what the writer makes of a queue *)

Section queue.
Context `{Protocol}.

(** The queue drained by a writer whose socket takes every message. *)
Definition drain (queue : list Outgoing) : list (WriterEvent * bool) :=
  (fun command => (WriterEvent_Outgoing (Some command), true)) <$> queue.

Definition as_message (command : Outgoing) : Message :=
  match command with
  | Outgoing_Control frame => Message_Text (ControlFrame_encode frame)
  | Outgoing_Close code reason => Message_Close (Some (code, reason))
  end.

Definition is_control (command : Outgoing) : bool :=
  match command with
  | Outgoing_Control _ => true
  | Outgoing_Close _ _ => false
  end.

Lemma write_control queue rest :
  forallb is_control queue = true ->
  write_frames (drain (queue ++ rest))
  = ((as_message <$> queue) ++ fst (write_frames (drain rest)), snd (write_frames (drain rest))).
Proof.
  induction queue as [|m queue IH]; intros Hc; [simpl; by destruct (write_frames _)|].
  apply andb_true_iff in Hc as [Hm Hc]. destruct m as [frame|]; [|done].
  unfold drain in *. rewrite <- app_comm_cons, !fmap_cons. cbn [write_frames]. by rewrite IH.
Qed.

(** A writer stops at the first close, so what is queued behind one is never read. *)
Lemma write_closed queue rest :
  forallb is_control queue = false -> write_frames (drain (queue ++ rest)) = write_frames (drain queue).
Proof.
  induction queue as [|m queue IH]; [done|]. cbn [forallb]. intros Hc. destruct m as [frame|]; [|done].
  unfold drain in *. rewrite <- app_comm_cons, !fmap_cons. cbn [write_frames]. by rewrite IH.
Qed.

Lemma revoke_tunnel_appends handle reason chans queue :
  chans !! th_channel handle = Some queue ->
  exists rest, queued (revoke_tunnel handle reason chans) (th_channel handle) = queue ++ rest.
Proof.
  intros Hq. unfold queued, revoke_tunnel, close, send_frame, try_send. rewrite Hq.
  destruct (bool_decide _); cbn [snd].
  - rewrite lookup_insert_eq. destruct (bool_decide _); cbn [snd]; rewrite lookup_insert_eq; cbn;
      rewrite <- ?app_assoc; eauto.
  - rewrite Hq. case_bool_decide; cbn [snd]; rewrite ?lookup_insert_eq, ?Hq; cbn; [eauto|].
    exists []. by rewrite app_nil_r.
Qed.

Lemma revocation_queued (handle : TunnelHandle) (reason : string) (chans : Channels) (queue : list Outgoing) :
  chans !! th_channel handle = Some queue -> forallb is_control queue = true ->
  let after := queued (revoke_tunnel handle reason chans) (th_channel handle) in
  let before := as_message <$> queue in
  let told := Message_Text (ControlFrame_encode (ControlFrame_Revoked reason)) in
  write_frames (drain after) =
    (if length queue + 2 <=? COMMAND_CAPACITY
     then (before ++ [told; Message_Close (Some (CLOSE_REVOKED, reason))], true)
     else if length queue + 1 <=? COMMAND_CAPACITY then (before ++ [told], false)
     else (before, false)).
Proof.
  intros Hq Hc after before told. unfold after, queued, revoke_tunnel, close, send_frame.
  destruct (Nat.leb_spec (length queue + 1) COMMAND_CAPACITY) as [Hroom|Hfull].
  - erewrite (try_send_room handle _ chans) by (done || lia). cbn [snd].
    set (chans1 := <[_ := _]> chans).
    assert (Hq1 : chans1 !! th_channel handle = Some (queue ++ [Outgoing_Control (ControlFrame_Revoked reason)])).
    { apply lookup_insert_eq. }
    destruct (Nat.leb_spec (length queue + 2) COMMAND_CAPACITY) as [Htwo|Hone].
    + erewrite (try_send_room handle _ chans1) by (done || (rewrite length_app; simpl; lia)).
      cbn [snd]. rewrite lookup_insert_eq. cbn [from_option id]. rewrite <- app_assoc, write_control by done.
      done.
    + erewrite (try_send_full handle _ chans1) by (done || (rewrite length_app; simpl; lia)).
      cbn [snd]. rewrite Hq1. cbn [from_option id]. by rewrite write_control.
  - destruct (Nat.leb_spec (length queue + 2) COMMAND_CAPACITY); [lia|].
    repeat (erewrite (try_send_full handle _ chans) by (done || lia); cbn [snd]). rewrite Hq. cbn [from_option id].
    rewrite <- (app_nil_r queue), write_control by done. by rewrite !app_nil_r.
Qed.

End queue.

(** ** Properties *)

Section theorems.
Context `{!Protocol} `{!Platform} `{!HttpCrate} `{!JsonCodec} `{!ApiJson}.

(** C28: who gets a tunnel.  A source that is not locked out and presents the credential of a device
    that exists, is not revoked and has that secret is admitted as exactly that device, and its failures
    are forgotten; on a working database nobody who presents one is refused.  Every refusal is one of
    two fixed answers that say nothing about the device: the lockout's, which changes nothing, or the
    one sentence for every bad credential, after exactly one failure was counted against the source.
    Neither touches the routing table, a tunnel or any table but the audit trail. *)
Theorem tunnel_admission (headers : HeaderMap) (peer : SocketAddr) (s s' : RelayState)
    (answer : result Response (DeviceRecord * string)) :
  upgrade headers peer s = (answer, s') ->
  let source := cc_ip (resolve s headers peer) in
  let locked := is_locked (rs_lockout s) source (rs_clock s (rs_reads s)) in
  same_routing s s' /\ tables (rs_database s') = tables (rs_database s)
  /\ match answer with
     | Ok (device, ip) =>
         ip = source /\ locked = false
         /\ presents_valid_credential headers (rs_database s) device
         /\ rs_lockout s' = lockout_clear source (rs_lockout s)
     | Err response =>
         (locked = true /\ rs_lockout s' = rs_lockout s
          /\ response = error_response (unauthorized LOCKED_OUT_MESSAGE))
         \/ (locked = false
             /\ rs_lockout s' = record_failure source (rs_clock s (S (rs_reads s))) (rs_lockout s)
             /\ response = error_response (unauthorized INVALID_CREDENTIAL_MESSAGE)
             /\ (db_faults (rs_database s) = [] ->
                   forall device, ~ presents_valid_credential headers (rs_database s) device))
     end.
Proof.
  intros Hrun source locked. pose proof (authenticate_frame headers) as (Hfr & Hft & Hfl).
  assert (Hupgrade : preserves same_routing (upgrade headers peer)
                     /\ preserves (keeps stored) (upgrade headers peer)).
  { split; unfold upgrade; frame. }
  destruct Hupgrade as [Hsr Hst]. specialize (Hsr s). specialize (Hst s). rewrite Hrun in Hsr, Hst.
  split; [exact Hsr|]. split; [exact Hst|]. clear Hsr Hst. revert Hrun. unfold upgrade.
  erewrite se_bind_eq by reflexivity. erewrite se_bind_eq by reflexivity. cbv beta.
  fold source. change (is_locked _ source _) with locked.
  destruct locked; [intros [= <- <-]; by left|]. cbv iota.
  set (s1 := tick _ _ s). specialize (Hfl s1). unfold keeps in Hfl. simpl in Hfl.
  destruct (authenticate headers s1) as [[device|reason] s2] eqn:Ea;
    injection Hfl as Hfl Hclock Hreads.
  - erewrite se_bind_eq by (unfold se_try; by rewrite Ea). intros [= <- <-]. split_and!; try done.
    + by apply authenticate_ok in Ea.
    + cbn. by rewrite Hfl.
  - erewrite se_bind_eq by (unfold se_try; by rewrite Ea). cbv beta iota.
    erewrite se_bind_eq by reflexivity.
    match goal with |- context [audit_record ?entry] => set (e := entry) end.
    match goal with |- context [(_ ;; _) ?s0] =>
      destruct (audit_record_run (E := Response) e s0) as (s3 & Hrun3 & (_ & _ & _ & _ & _) & _ & Hl3) end.
    erewrite se_bind_eq by exact Hrun3. intros [= <- <-]. right. split; [done|].
    split; [|split; [done|]].
    + rewrite Hl3. cbn. by rewrite Hfl, Hclock, Hreads.
    + intros Hf device Hp. pose proof (authenticate_complete headers s1 device Hf Hp) as Hok.
      by rewrite Ea in Hok.
Qed.

(** C29: what the frames of an attached device can change.  A desktop's frames leave the routing table
    exactly as it is.  A relay's frames never take a directly attached device over or remove it, route
    whatever is new through the tunnel they came in on, by a chain shorter than the budget that this
    relay is not part of, and queue messages for no other tunnel; the database, the lockouts and the
    upstream link are not touched. *)
Theorem frames_confined (E : Type) (handle : TunnelHandle) (kind : DeviceKind)
    (events : list ReaderEvent) (s : RelayState) :
  let s' := snd (read_frames (E := E) handle kind events s) in
  (kind = DeviceKind_Desktop -> rs_registry s' = rs_registry s)
  /\ (forall id e, reg_entries (rs_registry s) !! id = Some e -> attached e ->
        reg_entries (rs_registry s') !! id = Some e)
  /\ (forall id e, reg_entries (rs_registry s') !! id = Some e ->
        reg_entries (rs_registry s) !! id = Some e
        \/ en_origin e = Origin_Announced (th_device_id handle)
           /\ exists via, od_route (en_device e) = Route_Via handle via
                /\ reg_relay_id (rs_registry s) ∉ via /\ length via < MAX_HOPS)
  /\ (forall channel, channel <> th_channel handle ->
        rs_channels s' !! channel = rs_channels s !! channel)
  /\ rs_database s' = rs_database s /\ rs_lockout s' = rs_lockout s /\ rs_upstream s' = rs_upstream s.
Proof.
  intros s'. destruct (read_frames_frame (E := E) handle kind events s)
    as ((_ & _ & Hdirect & Hnew) & Hdb & Hlock & Hup & Hch).
  split; [intros ->; apply desktop_frames_registry|]. by split_and!.
Qed.

(** C30: a session leaves nothing behind.  A connection whose handshake is refused changes nothing at
    all.  An accepted one is registered under a serial, and when it ends, for whatever reason and whatever
    happened to the relay since, its channel is gone; if the device is still registered under that serial, its
    route and everything announced in its name go too, and every other entry stays exactly as it is at that
    moment; if it is not - the device has reconnected, or was disconnected already - the table is not touched,
    so that the new connection keeps its routes.  When nothing else happens in between, no route is there
    afterwards that was not there before, whatever the session's frames announced, and every other attached
    device is still routed as it was. *)
Theorem session_leaves_no_route (E : Type) (device : DeviceRecord) (peer : string) (channel : nat) (s : RelayState) :
  let handle := mkTunnelHandle (dv_id device) channel in
  (forall hello opened registration s1,
     open_session (E := E) device peer hello channel s = (Ok (opened, registration), s1) ->
     opened = handle /\ registered_under (rg_serial registration) (dv_id device) (rs_registry s1))
  /\ (forall registration cause,
        let s' := snd (close_session (E := E) device peer handle registration cause s) in
        let current := registered_under (rg_serial registration) (dv_id device) (rs_registry s) in
        rs_channels s' !! channel = None
        /\ (current ->
            route (rs_registry s') (dv_id device) = None
            /\ forall id, reg_entries (rs_registry s') !! id =
                 if decide (id = dv_id device) then None
                 else match reg_entries (rs_registry s) !! id with
                      | Some e => if announced_by (dv_id device) e then None else Some e
                      | None => None
                      end)
        /\ (~ current -> rs_registry s' = rs_registry s))
  /\ (forall first sent events s' messages cause,
        run_session (E := E) device peer channel first sent events s = (Ok (messages, cause), s') ->
        (snd (accept_hello s device first sent) = None -> s' = s)
        /\ (is_Some cause ->
            route (rs_registry s') (dv_id device) = None
            /\ (forall id e, reg_entries (rs_registry s') !! id = Some e -> announced_by (dv_id device) e = false)
            /\ rs_channels s' !! channel = None
            /\ reg_entries (rs_registry s') ⊆ reg_entries (rs_registry s)
            /\ (forall id e, id <> dv_id device -> reg_entries (rs_registry s) !! id = Some e -> attached e ->
                  reg_entries (rs_registry s') !! id = Some e))).
Proof.
  intros handle. split; [|split].
  - intros hello opened registration s1 (-> & e & _ & Ho & He & _)%open_session_ok. split; [done|].
    unfold registered_under. by rewrite He, lookup_insert_eq; simpl; rewrite Ho.
  - intros registration cause s' current.
    destruct (close_session_registry (E := E) device peer handle registration cause s) as [Hreg Hchan].
    split; [exact Hchan|]. unfold s'. rewrite Hreg. apply disconnect_by_serial.
  - intros first sent events s' messages cause Hrun. by eapply run_session_alone.
Qed.

(** C31: what a revocation puts on the wire, whose socket takes every message.  As long as the tunnel's queue
    has room for two more messages, the device is told why and the connection is closed with the revocation's
    code, in this order and after everything queued before.  When the queue has room for one message only, the
    device is told but the connection is not closed; when it is full, nothing at all is sent and the revoked
    device stays attached.  This is so of a tunnel that is not being closed yet: behind a close that is already
    queued a revocation changes nothing on the wire, the device hears that close and not that it was revoked. *)
Theorem revocation_on_the_wire (handle : TunnelHandle) (reason : string) (chans : Channels)
    (queue : list Outgoing) :
  chans !! th_channel handle = Some queue ->
  let after := queued (revoke_tunnel handle reason chans) (th_channel handle) in
  let before := as_message <$> queue in
  let told := Message_Text (ControlFrame_encode (ControlFrame_Revoked reason)) in
  write_frames (drain after) =
    if forallb is_control queue then
      if length queue + 2 <=? COMMAND_CAPACITY
      then (before ++ [told; Message_Close (Some (CLOSE_REVOKED, reason))], true)
      else if length queue + 1 <=? COMMAND_CAPACITY then (before ++ [told], false)
      else (before, false)
    else write_frames (drain queue).
Proof.
  intros Hq. destruct (forallb is_control queue) eqn:Hc; [by apply revocation_queued|].
  destruct (revoke_tunnel_appends handle reason chans queue Hq) as [rest Ha]. cbv zeta. rewrite Ha.
  by apply write_closed.
Qed.

End theorems.

(** ** Witnesses *)

Definition sample_device_row : DeviceRow :=
  mkDeviceRow "relay" "branch" None "#s" None 1 None None None None "public".

Definition sample_relay_device : DeviceRecord :=
  mkDeviceRecord "dev1" DeviceKind_Relay "branch" None "#s" None 1 None None None None
    DeviceAccess_Public.

Definition sample_tunnel_state : RelayState :=
  sample_state (set_devices (fun _ => {[ "dev1" := sample_device_row ]}) empty_database).

Definition sample_peer : SocketAddr := mkSocketAddr "10.0.0.1" 5000.

Definition sample_bearer : @HeaderMap sample_http := [("authorization", "Bearer dev1.s")].

Lemma tunnel_admission_witness :
  fst (upgrade sample_bearer sample_peer sample_tunnel_state) = Ok (sample_relay_device, "10.0.0.1")
  /\ exists credential row,
       bearer_credential sample_bearer = Some credential
       /\ db_devices (rs_database sample_tunnel_state) !! dc_device_id credential = Some row.
Proof.
  split; [evaluate|].
  destruct (@tunnel_admission sample_protocol sample_platform sample_http sample_json sample_api_json
    sample_bearer sample_peer sample_tunnel_state (snd (upgrade sample_bearer sample_peer sample_tunnel_state))
    (Ok (sample_relay_device, "10.0.0.1"))) as (_ & _ & _ & _ & (c & row & Hc & Hrow & _) & _);
    [apply run_answer; evaluate|].
  exists c, row. split; [exact Hc|exact Hrow].
Defined.

(** A branch relay attaches, announces a desktop and hangs up. *)
Definition sample_hello : Message :=
  Message_Text (ControlFrame_encode (ControlFrame_Hello 1 DeviceKind_Relay "0.10.2" "branch" (Some "relay-b"))).

Definition sample_events : list ReaderEvent :=
  [ReaderEvent_Message (Message_Text (ControlFrame_encode
     (ControlFrame_Announce [mkAnnouncedDevice "desk" "Desk" true ["relay-b"]]))) true;
   ReaderEvent_Message Message_Ping true;
   ReaderEvent_Message (Message_Close None) true].

Lemma session_leaves_no_route_witness :
  let run := run_session (E := unit) sample_relay_device "10.0.0.1" 7 (Some sample_hello) true sample_events
               sample_tunnel_state in
  snd <$> ok (fst run) = Some (Some CloseCause_PeerClosed)
  /\ route (rs_registry (snd run)) "dev1" = None
  /\ reg_entries (rs_registry (snd run)) ⊆ ∅.
Proof.
  intros run. split; [evaluate|].
  destruct (@session_leaves_no_route sample_protocol sample_json unit sample_relay_device "10.0.0.1" 7
    sample_tunnel_state) as (_ & _ & Halone).
  destruct (Halone (Some sample_hello) true sample_events (snd run)
    (default [] (fst <$> ok (fst run))) (Some CloseCause_PeerClosed)) as [_ Hleft].
  - apply (run_answer run). evaluate.
  - destruct Hleft as (Hroute & _ & _ & Hsub & _); [by eexists|]. split; [exact Hroute|exact Hsub].
Defined.

Lemma revocation_witness :
  write_frames (drain (queued (revoke_tunnel (mkTunnelHandle "dev1" 7) "gone"
    {[ 7 := replicate 64 (Outgoing_Control ControlFrame_Pong) ]}) 7))
  = (replicate 64 (Message_Text (ControlFrame_encode ControlFrame_Pong)), false).
Proof.
  rewrite (@revocation_on_the_wire sample_protocol (mkTunnelHandle "dev1" 7) "gone"
    {[ 7 := replicate 64 (Outgoing_Control ControlFrame_Pong) ]}
    (replicate 64 (Outgoing_Control ControlFrame_Pong))); [|reflexivity].
  evaluate.
Defined.
