(* ===== verification/UpstreamSession.v ===== *)
(** * [src/upstream/session.rs], [src/upstream/enroll.rs], [src/upstream/mod.rs]: the link upwards

    One session of this relay as a device of another relay, the supervisor that runs one session after
    another, and how a link is set up, resumed and taken down.  The socket, the clock of the [select!]
    and the HTTP client are the environment: an attempt says what each of them answers, a session is a
    function of what it meets, in the order it meets it. *)

From S2P Require Import Prelude.
From S2P Require Import RustStr.
From S2P Require Import Protocol.
From S2P Require Import Handle.
From S2P Require Import Registry.
From S2P Require Import Config.
From S2P Require Import Database.
From S2P Require Import Auth.
From S2P Require Import Address.
From S2P Require Import Http.
From S2P Require Import Upstream.
From S2P Require Import State.
From S2P Require Import ApiError.
From S2P Require Import Tunnel.

(** ** Constants *)

(** Milliseconds. *)
Definition ENROLL_TIMEOUT : Z := 20000.
Definition SOCKET_CLOSED : string := "与上游中继的连接已断开。".
Definition IDLE_MESSAGE : string := "上游隧道空闲超时，已断开重连。".
Definition MULTIPLEXER_CLOSED : string := "上游隧道多路复用已结束。".
Definition WELCOME_TIMEOUT : string := "上游中继未在规定时间内完成握手。".
Definition UNEXPECTED_HANDSHAKE : string := "上游中继在握手阶段发送了意外的帧。".
Definition CREDENTIAL_NOT_A_HEADER : string := "上游设备凭据无法放入请求头。".
Definition REGISTRY_CLOSED : string := "本中继的路由表已停止发布变更。".
Definition LOOP_DETECTED : string := "上游中继链里已经包含本中继，接入会形成环路。".
Definition UNREACHABLE : string := "无法连接上游中继：".
Definition STORE_FAILED : string := "无法保存上游中继配置：".
Definition CLIENT_FAILED : string := "无法创建上游中继请求客户端：".
Definition UNREADABLE_RESPONSE : string := "无法读取上游中继的响应：".
Definition MALFORMED_RESPONSE : string := "上游中继返回了无法解析的接入响应：".

(** What the WebSocket client and the JSON decoder answer. *)
Class ClientCrate `{HttpCrate} : Type := {
  (* [IntoClientRequest], for the headers of the request *)
  into_client_request : string -> result string HeaderMap;
  (* the [Display] of [Error::Http] *)
  http_error_to_string : Z -> string;
  (* the [Display] of the error [ControlFrame::decode] answers *)
  decode_error : string -> string;
  (* [serde_json] on [EnrollResponse] and on the body of a refusal *)
  enroll_response_from_json : string -> result string EnrollResponse;
  upstream_failure_from_json : string -> result string string;
}.

Record Welcome : Type := mkWelcome {
  we_device_id : string;
  we_relay_id : string;
  we_addresses : list RelayAddress;
  we_chain : list string;
}.

(** The errors of the upgrade the source tells apart: an HTTP answer, or anything else. *)
Inductive TungsteniteError : Type :=
| TungsteniteError_Http (status : Z)
| TungsteniteError_Other (message : string).

(** What the [select!] of [pump] meets next.  [sent] is what the socket makes of the frame the branch
    sends, if it sends one. *)
Inductive PumpEvent : Type :=
| PumpEvent_Idle
| PumpEvent_Keepalive (sent : result string unit)
| PumpEvent_Change (change : RegistryChange) (sent : result string unit)
| PumpEvent_Lagged (sent : result string unit)
| PumpEvent_RegistryClosed
| PumpEvent_Outbound (payload : option string) (sent : result string unit)
| PumpEvent_End
| PumpEvent_ReadError (error : string)
| PumpEvent_Message (message : Message) (inbound_open : bool) (sent : result string unit).

(** One connection attempt, as the network plays it.  [at_connect] is [connect_async_tls_with_config] under
    the connector it is given, [None] being the platform's own root store. *)
Record Attempt : Type := mkAttempt {
  at_provider : CryptoProvider;
  at_connect : option ClientConfig -> result TungsteniteError unit;
  at_hello : result string unit;
  (* the messages up to the first control frame; [None] is [HELLO_TIMEOUT] *)
  at_welcome : option (list (result string Message));
  at_snapshot : result string unit;
  at_events : list PumpEvent;
}.

(** [reqwest]'s [ClientBuilder], as far as the relay configures it; a client is what it was built from. *)
Record ClientBuilder : Type := mkClientBuilder {
  cb_timeout : Z;
  cb_tls : option ClientConfig;
}.

Definition tls_backend_preconfigured (tls : ClientConfig) (builder : ClientBuilder) : ClientBuilder :=
  mkClientBuilder (cb_timeout builder) (Some tls).

(** The HTTP client: whether one can be built, and what a client makes of a [POST] of JSON to an address: an
    error, or a status with the outcome of reading the body. *)
Record Exchange : Type := mkExchange {
  ex_provider : CryptoProvider;
  ex_build : ClientBuilder -> result string unit;
  ex_send : ClientBuilder -> string -> EnrollRequest -> result string (Z * result string string);
}.

Section session.
Context `{Protocol} `{HttpCrate} `{!ClientCrate} `{JsonCodec}.

(** ** [session.rs]: the handshake *)

(** [response.status().is_client_error()]. *)
Definition is_client_error (status : Z) : bool := (400 <=? status)%Z && (status <? 500)%Z.

Definition connect_failure (error : TungsteniteError) : SessionEnd :=
  match error with
  | TungsteniteError_Http status =>
      if is_client_error status
      then SessionEnd_Refused ("上游中继拒绝了本中继的接入（HTTP " +:+ pretty status +:+ "）。")
      else SessionEnd_Interrupted (UNREACHABLE +:+ http_error_to_string status)
  | TungsteniteError_Other message => SessionEnd_Interrupted (UNREACHABLE +:+ message)
  end.

Definition tunnel_request (settings : UpstreamSettings) : result string HeaderMap :=
  headers ← map_err (fun error => "上游中继地址无法用于隧道：" +:+ error)
              (into_client_request (tunnel_url settings));
  credential ← ok_or CREDENTIAL_NOT_A_HEADER
                 (header_value_from_str ("Bearer " +:+ up_credential settings));
  Ok (header_insert AUTHORIZATION credential headers).

(** The connection, with the headers the upgrade went out with. *)
Definition connect_upstream (settings : UpstreamSettings) (attempt : Attempt)
    : result SessionEnd HeaderMap :=
  headers ← map_err SessionEnd_Interrupted (tunnel_request settings);
  let connector := client_config (at_provider attempt) (up_certificate_fingerprint settings) in
  map_err connect_failure (at_connect attempt connector) ≫= fun _ => Ok headers.

Definition hello_frame (state : RelayState) : ControlFrame :=
  ControlFrame_Hello PROTOCOL_VERSION DeviceKind_Relay RELAY_VERSION (pu_host (public_url state))
    (Some (rs_relay_id state)).

Definition send_control (frame : ControlFrame) (sent : result string unit)
    : list Message * option SessionEnd :=
  match sent with
  | Ok _ => ([Message_Text (ControlFrame_encode frame)], None)
  | Err error => ([], Some (SessionEnd_Interrupted ("无法向上游中继发送控制帧：" +:+ error)))
  end.

Definition close_reason (frame : option (Z * string)) : SessionEnd :=
  match frame with
  | None => SessionEnd_Interrupted SOCKET_CLOSED
  | Some (code, reason) =>
      if (code =? CLOSE_REVOKED)%Z then SessionEnd_Revoked reason
      else if (code =? CLOSE_UNAUTHORIZED)%Z then SessionEnd_Refused reason
      else SessionEnd_Interrupted ("上游中继关闭了隧道：" +:+ reason)
  end.

Definition decode_control (text : string) : result SessionEnd ControlFrame :=
  ok_or (SessionEnd_Interrupted ("上游控制帧无法解析：" +:+ decode_error text)) (ControlFrame_decode text).

Definition read_failure (error : string) : SessionEnd :=
  SessionEnd_Interrupted ("上游隧道读取失败：" +:+ error).

Fixpoint next_control_frame (incoming : list (result string Message)) : result SessionEnd ControlFrame :=
  match incoming with
  | [] => Err (SessionEnd_Interrupted SOCKET_CLOSED)
  | Ok (Message_Text text) :: _ => decode_control text
  | Ok (Message_Close frame) :: _ => Err (close_reason frame)
  | Ok _ :: rest => next_control_frame rest
  | Err error :: _ => Err (read_failure error)
  end.

Definition await_welcome (incoming : option (list (result string Message))) : result SessionEnd Welcome :=
  match incoming with
  | None => Err (SessionEnd_Interrupted WELCOME_TIMEOUT)
  | Some messages =>
      frame ← next_control_frame messages;
      match frame with
      | ControlFrame_Welcome device_id relay_id addresses chain =>
          Ok (mkWelcome device_id relay_id addresses chain)
      | ControlFrame_AuthFailed reason => Err (SessionEnd_Refused reason)
      | ControlFrame_Revoked reason => Err (SessionEnd_Revoked reason)
      | _ => Err (SessionEnd_Interrupted UNEXPECTED_HANDSHAKE)
      end
  end.

Definition refuse_loop (state : RelayState) (welcome : Welcome) : option SessionEnd :=
  if String.eqb (we_relay_id welcome) (rs_relay_id state)
     || existsb (fun relay => String.eqb relay (rs_relay_id state)) (we_chain welcome)
  then Some (SessionEnd_Looped LOOP_DETECTED)
  else None.

(** ** What the link contributes while it is up *)

(** [publish_addresses] as a step: the channels after the pushes. *)
Definition push_addresses {E} : App E unit := se_modify (fun s => put_channels (publish_addresses s) s).

Definition record_connected {E} (settings : UpstreamSettings) (relay_id : string) : App E unit :=
  audit_record
    (detail "url" (Value_String (up_url settings))
       (on_target target.RELAY relay_id (by_system action.UPSTREAM_CONNECTED))).

Definition record_disconnected {E} (settings : UpstreamSettings) (reason : string) : App E unit :=
  audit_record
    (detail "reason" (Value_String reason)
       (detail "url" (Value_String (up_url settings)) (by_system action.UPSTREAM_DISCONNECTED))).

Definition adopt {E} (settings : UpstreamSettings) (welcome : Welcome) : App E unit :=
  on_upstream (set_reach (from_welcome (we_device_id welcome) (we_relay_id welcome)
                            (we_addresses welcome) (we_chain welcome))) ;;
  on_upstream (set_connected (we_relay_id welcome)) ;;
  record_connected settings (we_relay_id welcome) ;;
  push_addresses.

Definition withdraw {E} (settings : UpstreamSettings) (reason : string) : App E unit :=
  on_upstream clear_reach ;;
  record_disconnected settings reason ;;
  push_addresses.

(** ** The announcements *)

Definition is_routable_for (upstream_relay_id : string) (device : AnnouncedDevice) : bool :=
  negb (existsb (fun hop => String.eqb hop upstream_relay_id) (ad_via device)).

Definition snapshot_frame (state : RelayState) (upstream_relay_id : string) : ControlFrame :=
  ControlFrame_Announce
    (List.filter (is_routable_for upstream_relay_id) (announcements (rs_registry state))).

Definition announcement_frame (change : RegistryChange) (upstream_relay_id : string)
    : option ControlFrame :=
  match change with
  | RegistryChange_Online device =>
      if negb (is_routable_for upstream_relay_id device) then None
      else Some (ControlFrame_DeviceOnline (ad_id device) (ad_name device) (ad_via device))
  | RegistryChange_Offline device_id => Some (ControlFrame_DeviceOffline device_id)
  end.

(** ** The pump *)

(** A branch of the pump: what it sent, and the reason the session should end. *)
Abbreviation Branch E := (App E (list Message * option SessionEnd)).

Definition handle_control {E} (text : string) (welcome : Welcome) (sent : result string unit) : Branch E :=
  match ControlFrame_decode text with
  | None => mret ([], None)
  | Some frame =>
      match frame with
      | ControlFrame_Addresses addresses =>
          on_upstream (set_reach (from_welcome (we_device_id welcome) (we_relay_id welcome) addresses
                                    (we_chain welcome))) ;;
          push_addresses ;;
          mret ([], None)
      | ControlFrame_Revoked reason => mret ([], Some (SessionEnd_Revoked reason))
      | ControlFrame_AuthFailed reason => mret ([], Some (SessionEnd_Refused reason))
      | ControlFrame_Ping => mret (send_control ControlFrame_Pong sent)
      | _ => mret ([], None)
      end
  end.

Definition handle_message {E} (message : Message) (inbound_open : bool) (welcome : Welcome)
    (sent : result string unit) : Branch E :=
  match message with
  | Message_Text text => handle_control text welcome sent
  | Message_Binary _ =>
      mret ([], if inbound_open then None else Some (SessionEnd_Interrupted MULTIPLEXER_CLOSED))
  | Message_Close frame => mret ([], Some (close_reason frame))
  | _ => mret ([], None)
  end.

Definition pump_event {E} (welcome : Welcome) (event : PumpEvent) : Branch E :=
  match event with
  | PumpEvent_Idle => mret ([], Some (SessionEnd_Interrupted IDLE_MESSAGE))
  | PumpEvent_Keepalive sent => mret (send_control ControlFrame_Ping sent)
  | PumpEvent_Change change sent =>
      mret (match announcement_frame change (we_relay_id welcome) with
            | Some frame => send_control frame sent
            | None => ([], None)
            end)
  | PumpEvent_Lagged sent =>
      frame ← se_get (fun s => snapshot_frame s (we_relay_id welcome));
      mret (send_control frame sent)
  | PumpEvent_RegistryClosed => mret ([], Some (SessionEnd_Interrupted REGISTRY_CLOSED))
  | PumpEvent_Outbound None _ => mret ([], Some (SessionEnd_Interrupted MULTIPLEXER_CLOSED))
  | PumpEvent_Outbound (Some payload) sent =>
      mret (match sent with
            | Ok _ => ([Message_Binary payload], None)
            | Err error => ([], Some (SessionEnd_Interrupted ("无法向上游中继发送数据：" +:+ error)))
            end)
  | PumpEvent_End => mret ([], Some (SessionEnd_Interrupted SOCKET_CLOSED))
  | PumpEvent_ReadError error => mret ([], Some (read_failure error))
  | PumpEvent_Message message inbound_open sent => handle_message message inbound_open welcome sent
  end.

(** The loop; [None] when the events run out first. *)
Fixpoint pump_loop {E} (welcome : Welcome) (events : list PumpEvent) : Branch E :=
  match events with
  | [] => mret ([], None)
  | event :: rest =>
      branch ← pump_event welcome event;
      match snd branch : option SessionEnd with
      | Some reason => mret (fst branch, Some reason)
      | None => others ← pump_loop welcome rest; mret (fst branch ++ fst others, snd others)
      end
  end.

Definition pump {E} (welcome : Welcome) (sent : result string unit) (events : list PumpEvent) : Branch E :=
  frame ← se_get (fun s => snapshot_frame s (we_relay_id welcome));
  let '(first, failure) := send_control frame sent in
  match failure with
  | Some reason => mret (first, Some reason)
  | None => others ← pump_loop welcome events; mret (first ++ fst others, snd others)
  end.

(** [run]; the outcome is [None] when the events run out first, which is the session being cancelled. *)
Definition run {E} (settings : UpstreamSettings) (attempt : Attempt)
    : App E (list Message * option SessionOutcome) :=
  match connect_upstream settings attempt with
  | Err reason => mret ([], Some (failed reason))
  | Ok _ =>
      hello ← se_get hello_frame;
      let '(greeting, failure) := send_control hello (at_hello attempt) in
      match failure with
      | Some reason => mret (greeting, Some (failed reason))
      | None =>
          match await_welcome (at_welcome attempt) with
          | Err reason => mret (greeting, Some (failed reason))
          | Ok welcome =>
              loop ← se_get (fun s => refuse_loop s welcome);
              match loop : option SessionEnd with
              | Some reason => mret (greeting, Some (failed reason))
              | None =>
                  adopt settings welcome ;;
                  served ← pump welcome (at_snapshot attempt) (at_events attempt);
                  match snd served : option SessionEnd with
                  | None => mret (greeting ++ fst served, None)
                  | Some reason =>
                      withdraw settings (message reason) ;;
                      mret (greeting ++ fst served, Some (mkSessionOutcome true reason))
                  end
              end
          end
      end
  end.

(** ** The supervisor ([mod.rs]) *)

Definition url_detail (settings : UpstreamSettings) (entry : AuditEntry) : AuditEntry :=
  detail "url" (Value_String (up_url settings)) entry.

Context `{SettingsCodec}.

Definition forget {E} (settings : UpstreamSettings) (reason : string) : App E unit :=
  audit_record
    (detail "reason" (Value_String reason)
       (url_detail settings (by_system action.UPSTREAM_REVOKED))) ;;
  se_try (database clear) ;;
  on_upstream clear_reach ;;
  on_upstream (set_status (fun _ => None)) ;;
  push_addresses.

(** One round: the attempt, and whether the pause after it ran its course; the list running out, and a
    pause cut short, is the link being cancelled.  The answer is the decision the task ended with. *)
Fixpoint supervise_loop {E} (settings : UpstreamSettings) (backoff : Backoff)
    (rounds : list (Attempt * bool)) : App E (option SupervisorStep) :=
  on_upstream (set_connecting (up_url settings)) ;;
  match rounds with
  | [] => mret None
  | (attempt, slept) :: rest =>
      served ← run settings attempt;
      match snd served : option SessionOutcome with
      | None => mret None
      | Some outcome =>
          let reason := message (so_end outcome) in
          let '(step, backoff) := next_step outcome backoff in
          match step with
          | SupervisorStep_Revoked => forget settings reason ;; mret (Some step)
          | SupervisorStep_Looped =>
              audit_record (url_detail settings (by_system action.UPSTREAM_LOOP_REFUSED)) ;;
              on_upstream (set_error reason) ;;
              mret (Some step)
          | SupervisorStep_Stop => on_upstream (set_error reason) ;; mret (Some step)
          | SupervisorStep_RetryAfter _ =>
              on_upstream (set_error reason) ;;
              if (slept : bool) then supervise_loop settings backoff rest else mret None
          end
      end
  end.

Definition supervise {E} (settings : UpstreamSettings) (rounds : list (Attempt * bool))
    : App E (option SupervisorStep) := supervise_loop settings Backoff_new rounds.

(** ** Setting a link up and taking it down *)

Definition link_name (requested : option string) : SE Database string string :=
  match (name ← trim <$> requested; if is_empty name then None else Some name) with
  | Some name => mret name
  | None =>
      stored ← se_try (read_setting SETTING_PUBLIC_URL);
      mret (default DEFAULT_LINK_NAME
        (text ← ok stored ≫= id; origin ← ok (PublicUrl_from_str text); Some (pu_host origin)))
  end.

Definition describe_failure (status : Z) (body : string) : string :=
  default ("上游中继拒绝了接入请求（HTTP " +:+ pretty status +:+ "）。")
    (ok (upstream_failure_from_json body)).

Definition is_success (status : Z) : bool := (200 <=? status)%Z && (status <? 300)%Z.

Definition build_client (exchange : Exchange) (certificate_fingerprint : option string)
    : result string ClientBuilder :=
  let builder := mkClientBuilder ENROLL_TIMEOUT None in
  let builder :=
    match client_config (ex_provider exchange) certificate_fingerprint with
    | Some tls => tls_backend_preconfigured tls builder
    | None => builder
    end in
  map_err (fun error => CLIENT_FAILED +:+ error) (ex_build exchange builder) ≫= fun _ => Ok builder.

Definition request_credential (exchange : Exchange) (enroll_url : string)
    (certificate_fingerprint : option string) (code name : string) : result string EnrollResponse :=
  let request := EnrollRequest_Code (trim code) name in
  client ← build_client exchange certificate_fingerprint;
  response ← map_err (fun error => UNREACHABLE +:+ error) (ex_send exchange client enroll_url request);
  let '(status, body) := response in
  text ← map_err (fun error => UNREADABLE_RESPONSE +:+ error) body;
  if negb (is_success status) then Err (describe_failure status text)
  else map_err (fun error => MALFORMED_RESPONSE +:+ error) (enroll_response_from_json text).

Definition join (exchange : Exchange) (url code name : string) (certificate_fingerprint : option string)
    : App string UpstreamSettings :=
  origin ← se_lift (map_err ConfigError_to_string (PublicUrl_from_str url));
  response ← se_lift (request_credential exchange (pu_origin origin +:+ ENROLL_PATH)
                        certificate_fingerprint code name);
  settings ← se_lift (build (pu_origin origin) (Protocol.er_credential response) certificate_fingerprint);
  now ← now_millis;
  se_map_err (fun error => STORE_FAILED +:+ DatabaseError_to_string error)
    (database (store now settings)) ;;
  mret settings.

Definition establish (exchange : Exchange) (url code name : string)
    (certificate_fingerprint actor_user_id : option string) : App string UpstreamSettings :=
  settings ← join exchange url code name certificate_fingerprint;
  let entry :=
    match actor_user_id with
    | Some user_id => by_user user_id action.UPSTREAM_LINKED
    | None => by_system action.UPSTREAM_LINKED
    end in
  audit_record
    (detail "pinned" (Value_Bool (bool_decide (is_Some (up_certificate_fingerprint settings))))
       (url_detail settings entry)) ;;
  mret settings.

Definition connect (exchange : Exchange) (url code : string) (certificate_fingerprint : option string)
    (actor_user_id : string) : App string UpstreamView :=
  name ← se_get (fun s => pu_host (public_url s));
  settings ← establish exchange url code name certificate_fingerprint (Some actor_user_id);
  on_upstream (start settings) ;;
  status ← se_get (fun s => view (rs_upstream s));
  se_lift (ok_or NO_UPSTREAM status).

(** [None] is a stored value that no longer parses, or a read that failed. *)
Definition resume {E} : App E (option (option UpstreamSettings)) :=
  loaded ← se_try (se_zoom rs_database put_database load);
  match loaded : result string (option UpstreamSettings) with
  | Ok (Some settings) => on_upstream (start settings) ;; mret (Some (Some settings))
  | Ok None => mret (Some None)
  | Err _ => mret None
  end.

Definition disconnect (actor_user_id : string) : App string unit :=
  previous ← se_get (fun s => view (rs_upstream s));
  on_upstream stop ;;
  push_addresses ;;
  se_map_err DatabaseError_to_string (database clear) ;;
  audit_record
    (detail "url" (Value_String (default EmptyString (uv_url <$> (previous : option UpstreamView))))
       (by_user actor_user_id action.UPSTREAM_UNLINKED)).

End session.
