(* ===== verification/UpstreamTheorems.v ===== *)
(** * What the link to an upstream relay guarantees

    The theorems about [UpstreamSession]: the loop guard, what a session offers the upstream, what it
    leaves behind and when the supervisor gives up. *)

From S2P Require Import Prelude.
From S2P Require Import RustStr.
From S2P Require Import Protocol.
From S2P Require Import Handle.
From S2P Require Import Registry.
From S2P Require Import Config.
From S2P Require Import Database.
From S2P Require Import Auth.
From S2P Require Import Address.
From S2P Require Import Http.
From S2P Require Import Upstream.
From S2P Require Import State.
From S2P Require Import Access.
From S2P Require Import ApiError.
From S2P Require Import Tunnel.
From S2P Require Import UpstreamSession.

(** ** What is meant *)

Section definitions.
Context `{Protocol} `{HttpCrate} `{!ClientCrate}.

Definition reach (s : RelayState) : UpstreamReach := ul_reach (rs_upstream s).

(** The devices a text frame puts on offer. *)
Definition offered (text : string) : list AnnouncedDevice :=
  match ControlFrame_decode text with
  | Some (ControlFrame_Announce devices) => devices
  | Some (ControlFrame_DeviceOnline id name via) => [mkAnnouncedDevice id name true via]
  | _ => []
  end.

(** A message a session may send an upstream with the given id. *)
Definition loop_free_message (upstream_relay_id : string) (m : Message) : Prop :=
  match m with
  | Message_Text text => forall device, device ∈ offered text -> upstream_relay_id ∉ ad_via device
  | _ => True
  end.

(** What a running session may do to the state, for a welcome with the given chain. *)
Definition serving (joined : list string) (s s' : RelayState) : Prop :=
  rs_registry s' = rs_registry s /\ rs_relay_id s' = rs_relay_id s /\ stored s' = stored s
  /\ ul_status (rs_upstream s') = ul_status (rs_upstream s)
  /\ (reach_chain (reach s) = joined -> reach_chain (reach s') = joined).

#[global] Instance serving_preorder joined : PreOrder (serving joined).
Proof.
  split; [intros s; by split_and!|].
  intros s1 s2 s3 (?&?&?&?&?) (?&?&?&?&?). split_and!; try congruence. auto.
Qed.

End definitions.

(** ** Lemmas: what a session leaves alone *)

#[export] Hint Extern 1 (preserves (keeps stored) (on_upstream _)) => other_part : frame.
#[export] Hint Extern 1 (preserves (keeps stored) push_addresses) => other_part : frame.

#[export] Hint Extern 1 (preserves stays_healthy (on_upstream _)) =>
  (let s := fresh in let H := fresh in intros s H; exact H) : frame.
#[export] Hint Extern 1 (preserves stays_healthy push_addresses) =>
  (let s := fresh in let H := fresh in intros s H; exact H) : frame.

Section session.
Context `{Protocol} `{HttpCrate} `{!ClientCrate} `{JsonCodec}.

Lemma set_reach_serving {E} (welcome : Welcome) addresses :
  preserves (serving (we_relay_id welcome :: we_chain welcome))
    (on_upstream (E := E) (set_reach (from_welcome (we_device_id welcome) (we_relay_id welcome)
                                        addresses (we_chain welcome)))).
Proof. intros s. by split_and!. Qed.

Lemma push_addresses_serving {E} joined : preserves (serving joined) (push_addresses (E := E)).
Proof. intros s. by split_and!. Qed.

Hint Resolve set_reach_serving push_addresses_serving : frame.

Lemma pump_event_serving {E} welcome event :
  preserves (serving (we_relay_id welcome :: we_chain welcome)) (pump_event (E := E) welcome event).
Proof. destruct event; unfold pump_event, handle_message, handle_control; frame. Qed.

Hint Resolve pump_event_serving : frame.

Lemma pump_loop_serving {E} welcome events :
  preserves (serving (we_relay_id welcome :: we_chain welcome)) (pump_loop (E := E) welcome events).
Proof. induction events as [|event rest IH]; cbn [pump_loop]; frame. Qed.

Hint Resolve pump_loop_serving : frame.

Lemma pump_serving {E} welcome sent events :
  preserves (serving (we_relay_id welcome :: we_chain welcome)) (pump (E := E) welcome sent events).
Proof. unfold pump. frame. Qed.

Lemma adopt_effect {E} settings welcome (s : RelayState) :
  exists s', adopt (E := E) settings welcome s = (Ok tt, s')
    /\ reach s' = from_welcome (we_device_id welcome) (we_relay_id welcome) (we_addresses welcome)
                    (we_chain welcome)
    /\ ul_status (rs_upstream s') = ul_status (set_connected (we_relay_id welcome) (rs_upstream s))
    /\ rs_registry s' = rs_registry s /\ rs_relay_id s' = rs_relay_id s /\ stored s' = stored s.
Proof.
  unfold adopt, record_connected. do 2 (erewrite se_bind_eq by reflexivity).
  match goal with |- context [audit_record ?e] => set (entry := e) end.
  match goal with |- context [(_ ;; _) ?s0] =>
    destruct (audit_record_run (E := E) entry s0) as (s3 & Hrun & (Hr & Hi & _ & Hu & _) & Hst & _) end.
  erewrite se_bind_eq by exact Hrun. eexists. split; [reflexivity|].
  unfold reach. cbn. rewrite Hu, Hr, Hi. by split_and!.
Qed.

Lemma withdraw_effect {E} settings reason (s : RelayState) :
  exists s', UpstreamSession.withdraw (E := E) settings reason s = (Ok tt, s')
    /\ reach s' = UpstreamReach_default /\ ul_status (rs_upstream s') = ul_status (rs_upstream s)
    /\ rs_registry s' = rs_registry s /\ rs_relay_id s' = rs_relay_id s /\ stored s' = stored s.
Proof.
  unfold UpstreamSession.withdraw, record_disconnected. erewrite se_bind_eq by reflexivity.
  match goal with |- context [audit_record ?e] => set (entry := e) end.
  match goal with |- context [(_ ;; _) ?s0] =>
    destruct (audit_record_run (E := E) entry s0) as (s3 & Hrun & (Hr & Hi & _ & Hu & _) & Hst & _) end.
  erewrite se_bind_eq by exact Hrun. eexists. split; [reflexivity|].
  unfold reach. cbn. rewrite Hu, Hr, Hi. by split_and!.
Qed.

(** The two kinds of session: one that never got in and changed nothing, and one that joined. *)
Lemma run_cases {E} settings attempt (s s' : RelayState) messages outcome :
  run (E := E) settings attempt s = (Ok (messages, outcome), s') ->
  (exists reason, outcome = Some (failed reason) /\ s' = s
     /\ forall m, m ∈ messages -> m = Message_Text (ControlFrame_encode (hello_frame s)))
  \/ exists welcome s1 s2 sent,
       await_welcome (at_welcome attempt) = Ok welcome
       /\ refuse_loop s welcome = None
       /\ adopt (E := E) settings welcome s = (Ok tt, s1)
       /\ pump (E := E) welcome (at_snapshot attempt) (at_events attempt) s1 = (Ok sent, s2)
       /\ messages = Message_Text (ControlFrame_encode (hello_frame s)) :: fst sent
       /\ match snd sent with
          | None => outcome = None /\ s' = s2
          | Some reason =>
              outcome = Some (mkSessionOutcome true reason)
              /\ UpstreamSession.withdraw (E := E) settings (message reason) s2 = (Ok tt, s')
          end.
Proof.
  unfold run. destruct (connect_upstream _ _) as [headers|reason].
  2:{ intros [= <- <- <-]. left. exists reason. split_and!; try done. by intros m ?%not_elem_of_nil. }
  erewrite se_bind_eq by reflexivity. unfold send_control at 1.
  destruct (at_hello attempt) as [[]|error].
  2:{ intros [= <- <- <-]. left. eexists. split_and!; try done. by intros m ?%not_elem_of_nil. }
  destruct (await_welcome (at_welcome attempt)) as [welcome|reason] eqn:Ew.
  2:{ intros [= <- <- <-]. left. eexists. split_and!; try done. by intros m ->%list_elem_of_singleton. }
  erewrite se_bind_eq by reflexivity. destruct (refuse_loop s welcome) as [reason|] eqn:El.
  { intros [= <- <- <-]. left. eexists. split_and!; try done. by intros m ->%list_elem_of_singleton. }
  intros (u & s1 & Ha & Hr)%se_bind_ok. destruct u.
  apply se_bind_ok in Hr as (sent & s2 & Hp & Hr). right. exists welcome, s1, s2, sent.
  split; [done|]. split; [done|]. split; [exact Ha|]. split; [exact Hp|].
  destruct (snd sent) as [reason|].
  - apply se_bind_ok in Hr as (u & s3 & Hw & Hr). destruct u. injection Hr as <- <- <-. by split_and!.
  - injection Hr as <- <- <-. by split_and!.
Qed.

End session.

Section more.
Context `{!Protocol} `{!HttpCrate} `{!ClientCrate} `{!JsonCodec} `{!SettingsCodec}.

Lemma refuse_loop_none (s : RelayState) welcome :
  refuse_loop s welcome = None <-> rs_relay_id s ∉ we_relay_id welcome :: we_chain welcome.
Proof.
  unfold refuse_loop. destruct (String.eqb_spec (we_relay_id welcome) (rs_relay_id s)) as [Heq|Hne]; cbn.
  - split; [done|]. rewrite Heq. intros Hn. destruct Hn. by left.
  - destruct (existsb _ _) eqn:Ee.
    + split; [done|]. apply existsb_true_iff in Ee as (r & Hr & Heq%String.eqb_eq).
      intros Hn. destruct Hn. right. by rewrite <- Heq.
    + split; [|done]. intros _. rewrite existsb_false_iff in Ee. rewrite elem_of_cons.
      intros [Heq|Hin]; [by rewrite Heq in Hne|]. specialize (Ee _ Hin). by apply String.eqb_neq in Ee.
Qed.

(** After joining, while the session runs, the chain is the one the welcome named. *)
Lemma joined_reach {E} settings welcome s s1 s2 sent first events :
  adopt (E := E) settings welcome s = (Ok tt, s1) ->
  pump (E := E) welcome first events s1 = (Ok sent, s2) ->
  reach_chain (reach s2) = we_relay_id welcome :: we_chain welcome
  /\ ul_status (rs_upstream s2) = ul_status (set_connected (we_relay_id welcome) (rs_upstream s))
  /\ rs_registry s2 = rs_registry s /\ rs_relay_id s2 = rs_relay_id s /\ stored s2 = stored s.
Proof.
  intros Ha Hp. destruct (adopt_effect (E := E) settings welcome s) as (s1' & Ha' & Hr & Hs & Hg & Hi & Ht).
  rewrite Ha in Ha'. injection Ha' as <-.
  pose proof (pump_serving (E := E) welcome first events s1) as (Hg2 & Hi2 & Ht2 & Hs2 & Hc2).
  rewrite Hp in Hg2, Hi2, Ht2, Hs2, Hc2. cbn in *. split_and!; try congruence.
  apply Hc2. by rewrite Hr.
Qed.

(** Every session leaves the routing table, the stored data and the relay's identity alone; its effect
    on the link is one of three. *)
Lemma run_effect {E} settings attempt (s s' : RelayState) messages outcome :
  run (E := E) settings attempt s = (Ok (messages, outcome), s') ->
  (rs_registry s' = rs_registry s /\ rs_relay_id s' = rs_relay_id s /\ stored s' = stored s)
  /\ match outcome with
     | Some o =>
         if so_connected o
         then reach s' = UpstreamReach_default
              /\ exists id, ul_status (rs_upstream s') = ul_status (set_connected id (rs_upstream s))
         else s' = s
     | None =>
         exists welcome, await_welcome (at_welcome attempt) = Ok welcome
           /\ rs_relay_id s ∉ we_relay_id welcome :: we_chain welcome
           /\ reach_chain (reach s') = we_relay_id welcome :: we_chain welcome
     end.
Proof.
  intros [(reason & -> & -> & _)|(w & s1 & s2 & sent & Hw & Hl & Ha & Hp & _ & Hend)]%run_cases;
    [by split_and!|].
  destruct (joined_reach _ _ _ _ _ _ _ _ Ha Hp) as (Hc & Hs & Hg & Hi & Ht).
  destruct (snd sent) as [reason|].
  - destruct Hend as [-> Hwd].
    destruct (withdraw_effect (E := E) settings (message reason) s2) as (s3 & Hwd' & Hr3 & Hs3 & Hg3 & Hi3 & Ht3).
    rewrite Hwd in Hwd'. injection Hwd' as <-. cbn. split; [split_and!; congruence|].
    split; [done|]. exists (we_relay_id w). by rewrite Hs3, Hs.
  - destruct Hend as [-> ->]. split; [by split_and!|]. exists w. apply refuse_loop_none in Hl. by split_and!.
Qed.

(** ** Lemmas: what a session sends *)

Context `{!ProtocolLaws _}.

Lemma routable_not_in up device : is_routable_for up device = true -> up ∉ ad_via device.
Proof.
  unfold is_routable_for. rewrite negb_true_iff, existsb_false_iff. intros Hn Hin.
  specialize (Hn _ Hin). by apply String.eqb_neq in Hn.
Qed.

Lemma snapshot_loop_free (s : RelayState) up :
  loop_free_message up (Message_Text (ControlFrame_encode (snapshot_frame s up))).
Proof.
  intros device. unfold offered. rewrite frame_roundtrip. unfold snapshot_frame.
  rewrite list_elem_of_In, List.filter_In. intros [_ Hr]. by apply routable_not_in.
Qed.

Lemma announcement_loop_free change up frame :
  announcement_frame change up = Some frame ->
  loop_free_message up (Message_Text (ControlFrame_encode frame)).
Proof.
  destruct change as [device|id]; cbn.
  - destruct (is_routable_for up device) eqn:Hr; cbn; [|done]. intros [= <-] d.
    unfold offered. rewrite frame_roundtrip. intros ->%list_elem_of_singleton. by apply routable_not_in.
  - intros [= <-] d. unfold offered. rewrite frame_roundtrip. by intros ?%not_elem_of_nil.
Qed.

Lemma plain_loop_free up frame :
  match frame with ControlFrame_Announce _ | ControlFrame_DeviceOnline _ _ _ => False | _ => True end ->
  loop_free_message up (Message_Text (ControlFrame_encode frame)).
Proof.
  intros Hf d. unfold offered. rewrite frame_roundtrip. destruct frame; try done; by intros ?%not_elem_of_nil.
Qed.

Lemma sent_loop_free up frame sent m :
  loop_free_message up (Message_Text (ControlFrame_encode frame)) ->
  m ∈ fst (send_control frame sent) -> loop_free_message up m.
Proof.
  unfold send_control. destruct sent; cbn; [|by intros _ ?%not_elem_of_nil].
  by intros Hf ->%list_elem_of_singleton.
Qed.

Lemma pump_event_loop_free {E} welcome event (s : RelayState) branch s' m :
  pump_event (E := E) welcome event s = (Ok branch, s') -> m ∈ fst branch ->
  loop_free_message (we_relay_id welcome) m.
Proof.
  destruct event as [|sent|change sent|sent| |[payload|] sent| |error|message open sent]; cbn.
  - intros [= <- <-]. by intros ?%not_elem_of_nil.
  - intros [= <- <-]. by apply sent_loop_free, plain_loop_free.
  - destruct (announcement_frame change _) as [frame|] eqn:Ea; intros [= <- <-];
      [|by intros ?%not_elem_of_nil]. by apply sent_loop_free, (announcement_loop_free change).
  - erewrite se_bind_eq by reflexivity. intros [= <- <-]. by apply sent_loop_free, snapshot_loop_free.
  - intros [= <- <-]. by intros ?%not_elem_of_nil.
  - intros [= <- <-]. destruct sent; cbn; [by intros ->%list_elem_of_singleton|by intros ?%not_elem_of_nil].
  - intros [= <- <-]. by intros ?%not_elem_of_nil.
  - intros [= <- <-]. by intros ?%not_elem_of_nil.
  - intros [= <- <-]. by intros ?%not_elem_of_nil.
  - unfold handle_message, handle_control. destruct message as [text|bytes| | |frame];
      try (intros [= <- <-]; by intros ?%not_elem_of_nil).
    destruct (ControlFrame_decode text) as [[]|]; try (intros [= <- <-]; by intros ?%not_elem_of_nil).
    + intros [= <- <-]. by apply sent_loop_free, plain_loop_free.
Qed.

Lemma pump_loop_loop_free {E} welcome events : forall (s : RelayState) branch s' m,
  pump_loop (E := E) welcome events s = (Ok branch, s') -> m ∈ fst branch ->
  loop_free_message (we_relay_id welcome) m.
Proof.
  induction events as [|event rest IH]; intros s branch s' m; cbn [pump_loop].
  { intros [= <- <-]. by intros ?%not_elem_of_nil. }
  intros ([sent reason] & s1 & He & Hr)%se_bind_ok. cbn in Hr. destruct reason as [reason|].
  - injection Hr as <- <-. by eapply pump_event_loop_free.
  - apply se_bind_ok in Hr as (others & s2 & Hl & Hr). injection Hr as <- <-. cbn.
    intros [Hin|Hin]%elem_of_app; [by eapply (pump_event_loop_free _ _ _ (sent, None))|by eapply IH].
Qed.

Lemma pump_loop_free {E} welcome first events (s : RelayState) branch s' m :
  pump (E := E) welcome first events s = (Ok branch, s') -> m ∈ fst branch ->
  loop_free_message (we_relay_id welcome) m.
Proof.
  unfold pump. erewrite se_bind_eq by reflexivity.
  destruct (send_control _ first) as [sent failure] eqn:Es.
  assert (Hsent : forall m, m ∈ sent -> loop_free_message (we_relay_id welcome) m).
  { intros m' Hm'. eapply sent_loop_free; [apply snapshot_loop_free|]. rewrite Es. exact Hm'. }
  destruct failure as [reason|].
  - intros [= <- <-]. cbn. apply Hsent.
  - intros (others & s1 & Hl & Hr)%se_bind_ok. injection Hr as <- <-. cbn.
    intros [Hin|Hin]%elem_of_app; [by apply Hsent|by eapply pump_loop_loop_free].
Qed.

End more.

(** ** Lemmas: the supervisor *)

Section supervisor.
Context `{!Protocol} `{!HttpCrate} `{!ClientCrate} `{!JsonCodec} `{!SettingsCodec}.

(** The status a supervised link has between sessions. *)
Definition has_status (s : RelayState) : Prop := is_Some (ul_status (rs_upstream s)).

Lemma forget_effect {E} settings reason (s : RelayState) :
  db_faults (rs_database s) = [] ->
  exists s', forget (E := E) settings reason s = (Ok tt, s')
    /\ reach s' = UpstreamReach_default /\ ul_status (rs_upstream s') = None
    /\ stored s' = set_settings (delete SETTING_UPSTREAM) (stored s)
    /\ rs_registry s' = rs_registry s.
Proof.
  intros Hf. unfold forget, audit_record.
  assert (Ha : forall entry, audit_record (E := E) entry s
    = (Ok tt, put_database (snd (write_audit (into_record (rs_clock s (rs_reads s)) entry) (rs_database s)))
                (tick (S (rs_reads s)) (rs_draws s) s))).
  { intros entry. unfold audit_record. erewrite se_bind_eq by reflexivity.
    by erewrite se_bind_eq by apply try_database. }
  unfold audit_record in Ha. erewrite se_bind_eq by apply Ha.
  erewrite se_bind_eq by apply try_database. do 2 (erewrite se_bind_eq by reflexivity).
  eexists. split; [reflexivity|]. unfold reach, stored, tables. cbn.
  unfold write_audit at 1. rewrite (write_healthy _ (rs_database s)) by done.
  unfold clear, delete_setting. rewrite write_healthy by done. by split_and!.
Qed.

Lemma run_healthy {E} settings attempt : preserves stays_healthy (run (E := E) settings attempt).
Proof.
  assert (Hp : forall welcome event, preserves stays_healthy (pump_event (E := E) welcome event)).
  { intros welcome event. destruct event; unfold pump_event, handle_message, handle_control; frame. }
  assert (Hl : forall welcome events, preserves stays_healthy (pump_loop (E := E) welcome events)).
  { intros welcome events. induction events as [|event rest IH]; cbn [pump_loop]; frame. }
  unfold run, adopt, UpstreamSession.withdraw, record_connected, record_disconnected, pump. frame.
Qed.

(** The decision the supervisor ends with is the one its last session calls for. *)
Definition decision (e : SessionEnd) : option SupervisorStep :=
  match e with
  | SessionEnd_Revoked _ => Some SupervisorStep_Revoked
  | SessionEnd_Refused _ => Some SupervisorStep_Stop
  | SessionEnd_Looped _ => Some SupervisorStep_Looped
  | SessionEnd_Interrupted _ => None
  end.

Lemma next_step_decision outcome backoff :
  match decision (so_end outcome) with
  | Some step => fst (next_step outcome backoff) = step
  | None => exists delay, fst (next_step outcome backoff) = SupervisorStep_RetryAfter delay
  end.
Proof. unfold next_step. destruct (so_end outcome); cbn; try done. destruct (Backoff_take _). by eexists. Qed.

(** The state a round's session runs in. *)
Definition connecting (settings : UpstreamSettings) (s : RelayState) : RelayState :=
  put_upstream (set_connecting (up_url settings) (rs_upstream s)) s.

(** Rounds that decided nothing: each session failed for a passing reason, its status was shown, and the pause
    after it was waited out, from the state the first round begins in to the one the next begins in. *)
Inductive waited_out (settings : UpstreamSettings) : list (Attempt * bool) -> RelayState -> RelayState -> Prop :=
| waited_out_none s : waited_out settings [] s s
| waited_out_round attempt messages outcome s s1 rest s2 :
    run (E := unit) settings attempt (connecting settings s) = (Ok (messages, Some outcome), s1) ->
    decision (so_end outcome) = None ->
    waited_out settings rest (put_upstream (set_error (message (so_end outcome)) (rs_upstream s1)) s1) s2 ->
    waited_out settings ((attempt, true) :: rest) s s2.

Definition supervised (settings : UpstreamSettings) (rounds : list (Attempt * bool))
    (s s' : RelayState) (step : SupervisorStep) : Prop :=
  reach s' = UpstreamReach_default /\ rs_registry s' = rs_registry s
  /\ exists before attempt slept after messages outcome s1 s2,
       rounds = before ++ (attempt, slept) :: after
       /\ waited_out settings before s s1
       /\ run (E := unit) settings attempt (connecting settings s1) = (Ok (messages, Some outcome), s2)
       /\ decision (so_end outcome) = Some step
       /\ match step with
          | SupervisorStep_Revoked =>
              ul_status (rs_upstream s') = None
              /\ stored s' = set_settings (delete SETTING_UPSTREAM) (stored s)
          | _ =>
              stored s' = stored s
              /\ exists id, ul_status (rs_upstream s')
                   = Some (mkLinkStatus (up_url settings) UpstreamState_Error id
                             (Some (message (so_end outcome))))
          end.

Lemma set_connecting_status settings (l : UpstreamLink) :
  exists st, ul_status (set_connecting (up_url settings) l) = Some st /\ ls_url st = up_url settings.
Proof.
  unfold set_connecting, set_status. cbn. destruct (ul_status l) as [st|]; [|by eexists].
  destruct (String.eqb_spec (ls_url st) (up_url settings)) as [->|]; by eexists.
Qed.

Lemma set_error_status settings reason (s : RelayState) st id :
  ls_url st = up_url settings ->
  ul_status (rs_upstream s) = Some st \/ ul_status (rs_upstream s) = Some (mkLinkStatus (ls_url st)
    UpstreamState_Connected (Some id) None) ->
  exists id', ul_status (set_error reason (rs_upstream s))
    = Some (mkLinkStatus (up_url settings) UpstreamState_Error id' (Some reason)).
Proof. intros <- [Hs|Hs]; unfold set_error, set_status; cbn; rewrite Hs; by eexists. Qed.

(** The round of a supervised link: connecting, one session, and what is known of the state then. *)
Lemma round_effect settings attempt (s : RelayState) messages outcome s2 :
  reach s = UpstreamReach_default ->
  run (E := unit) settings attempt (put_upstream (set_connecting (up_url settings) (rs_upstream s)) s)
  = (Ok (messages, Some outcome), s2) ->
  reach s2 = UpstreamReach_default /\ rs_registry s2 = rs_registry s /\ stored s2 = stored s
  /\ exists id, ul_status (set_error (message (so_end outcome)) (rs_upstream s2))
       = Some (mkLinkStatus (up_url settings) UpstreamState_Error id (Some (message (so_end outcome)))).
Proof.
  intros Hr Hrun. apply run_effect in Hrun as ((Hg & _ & Ht) & Hend).
  destruct (set_connecting_status settings (rs_upstream s)) as (st & Hst & Hurl).
  destruct (so_connected outcome).
  - destruct Hend as (Hr2 & id & Hs2). split_and!; try done.
    eapply (set_error_status settings _ s2 st id Hurl). right. rewrite Hs2. unfold set_connected, set_status.
    cbn [ul_status rs_upstream put_upstream]. rewrite Hst. done.
  - subst s2. split_and!; try done. eapply (set_error_status settings _ _ st EmptyString Hurl). by left.
Qed.

Lemma supervise_loop_effect settings rounds : forall backoff (s s' : RelayState) step,
  reach s = UpstreamReach_default -> db_faults (rs_database s) = [] ->
  supervise_loop (E := unit) settings backoff rounds s = (Ok (Some step), s') ->
  supervised settings rounds s s' step.
Proof.
  induction rounds as [|[attempt slept] rest IH]; intros backoff s s' step Hr Hf.
  { cbn [supervise_loop]. by erewrite se_bind_eq by reflexivity. }
  cbn [supervise_loop]. erewrite se_bind_eq by reflexivity. set (s0 := put_upstream _ s).
  intros ([messages outcome] & s2 & Hrun & Hres)%se_bind_ok. cbn [snd] in Hres.
  destruct outcome as [outcome|]; [|done].
  pose proof (run_healthy (E := unit) settings attempt s0 Hf) as Hf2. rewrite Hrun in Hf2. cbn in Hf2.
  destruct (round_effect _ _ _ _ _ _ Hr Hrun) as (Hr2 & Hg2 & Ht2 & id & Hs2).
  pose proof (next_step_decision outcome backoff) as Hd.
  destruct (next_step outcome backoff) as [taken backoff'] eqn:En. cbn [fst] in Hd.
  assert (Hhere : decision (so_end outcome) = Some step ->
    reach s' = UpstreamReach_default -> rs_registry s' = rs_registry s ->
    match step with
    | SupervisorStep_Revoked =>
        ul_status (rs_upstream s') = None /\ stored s' = set_settings (delete SETTING_UPSTREAM) (stored s)
    | _ => stored s' = stored s /\ exists id, ul_status (rs_upstream s')
             = Some (mkLinkStatus (up_url settings) UpstreamState_Error id (Some (message (so_end outcome))))
    end -> supervised settings ((attempt, slept) :: rest) s s' step).
  { intros Hdec Hr3 Hg3 Hend. split; [done|]. split; [done|].
    exists [], attempt, slept, rest, messages, outcome, s, s2. split; [done|]. split; [constructor|]. by split_and!. }
  destruct taken as [| | |delay].
  - (* Stop *)
    revert Hres. erewrite se_bind_eq by reflexivity. intros [= <- <-].
    destruct (decision (so_end outcome)) as [d|] eqn:Ed; [subst d|by destruct Hd].
    apply Hhere; [done|exact Hr2|exact Hg2|]. split; [exact Ht2|]. exists id. exact Hs2.
  - (* Revoked *)
    apply se_bind_ok in Hres as (u & s3 & Hfo & [= <- <-]).
    destruct (forget_effect (E := unit) settings (message (so_end outcome)) s2 Hf2)
      as (s3' & Hfo' & Hr3 & Hs3 & Ht3 & Hg3).
    rewrite Hfo in Hfo'. injection Hfo' as _ <-.
    destruct (decision (so_end outcome)) as [d|] eqn:Ed; [subst d|by destruct Hd].
    apply Hhere; [done|exact Hr3|congruence|]. split; [exact Hs3|congruence].
  - (* Looped *)
    apply se_bind_ok in Hres as (u & s3 & Ha & Hres).
    revert Hres. erewrite se_bind_eq by reflexivity. intros [= <- <-].
    destruct (decision (so_end outcome)) as [d|] eqn:Ed; [subst d|by destruct Hd].
    match type of Ha with audit_record ?e ?s0 = _ =>
      destruct (audit_record_run (E := unit) e s0) as (s3' & Ha' & (Hg3 & _ & _ & Hu3 & _) & Ht3 & _) end.
    rewrite Ha in Ha'. injection Ha' as _ <-.
    apply Hhere; [done| | |].
    + unfold reach. cbn. by rewrite Hu3.
    + cbn. congruence.
    + split; [unfold stored in *; cbn; congruence|]. exists id. cbn. rewrite Hu3. exact Hs2.
  - (* RetryAfter *)
    clear Hhere. revert Hres. erewrite se_bind_eq by reflexivity. destruct slept; [|done]. intros Hres.
    assert (Hpassing : decision (so_end outcome) = None).
    { destruct (decision (so_end outcome)) as [d|] eqn:Ed; [|done]. subst d. by destruct (so_end outcome). }
    apply IH in Hres as (Hr' & Hg' & before & at' & sl' & after & m' & o' & s1' & s2' & -> & Hbefore & Hrest);
      [|exact Hr2|exact Hf2].
    split; [done|]. split; [by rewrite Hg'|]. exists ((attempt, true) :: before), at', sl', after, m', o', s1', s2'.
    split; [done|]. split; [by eapply waited_out_round|]. destruct Hrest as (Hrun' & Hdec' & Hend').
    split; [done|]. split; [done|].
    assert (Ht' : stored (put_upstream (set_error (message (so_end outcome)) (rs_upstream s2)) s2) = stored s)
      by exact Ht2. destruct step; by rewrite Ht' in Hend'.
Qed.

End supervisor.

(** ** Properties *)

Section theorems.
Context `{!Protocol} `{!ProtocolLaws _} `{!HttpCrate} `{!ClientCrate} `{!JsonCodec} `{!SettingsCodec}.

(** C32: the announced half of the loop guard, and what it protects.  A relay whose own id is the
    upstream's, or is anywhere in the chain the upstream's welcome names, ends the session before
    anything was adopted or announced: the state is what it was.  So no session ever brings a relay's
    own id into the chain it advertises, and none touches the routing table or any table of the database but
    the audit trail, in which the sessions that joined are recorded. *)
Theorem upstream_loop_guard (E : Type) (settings : UpstreamSettings) (attempt : Attempt)
    (s s' : RelayState) (messages : list Message) (outcome : option SessionOutcome) :
  run (E := E) settings attempt s = (Ok (messages, outcome), s') ->
  rs_registry s' = rs_registry s /\ stored s' = stored s
  /\ (rs_relay_id s ∉ reach_chain (reach s) -> rs_relay_id s ∉ reach_chain (reach s'))
  /\ (forall welcome, await_welcome (at_welcome attempt) = Ok welcome ->
        rs_relay_id s ∈ we_relay_id welcome :: we_chain welcome ->
        s' = s /\ so_connected <$> outcome = Some false
        /\ forall m, m ∈ messages -> m = Message_Text (ControlFrame_encode (hello_frame s))).
Proof.
  intros Hrun. pose proof (run_effect _ _ _ _ _ _ Hrun) as ((Hg & Hi & Ht) & Hend).
  split; [done|]. split; [done|]. split.
  - intros Hn. destruct outcome as [o|].
    + destruct (so_connected o); [|by subst]. destruct Hend as [-> _]. apply not_elem_of_nil.
    + destruct Hend as (w & _ & Hnw & ->). done.
  - intros w Hw Hin.
    destruct (run_cases _ _ _ _ _ _ Hrun) as [(reason & -> & -> & Hm)|(w' & s1 & s2 & sent & Hw' & Hl & _)].
    + by split_and!.
    + assert (w' = w) as -> by congruence. by apply refuse_loop_none in Hl.
Qed.

(** C33: nothing goes back where it came from.  Whatever happens to the routing table while a session
    runs, every device the session ever offers its upstream - in the snapshot, in an increment or in the
    snapshot that makes up for missed increments - is reached by a chain the upstream is not part of. *)
Theorem announcements_never_return (E : Type) (settings : UpstreamSettings) (attempt : Attempt)
    (s s' : RelayState) (messages : list Message) (outcome : option SessionOutcome) (welcome : Welcome)
    (text : string) (device : AnnouncedDevice) :
  run (E := E) settings attempt s = (Ok (messages, outcome), s') ->
  await_welcome (at_welcome attempt) = Ok welcome ->
  Message_Text text ∈ messages -> device ∈ offered text ->
  we_relay_id welcome ∉ ad_via device.
Proof.
  intros Hrun Hw Hm Hd.
  assert (Hhello : loop_free_message (we_relay_id welcome)
                     (Message_Text (ControlFrame_encode (hello_frame s)))) by by apply plain_loop_free.
  destruct (run_cases _ _ _ _ _ _ Hrun) as [(reason & _ & _ & Hall)|(w & s1 & s2 & sent & Hw' & _ & _ & Hp & -> & _)].
  - specialize (Hall _ Hm). injection Hall as ->. by apply Hhello.
  - assert (w = welcome) as -> by congruence. apply elem_of_cons in Hm as [[= ->]|Hm].
    + by apply Hhello.
    + by apply (pump_loop_free _ _ _ _ _ _ _ Hp Hm).
Qed.

(** C34: when the supervisor gives up, and what it leaves, on a working database and with no chain left over
    from a link that was replaced.  The task only ends by itself on what its last session said: every session
    before that one failed for a passing reason and its pause was waited out, and that one said a revocation, a
    refusal or a loop, never a passing failure.  Nothing of the chain above is left.  The stored upstream is
    removed exactly on a revocation, together with the status; in the two other cases it is kept and the status
    shows the reason.  (Stored is every table but the audit trail.) *)
Theorem supervisor_outcome (settings : UpstreamSettings) (rounds : list (Attempt * bool))
    (s s' : RelayState) (step : SupervisorStep) :
  reach s = UpstreamReach_default -> db_faults (rs_database s) = [] ->
  supervise (E := unit) settings rounds s = (Ok (Some step), s') ->
  reach s' = UpstreamReach_default /\ rs_registry s' = rs_registry s
  /\ exists before attempt slept after messages outcome s1 s2,
       rounds = before ++ (attempt, slept) :: after
       /\ waited_out settings before s s1
       /\ run (E := unit) settings attempt (connecting settings s1) = (Ok (messages, Some outcome), s2)
       /\ decision (so_end outcome) = Some step
       /\ match step with
          | SupervisorStep_Revoked =>
              ul_status (rs_upstream s') = None
              /\ stored s' = set_settings (delete SETTING_UPSTREAM) (stored s)
          | _ =>
              stored s' = stored s
              /\ exists id, ul_status (rs_upstream s')
                   = Some (mkLinkStatus (up_url settings) UpstreamState_Error id
                             (Some (message (so_end outcome))))
          end.
Proof. apply supervise_loop_effect. Qed.

(** Replacing a running link leaves the old chain on display.  A session that is cut off while it
    runs does not get to withdraw what it adopted, and [start] does not do it either: after the new link
    has been started the relay still advertises the old upstream's addresses and chain, and no device
    was told anything.  Taking the link down instead does clean up. *)
Theorem replaced_link_keeps_addresses (E : Type) (settings replacement : UpstreamSettings)
    (attempt : Attempt) (s s1 : RelayState) (messages : list Message) :
  run (E := E) settings attempt s = (Ok (messages, None), s1) ->
  exists welcome, await_welcome (at_welcome attempt) = Ok welcome
  /\ (let s2 := snd (on_upstream (E := E) (start replacement) s1) in
      upstream_chain s2 = we_relay_id welcome :: we_chain welcome
      /\ (forall device_id, device_addresses s2 device_id = device_addresses s1 device_id)
      /\ rs_channels s2 = rs_channels s1)
  /\ (forall actor, let s3 := snd (disconnect actor s1) in
      upstream_chain s3 = [] /\ forall device_id, device_addresses s3 device_id = [relay_address s1 device_id]).
Proof.
  intros Hrun. apply run_effect in Hrun as (_ & w & Hw & _ & Hc). exists w. split; [done|].
  split; [by split_and!|]. intros actor s3.
  assert (Hs3 : reach s3 = UpstreamReach_default /\ rs_relay_id s3 = rs_relay_id s1
                /\ rs_addressing s3 = rs_addressing s1).
  { unfold s3, disconnect. do 3 (erewrite se_bind_eq by reflexivity).
    match goal with |- context [snd (?m ?s0)] => assert (preserves same_routing m) as Hk; [frame|];
      specialize (Hk s0) as (_ & Hi & _ & Hu & Ha); set (s4 := snd (m s0)) in * end.
    unfold reach. rewrite Hu, Hi, Ha. by split_and!. }
  destruct Hs3 as (Hr & Hi & Ha). unfold upstream_chain, chain, device_addresses, relay_address,
    device_access_url, public_url. fold (reach s3). rewrite Hr, Hi, Ha. done.
Qed.

End theorems.

(** ** Witnesses *)

Definition sample_provider : CryptoProvider := mkCryptoProvider (fun _ _ _ => Ok tt) (fun _ _ _ => Ok tt) [].

#[export] Instance sample_client : ClientCrate := {|
  into_client_request url := Ok [("host", url)];
  http_error_to_string status := pretty status;
  decode_error text := text;
  enroll_response_from_json text :=
    if is_empty text then Err "empty" else Ok (mkEnrollResponse "dev1.s" "dev1" text);
  upstream_failure_from_json text := if is_empty text then Err "empty" else Ok text;
|}.

#[export] Instance sample_settings_codec : SettingsCodec := {|
  settings_to_json settings := up_url settings;
  settings_from_json text := Ok (mkUpstreamSettings text "dev1.s" None);
  sqlite_error_to_string _ := "sqlite";
|}.

Definition sample_upstream : UpstreamSettings :=
  mkUpstreamSettings "https://up.example.com" "dev1.s" None.

Definition welcome_text (relay_id : string) : Message :=
  Message_Text (ControlFrame_encode
    (ControlFrame_Welcome "dev1" relay_id
       [mkRelayAddress relay_id "up" "https://up.example.com/d/dev1/" 0] ["relay-top"])).

(** An attempt that reaches the pump of an upstream with the given id. *)
Definition sample_attempt (relay_id : string) (events : list PumpEvent) : Attempt :=
  mkAttempt sample_provider (fun _ => Ok tt) (Ok tt) (Some [Ok Message_Ping; Ok (welcome_text relay_id)]) (Ok tt) events.

Definition sample_welcome (relay_id : string) : Welcome :=
  mkWelcome "dev1" relay_id [mkRelayAddress relay_id "up" "https://up.example.com/d/dev1/" 0] ["relay-top"].

(** A relay with a desktop of its own, and one behind the upstream it is about to join. *)
Definition sample_branch_state : RelayState :=
  put_registry
    (snd (announce_device 3 "dev2" (mkTunnelHandle "dev2" 2) (mkAnnouncedDevice "back" "Back" true ["relay-up"])
       (snd (Registry.connect 2 (mkDirectPresence "desk" "Desk" DeviceKind_Desktop None None None
          (mkTunnelHandle "desk" 1)) (rs_registry (sample_state empty_database))))))
    (sample_state empty_database).

Lemma upstream_loop_guard_witness :
  let attempt := sample_attempt "relay-a" [] in
  snd (run (E := unit) sample_upstream attempt sample_branch_state) = sample_branch_state.
Proof.
  intros attempt.
  destruct (@upstream_loop_guard sample_protocol sample_http sample_client sample_json unit
    sample_upstream attempt sample_branch_state _
    [Message_Text (ControlFrame_encode (hello_frame sample_branch_state))]
    (Some (failed (SessionEnd_Looped LOOP_DETECTED)))
    (run_answer (run (E := unit) sample_upstream attempt sample_branch_state) _
       ltac:(evaluate))) as (_ & _ & _ & Hloop).
  destruct (Hloop (sample_welcome "relay-a")) as [Heq _]; [evaluate|by left|exact Heq].
Defined.

Definition control_event (frame : ControlFrame) : PumpEvent :=
  PumpEvent_Message (Message_Text (ControlFrame_encode frame)) true (Ok tt).

Definition sample_online : RegistryChange :=
  RegistryChange_Online (mkAnnouncedDevice "desk" "Desk" true ["relay-a"]).

Lemma announcements_never_return_witness :
  "relay-up" ∉ ad_via (mkAnnouncedDevice "desk" "Desk" true ["relay-a"]).
Proof.
  pose (attempt := sample_attempt "relay-up" [PumpEvent_Change sample_online (Ok tt); PumpEvent_End]).
  pose (answer := run (E := unit) sample_upstream attempt sample_branch_state).
  pose (online := ControlFrame_DeviceOnline "desk" "Desk" ["relay-a"]).
  pose (messages :=
    [Message_Text (ControlFrame_encode (hello_frame sample_branch_state));
     Message_Text (ControlFrame_encode (snapshot_frame sample_branch_state "relay-up"));
     Message_Text (ControlFrame_encode online)]).
  apply (@announcements_never_return sample_protocol sample_protocol_laws sample_http sample_client sample_json
    unit sample_upstream attempt sample_branch_state (snd answer) messages
    (Some (mkSessionOutcome true (SessionEnd_Interrupted SOCKET_CLOSED))) (sample_welcome "relay-up")
    (ControlFrame_encode online)).
  - apply (run_answer answer). evaluate.
  - evaluate.
  - right. right. left.
  - unfold offered. rewrite (frame_roundtrip online). left.
Defined.

Lemma supervisor_outcome_witness :
  let rounds := [(sample_attempt "relay-up" [PumpEvent_Idle], true);
                 (sample_attempt "relay-up" [control_event (ControlFrame_Revoked "gone")], true)] in
  let answer := supervise (E := unit) sample_upstream rounds sample_branch_state in
  fst answer = Ok (Some SupervisorStep_Revoked) /\ reach (snd answer) = UpstreamReach_default.
Proof.
  intros rounds answer. assert (Ha : fst answer = Ok (Some SupervisorStep_Revoked)) by evaluate.
  split; [exact Ha|].
  destruct (@supervisor_outcome sample_protocol sample_http sample_client sample_json
    sample_upstream rounds sample_branch_state (snd answer)
    SupervisorStep_Revoked) as [Hr _]; [reflexivity|reflexivity|by apply run_answer|exact Hr].
Defined.

Lemma replaced_link_witness :
  let answer := run (E := unit) sample_upstream (sample_attempt "relay-up" []) sample_branch_state in
  let moved := snd (on_upstream (E := unit)
    (start (mkUpstreamSettings "https://other.example.com" "dev1.s" None)) (snd answer)) in
  upstream_chain moved = ["relay-up"; "relay-top"].
Proof.
  intros answer moved.
  destruct (@replaced_link_keeps_addresses sample_protocol sample_http sample_client sample_json
    sample_settings_codec unit sample_upstream (mkUpstreamSettings "https://other.example.com" "dev1.s" None)
    (sample_attempt "relay-up" []) sample_branch_state (snd answer)
    [Message_Text (ControlFrame_encode (hello_frame sample_branch_state));
     Message_Text (ControlFrame_encode (snapshot_frame sample_branch_state "relay-up"))])
    as (w & Hw & (Hc & _) & _).
  - apply (run_answer answer). evaluate.
  - assert (await_welcome (at_welcome (sample_attempt "relay-up" [])) = Ok (sample_welcome "relay-up")) as Hs
      by evaluate.
    rewrite Hs in Hw. injection Hw as <-. exact Hc.
Defined.
