(* ===== verification/Pinning.v ===== *)
(** * The pinned certificate, from the log of one relay to the link of another

    [tls.rs] logs the fingerprint of the listener's certificate, [pinning.rs] stores and compares it, and the
    two places that dial an upstream ([upstream/session.rs], [upstream/enroll.rs]) hand it to the TLS client.
    What the client itself does is a hypothesis: a handshake whose certificate the verifier refused fails. *)

From S2P Require Import Prelude.
From S2P Require Import RustStr.
From S2P Require Import Protocol.
From S2P Require Import Config.
From S2P Require Import Database.
From S2P Require Import Auth.
From S2P Require Import Address.
From S2P Require Import Http.
From S2P Require Import Upstream.
From S2P Require Import Tls.
From S2P Require Import State.
From S2P Require Import Access.
From S2P Require Import UpstreamSession.
From S2P Require Import UpstreamTheorems.

Section tls_client.
Context `{!Protocol} `{!Platform} `{!DigestCrates}.

(** A client under [config] does not take [peer] for the upstream, whatever else the handshake carries. *)
Definition refuses (config : ClientConfig) (peer : string) : Prop :=
  forall intermediates server_name ocsp_response now,
    verify_server_cert pinned_fingerprint (cc_verifier config) peer intermediates server_name ocsp_response now
    = Err FINGERPRINT_MISMATCH.

(** What is documented of a TLS client that meets the certificate [peer]: refused by the verifier, the
    handshake fails, and no HTTP was spoken. *)
Definition handshake_fails {E A} (peer : string) (before_http : E -> Prop)
    (dial : option ClientConfig -> result E A) : Prop :=
  forall config, refuses config peer -> exists error, dial (Some config) = Err error /\ before_http error.

Definition not_http (error : TungsteniteError) : Prop :=
  match error with TungsteniteError_Http _ => False | TungsteniteError_Other _ => True end.

Definition attempt_meets (peer : string) (attempt : Attempt) : Prop :=
  handshake_fails peer not_http (at_connect attempt).

Definition exchange_meets (peer : string) (exchange : Exchange) : Prop :=
  forall timeout url request,
    handshake_fails peer (fun _ => True) (fun tls => ex_send exchange (mkClientBuilder timeout tls) url request).

End tls_client.

Section pinned.
Context `{!Protocol} `{!ProtocolLaws _} `{!Platform} `{!DigestCrates} `{!DigestLaws _}.
Context `{!HttpCrate} `{!ClientCrate} `{!JsonCodec} `{!SettingsCodec}.

Lemma pin_accepts digest provider presented intermediates server_name ocsp_response now :
  verify_server_cert pinned_fingerprint (mkPinnedCertificateVerifier (hexlower digest) provider) presented
    intermediates server_name ocsp_response now = Ok tt <-> sha256 presented = digest.
Proof.
  unfold verify_server_cert, pinned_fingerprint. cbn [pv_fingerprint].
  pose proof (tokens_match_spec (hexlower digest) (hexlower (sha256 presented))) as Hs.
  destruct (tokens_match _ _); split; try done.
  - intros _. symmetry. by apply hexlower_inj, Hs.
  - intros <-. assert (false = true) by by apply Hs. done.
Qed.

Lemma pin_refuses digest provider client_auth peer :
  sha256 peer <> digest ->
  refuses (mkClientConfig (mkPinnedCertificateVerifier (hexlower digest) provider) client_auth) peer.
Proof.
  intros Hpeer intermediates server_name ocsp_response now. cbn [cc_verifier].
  pose proof (pin_accepts digest provider peer intermediates server_name ocsp_response now) as Hs.
  unfold verify_server_cert in *. destruct (tokens_match _ _); [|done]. by destruct Hpeer; apply Hs.
Qed.

(** The tunnel is not dialled past another certificate, and the supervisor will try again. *)
Lemma pinned_tunnel digest peer settings attempt :
  attempt_meets peer attempt -> up_certificate_fingerprint settings = Some (hexlower digest) ->
  sha256 peer <> digest ->
  exists reason, connect_upstream settings attempt = Err (SessionEnd_Interrupted reason).
Proof.
  intros Hmeets Hpin Hpeer. unfold connect_upstream.
  destruct (tunnel_request settings) as [headers|error]; [|by eexists]. cbn [map_err mbind result_bind].
  rewrite Hpin. destruct (Hmeets _ (pin_refuses digest (at_provider attempt) None peer Hpeer))
    as ([status|message] & Hdial & Hhttp); [done|].
  cbn [client_config fmap option_fmap option_map]. rewrite Hdial. by eexists.
Qed.

(** No credential is had from another certificate. *)
Lemma pinned_request digest peer exchange url code name :
  exchange_meets peer exchange -> sha256 peer <> digest ->
  exists error, request_credential exchange url (Some (hexlower digest)) code name = Err error.
Proof.
  intros Hmeets Hpeer. unfold request_credential, build_client.
  cbn [client_config fmap option_fmap option_map]. unfold tls_backend_preconfigured. cbn [cb_timeout].
  destruct (ex_build _ _) as [[]|error]; [|by eexists]. cbn [map_err mbind result_bind].
  destruct (Hmeets ENROLL_TIMEOUT url (EnrollRequest_Code (trim code) name) _
              (pin_refuses digest (ex_provider exchange) None peer Hpeer)) as (error & Hdial & _).
  rewrite Hdial. by eexists.
Qed.

Lemma pinned_establish digest peer exchange url code name actor s :
  exchange_meets peer exchange -> sha256 peer <> digest ->
  exists error, establish exchange url code name (Some (hexlower digest)) actor s = (Err error, s).
Proof.
  intros Hmeets Hpeer. unfold establish, join.
  destruct (PublicUrl_from_str url) as [origin|error] eqn:Horigin.
  - destruct (pinned_request digest peer exchange (pu_origin origin +:+ ENROLL_PATH) code name Hmeets Hpeer)
      as [error Herror].
    exists error. erewrite se_bind_err; [reflexivity|].
    erewrite se_bind_eq by reflexivity. apply se_bind_err. by rewrite Herror.
  - eexists. erewrite se_bind_err; [reflexivity|]. by apply se_bind_err.
Qed.

(** C15: the logged fingerprint pins the relay's certificate.  For a PEM text with one certificate the relay
    logs a fingerprint; pasted into a downstream relay it is accepted and stored in one spelling, which is
    read back as itself.  The TLS configuration of a downstream that stored it accepts exactly the
    certificates with that digest, whatever chain, name or date comes along.  So a downstream that reaches
    somebody with another certificate gets no further: its tunnel is interrupted, to be tried again, its
    joining fails, and the failed joining leaves the relay as it was. *)
Theorem logged_fingerprint_pins (pem body der : string) :
  certificate_pem pem body -> base64_decode (without_whitespace (String newline body)) = Some der ->
  exists shown stored, certificate_fingerprint pem = Some shown
    /\ normalize_fingerprint shown = Ok stored
    /\ normalize_fingerprint stored = Ok stored
    /\ (forall provider, exists config, client_config provider (Some stored) = Some config
          /\ forall presented intermediates server_name ocsp_response now,
               verify_server_cert pinned_fingerprint (cc_verifier config) presented
                 intermediates server_name ocsp_response now = Ok tt
               <-> sha256 presented = sha256 der)
    /\ forall peer, sha256 peer <> sha256 der ->
         (forall settings attempt, up_certificate_fingerprint settings = Some stored ->
            attempt_meets peer attempt ->
            exists reason, connect_upstream settings attempt = Err (SessionEnd_Interrupted reason))
         /\ (forall exchange url code name actor s, exchange_meets peer exchange ->
               exists error, establish exchange url code name (Some stored) actor s = (Err error, s)).
Proof.
  intros Hpem Hder. eexists _, (hexlower (sha256 der)). split; [by eapply fingerprint_shown|].
  split; [apply normalize_shown, sha256_length|]. split; [apply normalize_stored, sha256_length|]. split.
  { intros provider. eexists. split; [reflexivity|]. intros. apply pin_accepts. }
  intros peer Hpeer. split; intros; [by eapply pinned_tunnel|by eapply pinned_establish].
Qed.

End pinned.

(** ** Witness *)

(** The listener's PEM file of a relay whose certificate is [MIIB], and a network where somebody else
    answers: every handshake under a verifier fails, and without one everything succeeds. *)
Definition sample_pem : string :=
  CERTIFICATE_PEM_HEADER +:+ String newline ("MIIB" +:+ String newline EmptyString)
  +:+ CERTIFICATE_PEM_FOOTER +:+ String newline EmptyString.

Definition impostor_attempt : Attempt :=
  mkAttempt sample_provider
    (fun tls => match tls with Some _ => Err (TungsteniteError_Other "handshake") | None => Ok tt end)
    (Ok tt) None (Ok tt) [].

Definition impostor_exchange : Exchange :=
  mkExchange sample_provider (fun _ => Ok tt)
    (fun client _ _ => match cb_tls client with Some _ => Err "handshake" | None => Ok (200%Z, Ok "token") end).

Lemma logged_fingerprint_witness :
  exists shown stored, certificate_fingerprint sample_pem = Some shown
    /\ normalize_fingerprint shown = Ok stored
    /\ (exists reason, connect_upstream (mkUpstreamSettings "https://up.example.com" "dev1.s" (Some stored))
                         impostor_attempt = Err (SessionEnd_Interrupted reason))
    /\ (exists error, fst (establish impostor_exchange "https://up.example.com" "code" "relay" (Some stored) None
                            (sample_state empty_database)) = Err error).
Proof.
  destruct (logged_fingerprint_pins sample_pem ("MIIB" +:+ String newline EmptyString) "MIIB")
    as (shown & stored & Hshown & Hstored & _ & _ & Hpin).
  - split; [|reflexivity|reflexivity]. exists EmptyString, (String newline EmptyString). split; reflexivity.
  - reflexivity.
  - destruct (Hpin "MIIC" ltac:(by vm_compute)) as [Htunnel Hjoin].
    exists shown, stored. split; [exact Hshown|]. split; [exact Hstored|]. split.
    + apply Htunnel; [reflexivity|]. intros config _. by eexists.
    + destruct (Hjoin impostor_exchange "https://up.example.com" "code" "relay" None (sample_state empty_database))
        as [error Herror]; [intros timeout url request config _; by eexists|].
      exists error. by rewrite Herror.
Defined.
