(* ===== verification/Mirror.v ===== *)
(** * Two relays and the link between them: the table above mirrors the table below

    The downstream's routing table publishes changes ([Registry]), its session announces them upstream
    ([UpstreamSession.pump]), and the upstream's reader applies what it hears to a table of its own
    ([Tunnel.read_frames]).  This file follows one device through all three: whatever else either relay does,
    once the upstream has heard what the downstream had to say, it routes the device over the link exactly
    when the downstream offers it, behind the chain the downstream offers it with. *)

From S2P Require Import Prelude.
From S2P Require Import RustStr.
From S2P Require Import Protocol.
From S2P Require Import Handle.
From S2P Require Import Registry.
From S2P Require Import RegistryProofs.
From S2P Require Import Overlap.
From S2P Require Import RegistryTheorems.
From S2P Require Import Config.
From S2P Require Import Database.
From S2P Require Import Auth.
From S2P Require Import Address.
From S2P Require Import Http.
From S2P Require Import Upstream.
From S2P Require Import State.
From S2P Require Import Access.
From S2P Require Import Proxy.
From S2P Require Import Cascade.
From S2P Require Import Tunnel.
From S2P Require Import UpstreamSession.
From S2P Require Import UpstreamTheorems.

(** ** What the upstream makes of one change *)

Section hearing.
Context `{!Protocol}.

(** The chain a device may be routed behind at [up]. *)
Definition usable (up : string) (offered : option AnnouncedDevice) : option (list string) :=
  d ← offered; if is_announcement_routable up (ad_via d) then Some (ad_via d) else None.

(** The chain [up] routes [id] behind once it has heard of a change. *)
Definition hear (up id : string) (via : option (list string)) (change : RegistryChange) : option (list string) :=
  if decide (change_id change = id) then
    match change with
    | RegistryChange_Online d =>
        if is_announcement_routable up (ad_via d)
           && match via with
              | Some hops => length (ad_via d) <=? length hops
              | None => true
              end
        then Some (ad_via d) else via
    | RegistryChange_Offline _ => None
    end
  else via.

(** No change offers the device behind [up] itself. *)
Definition loop_free (up id : string) (changes : list RegistryChange) : Prop :=
  forall d, RegistryChange_Online d ∈ changes -> ad_id d = id -> up ∉ ad_via d.

Lemma loop_free_cons up id c changes : loop_free up id (c :: changes) -> loop_free up id changes.
Proof. intros Hl d Hin. apply Hl. by right. Qed.

(** A chain that is no longer than a usable one is usable. *)
Lemma usable_shorter up d d' hops :
  usable up (Some d) = Some hops -> length (ad_via d') <= length (ad_via d) -> up ∉ ad_via d' ->
  usable up (Some d') = Some (ad_via d') /\ length (ad_via d') <= length hops.
Proof.
  unfold usable, is_announcement_routable. cbn.
  destruct (bool_decide_reflect (length (ad_via d) < MAX_HOPS)); [|done]. cbn.
  destruct (negb _); [|done]. intros [= <-] Hle Hup.
  rewrite bool_decide_true by lia. by rewrite bool_decide_false by done.
Qed.

Lemma hear_in_sync up id changes : forall view,
  settles id (view !! id) changes -> loop_free up id changes ->
  foldl (hear up id) (usable up (view !! id)) changes = usable up (replay changes view !! id).
Proof.
  induction changes as [|c changes IH]; intros view Hset Hfree; [done|].
  cbn [foldl replay]. fold (replay changes (apply_change view c)).
  rewrite <- IH; [|rewrite apply_change_lookup; cbn [settles] in Hset; case_decide; tauto|by eapply loop_free_cons].
  f_equal. unfold hear. rewrite apply_change_lookup. cbn [settles] in Hset. case_decide as Hid; [|done].
  destruct Hset as [Hlen _]. destruct c as [d|?]; [|done]. cbn in Hid, Hlen |- *.
  assert (Hup : up ∉ ad_via d) by (apply (Hfree d); [by left|done]).
  destruct (usable up (view !! id)) as [hops|] eqn:Eu.
  - destruct (view !! id) as [x|]; [|done]. destruct (usable_shorter _ _ _ _ Eu Hlen Hup) as [Hu Hle].
    cbn in Hu. destruct (is_announcement_routable up (ad_via d)); [|done].
    by rewrite (proj2 (Nat.leb_le _ _) Hle).
  - rewrite andb_true_r. done.
Qed.

(** The snapshot may be ahead of the stream: replaying the part it already knows of does no harm. *)
Lemma hear_ahead up id later : forall known view,
  settles id (view !! id) (known ++ later) -> loop_free up id (known ++ later) ->
  foldl (hear up id) (usable up (replay known view !! id)) (known ++ later)
  = usable up (replay (known ++ later) view !! id).
Proof.
  intros known. induction known as [|c known IH]; intros view Hset Hfree; [by apply hear_in_sync|].
  cbn [app foldl replay]. fold (replay (known ++ later) (apply_change view c)).
  fold (replay known (apply_change view c)).
  assert (Hset' : settles id (apply_change view c !! id) (known ++ later)).
  { rewrite apply_change_lookup. cbn [settles app] in Hset. case_decide; tauto. }
  assert (Hfree' : loop_free up id (known ++ later)) by by eapply loop_free_cons.
  set (via := usable up (replay known (apply_change view c) !! id)).
  destruct (decide (hear up id via c = via)) as [->|Hne]; [by apply IH|].
  assert (Hsync : hear up id via c = usable up (apply_change view c !! id)).
  { revert Hne. unfold hear. rewrite apply_change_lookup. case_decide; [|done].
    destruct c as [d|?]; [|done]. cbn. destruct (is_announcement_routable up (ad_via d)); [|done]. cbn.
    by destruct (match via with Some _ => _ | None => _ end). }
  rewrite Hsync. by apply hear_in_sync.
Qed.

(** Only the changes that name the device matter. *)
Lemma hear_about up id changes : forall via,
  foldl (hear up id) via changes = foldl (hear up id) via (about id changes).
Proof.
  induction changes as [|c changes IH]; intros via; [done|]. rewrite about_cons. cbn [foldl]. rewrite IH.
  case_decide as Hc; [done|]. f_equal. unfold hear. by rewrite decide_False.
Qed.

Lemma loop_free_about up id changes : loop_free up id changes -> loop_free up id (about id changes).
Proof. intros Hfree d [Hin _]%about_In. by apply Hfree. Qed.

(** ** What the downstream says *)

(** A message that says nothing about devices. *)
Definition neutral (message : Message) : Prop :=
  match message with
  | Message_Text text => text = ControlFrame_encode ControlFrame_Ping \/ text = ControlFrame_encode ControlFrame_Pong
  | Message_Binary _ => True
  | _ => False
  end.

Inductive speaks (up : string) : list RegistryChange -> list Message -> Prop :=
| speaks_nothing : speaks up [] []
| speaks_aside message changes messages :
    neutral message -> speaks up changes messages -> speaks up changes (message :: messages)
| speaks_silently change changes messages :
    announcement_frame change up = None -> speaks up changes messages ->
    speaks up (change :: changes) messages
| speaks_change change frame changes messages :
    announcement_frame change up = Some frame -> speaks up changes messages ->
    speaks up (change :: changes) (Message_Text (ControlFrame_encode frame) :: messages).

(** The changes a session's events carry. *)
Definition changes_of (events : list PumpEvent) : list RegistryChange :=
  omap (fun event => match event with PumpEvent_Change change _ => Some change | _ => None end) events.

(** A session that fell behind sends a fresh snapshot instead; see [longer_chain_is_withdrawn]. *)
Definition keeps_up (event : PumpEvent) : Prop :=
  match event with PumpEvent_Lagged _ => False | _ => True end.

Lemma speaks_asides up asides changes messages :
  Forall neutral asides -> speaks up changes messages -> speaks up changes (asides ++ messages).
Proof. intros Ha Hs. induction Ha; [done|]. by apply speaks_aside. Qed.

Lemma send_control_ok frame sent messages :
  send_control frame sent = (messages, None) -> messages = [Message_Text (ControlFrame_encode frame)].
Proof. unfold send_control. destruct sent; [by intros [= <-]|done]. Qed.

(** What a branch of the pump that is not a change sends. *)
Lemma pump_event_neutral {E} welcome event messages s s' :
  keeps_up event -> changes_of [event] = [] ->
  pump_event (E := E) welcome event s = (Ok (messages, None), s') -> Forall neutral messages.
Proof.
  assert (Hsend : forall frame sent, frame = ControlFrame_Ping \/ frame = ControlFrame_Pong ->
    forall messages, send_control frame sent = (messages, None) -> Forall neutral messages).
  { intros frame sent Hf ms ->%send_control_ok. apply Forall_singleton. cbn. destruct Hf as [-> | ->]; tauto. }
  destruct event as [|sent|change sent|sent| |[payload|] sent| |error|message open sent]; try done; cbn.
  - intros _ _ [= Hs <-]. eapply Hsend; [by left|exact Hs].
  - intros _ _. destruct sent; [|done]. intros [= <- <-]. by apply Forall_singleton.
  - intros _ _. destruct message as [text|bytes| | |frame]; cbn; [|by destruct open; intros [= <- <-]..].
    unfold handle_control. destruct (ControlFrame_decode text) as [frame|]; [|by intros [= <- <-]].
    destruct frame; cbn; try (by intros [= <- <-]); try done.
    intros [= Hs <-]. eapply Hsend; [by right|exact Hs].
Qed.

Lemma pump_loop_speaks {E} welcome events : forall messages s s',
  Forall keeps_up events ->
  pump_loop (E := E) welcome events s = (Ok (messages, None), s') ->
  speaks (we_relay_id welcome) (changes_of events) messages.
Proof.
  induction events as [|event events IH]; intros messages s s' Hkeep; cbn [pump_loop].
  { intros [= <- <-]. constructor. }
  apply Forall_cons in Hkeep as [Hevent Hkeep]. intros Hrun.
  apply se_bind_ok in Hrun as ([branch reason] & s1 & Hbranch & Hrun). cbn [fst snd] in Hrun.
  destruct reason as [reason|]; [done|].
  apply se_bind_ok in Hrun as ([others last] & s2 & Hothers & [= <- -> _]). cbn [fst snd] in Hothers.
  apply IH in Hothers; [|done]. cbn [fst].
  destruct event as [|?|change sent|?| |? ?| |?|? ? ?];
    try (by apply speaks_asides; [eapply pump_event_neutral; [done| |exact Hbranch]|]).
  revert Hbranch. cbn. destruct (announcement_frame change _) as [frame|] eqn:Ef; intros [= Hsent _].
  - rewrite (send_control_ok _ _ _ Hsent). by apply speaks_change.
  - subst branch. by apply speaks_silently.
Qed.

End hearing.

(** ** What the upstream hears *)

Section listening.
Context `{!Protocol} `{!ProtocolLaws _}.
Variable handle : TunnelHandle.
Variable id : string.

(** One message, as the reader of the downstream's tunnel takes it. *)
Definition hears (message : Message) (s s' : RelayState) : Prop :=
  read_frames (E := unit) handle DeviceKind_Relay [ReaderEvent_Message message true] s = (Ok None, s').

(** How many sequence numbers a message may draw. *)
Definition draws (message : Message) : N :=
  match message with
  | Message_Text text =>
      match ControlFrame_decode text with
      | Some (ControlFrame_Announce devices) => N.of_nat (length devices)
      | Some (ControlFrame_DeviceOnline _ _ _) => 1
      | _ => 0
      end
  | _ => 0
  end.

(** What everybody else does: anything that keeps the table's invariant and leaves the device alone. *)
Definition meanwhile (s s' : RelayState) : Prop :=
  (registry_wf (rs_registry s) -> registry_wf (rs_registry s'))
  /\ reg_relay_id (rs_registry s') = reg_relay_id (rs_registry s)
  /\ reg_entries (rs_registry s') !! id = reg_entries (rs_registry s) !! id.

(** The messages of one tunnel, heard in order, with anything in between. *)
Inductive listens : RelayState -> list Message -> RelayState -> Prop :=
| listens_nothing s : listens s [] s
| listens_message message messages s s1 s2 :
    (reg_sequence (rs_registry s) + draws message < u64_modulus)%N ->
    hears message s s1 -> listens s1 messages s2 -> listens s (message :: messages) s2
| listens_meanwhile messages s s1 s2 :
    meanwhile s s1 -> listens s1 messages s2 -> listens s messages s2.

(** The device is routed over the tunnel behind [via], or not at all. *)
Definition routed (via : option (list string)) (r : Registry) : Prop :=
  match via with
  | Some hops => exists e, reg_entries r !! id = Some e
      /\ od_route (en_device e) = Route_Via handle hops /\ en_origin e = Origin_Announced (th_device_id handle)
  | None => reg_entries r !! id = None
  end.

(** A table of the upstream [up] that holds to that. *)
Definition holds_at (up : string) (via : option (list string)) (s : RelayState) : Prop :=
  registry_wf (rs_registry s) /\ reg_relay_id (rs_registry s) = up /\ routed via (rs_registry s).

Lemma meanwhile_holds up via s s' : meanwhile s s' -> holds_at up via s -> holds_at up via s'.
Proof.
  intros (Hkeep & Hid & He) (Hwf & Hup & Hvia).
  split; [by apply Hkeep|]. split; [congruence|]. unfold routed. by rewrite He.
Qed.

Lemma hears_frame frame s s' :
  hears (Message_Text (ControlFrame_encode frame)) s s'
  <-> handle_control_frame (E := unit) handle DeviceKind_Relay frame s = (Ok tt, s').
Proof.
  unfold hears. cbn [read_frames]. rewrite frame_roundtrip. unfold mbind, se_bind.
  destruct (handle_control_frame _ _ _ _) as [[[]|[]] s1]; cbn; split; intros Hs; by inversion Hs.
Qed.

Lemma hears_aside message s s' : neutral message -> hears message s s' -> rs_registry s' = rs_registry s.
Proof.
  destruct message as [text|bytes| | |frame]; cbn; try done.
  - intros [-> | ->]; intros Hs%hears_frame; by injection Hs as <-.
  - intros _ Hs. unfold hears in Hs. by injection Hs as <-.
Qed.

Lemma hears_online d s s' :
  hears (Message_Text (ControlFrame_encode (ControlFrame_DeviceOnline (ad_id d) (ad_name d) (ad_via d)))) s s' ->
  exists now, rs_registry s'
    = snd (announce_device now (th_device_id handle) handle
             (mkAnnouncedDevice (ad_id d) (ad_name d) true (ad_via d)) (rs_registry s)).
Proof.
  intros Hs%hears_frame. exists (rs_clock s (rs_reads s)). revert Hs. cbn.
  destruct (announce_device (rs_clock s (rs_reads s)) (th_device_id handle) handle
              (mkAnnouncedDevice (ad_id d) (ad_name d) true (ad_via d)) (rs_registry s)) as [accepted r] eqn:Ea.
  erewrite se_bind_eq by reflexivity. erewrite se_bind_eq by (unfold on_registry, se_state; cbn; by rewrite Ea).
  by intros [= <-].
Qed.

Lemma hears_offline device_id s s' :
  hears (Message_Text (ControlFrame_encode (ControlFrame_DeviceOffline device_id))) s s' ->
  exists now, rs_registry s' = withdraw_device now (th_device_id handle) device_id (rs_registry s).
Proof. intros Hs%hears_frame. injection Hs as <-. by eexists. Qed.

Lemma hears_snapshot devices s s' :
  hears (Message_Text (ControlFrame_encode (ControlFrame_Announce devices))) s s' ->
  exists now, rs_registry s' = apply_announcement now (th_device_id handle) handle devices (rs_registry s).
Proof. intros Hs%hears_frame. injection Hs as <-. by eexists. Qed.

(** One announcement, at the device the file follows. *)
Lemma announce_routed now up via d s :
  holds_at up via s -> (reg_sequence (rs_registry s) + 1 < u64_modulus)%N ->
  let r := snd (announce_device now (th_device_id handle) handle
                  (mkAnnouncedDevice (ad_id d) (ad_name d) true (ad_via d)) (rs_registry s)) in
  registry_wf r /\ reg_relay_id r = up /\ routed (hear up id via (RegistryChange_Online d)) r.
Proof.
  intros (Hwf & Hup & Hvia) Hroom. cbn zeta. set (d' := mkAnnouncedDevice _ _ _ _).
  destruct (announce_good now (th_device_id handle) handle d' (rs_registry s) Hwf Hroom) as (Hwf' & Hid & _).
  split; [done|]. split; [congruence|]. clear Hwf' Hid.
  assert (Hcases := announce_device_cases now (th_device_id handle) handle d' (rs_registry s) Hwf).
  unfold hear. cbn [change_id]. case_decide as Heq; cycle 1.
  { destruct Hcases as [(_ & r & -> & He & _)|(_ & r & -> & He & _)]; cbn [snd];
      unfold routed; rewrite He; [by rewrite lookup_insert_ne|done]. }
  assert (Hwins : announcement_wins (rs_registry s) d'
    = is_announcement_routable up (ad_via d)
      && match via with Some hops => length (ad_via d) <=? length hops | None => true end).
  { unfold announcement_wins, d'. cbn. rewrite Hup, Heq. f_equal. destruct via as [hops|]; cbn in Hvia.
    - destruct Hvia as (e & -> & Hr & _). by rewrite Hr.
    - by rewrite Hvia. }
  rewrite Hwins in Hcases. destruct Hcases as [(-> & r & -> & He & _)|(-> & r & -> & He & _)]; cbn [snd].
  - cbn [routed]. rewrite He. change (ad_id d') with (ad_id d). rewrite Heq, lookup_insert_eq. by eexists.
  - unfold routed. by rewrite He.
Qed.

Lemma withdraw_routed now up via device_id s :
  holds_at up via s ->
  let r := withdraw_device now (th_device_id handle) device_id (rs_registry s) in
  registry_wf r /\ reg_relay_id r = up /\ routed (hear up id via (RegistryChange_Offline device_id)) r.
Proof.
  intros (Hwf & Hup & Hvia). cbn zeta.
  destruct (withdraw_good now (th_device_id handle) device_id (rs_registry s) Hwf) as (Hwf' & Hid & _).
  split; [done|]. split; [congruence|]. unfold hear. cbn [change_id]. case_decide as Heq.
  - cbn. rewrite withdraw_device_entries, decide_True by done.
    destruct via as [hops|]; cbn in Hvia; [|by rewrite Hvia].
    destruct Hvia as (e & -> & _ & Ho). by rewrite (proj2 (announced_by_true _ _) Ho).
  - unfold routed. by rewrite withdraw_device_entries, decide_False by done.
Qed.

(** One change, announced. *)
Lemma hears_change up via change frame s s' :
  announcement_frame change up = Some frame ->
  let message := Message_Text (ControlFrame_encode frame) in
  (reg_sequence (rs_registry s) + draws message < u64_modulus)%N ->
  hears message s s' -> holds_at up via s -> holds_at up (hear up id via change) s'.
Proof.
  intros Hframe message Hroom Hs Hat. subst message. cbn [draws] in Hroom. rewrite frame_roundtrip in Hroom.
  destruct change as [d|device_id]; cbn in Hframe.
  - destruct (negb _); [done|]. injection Hframe as <-. destruct (hears_online _ _ _ Hs) as [now Hr].
    unfold holds_at. rewrite Hr. by apply announce_routed.
  - injection Hframe as <-. destruct (hears_offline _ _ _ Hs) as [now Hr].
    unfold holds_at. rewrite Hr. by apply withdraw_routed.
Qed.

(** A change that is not announced offers the device behind [up] itself. *)
Lemma hear_silent up via change : announcement_frame change up = None -> hear up id via change = via.
Proof.
  unfold hear. case_decide; [|done]. destruct change as [d|?]; [|done]. cbn. unfold is_routable_for.
  destruct (existsb _ (ad_via d)) eqn:Ee; [|done]. intros _.
  apply existsb_exists in Ee as (hop & Hin & ->%String.eqb_eq). apply list_elem_of_In in Hin.
  unfold is_announcement_routable. by rewrite (bool_decide_true (_ ∈ _)), andb_false_r.
Qed.

Lemma listens_changes up changes messages : speaks up changes messages ->
  forall s s' via, listens s messages s' -> holds_at up via s ->
  holds_at up (foldl (hear up id) via changes) s'.
Proof.
  intros Hspeaks s s' via Hl. revert changes via Hspeaks.
  induction Hl as [s|message messages s s1 s2 Hroom Hhear Hl IH|messages s s1 s2 Hmean Hl IH];
    intros changes via Hspeaks Hat.
  - remember [] as messages. induction Hspeaks; try done. cbn [foldl]. rewrite hear_silent by done. auto.
  - remember (message :: messages) as all eqn:Hall. revert via Hat.
    induction Hspeaks as [|aside changes rest Hn Hs _|change changes rest Hf Hs IHs|change frame changes rest Hf Hs _];
      intros via Hat; try done.
    + injection Hall as -> ->. apply IH; [done|]. unfold holds_at.
      by rewrite (hears_aside _ _ _ Hn Hhear).
    + cbn [foldl]. rewrite hear_silent by done. by apply IHs.
    + injection Hall as <- ->. cbn [foldl]. apply IH; [done|]. by eapply hears_change.
  - apply IH; [done|]. by eapply meanwhile_holds.
Qed.

Lemma NoDup_fmap_filter {A B} (f : A -> B) (p : A -> bool) (l : list A) :
  NoDup (f <$> l) -> NoDup (f <$> List.filter p l).
Proof.
  induction l as [|a l IH]; [done|]. rewrite fmap_cons, NoDup_cons. intros [Hn Hnd]. cbn [List.filter].
  destruct (p a); [|by apply IH]. rewrite fmap_cons, NoDup_cons. split; [|by apply IH].
  intros (x & Hfx & Hx%list_elem_of_In)%list_elem_of_fmap. apply List.filter_In in Hx as [Hx _].
  apply Hn, list_elem_of_fmap. exists x. by rewrite list_elem_of_In.
Qed.

Lemma offered_online r d : keyed r -> offer r !! id = Some d -> ad_id d = id /\ ad_online d = true.
Proof.
  intros Hwf. unfold offer. rewrite offer_of_lookup. destruct (reg_entries r !! id) as [e|] eqn:He; [|done].
  cbn. intros Ha. pose proof (announcement_of_id _ _ _ Ha) as ->. rewrite (Hwf id e He).
  unfold announcement_of in Ha. by destruct (_ && _); simplify_eq.
Qed.

(** What a snapshot offers of the device is what wins, in a table that does not know it. *)
Lemma snapshot_usable r up state :
  keyed (rs_registry state) -> reg_relay_id r = up -> reg_entries r !! id = None ->
  ad_via <$> snapshot_winner r (List.filter (is_routable_for up) (announcements (rs_registry state))) id
  = usable up (offer (rs_registry state) !! id).
Proof.
  intros Hstate Hup Hnone. unfold snapshot_winner. destruct (List.find _ _) as [d|] eqn:Ef.
  - apply List.find_some in Ef as [Hin Hd]. apply List.filter_In in Hin as [Hin _].
    apply andb_true_iff in Hd as [[Heq%String.eqb_eq _]%andb_true_iff Hwins].
    apply list_elem_of_In, elem_of_announcements in Hin; [|done]. rewrite Heq in Hin. rewrite Hin.
    unfold announcement_wins in Hwins. rewrite Hup in Hwins. apply andb_true_iff in Hwins as [Hw _].
    unfold usable. cbn. by rewrite Hw.
  - destruct (usable up (offer (rs_registry state) !! id)) as [hops|] eqn:Eu; [|done]. exfalso.
    destruct (offer (rs_registry state) !! id) as [d|] eqn:Eo; [|done].
    destruct (offered_online _ _ Hstate Eo) as [Hid Hon].
    unfold usable in Eu. cbn in Eu. destruct (is_announcement_routable up (ad_via d)) eqn:Er; [|done].
    assert (Hin : In d (List.filter (is_routable_for up) (announcements (rs_registry state)))).
    { apply List.filter_In. split.
      - apply list_elem_of_In, elem_of_announcements; [done|]. by rewrite Hid.
      - unfold is_routable_for. apply negb_true_iff, not_true_iff_false.
        intros (hop & Hhop & ->%String.eqb_eq)%existsb_exists. apply list_elem_of_In in Hhop.
        unfold is_announcement_routable in Er. by rewrite (bool_decide_true (_ ∈ _)), andb_false_r in Er. }
    pose proof (List.find_none _ _ Ef d Hin) as Hf. cbn in Hf.
    unfold announcement_wins in Hf. by rewrite Hid, String.eqb_refl, Hon, Hup, Er, Hnone in Hf.
Qed.

(** The snapshot, heard by a table that does not know the device. *)
Lemma hears_first up s s' state :
  keyed (rs_registry state) ->
  let message := Message_Text (ControlFrame_encode (snapshot_frame state up)) in
  (reg_sequence (rs_registry s) + draws message < u64_modulus)%N ->
  hears message s s' -> holds_at up None s ->
  holds_at up (usable up (offer (rs_registry state) !! id)) s'.
Proof.
  intros Hstate message Hroom Hs (Hwf & Hup & Hnone). subst message. unfold snapshot_frame in *.
  set (devices := List.filter _ _) in *. cbn [draws] in Hroom. rewrite frame_roundtrip in Hroom.
  destruct (hears_snapshot _ _ _ Hs) as [now Hr]. unfold holds_at. rewrite Hr.
  destruct (apply_good now (th_device_id handle) handle devices (rs_registry s) Hwf Hroom) as (Hwf' & Hid & _).
  split; [done|]. split; [congruence|].
  assert (Hnd : NoDup (ad_id <$> devices)).
  { by apply NoDup_fmap_filter, announcements_NoDup. }
  pose proof (apply_announcement_entries now (th_device_id handle) handle devices (rs_registry s) id Hwf Hroom Hnd)
    as He.
  rewrite <- (snapshot_usable (rs_registry s)) by done. fold devices. destruct (snapshot_winner _ _ _) as [d|]; cbn; [done|]. cbn in Hnone.
  by rewrite He, Hnone.
Qed.

End listening.

(** ** The two ends together *)

Section mirror.
Context `{!Protocol} `{!ProtocolLaws _}.

Lemma meanwhile_trans id s1 s2 s3 : meanwhile id s1 s2 -> meanwhile id s2 s3 -> meanwhile id s1 s3.
Proof. intros (H1 & I1 & E1) (H2 & I2 & E2). split_and!; [auto|congruence|congruence]. Qed.

Lemma listens_first handle id message messages s s' :
  listens handle id s (message :: messages) s' ->
  exists s1 s2, meanwhile id s s1 /\ (reg_sequence (rs_registry s1) + draws message < u64_modulus)%N
    /\ hears handle message s1 s2 /\ listens handle id s2 messages s'.
Proof.
  intros Hl. remember (message :: messages) as all eqn:Hall.
  induction Hl as [|m ms s s1 s2 Hroom Hh Hl _|ms s s1 s2 Hm _ IH]; [done| |].
  - injection Hall as -> ->. exists s, s1. by split_and!.
  - destruct (IH Hall) as (s3 & s4 & Hm' & Hrest). exists s3, s4. split; [by eapply meanwhile_trans|done].
Qed.

Lemma pump_speaks {E} welcome events messages s s' :
  Forall keeps_up events ->
  pump (E := E) welcome (Ok tt) events s = (Ok (messages, None), s') ->
  exists rest, messages
    = Message_Text (ControlFrame_encode (snapshot_frame s (we_relay_id welcome))) :: rest
    /\ speaks (we_relay_id welcome) (changes_of events) rest.
Proof.
  intros Hkeep Hrun. unfold pump in Hrun. erewrite se_bind_eq in Hrun by reflexivity. cbn in Hrun.
  apply se_bind_ok in Hrun as ([others reason] & s1 & Hothers & [= <- -> _]).
  exists others. split; [done|]. by eapply pump_loop_speaks.
Qed.

(** What the stream says of the device since the subscription: the part the snapshot knows of, and the rest. *)
Lemma stream_split id (o0 o1 o2 : Overlap) (stream : list RegistryChange) :
  accounted o0 -> overlapping o0 o1 -> overlapping o1 o2 ->
  reg_changes (ov_table o2) = reg_changes (ov_table o0) ++ stream -> in_order id o2 ->
  exists view known more,
    about id stream = known ++ more /\ settles id (view !! id) (known ++ more)
    /\ replay known view !! id = offer (ov_table o1) !! id
    /\ replay (known ++ more) view !! id = offer (ov_table o2) !! id.
Proof.
  intros Hok0 H01 H12 Hstream Hin.
  destruct (overlapping_accounted _ _ Hok0 H01) as [Hok1 Hl1].
  destruct (overlapping_accounted _ _ Hok1 H12) as [Hok2 Hl2].
  destruct (in_order_before id o0 o2 Hok0) as [k0 Hk0]; [by etrans|done|].
  destruct (la_effects _ _ Hl1) as [e1 He1]. destruct (la_effects _ _ Hl2) as [e2 He2].
  set (view := replay (about id (reg_changes (ov_table o0))) ∅).
  exists view, (k0 ++ about id e1), (about id e2).
  assert (Habout : about id (ov_effects o2)
    = about id (reg_changes (ov_table o0)) ++ (k0 ++ about id e1) ++ about id e2).
  { by rewrite He2, He1, !about_app, Hk0, <- !app_assoc. }
  assert (Hview : forall l, replay l view = replay (about id (reg_changes (ov_table o0)) ++ l) ∅)
    by (intros l; by rewrite replay_app).
  split_and!.
  - unfold in_order in Hin. rewrite Hstream, about_app, Habout in Hin. by apply app_inv_head in Hin.
  - pose proof (ac_settles _ Hok2 id) as Hset. rewrite settles_about, Habout in Hset.
    rewrite <- (lookup_empty (M := gmap string) id) in Hset. by apply settles_app in Hset as [_ Hset].
  - rewrite Hview, app_assoc, <- Hk0, <- about_app, <- He1, <- replay_about. by rewrite (ac_offer _ Hok1).
  - rewrite Hview, <- Habout, <- replay_about. by rewrite (ac_offer _ Hok2).
Qed.

(** C5: the upstream's table mirrors the downstream's, device by device.  The downstream's session
    subscribes to its table, sends the snapshot it finds later and then every change; the upstream, whose
    table does not know the device yet, reads those messages off the tunnel.  Below, calls on the table
    overlap in any way, as long as this device's changes have in the end all been published in the order
    they took effect (calls that publish them in another order can lose the device:
    [publication_can_be_overtaken]).  Above, anything may happen between two messages that leaves this
    device's entry alone and keeps the table's invariant.  The session does not fall behind, nobody offers
    the device behind the upstream itself, and the upstream's sequence counter does not wrap.  Then the
    upstream routes the device over the tunnel exactly when the downstream offers it behind a chain that
    leaves room for one more hop, and behind that very chain: nothing the snapshot and the stream say twice
    is lost or brought back.  And a route that delivers below delivers above. *)
Theorem upstream_mirrors (E : Type) (welcome : Welcome) (events : list PumpEvent) (messages : list Message)
    (relay_id : string) (o0 o1 o2 : Overlap) (down down' up up' : RelayState) (handle : TunnelHandle) (id : string) :
  overlapping (quiet (new relay_id)) o0 -> overlapping o0 o1 -> overlapping o1 o2 ->
  about id (reg_changes (ov_table o2)) = about id (ov_effects o2) ->
  reg_changes (ov_table o2) = reg_changes (ov_table o0) ++ changes_of events -> Forall keeps_up events ->
  rs_registry down = ov_table o1 ->
  pump (E := E) welcome (Ok tt) events down = (Ok (messages, None), down') ->
  registry_wf (rs_registry up) -> reg_relay_id (rs_registry up) = we_relay_id welcome ->
  reg_entries (rs_registry up) !! id = None ->
  loop_free (we_relay_id welcome) id (changes_of events) ->
  listens handle id up messages up' ->
  route (rs_registry up') id = Route_Via handle <$> usable (we_relay_id welcome) (offer (ov_table o2) !! id)
  /\ forall net hops name,
       rn_tables net (we_relay_id welcome) = rs_registry up' ->
       rn_peer net (we_relay_id welcome) handle = Some relay_id ->
       offer (ov_table o2) !! id = Some (mkAnnouncedDevice id name true (relay_id :: hops)) ->
       S (length hops) < MAX_HOPS -> we_relay_id welcome ∉ relay_id :: hops ->
       forall device, chained net id relay_id hops device ->
       chained net id (we_relay_id welcome) (relay_id :: hops) device.
Proof.
  intros Hnew H01 H12 Hin Hstream Hkeep Hdown Hpump Hup Hupid Hunknown Hfree Hlistens.
  destruct (overlapping_accounted _ _ (quiet_new relay_id) Hnew) as [Hok0 _].
  destruct (stream_split id o0 o1 o2 _ Hok0 H01 H12 Hstream Hin) as (view & known & more & Hsplit & Hset & Hv1 & Hv2).
  destruct (overlapping_accounted _ _ Hok0 H01) as [Hok1 _].
  destruct (pump_speaks _ _ _ _ _ Hkeep Hpump) as (rest & -> & Hspeaks).
  destruct (listens_first _ _ _ _ _ _ Hlistens) as (s1 & s2 & Hmean & Hroom & Hhear & Hl).
  assert (Hat : holds_at handle id (we_relay_id welcome) None up) by done.
  apply (meanwhile_holds _ _ _ _ _ _ Hmean) in Hat.
  apply (hears_first _ _ _ _ _ _ ltac:(rewrite Hdown; apply Hok1) Hroom Hhear) in Hat.
  apply (listens_changes _ _ _ _ _ Hspeaks _ _ _ Hl) in Hat as (_ & _ & Hrouted).
  rewrite Hdown, hear_about, Hsplit, <- Hv1, hear_ahead, Hv2 in Hrouted
    by (done || rewrite <- Hsplit; by apply loop_free_about).
  assert (Hroute : route (rs_registry up') id
    = Route_Via handle <$> usable (we_relay_id welcome) (offer (ov_table o2) !! id)).
  { unfold route. destruct (usable _ _) as [hops|]; cbn in Hrouted; [|by rewrite Hrouted].
    destruct Hrouted as (e & -> & He & _). cbn. by rewrite He. }
  split; [done|]. intros net hops name Hnet Hpeer Hoffer Hlen Hnotin device Hchained.
  assert (Hrt : is_announcement_routable (we_relay_id welcome) (relay_id :: hops) = true).
  { unfold is_announcement_routable. by rewrite bool_decide_true, bool_decide_false. }
  eapply chained_via; [|exact Hpeer|exact Hrt|exact Hchained].
  rewrite Hnet, Hroute, Hoffer. cbn. by rewrite Hrt.
Qed.

End mirror.

(** ** Witness *)

(** A downstream with one desktop, whose session sees it in the snapshot and in the stream, and the upstream
    its link is attached to. *)
Definition sample_mirror_link : TunnelHandle := mkTunnelHandle "link-b" 1.

Definition sample_below : RelayState :=
  put_registry (snd (Registry.connect 1 (sample_presence "dev1" DeviceKind_Desktop None 2) (new "relay-b")))
    (sample_state empty_database).

Definition sample_above : RelayState :=
  put_registry (snd (Registry.connect 1 (sample_presence "link-b" DeviceKind_Relay (Some "relay-b") 1) (new "relay-a")))
    (sample_state empty_database).

Definition sample_offer : AnnouncedDevice := mkAnnouncedDevice "dev1" "name of dev1" true ["relay-b"].

Definition sample_hearing (frame : ControlFrame) (s : RelayState) : RelayState :=
  snd (handle_control_frame (E := unit) sample_mirror_link DeviceKind_Relay frame s).

Lemma sample_hears frame messages s s' :
  (reg_sequence (rs_registry s) + draws (Message_Text (ControlFrame_encode frame)) < u64_modulus)%N ->
  fst (handle_control_frame (E := unit) sample_mirror_link DeviceKind_Relay frame s) = Ok tt ->
  listens sample_mirror_link "dev1" (sample_hearing frame s) messages s' ->
  listens sample_mirror_link "dev1" s (Message_Text (ControlFrame_encode frame) :: messages) s'.
Proof.
  intros Hroom Hok Hl. eapply listens_message; [exact Hroom| |exact Hl]. apply hears_frame.
  unfold sample_hearing. rewrite <- Hok. by destruct (handle_control_frame _ _ _ _).
Qed.

Lemma upstream_mirrors_witness :
  exists messages up', listens sample_mirror_link "dev1" sample_above messages up'
    /\ route (rs_registry up') "dev1" = Some (Route_Via sample_mirror_link ["relay-b"]).
Proof.
  set (snapshot := ControlFrame_Announce [sample_offer]).
  set (online := ControlFrame_DeviceOnline "dev1" "name of dev1" ["relay-b"]).
  exists [Message_Text (ControlFrame_encode snapshot); Message_Text (ControlFrame_encode online)],
    (sample_hearing online (sample_hearing snapshot sample_above)).
  assert (Hl : listens sample_mirror_link "dev1" sample_above
    [Message_Text (ControlFrame_encode snapshot); Message_Text (ControlFrame_encode online)]
    (sample_hearing online (sample_hearing snapshot sample_above))).
  { apply sample_hears; [cbn [draws]; rewrite frame_roundtrip; reflexivity|reflexivity|].
    apply sample_hears; [cbn [draws]; rewrite frame_roundtrip; reflexivity|reflexivity|]. constructor. }
  split; [exact Hl|].
  destruct (upstream_mirrors unit (sample_welcome "relay-a")
    [PumpEvent_Change (RegistryChange_Online sample_offer) (Ok tt)]
    [Message_Text (ControlFrame_encode snapshot); Message_Text (ControlFrame_encode online)]
    "relay-b" (quiet (new "relay-b")) (quiet (rs_registry sample_below)) (quiet (rs_registry sample_below))
    sample_below sample_below sample_above
    (sample_hearing online (sample_hearing snapshot sample_above)) sample_mirror_link "dev1") as [Hroute _].
  - apply rtc_refl.
  - apply registry_step_alone, step_connect. reflexivity.
  - apply rtc_refl.
  - reflexivity.
  - reflexivity.
  - by repeat constructor.
  - reflexivity.
  - reflexivity.
  - apply connect_good; [apply new_wf|reflexivity].
  - reflexivity.
  - reflexivity.
  - intros d [= ->]%list_elem_of_singleton _ ?%list_elem_of_singleton. done.
  - exact Hl.
  - rewrite Hroute. reflexivity.
Defined.
