(* ===== verification/Lifecycle.v ===== *)
(** * The life of the upstream link: supervisors and the requests that replace them, side by side

    [UpstreamSession] follows one supervisor from its start to its end.  Here the task a request has
    cancelled, the one it spawns and the requests themselves are interleaved ([upstream/mod.rs] and [run]
    of [upstream/session.rs]): the pieces a task or a request runs without an [await] are the steps, and
    the order of the steps is arbitrary. *)

From S2P Require Import Prelude.
From S2P Require Import RustStr.
From S2P Require Import Protocol.
From S2P Require Import Handle.
From S2P Require Import Registry.
From S2P Require Import Config.
From S2P Require Import Database.
From S2P Require Import Auth.
From S2P Require Import Address.
From S2P Require Import Http.
From S2P Require Import Upstream.
From S2P Require Import State.
From S2P Require Import Access.
From S2P Require Import Tunnel.
From S2P Require Import UpstreamSession.
From S2P Require Import UpstreamTheorems.

Section lifecycle.
Context `{!Protocol} `{!HttpCrate} `{!ClientCrate} `{!JsonCodec} `{!SettingsCodec}.

(** ** A supervisor task *)

(** Where a supervisor waits: to be polled for the first time, for the handshake, for the snapshot to be
    sent, in the pump, in the pause before it tries again, and not at all. *)
Inductive TaskState : Type :=
| TaskState_Spawned (backoff : Backoff)
| TaskState_Dialling (backoff : Backoff)
| TaskState_Adopted (backoff : Backoff) (welcome : Welcome)
| TaskState_Serving (backoff : Backoff) (welcome : Welcome)
| TaskState_Sleeping (backoff : Backoff)
| TaskState_Done.

(** What the task meets next.  [Move_Cancelled] is the [select!] finding the token cancelled. *)
Inductive Move : Type :=
| Move_Poll
| Move_Cancelled
| Move_Handshake (attempt : Attempt)
| Move_Snapshot (sent : result string unit)
| Move_Event (event : PumpEvent).

(** [run] up to [adopt]. *)
Definition handshake (settings : UpstreamSettings) (attempt : Attempt) (s : RelayState)
    : result SessionEnd Welcome :=
  connect_upstream settings attempt ≫= fun _ =>
  match snd (send_control (hello_frame s) (at_hello attempt)) with
  | Some reason => Err reason
  | None =>
      welcome ← await_welcome (at_welcome attempt);
      match refuse_loop s welcome with
      | Some reason => Err reason
      | None => Ok welcome
      end
  end.

(** [supervise] from the end of a session on; the answer is the backoff of the pause, if there is one. *)
Definition conclude (settings : UpstreamSettings) (backoff : Backoff) (outcome : SessionOutcome)
    : App unit (SupervisorStep * Backoff) :=
  let reason := message (so_end outcome) in
  let '(step, backoff) := next_step outcome backoff in
  match step with
  | SupervisorStep_Revoked => forget settings reason
  | SupervisorStep_Looped =>
      audit_record (url_detail settings (by_system action.UPSTREAM_LOOP_REFUSED)) ;;
      on_upstream (set_error reason)
  | SupervisorStep_Stop | SupervisorStep_RetryAfter _ => on_upstream (set_error reason)
  end ;;
  mret (step, backoff).

(** The end of a session that had joined: [run] after the pump, and [conclude]. *)
Definition finish (settings : UpstreamSettings) (backoff : Backoff) (reason : SessionEnd)
    : App unit (SupervisorStep * Backoff) :=
  withdraw settings (message reason) ;; conclude settings backoff (mkSessionOutcome true reason).

Definition resting (answer : result unit (SupervisorStep * Backoff)) : TaskState :=
  match answer with
  | Ok (SupervisorStep_RetryAfter _, backoff) => TaskState_Sleeping backoff
  | _ => TaskState_Done
  end.

Definition rest_after (run : result unit (SupervisorStep * Backoff) * RelayState) : TaskState * RelayState :=
  (resting (fst run), snd run).

(** One move of a task; [None] when the task is not waiting for it. *)
Definition advance (settings : UpstreamSettings) (cancelled : bool) (state : TaskState) (move : Move)
    (s : RelayState) : option (TaskState * RelayState) :=
  match state, move with
  | TaskState_Spawned backoff, Move_Poll | TaskState_Sleeping backoff, Move_Poll =>
      Some (TaskState_Dialling backoff, snd (on_upstream (E := unit) (set_connecting (up_url settings)) s))
  | TaskState_Dialling _, Move_Cancelled | TaskState_Adopted _ _, Move_Cancelled
  | TaskState_Serving _ _, Move_Cancelled | TaskState_Sleeping _, Move_Cancelled =>
      if cancelled then Some (TaskState_Done, s) else None
  | TaskState_Dialling backoff, Move_Handshake attempt =>
      Some match handshake settings attempt s with
           | Err reason => rest_after (conclude settings backoff (failed reason) s)
           | Ok welcome => (TaskState_Adopted backoff welcome, snd (adopt (E := unit) settings welcome s))
           end
  | TaskState_Adopted backoff welcome, Move_Snapshot sent =>
      Some match snd (send_control (snapshot_frame s (we_relay_id welcome)) sent) with
           | Some reason => rest_after (finish settings backoff reason s)
           | None => (TaskState_Serving backoff welcome, s)
           end
  | TaskState_Serving backoff welcome, Move_Event event =>
      let '(answer, s') := pump_event (E := unit) welcome event s in
      Some match answer with
           | Ok (_, Some reason) => rest_after (finish settings backoff reason s')
           | _ => (TaskState_Serving backoff welcome, s')
           end
  | _, _ => None
  end.

(** ** The link and its requests *)

Record Task : Type := mkTask {
  tk_settings : UpstreamSettings;
  tk_cancelled : bool;
  tk_state : TaskState;
}.

Definition cancel (task : Task) : Task := mkTask (tk_settings task) true (tk_state task).
Definition set_state (state : TaskState) (task : Task) : Task :=
  mkTask (tk_settings task) (tk_cancelled task) state.
Definition is_over (task : Task) : bool :=
  match tk_state task with TaskState_Done => true | _ => false end.

(** A request that calls [start], and [disconnect] with what it saw first. *)
Inductive Operation : Type :=
| Operation_Start (settings : UpstreamSettings)
| Operation_Stop (actor_user_id : string) (previous : option UpstreamView).

Record Lifecycle : Type := mkLifecycle {
  lc_relay : RelayState;
  (* every supervisor ever spawned *)
  lc_tasks : list Task;
  (* what [running] holds *)
  lc_running : option nat;
  (* who has locked [running], and the task it waits for *)
  lc_holder : option (Operation * option nat);
  (* requests about to lock [running] *)
  lc_waiting : list Operation;
  (* disconnections past [stop] *)
  lc_leaving : list (string * option UpstreamView);
  (* a wait was not seen to its end: it ran into [SHUTDOWN_WAIT], or its request was dropped *)
  lc_overrun : bool;
}.

Definition set_relay (s : RelayState) (l : Lifecycle) : Lifecycle :=
  mkLifecycle s (lc_tasks l) (lc_running l) (lc_holder l) (lc_waiting l) (lc_leaving l) (lc_overrun l).
Definition set_lc_tasks (tasks : list Task) (l : Lifecycle) : Lifecycle :=
  mkLifecycle (lc_relay l) tasks (lc_running l) (lc_holder l) (lc_waiting l) (lc_leaving l) (lc_overrun l).
Definition set_waiting (waiting : list Operation) (l : Lifecycle) : Lifecycle :=
  mkLifecycle (lc_relay l) (lc_tasks l) (lc_running l) (lc_holder l) waiting (lc_leaving l) (lc_overrun l).
Definition set_leaving (leaving : list (string * option UpstreamView)) (l : Lifecycle) : Lifecycle :=
  mkLifecycle (lc_relay l) (lc_tasks l) (lc_running l) (lc_holder l) (lc_waiting l) leaving (lc_overrun l).

(** [connect] up to [start]. *)
Definition ask_connect (exchange : Exchange) (url code : string) (certificate_fingerprint : option string)
    (actor_user_id : string) (l : Lifecycle) : Lifecycle :=
  let name := pu_host (public_url (lc_relay l)) in
  let '(answer, s) := establish exchange url code name certificate_fingerprint (Some actor_user_id) (lc_relay l) in
  let l := set_relay s l in
  match answer with
  | Ok settings => set_waiting (lc_waiting l ++ [Operation_Start settings]) l
  | Err _ => l
  end.

(** [resume] up to [start]. *)
Definition ask_resume (l : Lifecycle) : Lifecycle :=
  let '(loaded, s) := se_zoom rs_database put_database load (lc_relay l) in
  let l := set_relay s l in
  match loaded with
  | Ok (Some settings) => set_waiting (lc_waiting l ++ [Operation_Start settings]) l
  | _ => l
  end.

(** [disconnect] up to [stop]. *)
Definition ask_disconnect (actor_user_id : string) (l : Lifecycle) : Lifecycle :=
  set_waiting (lc_waiting l ++ [Operation_Stop actor_user_id (view (rs_upstream (lc_relay l)))]) l.

(** [disconnect] after [stop]. *)
Definition leave (actor_user_id : string) (previous : option UpstreamView) : App string unit :=
  push_addresses ;;
  se_map_err DatabaseError_to_string (database clear) ;;
  audit_record
    (detail "url" (Value_String (default EmptyString (uv_url <$> previous)))
       (by_user actor_user_id action.UPSTREAM_UNLINKED)).

(** [start] and [stop] up to the wait of [stop_running]: the lock is taken, the task told to end. *)
Definition lock (n : nat) (l : Lifecycle) : option Lifecycle :=
  match lc_holder l, lc_waiting l !! n with
  | None, Some operation =>
      let tasks := match lc_running l with Some i => alter cancel i (lc_tasks l) | None => lc_tasks l end in
      Some (mkLifecycle (snd (on_upstream (E := unit) (set_running None) (lc_relay l))) tasks None
              (Some (operation, lc_running l)) (delete n (lc_waiting l)) (lc_leaving l) (lc_overrun l))
  | _, _ => None
  end.

(** The task the holder of the lock waits for has ended. *)
Definition wound_down (l : Lifecycle) (awaited : option nat) : bool :=
  match awaited with
  | None => true
  | Some i => match lc_tasks l !! i with Some task => is_over task | None => true end
  end.

(** The rest of [start] and [stop]: the task has ended or [SHUTDOWN_WAIT] is over. *)
Definition unlock (timed_out : bool) (l : Lifecycle) : option Lifecycle :=
  match lc_holder l with
  | None => None
  | Some (operation, awaited) =>
      let over := wound_down l awaited in
      if negb (over || timed_out) then None
      else
        let overrun := lc_overrun l || negb over in
        match operation with
        | Operation_Start settings =>
            Some (mkLifecycle (snd (on_upstream (E := unit) (start settings) (lc_relay l)))
                    (lc_tasks l ++ [mkTask settings false (TaskState_Spawned Backoff_new)])
                    (Some (length (lc_tasks l))) None (lc_waiting l) (lc_leaving l) overrun)
        | Operation_Stop actor previous =>
            Some (mkLifecycle (snd (on_upstream (E := unit) stop (lc_relay l))) (lc_tasks l) None None
                    (lc_waiting l) (lc_leaving l ++ [(actor, previous)]) overrun)
        end
  end.

(** The request that has locked [running] is dropped while it waits, as hyper does when its client goes. *)
Definition abandon (l : Lifecycle) : option Lifecycle :=
  _ ← lc_holder l;
  Some (mkLifecycle (lc_relay l) (lc_tasks l) (lc_running l) None (lc_waiting l) (lc_leaving l) true).

(** The scheduler's choices. *)
Inductive Choice : Type :=
| Choice_Connect (exchange : Exchange) (url code : string) (certificate_fingerprint : option string)
    (actor_user_id : string)
| Choice_Resume
| Choice_Disconnect (actor_user_id : string)
| Choice_Lock (request : nat)
| Choice_Unlock (timed_out : bool)
| Choice_Leave (request : nat)
| Choice_Abandon
| Choice_Withdraw (request : nat)
| Choice_Task (task : nat) (move : Move).

Definition step (l : Lifecycle) (choice : Choice) : option Lifecycle :=
  match choice with
  | Choice_Connect exchange url code pin actor => Some (ask_connect exchange url code pin actor l)
  | Choice_Resume => Some (ask_resume l)
  | Choice_Disconnect actor => Some (ask_disconnect actor l)
  | Choice_Lock n => lock n l
  | Choice_Unlock timed_out => unlock timed_out l
  | Choice_Leave n =>
      '(actor, previous) ← lc_leaving l !! n;
      Some (set_leaving (delete n (lc_leaving l)) (set_relay (snd (leave actor previous (lc_relay l))) l))
  | Choice_Abandon => abandon l
  | Choice_Withdraw n => _ ← lc_waiting l !! n; Some (set_waiting (delete n (lc_waiting l)) l)
  | Choice_Task i move =>
      task ← lc_tasks l !! i;
      '(state, s) ← advance (tk_settings task) (tk_cancelled task) (tk_state task) move (lc_relay l);
      Some (set_lc_tasks (alter (set_state state) i (lc_tasks l)) (set_relay s l))
  end.

Definition schedule (l : Lifecycle) (choices : list Choice) : option Lifecycle :=
  foldl (fun l choice => l ← l; step l choice) (Some l) choices.

(** A relay that has just been set up: [UpstreamLink::new]. *)
Definition fresh_link (s : RelayState) : Lifecycle :=
  mkLifecycle (put_upstream UpstreamLink_new s) [] None None [] [] false.

End lifecycle.

(** ** Lemmas: what a supervisor may do to the link *)

Section frames.
Context `{!Protocol} `{!HttpCrate} `{!ClientCrate} `{!JsonCodec} `{!SettingsCodec}.

(** A supervisor of [url] leaves the table of running links alone and puts no other address on show. *)
Definition speaks_for (url : string) (s s' : RelayState) : Prop :=
  ul_running (rs_upstream s') = ul_running (rs_upstream s)
  /\ forall shown, ul_status (rs_upstream s') = Some shown ->
       ls_url shown = url
       \/ exists before, ul_status (rs_upstream s) = Some before /\ ls_url before = ls_url shown.

#[global] Instance speaks_for_preorder url : PreOrder (speaks_for url).
Proof.
  split; [intros s; split; [done|eauto]|]. intros s1 s2 s3 [Hr1 Hs1] [Hr2 Hs2]. split; [congruence|].
  intros shown [Hu|(before & Hb & <-)]%Hs2; [by left|by apply Hs1].
Qed.

Lemma same_link_speaks_for url (s s' : RelayState) : rs_upstream s' = rs_upstream s -> speaks_for url s s'.
Proof. intros Hu. unfold speaks_for. rewrite Hu. split; [done|eauto]. Qed.

Lemma same_routing_speaks_for {E A} url (m : App E A) :
  preserves same_routing m -> preserves (speaks_for url) m.
Proof. intros Hm s. apply same_link_speaks_for. apply Hm. Qed.

Lemma push_addresses_speaks_for {E} url : preserves (speaks_for url) (push_addresses (E := E)).
Proof. intros s. by apply same_link_speaks_for. Qed.

Lemma on_upstream_speaks_for {E} url f :
  (forall l, ul_running (f l) = ul_running l) ->
  (forall l shown, ul_status (f l) = Some shown ->
     ls_url shown = url \/ exists before, ul_status l = Some before /\ ls_url before = ls_url shown) ->
  preserves (speaks_for url) (on_upstream (E := E) f).
Proof. intros Hr Hs s. split; [apply Hr|apply Hs]. Qed.

Lemma set_reach_speaks_for {E} url reach : preserves (speaks_for url) (on_upstream (E := E) (set_reach reach)).
Proof. apply on_upstream_speaks_for; eauto. Qed.

Lemma clear_reach_speaks_for {E} url : preserves (speaks_for url) (on_upstream (E := E) clear_reach).
Proof. apply set_reach_speaks_for. Qed.

Lemma no_status_speaks_for {E} url : preserves (speaks_for url) (on_upstream (E := E) (set_status (fun _ => None))).
Proof. by apply on_upstream_speaks_for. Qed.

Lemma set_connecting_speaks_for {E} url : preserves (speaks_for url) (on_upstream (E := E) (set_connecting url)).
Proof.
  apply on_upstream_speaks_for; [done|]. intros l shown. unfold set_connecting, set_status. cbn. left.
  destruct (ul_status l) as [st|]; [destruct (String.eqb_spec (ls_url st) url)|]; by simplify_eq/=.
Qed.

Lemma kept_url_speaks_for {E} url f :
  (forall status, ls_url (f status) = ls_url status) ->
  preserves (speaks_for url) (on_upstream (E := E) (set_status (fmap f))).
Proof.
  intros Hf. apply on_upstream_speaks_for; [done|]. intros l shown. cbn.
  destruct (ul_status l) as [st|]; [|done]. intros [= <-]. right. by exists st.
Qed.

Lemma set_connected_speaks_for {E} url id : preserves (speaks_for url) (on_upstream (E := E) (set_connected id)).
Proof. by apply kept_url_speaks_for. Qed.

Lemma set_error_speaks_for {E} url text : preserves (speaks_for url) (on_upstream (E := E) (set_error text)).
Proof. by apply kept_url_speaks_for. Qed.

End frames.

#[export] Hint Resolve push_addresses_speaks_for set_reach_speaks_for clear_reach_speaks_for no_status_speaks_for
  set_connecting_speaks_for set_connected_speaks_for set_error_speaks_for : frame.
#[export] Hint Extern 3 (preserves (speaks_for _) _) =>
  apply same_routing_speaks_for; solve [auto 2 with frame] : frame.

Section moves.
Context `{!Protocol} `{!HttpCrate} `{!ClientCrate} `{!JsonCodec} `{!SettingsCodec}.

Lemma adopt_speaks_for url settings welcome : preserves (speaks_for url) (adopt (E := unit) settings welcome).
Proof. unfold adopt, record_connected. frame. Qed.

Lemma conclude_speaks_for url settings backoff outcome :
  preserves (speaks_for url) (conclude settings backoff outcome).
Proof. unfold conclude, forget. frame. Qed.

Lemma finish_speaks_for url settings backoff reason : preserves (speaks_for url) (finish settings backoff reason).
Proof.
  unfold finish, UpstreamSession.withdraw, record_disconnected. pose proof (conclude_speaks_for url). frame.
Qed.

Lemma pump_event_speaks_for url welcome event : preserves (speaks_for url) (pump_event (E := unit) welcome event).
Proof. destruct event; unfold pump_event, handle_message, handle_control; frame. Qed.

Lemma advance_speaks_for settings cancelled state move (s s' : RelayState) state' :
  advance settings cancelled state move s = Some (state', s') -> speaks_for (up_url settings) s s'.
Proof.
  assert (Hrest : forall (m : App unit (SupervisorStep * Backoff)) s0, preserves (speaks_for (up_url settings)) m ->
    rest_after (m s0) = (state', s') -> speaks_for (up_url settings) s0 s').
  { intros m s0 Hm [= _ <-]. apply Hm. }
  destruct state, move; try done; cbn [advance].
  - intros [= _ <-]. apply (set_connecting_speaks_for (E := unit)).
  - destruct cancelled; [|done]. by intros [= _ <-].
  - destruct (handshake settings attempt s); intros Heq%(inj Some).
    + injection Heq as _ <-. apply adopt_speaks_for.
    + by eapply Hrest; [apply conclude_speaks_for|].
  - destruct cancelled; [|done]. by intros [= _ <-].
  - destruct (snd _); intros Heq%(inj Some); [|by injection Heq as _ <-].
    by eapply Hrest; [apply finish_speaks_for|].
  - destruct cancelled; [|done]. by intros [= _ <-].
  - pose proof (pump_event_speaks_for (up_url settings) welcome event s) as Hp.
    destruct (pump_event welcome event s) as [answer s1]. cbn [snd] in Hp. intros Heq%(inj Some).
    destruct answer as [[sent [reason|]]|]; [|by injection Heq as _ <-..].
    etrans; [exact Hp|]. by eapply Hrest; [apply finish_speaks_for|].
  - intros [= _ <-]. apply (set_connecting_speaks_for (E := unit)).
  - destruct cancelled; [|done]. by intros [= _ <-].
Qed.

End moves.

(** ** The invariant *)

Section invariant.
Context `{!Protocol} `{!HttpCrate} `{!ClientCrate} `{!JsonCodec} `{!SettingsCodec}.

(** The task [running] holds, or that whoever locked it waits for. *)
Definition linked (l : Lifecycle) (i : nat) : Prop :=
  lc_running l = Some i \/ exists operation, lc_holder l = Some (operation, Some i).

Record orderly_link (l : Lifecycle) : Prop := {
  ol_linked : forall i, linked l i -> is_Some (lc_tasks l !! i);
  ol_locked : lc_holder l <> None -> lc_running l = None;
  ol_meant : forall i task, lc_tasks l !! i = Some task -> (tk_cancelled task = false <-> lc_running l = Some i);
  ol_named : ul_running (rs_upstream (lc_relay l))
             = (i ← lc_running l; tk_settings <$> lc_tasks l !! i);
  ol_live : lc_overrun l = false -> forall i task,
    lc_tasks l !! i = Some task -> is_over task = false -> linked l i;
  ol_shown : lc_overrun l = false -> forall shown, ul_status (rs_upstream (lc_relay l)) = Some shown ->
    exists i task, linked l i /\ lc_tasks l !! i = Some task /\ ls_url shown = up_url (tk_settings task);
  ol_quiet : lc_overrun l = false -> (forall i, ~ linked l i) -> reach (lc_relay l) = UpstreamReach_default;
}.

Lemma linked_unique l i j : orderly_link l -> linked l i -> linked l j -> i = j.
Proof.
  intros Hl [Hi|(op & Hi)] [Hj|(op' & Hj)]; try congruence;
    rewrite (ol_locked l Hl) in *; naive_solver.
Qed.

(** Steps that leave the tasks and the link alone. *)
Lemma orderly_same l l' :
  orderly_link l -> lc_tasks l' = lc_tasks l -> lc_running l' = lc_running l -> lc_holder l' = lc_holder l ->
  lc_overrun l' = lc_overrun l -> rs_upstream (lc_relay l') = rs_upstream (lc_relay l) -> orderly_link l'.
Proof.
  intros [] Ht Hr Hh Ho Hu.
  assert (Hk : forall i, linked l' i <-> linked l i) by (intros i; unfold linked; by rewrite Hr, Hh).
  split; unfold reach; rewrite ?Ht, ?Hr, ?Hh, ?Ho, ?Hu; auto.
  - intros i. rewrite Hk. auto.
  - intros Hno i task. rewrite Hk. eauto.
  - intros Hno shown Hs. destruct (ol_shown0 Hno shown Hs) as (i & task & Hi & ?). exists i, task. by rewrite Hk.
  - intros Hno Hn. apply ol_quiet0; [done|]. intros i. rewrite <- Hk. auto.
Qed.

Lemma fresh_link_orderly s : orderly_link (fresh_link s).
Proof.
  split; cbn; try done.
  - intros i [|(? & ?)]; done.
Qed.

(** A task's own move. *)
Lemma orderly_move l i task state s :
  orderly_link l -> lc_tasks l !! i = Some task -> is_over task = false ->
  speaks_for (up_url (tk_settings task)) (lc_relay l) s ->
  orderly_link (set_lc_tasks (alter (set_state state) i (lc_tasks l)) (set_relay s l)).
Proof.
  intros Hl Hi Hlive [Hrun Hurl].
  assert (Hback : forall j t, alter (set_state state) i (lc_tasks l) !! j = Some t ->
    exists t0, lc_tasks l !! j = Some t0 /\ tk_settings t = tk_settings t0 /\ tk_cancelled t = tk_cancelled t0
               /\ (is_over t = false -> is_over t0 = false)).
  { intros j t. destruct (decide (j = i)) as [->|Hne].
    - rewrite list_lookup_alter_eq, Hi. intros [= <-]. by exists task.
    - rewrite list_lookup_alter_ne by done. intros Hj. by exists t. }
  assert (Hforth : forall j t0, lc_tasks l !! j = Some t0 ->
    exists t, alter (set_state state) i (lc_tasks l) !! j = Some t /\ tk_settings t = tk_settings t0).
  { intros j t0 Hj. destruct (decide (j = i)) as [->|Hne].
    - rewrite list_lookup_alter_eq, Hj. by eexists.
    - rewrite list_lookup_alter_ne by done. by exists t0. }
  destruct Hl. split; cbn [lc_tasks lc_running lc_holder lc_overrun lc_relay set_lc_tasks set_relay]; auto.
  - intros j (t0 & Hj)%ol_linked0. apply Hforth in Hj as (t & Ht & _). by exists t.
  - intros j t (t0 & Hj & _ & -> & _)%Hback. auto.
  - rewrite Hrun, ol_named0. destruct (lc_running l) as [j|]; [|done]. cbn.
    destruct (decide (j = i)) as [->|Hne]; [by rewrite list_lookup_alter_eq, Hi|by rewrite list_lookup_alter_ne].
  - intros Ho j t (t0 & Hj & _ & _ & Hover)%Hback Hl. apply (ol_live0 Ho j t0); auto.
  - intros Ho shown Hs. destruct (Hurl shown Hs) as [Hu|(before & Hb & Hu)].
    + destruct (Hforth i task Hi) as (t & Ht & Hset). exists i, t. rewrite Hset.
      split_and!; [by apply (ol_live0 Ho i task)|done|done].
    + destruct (ol_shown0 Ho before Hb) as (j & t0 & Hj & Ht0 & Hsh). destruct (Hforth j t0 Ht0) as (t & Ht & Hset).
      exists j, t. rewrite Hset, <- Hu. by split_and!.
  - intros Ho Hn. destruct (Hn i). by apply (ol_live0 Ho i task).
Qed.

Lemma orderly_lock l n l' : orderly_link l -> lock n l = Some l' -> orderly_link l'.
Proof.
  intros Hl. unfold lock. destruct (lc_holder l) as [|] eqn:Hh; [done|].
  destruct (lc_waiting l !! n) as [operation|]; [|done]. intros [= <-].
  assert (Hk : forall i, linked l i <-> lc_running l = Some i).
  { intros i. unfold linked. rewrite Hh. split; [by intros [|(? & ?)]|by left]. }
  set (tasks := match lc_running l with Some i => alter cancel i (lc_tasks l) | None => lc_tasks l end).
  assert (Hback : forall j t, tasks !! j = Some t -> exists t0, lc_tasks l !! j = Some t0
    /\ tk_settings t = tk_settings t0 /\ is_over t = is_over t0 /\ tk_cancelled t = true).
  { unfold tasks. intros j t. destruct (lc_running l) as [i|] eqn:Hr.
    - destruct (decide (j = i)) as [->|Hne].
      + rewrite list_lookup_alter_eq. destruct (lc_tasks l !! i) as [t0|]; [|done]. intros [= <-]. by exists t0.
      + rewrite list_lookup_alter_ne by done. intros Hj. exists t. split_and!; try done.
        destruct (tk_cancelled t) eqn:Hc; [done|]. apply (ol_meant l Hl j t Hj) in Hc. congruence.
    - intros Hj. exists t. split_and!; try done.
      destruct (tk_cancelled t) eqn:Hc; [done|]. apply (ol_meant l Hl j t Hj) in Hc. congruence. }
  assert (Hforth : forall j t0, lc_tasks l !! j = Some t0 ->
    exists t, tasks !! j = Some t /\ tk_settings t = tk_settings t0).
  { unfold tasks. intros j t0 Hj. destruct (lc_running l) as [i|]; [|by exists t0].
    destruct (decide (j = i)) as [->|Hne].
    - rewrite list_lookup_alter_eq, Hj. by eexists.
    - rewrite list_lookup_alter_ne by done. by exists t0. }
  set (l' := mkLifecycle _ _ _ _ _ _ _).
  assert (Hk' : forall i, linked l' i <-> lc_running l = Some i).
  { intros i. unfold linked. cbn. split; [intros [|(? & ?)]; congruence|intros ->; right; by eexists]. }
  split; cbn; try done.
  - intros i. rewrite Hk', <- Hk. intros (t0 & Hi)%(ol_linked l Hl). apply Hforth in Hi as (t & Ht & _). by exists t.
  - intros i t (_ & _ & _ & _ & Hc)%Hback. by rewrite Hc.
  - intros Ho i t (t0 & Hi & _ & Hover & _)%Hback Hlive. rewrite Hk', <- Hk.
    apply (ol_live l Hl Ho i t0); [done|congruence].
  - intros Ho shown Hs. destruct (ol_shown l Hl Ho shown Hs) as (i & t0 & Hi & Ht0 & Hu).
    destruct (Hforth i t0 Ht0) as (t & Ht & Hset). exists i, t. rewrite Hk', <- Hk, Hset. by split_and!.
  - intros Ho Hn. apply (ol_quiet l Hl Ho). intros i. rewrite Hk, <- Hk'. apply Hn.
Qed.

Lemma orderly_abandon l l' : orderly_link l -> abandon l = Some l' -> orderly_link l'.
Proof.
  intros Hl. unfold abandon. destruct (lc_holder l) as [|] eqn:Hh; [|done]. intros [= <-].
  pose proof (ol_locked l Hl ltac:(by rewrite Hh)) as Hr. pose proof (ol_named l Hl) as Hn.
  split; cbn; try done; rewrite ?Hr in *; try done.
  - intros i [Hi|(op & Hi)]; [|done]. cbn in Hi. congruence.
  - intros i task Hi. rewrite <- Hr. by apply (ol_meant l Hl).
Qed.

Lemma set_connecting_shown url (u : UpstreamLink) shown :
  ul_status (set_connecting url u) = Some shown -> ls_url shown = url /\ ls_state shown = UpstreamState_Connecting.
Proof.
  unfold set_connecting, set_status. cbn.
  destruct (ul_status u) as [st|]; [destruct (String.eqb_spec (ls_url st) url)|]; by intros [= <-].
Qed.

Lemma start_shown settings (u : UpstreamLink) :
  exists shown, view (start settings u) = Some shown
    /\ uv_url shown = up_url settings /\ uv_state shown = UpstreamState_Connecting.
Proof.
  destruct (set_connecting_status settings (set_running None u)) as (shown & Hs & _).
  apply set_connecting_shown in Hs as Hshown. unfold view, start. cbn in *. rewrite Hs. by eexists.
Qed.

Lemma orderly_unlock l timed_out l' : orderly_link l -> unlock timed_out l = Some l' -> orderly_link l'.
Proof.
  intros Hl. unfold unlock. destruct (lc_holder l) as [[operation awaited]|] eqn:Hh; [|done].
  pose proof (ol_locked l Hl ltac:(by rewrite Hh)) as Hr.
  destruct (negb (wound_down l awaited || timed_out)) eqn:Hw; [done|].
  assert (Hdown : lc_overrun l || negb (wound_down l awaited) = false ->
    lc_overrun l = false /\ forall i task, lc_tasks l !! i = Some task -> is_over task = true).
  { intros [Ho Hd]%orb_false_iff. split; [done|]. apply negb_false_iff in Hd. intros i task Hi.
    destruct (is_over task) eqn:Hlive; [done|]. apply (ol_live l Hl Ho) in Hi as Hlk; [|done].
    destruct Hlk as [Hlk|(op & Hlk)]; [congruence|]. rewrite Hh in Hlk. injection Hlk as _ ->.
    cbn in Hd. rewrite Hi in Hd. congruence. }
  assert (Hc : forall i task, lc_tasks l !! i = Some task -> tk_cancelled task = true).
  { intros i task Hi. destruct (tk_cancelled task) eqn:Hc; [done|]. apply (ol_meant l Hl i) in Hc; congruence. }
  destruct operation as [settings|actor previous]; intros [= <-].
  - set (tasks := lc_tasks l ++ _). assert (Hnew : tasks !! length (lc_tasks l)
      = Some (mkTask settings false (TaskState_Spawned Backoff_new))) by (apply list_lookup_middle; done).
    split; cbn; try done.
    + intros i [Hi|(op & Hi)]; [|done]. injection Hi as <-. by eexists.
    + intros i task Hi. apply lookup_app_Some in Hi as [Hi|[Hge Hi]].
      * rewrite (Hc i task Hi). split; [done|]. intros [= <-]. apply lookup_lt_Some in Hi. lia.
      * apply list_lookup_singleton_Some in Hi as [Hz <-]. cbn. split; [|done]. intros _. f_equal. lia.
    + by rewrite Hnew.
    + intros [Ho Hd]%Hdown i task Hi Hlive. left. cbn. apply lookup_app_Some in Hi as [Hi|[Hge Hi]].
      * by rewrite (Hd i task Hi) in Hlive.
      * apply list_lookup_singleton_Some in Hi as [Hz _]. f_equal. lia.
    + intros _ shown [Hu _]%set_connecting_shown. exists (length (lc_tasks l)). eexists.
      split; [by left|]. split; [exact Hnew|exact Hu].
    + intros _ Hn. destruct (Hn (length (lc_tasks l))). by left.
  - split; cbn; try done.
    + intros i [Hi|(op & Hi)]; done.
    + intros i task Hi. by rewrite (Hc i task Hi).
    + intros [Ho Hd]%Hdown i task Hi Hlive. by rewrite (Hd i task Hi) in Hlive.
Qed.

End invariant.

(** ** One task by itself does what [supervise] does *)

Section sequential.
Context `{!Protocol} `{!HttpCrate} `{!ClientCrate} `{!JsonCodec} `{!SettingsCodec}.

Fixpoint follow (settings : UpstreamSettings) (state : TaskState) (moves : list Move) (s : RelayState)
    : option (TaskState * RelayState) :=
  match moves with
  | [] => Some (state, s)
  | move :: rest => '(state, s) ← advance settings false state move s; follow settings state rest s
  end.

Lemma follow_app settings moves moves' : forall state s,
  follow settings state (moves ++ moves') s
  = ('(state, s) ← follow settings state moves s; follow settings state moves' s).
Proof.
  induction moves as [|move moves IH]; intros state s; [done|]. cbn.
  destruct (advance settings false state move s) as [[state' s']|]; [apply IH|done].
Qed.

Lemma run_handshake settings attempt (s s' : RelayState) messages outcome :
  run (E := unit) settings attempt s = (Ok (messages, outcome), s') ->
  match handshake settings attempt s with
  | Err reason => outcome = Some (failed reason) /\ s' = s
  | Ok welcome =>
      exists s1 s2 sent, adopt (E := unit) settings welcome s = (Ok tt, s1)
        /\ pump (E := unit) welcome (at_snapshot attempt) (at_events attempt) s1 = (Ok sent, s2)
        /\ match snd sent with
           | None => outcome = None /\ s' = s2
           | Some reason =>
               outcome = Some (mkSessionOutcome true reason)
               /\ UpstreamSession.withdraw (E := unit) settings (message reason) s2 = (Ok tt, s')
           end
  end.
Proof.
  unfold run, handshake. destruct (connect_upstream _ _) as [headers|reason]; cbn [mbind result_bind].
  2:{ by intros [= _ <- <-]. }
  erewrite se_bind_eq by reflexivity. unfold send_control. destruct (at_hello attempt) as [[]|error]; cbn [snd].
  2:{ by intros [= _ <- <-]. }
  destruct (await_welcome (at_welcome attempt)) as [welcome|reason]; cbn [mbind result_bind].
  2:{ by intros [= _ <- <-]. }
  erewrite se_bind_eq by reflexivity. destruct (refuse_loop s welcome) as [reason|]; [by intros [= _ <- <-]|].
  intros ([] & s1 & Ha & Hr)%se_bind_ok. apply se_bind_ok in Hr as (sent & s2 & Hp & Hr).
  exists s1, s2, sent. split; [exact Ha|]. split; [exact Hp|]. destruct (snd sent) as [reason|].
  - apply se_bind_ok in Hr as ([] & s3 & Hw & [= _ <- <-]). by split.
  - by injection Hr as _ <- <-.
Qed.

Lemma pump_loop_follow settings backoff welcome events : forall (s s' : RelayState) sent,
  pump_loop (E := unit) welcome events s = (Ok sent, s') ->
  exists moves, follow settings (TaskState_Serving backoff welcome) moves s
    = Some match snd sent with
           | None => (TaskState_Serving backoff welcome, s')
           | Some reason => rest_after (finish settings backoff reason s')
           end.
Proof.
  induction events as [|event rest IH]; intros s s' sent; cbn [pump_loop].
  { intros [= <- <-]. by exists []. }
  intros ([out reason] & s1 & He & Hr)%se_bind_ok. cbn [snd] in Hr. destruct reason as [reason|].
  - injection Hr as <- <-. exists [Move_Event event]. cbn. rewrite He. by destruct (rest_after _).
  - apply se_bind_ok in Hr as (others & s2 & Hl & [= <- <-]). destruct (IH _ _ _ Hl) as [moves Hm].
    exists (Move_Event event :: moves). cbn. by rewrite He.
Qed.

Lemma pump_follow settings backoff welcome first events (s s' : RelayState) sent :
  pump (E := unit) welcome first events s = (Ok sent, s') ->
  exists moves, follow settings (TaskState_Adopted backoff welcome) moves s
    = Some match snd sent with
           | None => (TaskState_Serving backoff welcome, s')
           | Some reason => rest_after (finish settings backoff reason s')
           end.
Proof.
  unfold pump. erewrite se_bind_eq by reflexivity.
  destruct (send_control _ first) as [out failure] eqn:Es. destruct failure as [reason|].
  - intros [= <- <-]. exists [Move_Snapshot first]. cbn. by rewrite Es.
  - intros (others & s1 & Hl & [= <- <-])%se_bind_ok.
    destruct (pump_loop_follow settings backoff _ _ _ _ _ Hl) as [moves Hm].
    exists (Move_Snapshot first :: moves). cbn. by rewrite Es.
Qed.

Lemma run_follow settings backoff attempt (s s' : RelayState) messages outcome :
  run (E := unit) settings attempt s = (Ok (messages, outcome), s') ->
  exists moves, match outcome with
    | None => exists welcome,
        follow settings (TaskState_Dialling backoff) moves s = Some (TaskState_Serving backoff welcome, s')
    | Some outcome =>
        follow settings (TaskState_Dialling backoff) moves s
        = Some (rest_after (conclude settings backoff outcome s'))
    end.
Proof.
  intros Hrun. apply run_handshake in Hrun. destruct (handshake settings attempt s) as [welcome|reason] eqn:Eh.
  - destruct Hrun as (s1 & s2 & sent & Ha & Hp & Hend).
    destruct (pump_follow settings backoff _ _ _ _ _ _ Hp) as [moves Hm].
    exists (Move_Handshake attempt :: moves). destruct (snd sent) as [reason|]; destruct Hend as [-> Hend].
    + cbn. rewrite Eh, Ha. cbn. rewrite Hm. unfold finish. by rewrite (se_bind_eq _ _ _ _ _ Hend).
    + exists welcome. cbn. rewrite Eh, Ha. cbn. by rewrite Hm, Hend.
  - destruct Hrun as [-> ->]. exists [Move_Handshake attempt]. cbn. rewrite Eh. by destruct (rest_after _).
Qed.

(** Whatever a supervisor does by itself is a run of its task, which has ended when it has decided. *)
Lemma supervise_follow settings rounds : forall backoff (s s' : RelayState) answer state,
  (state = TaskState_Spawned backoff \/ state = TaskState_Sleeping backoff) ->
  supervise_loop (E := unit) settings backoff rounds s = (Ok answer, s') ->
  exists moves state', follow settings state moves s = Some (state', s')
    /\ (is_Some answer -> state' = TaskState_Done).
Proof.
  induction rounds as [|[attempt slept] rest IH]; intros backoff s s' answer state Hstate; cbn [supervise_loop];
    erewrite se_bind_eq by reflexivity; set (s0 := put_upstream _ s);
    (assert (Hpoll : forall moves, follow settings state (Move_Poll :: moves) s
       = follow settings (TaskState_Dialling backoff) moves s0) by by destruct Hstate as [-> | ->]).
  { intros [= <- <-]. exists [Move_Poll]. eexists. rewrite Hpoll. split; [done|]. by intros [? ?]. }
  intros ([messages outcome] & s2 & Hrun & Hres)%se_bind_ok. cbn [snd] in Hres.
  destruct (run_follow settings backoff attempt s0 s2 messages outcome Hrun) as [moves Hm].
  destruct outcome as [outcome|].
  2:{ injection Hres as <- <-. destruct Hm as [welcome Hm]. exists (Move_Poll :: moves). eexists.
      rewrite Hpoll. split; [exact Hm|]. by intros [? ?]. }
  assert (Hdone : forall state' s3, rest_after (conclude settings backoff outcome s2) = (state', s3) ->
    follow settings state (Move_Poll :: moves) s = Some (state', s3)) by by intros; rewrite Hpoll, Hm; congruence.
  unfold conclude, rest_after in Hdone.
  destruct (next_step outcome backoff) as [taken backoff'] eqn:En.
  destruct taken as [| | |delay].
  - revert Hres. erewrite se_bind_eq by reflexivity. intros [= <- <-].
    exists (Move_Poll :: moves), TaskState_Done. split; [|done]. by apply Hdone.
  - apply se_bind_ok in Hres as ([] & s3 & Hf & [= <- <-]).
    exists (Move_Poll :: moves), TaskState_Done. split; [|done]. apply Hdone.
    by rewrite (se_bind_eq _ _ _ _ _ Hf).
  - apply se_bind_ok in Hres as ([] & s3 & Ha & Hres). revert Hres. erewrite se_bind_eq by reflexivity.
    intros [= <- <-]. exists (Move_Poll :: moves), TaskState_Done. split; [|done]. apply Hdone.
    erewrite se_bind_eq; [reflexivity|]. by rewrite (se_bind_eq _ _ _ _ _ Ha).
  - revert Hres. erewrite se_bind_eq by reflexivity. set (s3 := put_upstream _ s2).
    assert (Hsleep : follow settings state (Move_Poll :: moves) s = Some (TaskState_Sleeping backoff', s3))
      by by apply Hdone.
    destruct slept.
    + intros Hres. apply (IH _ _ _ _ (TaskState_Sleeping backoff')) in Hres as (more & state' & Hmore & Hd);
        [|by right].
      exists ((Move_Poll :: moves) ++ more), state'. split; [|exact Hd]. by rewrite follow_app, Hsleep.
    + intros [= <- <-]. exists (Move_Poll :: moves). eexists. split; [exact Hsleep|]. by intros [? ?].
Qed.

End sequential.

(** ** Every schedule *)

Section schedules.
Context `{!Protocol} `{!HttpCrate} `{!ClientCrate} `{!JsonCodec} `{!SettingsCodec}.

Lemma same_routing_same_link {E A} (m : App E A) s :
  preserves same_routing m -> rs_upstream (snd (m s)) = rs_upstream s.
Proof. intros Hm. apply Hm. Qed.

Lemma establish_same_link exchange url code name pin actor s :
  rs_upstream (snd (establish exchange url code name pin actor s)) = rs_upstream s.
Proof. apply same_routing_same_link. unfold establish, join. frame. Qed.

Lemma leave_same_link actor previous s : rs_upstream (snd (leave actor previous s)) = rs_upstream s.
Proof.
  assert (Hleave : preserves (keeps rs_upstream) (leave actor previous)); [|apply Hleave].
  unfold leave. apply preserves_bind; [tc_solve|by intros t|]. intros _ t. apply same_routing_same_link. frame.
Qed.

Lemma disconnect_parts actor (s : RelayState) :
  disconnect actor s
  = leave actor (view (rs_upstream s)) (snd (on_upstream (E := string) stop s)).
Proof. reflexivity. Qed.

Lemma step_orderly l choice l' : orderly_link l -> step l choice = Some l' -> orderly_link l'.
Proof.
  intros Hl. destruct choice as [exchange url code pin actor| |actor|n|timed_out|n| |n|i move]; cbn [step].
  - intros [= <-]. unfold ask_connect.
    pose proof (establish_same_link exchange url code (pu_host (public_url (lc_relay l))) pin (Some actor) (lc_relay l)).
    destruct (establish _ _ _ _ _ _ _) as [[settings|] s]; by apply (orderly_same l).
  - intros [= <-]. unfold ask_resume, se_zoom. destruct (load _) as [[[settings|]|] db]; by apply (orderly_same l).
  - intros [= <-]. by apply (orderly_same l).
  - by apply orderly_lock.
  - by apply orderly_unlock.
  - destruct (lc_leaving l !! n) as [[actor previous]|]; [|done]. intros [= <-].
    by apply (orderly_same l), leave_same_link.
  - by apply orderly_abandon.
  - destruct (lc_waiting l !! n); [|done]. intros [= <-]. by apply (orderly_same l).
  - destruct (lc_tasks l !! i) as [task|] eqn:Hi; [|done]. cbn.
    destruct (advance _ _ _ move (lc_relay l)) as [[state s]|] eqn:Ha; [|done]. intros [= <-].
    apply advance_speaks_for in Ha as Hu. apply (orderly_move l i task); try done.
    unfold is_over. destruct (tk_state task); try done.
Qed.

Lemma schedule_snoc l choices choice :
  schedule l (choices ++ [choice]) = (l' ← schedule l choices; step l' choice).
Proof. unfold schedule. by rewrite foldl_app. Qed.

Lemma schedule_orderly s choices : forall l, schedule (fresh_link s) choices = Some l -> orderly_link l.
Proof.
  induction choices as [|choice choices IH] using rev_ind; intros l.
  - intros [= <-]. apply fresh_link_orderly.
  - rewrite schedule_snoc. destruct (schedule _ choices) as [l0|]; [|done]. by apply step_orderly, IH.
Qed.

(** C7: the link is one supervisor's at a time.  However requests of the console, the start-up and
    supervisors interleave: only the task [running] names has not been told to end.  As long as every wait
    for one was seen to its end, never two supervisors are alive, the address on show is that of the
    supervisor the link belongs to, and while no request is at work and no link is up the relay shows no
    link, is part of no chain and hands out no address but its own. *)
Theorem one_supervisor (s : RelayState) (choices : list Choice) (l : Lifecycle) :
  schedule (fresh_link s) choices = Some l ->
  (forall i task, lc_tasks l !! i = Some task -> (tk_cancelled task = false <-> lc_running l = Some i))
  /\ ul_running (rs_upstream (lc_relay l)) = (i ← lc_running l; tk_settings <$> lc_tasks l !! i)
  /\ (lc_overrun l = false ->
        (forall i j task other, lc_tasks l !! i = Some task -> lc_tasks l !! j = Some other ->
           is_over task = false -> is_over other = false -> i = j)
        /\ (forall shown, ul_status (rs_upstream (lc_relay l)) = Some shown ->
              exists i task, linked l i /\ lc_tasks l !! i = Some task
                             /\ ls_url shown = up_url (tk_settings task))
        /\ (lc_running l = None -> lc_holder l = None ->
              (forall i task, lc_tasks l !! i = Some task -> is_over task = true)
              /\ view (rs_upstream (lc_relay l)) = None /\ upstream_chain (lc_relay l) = []
              /\ forall device_id, device_addresses (lc_relay l) device_id = [relay_address (lc_relay l) device_id])).
Proof.
  intros Hs. apply schedule_orderly in Hs as Hl. split; [by apply ol_meant|]. split; [by apply ol_named|].
  intros Ho. split; [|split; [by apply ol_shown|]].
  - intros i j task other Hi Hj Hti Htj. eapply linked_unique; [exact Hl|by eapply ol_live..].
  - intros Hr Hh. assert (Hn : forall i, ~ linked l i) by by intros i [|(? & ?)]; congruence.
    split; [|split].
    + intros i task Hi. destruct (is_over task) eqn:Hlive; [done|]. destruct (Hn i). by apply (ol_live l Hl Ho i task).
    + unfold view. destruct (ul_status _) as [shown|] eqn:E; [|done].
      destruct (ol_shown l Hl Ho shown E) as (i & _ & Hi & _). by destruct (Hn i).
    + pose proof (ol_quiet l Hl Ho Hn) as Hq. unfold reach in Hq. unfold upstream_chain, chain, device_addresses.
      rewrite Hq. by split.
Qed.

Lemma task_step l i task move state s :
  lc_tasks l !! i = Some task ->
  advance (tk_settings task) (tk_cancelled task) (tk_state task) move (lc_relay l) = Some (state, s) ->
  step l (Choice_Task i move) = Some (set_lc_tasks (alter (set_state state) i (lc_tasks l)) (set_relay s l)).
Proof. intros Hi Ha. cbn [step]. rewrite Hi. cbn. by rewrite Ha. Qed.

(** A cancelled task ends as soon as it is polled at its next [select!]. *)
Lemma cancelled_task_ends l i task :
  lc_tasks l !! i = Some task -> tk_cancelled task = true ->
  exists moves l1 task1, schedule l (Choice_Task i <$> moves) = Some l1 /\ length moves <= 2
    /\ lc_holder l1 = lc_holder l /\ lc_overrun l1 = lc_overrun l
    /\ lc_tasks l1 !! i = Some task1 /\ is_over task1 = true.
Proof.
  intros Hi Hc.
  assert (Hnotice : forall l0 task0, lc_tasks l0 !! i = Some task0 -> tk_cancelled task0 = true ->
    advance (tk_settings task0) true (tk_state task0) Move_Cancelled (lc_relay l0)
      = Some (TaskState_Done, lc_relay l0) ->
    exists l1 task1, step l0 (Choice_Task i Move_Cancelled) = Some l1
      /\ lc_holder l1 = lc_holder l0 /\ lc_overrun l1 = lc_overrun l0
      /\ lc_tasks l1 !! i = Some task1 /\ is_over task1 = true).
  { intros l0 task0 Hi0 Hc0 Ha. eexists. exists (set_state TaskState_Done task0).
    rewrite (task_step l0 i task0 Move_Cancelled TaskState_Done (lc_relay l0)) by (done || by rewrite Hc0).
    split; [done|]. cbn. by rewrite list_lookup_alter_eq, Hi0. }
  destruct (tk_state task) as [b|b|b w|b w|b|] eqn:Hst.
  1: { set (s := snd (on_upstream (E := unit) (set_connecting (up_url (tk_settings task))) (lc_relay l))).
       set (l0 := set_lc_tasks (alter (set_state (TaskState_Dialling b)) i (lc_tasks l)) (set_relay s l)).
       assert (Hi0 : lc_tasks l0 !! i = Some (set_state (TaskState_Dialling b) task))
         by (cbn; by rewrite list_lookup_alter_eq, Hi).
       destruct (Hnotice l0 _ Hi0) as (l1 & task1 & Hrun & Hrest); [done..|].
       exists [Move_Poll; Move_Cancelled], l1, task1. split; [|split; [cbn; lia|exact Hrest]].
       unfold schedule. cbn [fmap list_fmap foldl mbind option_bind].
       rewrite (task_step l i task Move_Poll (TaskState_Dialling b) s) by (done || by rewrite Hst). exact Hrun. }
  5: { exists [], l, task. unfold is_over. rewrite Hst. split_and!; try done. cbn. lia. }
  all: destruct (Hnotice l task Hi Hc) as (l1 & task1 & Hrun & Hrest); [by rewrite Hst|];
    exists [Move_Cancelled], l1, task1; (split; [exact Hrun|split; [cbn; lia|exact Hrest]]).
Qed.

(** Whoever has locked the link never needs [SHUTDOWN_WAIT].  In every state the rest of the system
    can reach, the task it waits for ends within two moves of its own once it is polled - it only has to
    notice its token - and then the request completes: a start leaves the new supervisor's link on show as
    connecting, a stop leaves no link. *)
Theorem wind_down_completes (s : RelayState) (choices : list Choice) (l : Lifecycle)
    (operation : Operation) (awaited : option nat) :
  schedule (fresh_link s) choices = Some l -> lc_holder l = Some (operation, awaited) ->
  exists moves l', schedule l (moves ++ [Choice_Unlock false]) = Some l'
    /\ length moves <= 2
    /\ (forall choice, choice ∈ moves -> exists i move, awaited = Some i /\ choice = Choice_Task i move)
    /\ lc_holder l' = None /\ lc_overrun l' = lc_overrun l
    /\ match operation with
       | Operation_Start settings =>
           ul_running (rs_upstream (lc_relay l')) = Some settings
           /\ exists shown, view (rs_upstream (lc_relay l')) = Some shown
                /\ uv_url shown = up_url settings /\ uv_state shown = UpstreamState_Connecting
       | Operation_Stop _ _ =>
           view (rs_upstream (lc_relay l')) = None /\ upstream_chain (lc_relay l') = []
       end.
Proof.
  intros Hs Hh. apply schedule_orderly in Hs as Hl.
  assert (Hdown : exists moves l1, schedule l moves = Some l1 /\ length moves <= 2
    /\ (forall choice, choice ∈ moves -> exists i move, awaited = Some i /\ choice = Choice_Task i move)
    /\ lc_holder l1 = Some (operation, awaited) /\ lc_overrun l1 = lc_overrun l /\ wound_down l1 awaited = true).
  { destruct awaited as [i|].
    2:{ exists [], l. split_and!; try done; [cbn; lia|by intros ? ?%not_elem_of_nil]. }
    destruct (ol_linked l Hl i) as [task Hi]; [right; by eexists|].
    assert (Hc : tk_cancelled task = true).
    { destruct (tk_cancelled task) eqn:Hc; [done|]. apply (ol_meant l Hl i task Hi) in Hc.
      rewrite (ol_locked l Hl) in Hc; [done|]. by rewrite Hh. }
    destruct (cancelled_task_ends l i task Hi Hc) as (moves & l1 & task1 & Hrun & Hlen & Hh1 & Ho1 & Hi1 & Hover).
    exists (Choice_Task i <$> moves), l1. rewrite length_fmap, Hh1, Ho1. cbn. rewrite Hi1.
    split_and!; try done. intros choice (move & -> & _)%list_elem_of_fmap. by exists i, move. }
  destruct Hdown as (moves & l1 & Hrun & Hlen & Hmoves & Hh1 & Ho1 & Hw).
  exists moves. rewrite schedule_snoc, Hrun. cbn. unfold unlock. rewrite Hh1, Hw. cbn. rewrite orb_false_r.
  destruct operation as [settings|actor previous]; eexists; (split; [reflexivity|]); cbn; split_and!; try done.
  apply start_shown.
Qed.

End schedules.

(** ** Witnesses *)

(** An upstream that accepts every code. *)
Definition sample_exchange : Exchange :=
  mkExchange sample_provider (fun _ => Ok tt) (fun _ _ _ => Ok (200%Z, Ok "token")).

Definition sample_connect (url : string) : Choice := Choice_Connect sample_exchange url "code" None "u1".

(** The first link is set up and dials. *)
Definition sample_linking : list Choice :=
  [sample_connect "https://up.example.com"; Choice_Lock 0; Choice_Unlock false; Choice_Task 0 Move_Poll].

(** Its upstream answers the hello by closing the tunnel as revoked. *)
Definition sample_revoked : Choice :=
  Choice_Task 0 (Move_Handshake (mkAttempt sample_provider (fun _ => Ok tt) (Ok tt)
    (Some [Ok (Message_Close (Some (CLOSE_REVOKED, "gone")))]) (Ok tt) [])).

Abbreviation sample_schedule := (schedule (fresh_link (sample_state empty_database))).

Definition sample_unlinking : list Choice :=
  sample_linking ++ [Choice_Disconnect "u1"; Choice_Lock 0; Choice_Task 0 Move_Cancelled; Choice_Unlock false;
                     Choice_Leave 0].

Lemma one_supervisor_witness :
  exists l, sample_schedule sample_unlinking = Some l
    /\ device_addresses (lc_relay l) "desk" = [relay_address (lc_relay l) "desk"].
Proof.
  assert (Hend : (fun l => (lc_overrun l, lc_running l, bool_decide (lc_holder l = None)))
    <$> sample_schedule sample_unlinking = Some (false, None, true)) by evaluate.
  pose proof (one_supervisor (sample_state empty_database) sample_unlinking) as Hone.
  destruct (sample_schedule sample_unlinking) as [l|]; [|discriminate Hend]. exists l. split; [reflexivity|].
  injection Hend as Ho Hr Hh%bool_decide_eq_true. destruct (Hone l eq_refl) as (_ & _ & Hquiet).
  apply (Hquiet Ho) in Hr as (_ & _ & _ & Haddresses); [apply Haddresses|exact Hh].
Defined.

Definition sample_stopping : list Choice := sample_linking ++ [Choice_Disconnect "u1"; Choice_Lock 0].

Lemma wind_down_witness :
  exists l moves l', sample_schedule sample_stopping = Some l
    /\ schedule l (moves ++ [Choice_Unlock false]) = Some l' /\ view (rs_upstream (lc_relay l')) = None.
Proof.
  assert (Hend : (fun l => match lc_holder l with Some (Operation_Stop _ _, Some 0) => true | _ => false end)
    <$> sample_schedule sample_stopping = Some true) by evaluate.
  pose proof (wind_down_completes (sample_state empty_database) sample_stopping) as Hdown.
  destruct (sample_schedule sample_stopping) as [l|]; [|discriminate Hend]. injection Hend as Hh.
  destruct (lc_holder l) as [[[settings|actor previous] awaited]|] eqn:E; try discriminate Hh.
  destruct (Hdown l _ _ eq_refl E) as (moves & l' & Hrun & _ & _ & _ & _ & Hview & _).
  exists l, moves, l'. split; [reflexivity|]. split; [exact Hrun|exact Hview].
Defined.

(** ** What interleavings can lose *)

Definition stored_upstream (l : Lifecycle) : option string :=
  st_value <$> db_settings (rs_database (lc_relay l)) !! SETTING_UPSTREAM.

Definition link_of (l : Lifecycle) : option string := up_url <$> ul_running (rs_upstream (lc_relay l)).

(** The old upstream revokes this relay after [connect] has stored the new one and before it has cancelled
    the old supervisor: [forget] clears what is stored, whatever it is.  The new link runs, and the next
    start of the relay knows no upstream. *)
Lemma revoked_link_forgets_the_next :
  (fun l => (stored_upstream l, link_of l, lc_overrun l)) <$> sample_schedule (sample_linking ++
    [sample_connect "https://other.example.com"; sample_revoked; Choice_Lock 0; Choice_Unlock false])
  = Some (None, Some "https://other.example.com", false).
Proof. evaluate. Qed.

(** A [disconnect] clears what is stored after it has let go of the link, when another request may have
    stored and started a new one. *)
Lemma disconnect_forgets_the_next :
  (fun l => (stored_upstream l, link_of l, lc_overrun l)) <$> sample_schedule (sample_linking ++
    [Choice_Disconnect "u1"; Choice_Lock 0; Choice_Task 0 Move_Cancelled; Choice_Unlock false;
     sample_connect "https://other.example.com"; Choice_Lock 0; Choice_Unlock false; Choice_Leave 0])
  = Some (None, Some "https://other.example.com", false).
Proof. evaluate. Qed.

(** Without the race the new upstream is stored. *)
Lemma replacement_is_stored :
  (fun l => (stored_upstream l, link_of l)) <$> sample_schedule (sample_linking ++
    [sample_connect "https://other.example.com"; Choice_Lock 0; Choice_Task 0 Move_Cancelled; Choice_Unlock false])
  = Some (Some "https://other.example.com", Some "https://other.example.com").
Proof. evaluate. Qed.

(** A request that is dropped between the cancellation and the spawn leaves the relay without a link, with
    the new upstream stored and the old link still on show. *)
Lemma abandoned_start_leaves_no_link :
  (fun l => (stored_upstream l, link_of l, uv_url <$> view (rs_upstream (lc_relay l)))) <$> sample_schedule
    (sample_linking ++ [sample_connect "https://other.example.com"; Choice_Lock 0; Choice_Abandon;
                        Choice_Task 0 Move_Cancelled])
  = Some (Some "https://other.example.com", None, Some "https://up.example.com").
Proof. evaluate. Qed.
