(* ===== verification/Views.v ===== *)
(** * [src/api/views.rs]: what the console is shown

    A view is the record the source serializes; the JSON text itself is [serde]'s.  [ViewContext] is
    built once per request from the account list and the routing table. *)

From stdpp Require Import sorting.
From S2P Require Import Prelude.
From S2P Require Import RustStr.
From S2P Require Import Protocol.
From S2P Require Import Handle.
From S2P Require Import Registry.
From S2P Require Import Config.
From S2P Require Import Database.
From S2P Require Import Auth.
From S2P Require Import Address.
From S2P Require Import Http.
From S2P Require Import Upstream.
From S2P Require Import State.
From S2P Require Import ApiError.

Record UserView : Type := mkUserView {
  vu_id : string;
  vu_username : string;
  vu_role : UserRole;
  vu_disabled : bool;
  vu_created_at : Z;
  vu_last_login_at : option Z;
  vu_device_count : nat;
}.

Record DeviceView : Type := mkDeviceView {
  vd_id : string;
  vd_kind : DeviceKind;
  vd_name : string;
  vd_owner_user_id : option string;
  vd_owner_username : option string;
  vd_online : bool;
  vd_connected_since : option Z;
  vd_last_seen_at : option Z;
  vd_last_ip : option string;
  vd_last_version : option string;
  vd_via : list string;
  vd_via_names : list string;
  vd_revoked_at : option Z;
  vd_note : option string;
  vd_access_url : string;
  vd_access : DeviceAccess;
}.

Record EnrollmentView : Type := mkEnrollmentView {
  ve_id : string;
  ve_kind : DeviceKind;
  ve_owner_user_id : option string;
  ve_owner_username : option string;
  ve_note : option string;
  ve_created_by : string;
  ve_created_at : Z;
  ve_expires_at : Z;
  ve_used_at : option Z;
  ve_used_by_device_id : option string;
  ve_status : EnrollmentStatus;
}.

Record AuditView : Type := mkAuditView {
  va_id : Z;
  va_at : Z;
  va_actor_kind : string;
  va_actor_id : option string;
  va_action : string;
  va_target_kind : option string;
  va_target_id : option string;
  va_ip : option string;
  va_detail : option string;
}.

Definition AuditView_from (record : AuditRecord) : AuditView :=
  mkAuditView (ar_id record) (ar_at record) (ar_actor_kind record) (ar_actor_id record)
    (ar_action record) (ar_target_kind record) (ar_target_id record) (ar_ip record) (ar_detail record).

(** Collecting pairs into a [HashMap]: a later pair of the same key wins. *)
Definition collect_map {A : Type} (pairs : list (string * A)) : gmap string A :=
  fold_left (fun m '(k, v) => <[k := v]> m) pairs ∅.

(** [str::cmp] is the order of the bytes. *)
Definition by_name {A : Type} (name : A -> string) (a b : A) : Prop :=
  String.leb (name a) (name b) = true.

#[export] Instance by_name_dec {A} (name : A -> string) : RelDecision (by_name name).
Proof. intros a b. unfold by_name. apply _. Defined.

Section views.
Context `{Protocol}.

Record ViewContext : Type := mkViewContext {
  vc_state : RelayState;
  vc_usernames : gmap string string;
  vc_online : gmap string OnlineDevice;
}.

Definition build_context : App ApiError ViewContext :=
  users ← query list_users;
  se_get (fun s =>
    mkViewContext s (collect_map ((fun user => (us_id user, us_username user)) <$> users))
      (collect_map ((fun device => (od_device_id device, device)) <$> snapshot (rs_registry s)))).

Definition username_of (context : ViewContext) (user_id : option string) : option string :=
  id ← user_id; vc_usernames context !! id.

Definition user_view (user : UserRecord) (device_count : nat) : UserView :=
  mkUserView (us_id user) (us_username user) (us_role user) (us_disabled user) (us_created_at user)
    (us_last_login_at user) device_count.

(** [Option::or_else]. *)
Definition or_else {A : Type} (first second : option A) : option A :=
  match first with
  | Some _ => first
  | None => second
  end.

Definition device_view (context : ViewContext) (record : DeviceRecord) : DeviceView :=
  let live := vc_online context !! dv_id record in
  let route_hops := default [] ((fun device => hops (od_route device)) <$> live) in
  mkDeviceView (dv_id record) (dv_kind record) (dv_name record) (dv_owner_user_id record)
    (username_of context (dv_owner_user_id record))
    (bool_decide (is_Some live))
    (od_connected_since <$> live)
    (dv_last_seen_at record)
    (or_else (device ← live; od_ip device) (dv_last_ip record))
    (or_else (device ← live; od_version device) (dv_last_version record))
    route_hops
    (hop_names (rs_registry (vc_state context)) route_hops)
    (dv_revoked_at record) (dv_note record)
    (device_access_url (vc_state context) (dv_id record))
    (dv_access record).

Definition announced_device (context : ViewContext) (device : OnlineDevice) : DeviceView :=
  let route_hops := hops (od_route device) in
  mkDeviceView (od_device_id device) (od_kind device) (od_name device) None None true
    (Some (od_connected_since device)) (Some (od_connected_since device)) None None
    route_hops
    (hop_names (rs_registry (vc_state context)) route_hops)
    None None
    (device_access_url (vc_state context) (od_device_id device))
    DeviceAccess_Public.

Definition announced_only (context : ViewContext) (known : list DeviceRecord) : list DeviceView :=
  let unknown :=
    List.filter (fun device => negb (existsb (fun record => String.eqb (dv_id record) (od_device_id device)) known))
      (List.filter (fun device => negb (bool_decide (hops (od_route device) = [])))
         (snd <$> map_to_list (vc_online context))) in
  merge_sort (by_name vd_name) (announced_device context <$> unknown).

Definition enrollment_view (context : ViewContext) (now : Z) (record : EnrollmentRecord) : EnrollmentView :=
  mkEnrollmentView (ec_id record) (ec_kind record) (ec_owner_user_id record)
    (username_of context (ec_owner_user_id record)) (ec_note record) (ec_created_by record)
    (ec_created_at record) (ec_expires_at record) (ec_used_at record) (ec_used_by_device_id record)
    (status record now).

Definition live_device_count (devices : list DeviceRecord) : nat :=
  length (List.filter (fun device => negb (is_revoked device)) devices).

End views.
