(* ===== verification/Accounts.v ===== *)
(** * [src/api/mod.rs], [src/api/sessions.rs]: extractors, login and the console session

    A handler takes what its extractors answered and is a computation whose failure is the refusal the
    caller is sent; the extractors themselves come first.  JSON is decoded by [serde]. *)

From S2P Require Import Prelude.
From S2P Require Import RustStr.
From S2P Require Import Protocol.
From S2P Require Import Handle.
From S2P Require Import Registry.
From S2P Require Import Config.
From S2P Require Import Database.
From S2P Require Import Auth.
From S2P Require Import Address.
From S2P Require Import Http.
From S2P Require Import Upstream.
From S2P Require Import State.
From S2P Require Import Access.
From S2P Require Import ApiError.
From S2P Require Import Tunnel.
From S2P Require Import Views.

(** ** Constants *)

Definition NOT_LOGGED_IN : string := "请先登录。".
Definition ADMIN_REQUIRED : string := "需要管理员权限。".
Definition CSRF_REQUIRED : string := "缺少控制台请求标识，已拒绝。".
Definition MALFORMED_JSON : string := "请求内容不是合法的 JSON。".
Definition INCOMPLETE_JSON : string := "请求内容缺少必要字段，或字段类型不正确。".
Definition MISSING_JSON_TYPE : string := "请求缺少 Content-Type: application/json。".
Definition UNREADABLE_BODY : string := "无法读取请求内容。".
Definition MALFORMED_QUERY : string := "查询参数不正确。".
Definition UNKNOWN_ENDPOINT : string := "接口不存在。".
Definition INVALID_LOGIN : string := "用户名或密码不正确。".
Definition WRONG_CURRENT_PASSWORD : string := "当前密码不正确。".

(** ** Requests *)

Record SessionUser : Type := mkSessionUser {
  su_user : UserRecord;
  su_token : string;
}.

Record LoginRequest : Type := mkLoginRequest {
  lr_username : string;
  lr_password : string;
}.

Record PasswordChangeRequest : Type := mkPasswordChangeRequest {
  pc_current_password : string;
  pc_new_password : string;
}.

(** An answer with a session cookie, if the cookie makes a header. *)
Record CookieAnswer (A : Type) : Type := mkCookieAnswer {
  ca_status : Z;
  ca_cookie : option string;
  ca_body : A;
}.
Arguments mkCookieAnswer {A} _ _ _.
Arguments ca_status {A} _.
Arguments ca_cookie {A} _.
Arguments ca_body {A} _.

(** axum's rejections of a body, as far as the source tells them apart. *)
Inductive JsonRejection : Type :=
| JsonRejection_JsonDataError
| JsonRejection_JsonSyntaxError
| JsonRejection_MissingJsonContentType
| JsonRejection_Other.

(** ** [src/api/mod.rs] *)

Definition safe_method (method : Method) : bool :=
  match method with
  | Method_GET | Method_HEAD | Method_OPTIONS => true
  | _ => false
  end.

Definition describe_json_rejection (rejection : JsonRejection) : string :=
  match rejection with
  | JsonRejection_JsonDataError => INCOMPLETE_JSON
  | JsonRejection_JsonSyntaxError => MALFORMED_JSON
  | JsonRejection_MissingJsonContentType => MISSING_JSON_TYPE
  | JsonRejection_Other => UNREADABLE_BODY
  end.

Definition json_body {S A : Type} (body : result JsonRejection A) : SE S ApiError A :=
  se_lift (map_err (fun rejection => bad_request (describe_json_rejection rejection)) body).

(** [max_length] is interpolated into the message. *)
Definition require_text (value field : string) (max_length : nat) : result ApiError string :=
  let trimmed := trim value in
  if is_empty trimmed then Err (bad_request (field +:+ "不能为空。"))
  else if max_length <? chars_count trimmed
       then Err (bad_request (field +:+ "不能超过 " +:+ pretty (Z.of_nat max_length) +:+ " 个字符。"))
       else Ok trimmed.

Section accounts.
Context `{Protocol} `{Platform} `{HttpCrate} `{JsonCodec} `{Argon2}.

(** What the middleware makes of a request: the refusal, if it does not go on to the handler. *)
Definition require_csrf_marker (method : Method) (path : string) (headers : HeaderMap) : option ApiError :=
  let exempt := negb (starts_with path "/api/") || String.eqb path ENROLL_PATH || String.eqb path HEALTH_PATH in
  if exempt || safe_method method then None
  else if negb (has_csrf_marker (header_str headers CSRF_HEADER)) then Some (forbidden CSRF_REQUIRED)
  else None.

(** The loop of [SessionUser::from_request_parts] over the cookies' tokens. *)
Fixpoint first_session (now : Z) (tokens : list string) : App ApiError SessionUser :=
  match tokens with
  | [] => se_fail (unauthorized NOT_LOGGED_IN)
  | token :: rest =>
      account ← query (resolve_session token now);
      match account with
      | Some user => mret (mkSessionUser user token)
      | None => first_session now rest
      end
  end.

Definition session_user (headers : HeaderMap) : App ApiError SessionUser :=
  now ← now_millis; first_session now (read_session_cookies (cookie_fields headers)).

Definition admin_user (headers : HeaderMap) : App ApiError SessionUser :=
  session ← session_user headers;
  if negb (is_admin (us_role (su_user session))) then se_fail (forbidden ADMIN_REQUIRED)
  else mret session.

(** ** [src/api/sessions.rs] *)

Definition with_session_cookie {A} (status : Z) (cookie : string) (body : A) : CookieAnswer A :=
  mkCookieAnswer status (header_value_from_str cookie) body.

Definition validated_password (password : string) : result ApiError string :=
  if chars_count password <? MIN_PASSWORD_LENGTH
  then Err (bad_request ("密码至少需要 " +:+ pretty (Z.of_nat MIN_PASSWORD_LENGTH) +:+ " 个字符。"))
  else Ok password.

Definition SALT_BYTES : nat := 16.

(** [hash_password(..).map_err(ApiError::bad_request)] with the salt the system's generator answers; a
    generator that fails panics inside the crate, which is not an outcome here. *)
Definition hash_new_password (password : string) : App ApiError string :=
  random ← draw;
  se_lift (map_err bad_request (hash_password (default EmptyString (ok (random SALT_BYTES))) password)).

Definition user_envelope (user : UserRecord) : App ApiError UserView :=
  devices ← query (list_devices_owned_by (us_id user));
  build_context ;;
  mret (user_view user (live_device_count devices)).

Definition login (client : ClientContext) (request : LoginRequest) : App ApiError (CookieAnswer UserView) :=
  locked ← lockout_is_locked (cc_ip client);
  if locked : bool then se_fail (unauthorized LOCKED_OUT_MESSAGE)
  else
    candidate ← query (find_user_by_username (trim (lr_username request)));
    match (user ← candidate;
           if negb (us_disabled user) && verify_password (lr_password request) (us_password_hash user)
           then Some user else None) with
    | None =>
        lockout_record_failure (cc_ip client) ;;
        audit_record
          (detail "username" (Value_String (trim (lr_username request)))
             (from_ip (cc_ip client) (AuditEntry_new ActorKind_User action.LOGIN_FAILED))) ;;
        se_fail (unauthorized INVALID_LOGIN)
    | Some user =>
        lockout_forget (cc_ip client) ;;
        now ← now_millis;
        query (record_user_login now (us_id user)) ;;
        random ← draw;
        now ← now_millis;
        token ← query (create_session random now (us_id user) (Some (cc_ip client)));
        audit_record
          (from_ip (cc_ip client)
             (on_target target.USER (us_id user) (by_user (us_id user) action.LOGIN))) ;;
        view ← user_envelope user;
        secure ← se_get is_public_secure;
        mret (with_session_cookie OK (session_cookie token secure) view)
    end.

Definition logout (session : SessionUser) : App ApiError (CookieAnswer unit) :=
  query (destroy_session (su_token session)) ;;
  secure ← se_get is_public_secure;
  mret (with_session_cookie NO_CONTENT (cleared_session_cookie secure) tt).

Definition me (session : SessionUser) : App ApiError UserView := user_envelope (su_user session).

Definition change_password (client : ClientContext) (session : SessionUser)
    (request : PasswordChangeRequest) : App ApiError (CookieAnswer unit) :=
  let user := su_user session in
  if negb (verify_password (pc_current_password request) (us_password_hash user))
  then se_fail (unauthorized WRONG_CURRENT_PASSWORD)
  else
    password ← se_lift (validated_password (pc_new_password request));
    hash ← hash_new_password password;
    query (update_user (us_id user) (mkUserUpdate None None (Some hash))) ;;
    query (delete_sessions_of_user (us_id user)) ;;
    random ← draw;
    now ← now_millis;
    token ← query (create_session random now (us_id user) (Some (cc_ip client)));
    audit_record
      (detail "change" (Value_String "password")
         (from_ip (cc_ip client)
            (on_target target.USER (us_id user) (by_user (us_id user) action.USER_UPDATED)))) ;;
    secure ← se_get is_public_secure;
    mret (with_session_cookie NO_CONTENT (session_cookie token secure) tt).

End accounts.
