(* ===== verification/Enroll.v ===== *)
(** * [src/api/enroll.rs], [src/api/enrollments.rs]: enrolling a device

    The one endpoint a device calls before it has a credential, and the one-time codes it may present.
    The second half holds the theorems: what an enrollment grants, and that a code is spent once however
    the steps of two enrollments interleave. *)

From S2P Require Import Prelude.
From S2P Require Import RustStr.
From S2P Require Import Protocol.
From S2P Require Import Handle.
From S2P Require Import Registry.
From S2P Require Import Config.
From S2P Require Import Database.
From S2P Require Import Auth.
From S2P Require Import Address.
From S2P Require Import Http.
From S2P Require Import Upstream.
From S2P Require Import State.
From S2P Require Import Access.
From S2P Require Import ApiError.
From S2P Require Import Tunnel.
From S2P Require Import Views.
From S2P Require Import Accounts.

(** ** Constants *)

Definition MAX_DEVICE_NAME_LENGTH : nat := 64.
Definition DEVICE_NAME_FIELD : string := "设备名称".
Definition INVALID_CODE : string := "接入码无效、已过期或已被使用。".
Definition INVALID_ACCOUNT : string := "用户名或密码不正确。".
Definition MAX_NOTE_LENGTH : nat := 200.
Definition MILLIS_PER_MINUTE : Z := 60 * 1000.
Definition UNKNOWN_ENROLLMENT : string := "接入码不存在。".
Definition ALREADY_SETTLED : string := "接入码已被使用或已作废。".
Definition UNKNOWN_OWNER : string := "指定的归属用户不存在。".
Definition NOTE_TOO_LONG : string := "备注不能超过 200 个字符。".

(** ** Requests and answers *)

Record CreateEnrollmentRequest : Type := mkCreateEnrollmentRequest {
  ce_kind : DeviceKind;
  ce_owner_user_id : option string;
  (* u32 *)
  ce_ttl_minutes : option Z;
  ce_note : option string;
}.

Record IssuedEnrollment : Type := mkIssuedEnrollment {
  ie_enrollment : EnrollmentView;
  ie_code : string;
}.

(** [Option::filter]. *)
Definition option_filter {A : Type} (keep : A -> bool) (o : option A) : option A :=
  a ← o; if keep a then Some a else None.

Section enroll.
Context `{Protocol} `{JsonCodec} `{Argon2}.

(** ** [enroll.rs] *)

Definition issue_device (kind : DeviceKind) (owner_user_id : option string) (name : string)
    : App ApiError DeviceCredential :=
  generated ← generate_credential;
  credential ← se_lift (map_err (fun _ => internal) generated);
  now ← now_millis;
  query (create_device now
    (mkNewDevice (dc_device_id credential) kind name owner_user_id
       (DeviceCredential_secret_hash credential) None)) ;;
  mret credential.

Definition response_for (state : RelayState) (credential : DeviceCredential) : EnrollResponse :=
  mkEnrollResponse (DeviceCredential_to_string credential) (dc_device_id credential) (rs_relay_id state).

(** The first half of [enroll_with_code]: the redeemable enrollment the code names. *)
Definition find_redeemable (code : string) : App ApiError EnrollmentRecord :=
  canonical ← se_lift (ok_or (unauthorized INVALID_CODE) (normalize_code code));
  found ← query (find_enrollment_by_hash (hash_code canonical));
  now ← now_millis;
  se_lift (ok_or (unauthorized INVALID_CODE)
             (option_filter (fun enrollment => is_redeemable enrollment now) found)).

(** The last step: spending the code, or taking the device back. *)
Definition settle_enrollment (enrollment : EnrollmentRecord) (credential : DeviceCredential)
    : App ApiError EnrollResponse :=
  now ← now_millis;
  marked ← query (mark_enrollment_used now (ec_id enrollment) (dc_device_id credential));
  if negb marked then
    now ← now_millis;
    query (revoke_device now (dc_device_id credential)) ;;
    se_fail (unauthorized INVALID_CODE)
  else se_get (fun s => response_for s credential).

Definition enroll_with_code (code name : string) : App ApiError EnrollResponse :=
  name ← se_lift (require_text name DEVICE_NAME_FIELD MAX_DEVICE_NAME_LENGTH);
  enrollment ← find_redeemable code;
  credential ← issue_device (ec_kind enrollment) (ec_owner_user_id enrollment) name;
  settle_enrollment enrollment credential.

Definition enroll_with_password (username password name : string) : App ApiError EnrollResponse :=
  name ← se_lift (require_text name DEVICE_NAME_FIELD MAX_DEVICE_NAME_LENGTH);
  found ← query (find_user_by_username (trim username));
  user ← se_lift (ok_or (unauthorized INVALID_ACCOUNT)
           (option_filter (fun user => negb (us_disabled user) && verify_password password (us_password_hash user))
              found));
  credential ← issue_device DeviceKind_Desktop (Some (us_id user)) name;
  se_get (fun s => response_for s credential).

Definition enroll (client : ClientContext) (request : EnrollRequest) : App ApiError EnrollResponse :=
  locked ← lockout_is_locked (cc_ip client);
  if locked : bool then se_fail (unauthorized LOCKED_OUT_MESSAGE)
  else
    outcome ← se_try
      (match request with
       | EnrollRequest_Code code name => enroll_with_code code name
       | EnrollRequest_Password username password name => enroll_with_password username password name
       end);
    match outcome : result ApiError EnrollResponse with
    | Ok response =>
        lockout_forget (cc_ip client) ;;
        audit_record
          (from_ip (cc_ip client)
             (on_target target.DEVICE (er_device_id response)
                (actor (er_device_id response) (AuditEntry_new ActorKind_Device action.ENROLL)))) ;;
        mret response
    | Err error =>
        (if (ae_status error =? UNAUTHORIZED)%Z
         then
           lockout_record_failure (cc_ip client) ;;
           audit_record (from_ip (cc_ip client) (AuditEntry_new ActorKind_Device action.ENROLL_FAILED))
         else mret tt) ;;
        se_fail error
    end.

(** ** [enrollments.rs] *)

Definition normalized_owner (owner : option string) : App ApiError (option string) :=
  match option_filter (fun owner => negb (is_empty owner)) (trim <$> owner) with
  | None => mret None
  | Some owner =>
      found ← query (find_user owner);
      se_lift (ok_or (bad_request UNKNOWN_OWNER) ((fun user => Some (us_id user)) <$> found))
  end.

Definition bounded_note (note : option string) : result ApiError (option string) :=
  match option_filter (fun note => negb (is_empty note)) (trim <$> note) with
  | None => Ok None
  | Some note =>
      if MAX_NOTE_LENGTH <? chars_count note then Err (bad_request NOTE_TOO_LONG) else Ok (Some note)
  end.

Definition list_codes (admin : SessionUser) : App ApiError (list EnrollmentView) :=
  records ← query list_enrollments;
  context ← build_context;
  clock ← clock_readings (length records);
  mret (imap (fun i record => enrollment_view context (clock i) record) records).

Definition create_code (admin : SessionUser) (client : ClientContext) (request : CreateEnrollmentRequest)
    : App ApiError IssuedEnrollment :=
  owner ← normalized_owner (ce_owner_user_id request);
  note ← se_lift (bounded_note (ce_note request));
  let ttl_minutes := clamp_ttl_minutes (ce_ttl_minutes request) in
  fill ← draw;
  code ← se_lift (map_err bad_request (generate_code fill));
  issued ← now_millis;
  random ← draw;
  now ← now_millis;
  record ← query (create_enrollment (random IDENTIFIER_BYTES) now
    (mkNewEnrollment (hash_code code) (ce_kind request) owner (us_id (su_user admin)) note
       (issued + ttl_minutes * MILLIS_PER_MINUTE)%Z));
  audit_record
    (detail "ttlMinutes" (Value_Number ttl_minutes)
       (detail "kind" (Value_String (device_kind_label (ce_kind request)))
          (from_ip (cc_ip client)
             (on_target target.ENROLLMENT (ec_id record)
                (by_user (us_id (su_user admin)) action.ENROLLMENT_CREATED))))) ;;
  context ← build_context;
  now ← now_millis;
  mret (mkIssuedEnrollment (enrollment_view context now record) code).

Definition cancel_code (admin : SessionUser) (client : ClientContext) (id : string) : App ApiError unit :=
  found ← query (find_enrollment id);
  record ← se_lift (ok_or (not_found UNKNOWN_ENROLLMENT) found);
  now ← now_millis;
  cancelled ← query (cancel_enrollment now (ec_id record));
  if negb cancelled then se_fail (conflict ALREADY_SETTLED)
  else
    audit_record
      (from_ip (cc_ip client)
         (on_target target.ENROLLMENT (ec_id record)
            (by_user (us_id (su_user admin)) action.ENROLLMENT_CANCELLED))).

End enroll.

(** ** Interleavings

    The handlers run concurrently; the database serializes their statements.  [EnrollOp] is one stretch
    of a handler between two points where another may run, [run_ops] a schedule of them; the answer
    lists which enrollments were spent on which device. *)

Section schedules.
Context `{Protocol} `{JsonCodec} `{Argon2}.

Inductive EnrollOp : Type :=
| EnrollOp_Find (code : string)
| EnrollOp_Issue (kind : DeviceKind) (owner_user_id : option string) (name : string)
| EnrollOp_Settle (enrollment : EnrollmentRecord) (credential : DeviceCredential)
| EnrollOp_Create (admin : SessionUser) (client : ClientContext) (request : CreateEnrollmentRequest)
| EnrollOp_Cancel (admin : SessionUser) (client : ClientContext) (id : string).

Definition run_op (op : EnrollOp) (s : RelayState) : list (string * string) * RelayState :=
  match op with
  | EnrollOp_Find code => ([], snd (find_redeemable code s))
  | EnrollOp_Issue kind owner name => ([], snd (issue_device kind owner name s))
  | EnrollOp_Settle enrollment credential =>
      let '(answer, s') := settle_enrollment enrollment credential s in
      (if is_ok answer then [(ec_id enrollment, dc_device_id credential)] else [], s')
  | EnrollOp_Create admin client request => ([], snd (create_code admin client request s))
  | EnrollOp_Cancel admin client id => ([], snd (cancel_code admin client id s))
  end.

Fixpoint run_ops (ops : list EnrollOp) (s : RelayState) : list (string * string) * RelayState :=
  match ops with
  | [] => ([], s)
  | op :: rest =>
      let '(spent, s1) := run_op op s in
      let '(more, s2) := run_ops rest s1 in
      (spent ++ more, s2)
  end.

End schedules.

(** ** Lemmas: a spent code stays spent *)

Section spent.
Context `{Protocol} `{JsonCodec} `{Argon2}.

Definition spent_on (db : Database) (id device_id : string) : Prop :=
  exists row, db_enrollments db !! id = Some row
    /\ is_Some (er_used_at row) /\ er_used_by_device_id row = Some device_id.

(** Every spent code of the state before is spent on the same device in the state after. *)
Definition keeps_spent (db db' : Database) : Prop :=
  forall id device_id, spent_on db id device_id -> spent_on db' id device_id.

#[global] Instance keeps_spent_preorder : PreOrder keeps_spent.
Proof. split; [by intros db id d|]. intros db1 db2 db3 H12 H23 id d Hs. auto. Qed.

Lemma statement_keeps_spent {A} (f : Database -> result SqliteError (A * Database)) :
  (forall db a db', f db = Ok (a, db') -> keeps_spent db db') -> preserves keeps_spent (statement f).
Proof.
  intros Hf db. unfold statement. destruct (db_faults db) as [|[] faults]; [| |];
    try (by intros id d);
    destruct (f _) as [[a db']|e] eqn:E; try (by intros id d);
    intros id d Hs; by apply (Hf _ _ _ E).
Qed.

Lemma same_enrollments_keep_spent (db db' : Database) :
  db_enrollments db' = db_enrollments db -> keeps_spent db db'.
Proof. intros He id d (row & Hr & Hrest). exists row. by rewrite He. Qed.

Lemma select_keeps_spent {A} (f : Database -> A) : preserves keeps_spent (select f).
Proof. apply statement_keeps_spent. by intros db a db' [= _ <-]. Qed.

Lemma write_audit_keeps_spent record : preserves keeps_spent (write_audit record).
Proof.
  apply preserves_map_err, statement_keeps_spent. intros db a db' [= _ <-].
  by apply same_enrollments_keep_spent.
Qed.

Lemma insert_device_keeps_spent id row : preserves keeps_spent (insert_device id row).
Proof.
  apply statement_keeps_spent. intros db a db' Hi. apply same_enrollments_keep_spent.
  destruct (db_devices db !! id); [done|]. destruct (dr_owner_user_id row);
    [case_bool_decide; [|done]|]; by injection Hi as _ <-.
Qed.

Lemma update_device_row_keeps_spent id guard f :
  preserves keeps_spent (update_row db_devices set_devices id guard f).
Proof.
  apply statement_keeps_spent. intros db a db' Hu. apply same_enrollments_keep_spent.
  destruct (db_devices db !! id) as [row|]; [destruct (guard row)|]; by injection Hu as _ <-.
Qed.

Lemma insert_enrollment_keeps_spent id row : preserves keeps_spent (insert_enrollment id row).
Proof.
  apply statement_keeps_spent. intros db a db' Hi.
  destruct (db_enrollments db !! id) eqn:E; [done|]. destruct (code_hash_in_use _ _); [done|].
  injection Hi as _ <-. intros i d (r & Hr & Hrest). exists r. split; [|done]. cbn.
  rewrite lookup_insert_ne; [done|]. intros ->. congruence.
Qed.

(** An update of an open row never touches a spent one. *)
Lemma update_open_keeps_spent id f :
  preserves keeps_spent (update_row db_enrollments set_enrollments id is_open f).
Proof.
  apply statement_keeps_spent. intros db a db' Hu.
  destruct (db_enrollments db !! id) as [row|] eqn:E; [destruct (is_open row) eqn:Eo|];
    injection Hu as _ <-; try (by intros i d). intros i d (r & Hr & Hs & Hd). exists r. cbn.
  split; [|done]. rewrite lookup_insert_ne; [done|]. intros ->. rewrite E in Hr. injection Hr as ->.
  unfold is_open, is_none in Eo. destruct Hs as [u Hs]. by rewrite Hs in Eo.
Qed.

Lemma sql_keeps_spent {A} (m : SE Database SqliteError A) :
  preserves keeps_spent m -> preserves keeps_spent (sql m).
Proof. apply preserves_map_err. Qed.

End spent.

#[export] Hint Resolve select_keeps_spent write_audit_keeps_spent insert_device_keeps_spent
  update_device_row_keeps_spent insert_enrollment_keeps_spent update_open_keeps_spent : frame.
#[export] Hint Extern 2 (preserves keeps_spent (sql _)) => apply sql_keeps_spent : frame.

(** Lifting to the whole state. *)
Section lifted.
Context `{Protocol} `{JsonCodec} `{Argon2}.

Definition still_spent (s s' : RelayState) : Prop := keeps_spent (rs_database s) (rs_database s').

#[global] Instance still_spent_preorder : PreOrder still_spent.
Proof. split; [by intros s id d|]. intros s1 s2 s3 H12 H23. unfold still_spent in *. by etrans. Qed.

Lemma query_still_spent {A} (op : DB A) : preserves keeps_spent op -> preserves still_spent (query op).
Proof.
  intros Hop. apply preserves_map_err. intros s. rewrite database_run. apply (Hop (rs_database s)).
Qed.

Lemma same_database_still_spent {E A} (m : App E A) :
  (forall s, rs_database (snd (m s)) = rs_database s) -> preserves still_spent m.
Proof. intros Hm s id d. by rewrite Hm. Qed.

Lemma audit_still_spent {E} entry : preserves still_spent (audit_record (E := E) entry).
Proof.
  intros s. unfold audit_record. erewrite se_bind_eq by reflexivity.
  erewrite se_bind_eq by apply try_database. apply write_audit_keeps_spent.
Qed.

End lifted.

#[export] Hint Resolve audit_still_spent : frame.
#[export] Hint Extern 2 (preserves still_spent (query _)) => apply query_still_spent : frame.
#[export] Hint Extern 1 (preserves still_spent now_millis) =>
  (apply same_database_still_spent; reflexivity) : frame.
#[export] Hint Extern 1 (preserves still_spent draw) =>
  (apply same_database_still_spent; reflexivity) : frame.
#[export] Hint Extern 1 (preserves still_spent generate_credential) =>
  (apply same_database_still_spent; reflexivity) : frame.

Section codes.
Context `{!Protocol} `{!JsonCodec} `{!Argon2}.

Ltac database_frame :=
  unfold find_enrollment_by_hash, find_enrollment, read_enrollment, create_device, find_user, read_user,
    create_enrollment, cancel_enrollment, mark_enrollment_used, revoke_device, list_users;
  frame.

Lemma operations_keep_spent :
  (forall hash, preserves keeps_spent (find_enrollment_by_hash hash))
  /\ (forall id, preserves keeps_spent (find_enrollment id))
  /\ (forall id, preserves keeps_spent (find_user id))
  /\ (forall now device, preserves keeps_spent (create_device now device))
  /\ (forall random now e, preserves keeps_spent (create_enrollment random now e))
  /\ (forall now id, preserves keeps_spent (cancel_enrollment now id))
  /\ (forall now id d, preserves keeps_spent (mark_enrollment_used now id d))
  /\ (forall now id, preserves keeps_spent (revoke_device now id))
  /\ preserves keeps_spent list_users.
Proof. split_and!; intros; database_frame. Qed.

Hint Extern 1 (preserves still_spent (query _)) =>
  (apply query_still_spent, operations_keep_spent) : frame.

Lemma find_redeemable_keeps code : preserves still_spent (find_redeemable code).
Proof. unfold find_redeemable. frame. Qed.

Lemma issue_device_keeps kind owner name : preserves still_spent (issue_device kind owner name).
Proof. unfold issue_device. frame. Qed.

Lemma build_context_keeps : preserves still_spent build_context.
Proof. unfold build_context. frame. Qed.

Lemma normalized_owner_keeps owner : preserves still_spent (normalized_owner owner).
Proof. unfold normalized_owner. frame. Qed.

Hint Resolve build_context_keeps normalized_owner_keeps : frame.

Lemma create_code_keeps admin client request : preserves still_spent (create_code admin client request).
Proof. unfold create_code. frame. Qed.

Lemma cancel_code_keeps admin client id : preserves still_spent (cancel_code admin client id).
Proof. unfold cancel_code. frame. Qed.

Lemma settle_keeps enrollment credential : preserves still_spent (settle_enrollment enrollment credential).
Proof. unfold settle_enrollment. frame. Qed.

Lemma run_op_keeps op s : still_spent s (snd (run_op op s)).
Proof.
  destruct op; cbn; [apply find_redeemable_keeps|apply issue_device_keeps| |apply create_code_keeps
    |apply cancel_code_keeps].
  pose proof (settle_keeps enrollment credential s) as Hs. by destruct (settle_enrollment _ _ s).
Qed.

(** A successful settlement found the code open and leaves it spent on the device. *)
Lemma settle_ok enrollment credential s response s' :
  settle_enrollment enrollment credential s = (Ok response, s') ->
  exists row, db_enrollments (rs_database s) !! ec_id enrollment = Some row /\ is_open row = true
    /\ db_enrollments (rs_database s')
       = <[ec_id enrollment := with_used (rs_clock s (rs_reads s)) (dc_device_id credential) row]>
           (db_enrollments (rs_database s))
    /\ db_devices (rs_database s') = db_devices (rs_database s)
    /\ response = response_for s credential.
Proof.
  unfold settle_enrollment. erewrite se_bind_eq by reflexivity.
  intros (marked & s1 & Hm & Hr)%se_bind_ok. unfold query, se_map_err in Hm.
  rewrite database_run in Hm. set (db := rs_database (tick _ _ s)) in Hm.
  destruct (mark_enrollment_used _ _ _ db) as [[b|e] db'] eqn:Em; [|done]. injection Hm as <- <-.
  destruct b; cbn in Hr; [|apply se_bind_ok in Hr as (? & ? & _ & Hr);
    apply se_bind_ok in Hr as (? & ? & _ & ?); done].
  injection Hr as <- <-. unfold mark_enrollment_used in Em.
  apply se_bind_ok in Em as (n & db1 & Hu & Hret). injection Hret as Hn <-.
  apply update_row_ok in Hu. cbn in Hu.
  destruct (db_enrollments (rs_database s) !! ec_id enrollment) as [row|];
    [destruct (is_open row) eqn:Eo|]; destruct Hu as [-> Hdb]; try done.
  exists row. split; [done|]. split; [done|]. rewrite Hdb. by split_and!.
Qed.

(** An unsuccessful one that gets as far as answering took the new device back. *)
Lemma settle_refused enrollment credential s s' :
  settle_enrollment enrollment credential s = (Err (unauthorized INVALID_CODE), s') ->
  forall row, db_devices (rs_database s') !! dc_device_id credential = Some row -> is_Some (dr_revoked_at row).
Proof.
  unfold settle_enrollment. erewrite se_bind_eq by reflexivity. set (s0 := tick _ _ s).
  destruct (query (mark_enrollment_used (rs_clock s (rs_reads s)) (ec_id enrollment)
    (dc_device_id credential)) s0) as [[b|e] s1] eqn:Em.
  2:{ erewrite se_bind_err by exact Em. intros [= -> _]. by apply query_error in Em as [?|?]. }
  erewrite se_bind_eq by exact Em. destruct b; cbn -[mbind]; [done|].
  erewrite se_bind_eq by reflexivity. set (s2 := tick _ _ s1).
  destruct (query (revoke_device (rs_clock s1 (rs_reads s1)) (dc_device_id credential)) s2)
    as [[r|e] s3] eqn:Er.
  2:{ erewrite se_bind_err by exact Er. intros [= -> _]. by apply query_error in Er as [?|?]. }
  erewrite se_bind_eq by exact Er. intros [= <-] row.
  apply query_ok in Er as (db' & Er & ->). cbn. unfold revoke_device in Er.
  apply se_bind_ok in Er as (n & db1 & Hu & Hret).
  injection Hret as _ <-. apply update_row_ok in Hu.
  destruct (db_devices (next_statement _) !! dc_device_id credential) as [r0|] eqn:E0.
  - destruct (is_none (dr_revoked_at r0)) eqn:En; destruct Hu as [_ ->].
    + cbn in *. rewrite lookup_insert_eq. intros [= <-]. by eexists.
    + rewrite E0. intros [= <-]. by destruct (dr_revoked_at r0).
  - destruct Hu as [_ ->]. by rewrite E0.
Qed.

Lemma run_ops_spec ops : forall s spent s',
  run_ops ops s = (spent, s') ->
  NoDup (fst <$> spent)
  /\ (forall id device_id, (id, device_id) ∈ spent ->
        spent_on (rs_database s') id device_id /\ forall d, ~ spent_on (rs_database s) id d)
  /\ still_spent s s'.
Proof.
  induction ops as [|op rest IH]; intros s spent s'; cbn [run_ops].
  { intros [= <- <-]. split; [constructor|]. split; [by intros ? ? ?%not_elem_of_nil|reflexivity]. }
  pose proof (run_op_keeps op s) as Hk.
  destruct (run_op op s) as [now_spent s1] eqn:Eop. destruct (run_ops rest s1) as [more s2] eqn:Er.
  intros [= <- <-]. destruct (IH _ _ _ Er) as (Hnd & Hin & Hst). cbn in Hk.
  assert (Hcase : now_spent = [] \/ exists id d, now_spent = [(id, d)]
    /\ spent_on (rs_database s1) id d /\ forall d', ~ spent_on (rs_database s) id d').
  { destruct op as [| |enrollment credential| |]; cbn in Eop; try (injection Eop as <- <-; by left).
    destruct (settle_enrollment enrollment credential s) as [[response|e] s3] eqn:Es;
      injection Eop as <- <-; [right|by left].
    apply settle_ok in Es as (row & Hrow & Hopen & Hdb & _). do 2 eexists. split; [done|]. split.
    - exists (with_used (rs_clock s (rs_reads s)) (dc_device_id credential) row).
      rewrite Hdb, lookup_insert_eq. split; [done|]. split; [by eexists|done].
    - intros d' (row' & Hrow' & [u Hu] & _). rewrite Hrow in Hrow'. injection Hrow' as <-.
      unfold is_open, is_none in Hopen. by rewrite Hu in Hopen. }
  destruct Hcase as [->|(id & d & -> & Hs1 & Hn)].
  - split; [done|]. split.
    + intros id d Hid. destruct (Hin id d Hid) as [Hspent Hfresh]. split; [done|]. intros d' Hd'. by apply (Hfresh d'), Hk.
    + by etrans.
  - split; [|split].
    + cbn. constructor; [|done]. intros Hid. apply list_elem_of_fmap in Hid as ([i d'] & -> & Hid).
      destruct (Hin _ _ Hid) as [_ Hno]. by apply (Hno d).
    + intros i d' [[= -> ->]|Hid]%elem_of_cons.
      * split; [by apply Hst|done].
      * destruct (Hin i d' Hid) as [Hspent Hfresh]. split; [done|]. intros x Hx. by apply (Hfresh x), Hk.
    + by etrans.
Qed.

End codes.

(** ** Lemmas: what an enrollment reads and writes *)

Section enrollment.
Context `{!Protocol} `{!JsonCodec} `{!Argon2}.

Lemma find_redeemable_ok code (s s' : RelayState) enrollment :
  find_redeemable code s = (Ok enrollment, s') ->
  exists canonical row,
    normalize_code code = Some canonical
    /\ db_enrollments (rs_database s) !! ec_id enrollment = Some row
    /\ er_code_hash row = hash_code canonical
    /\ read_enrollment_row (ec_id enrollment) row = Ok enrollment
    /\ is_redeemable enrollment (rs_clock s (rs_reads s)) = true
    /\ tables (rs_database s') = tables (rs_database s) /\ rs_relay_id s' = rs_relay_id s.
Proof.
  unfold find_redeemable. intros (canonical & s1 & Hc & Hr)%se_bind_ok.
  unfold se_lift, ok_or in Hc. destruct (normalize_code code) as [c|]; [|done]. injection Hc as -> <-.
  apply se_bind_ok in Hr as (found & s2 & Hf & Hr). apply query_ok in Hf as (db & Hf & ->).
  revert Hr. erewrite se_bind_eq by reflexivity. unfold se_lift. intros [= Ho <-].
  unfold option_filter, ok_or in Ho. destruct found as [e|]; [|done]. cbn in Ho.
  destruct (is_redeemable e _) eqn:Er; [|done]. injection Ho as ->.
  unfold find_enrollment_by_hash, read_enrollment in Hf.
  apply se_bind_ok in Hf as (row & db1 & Hs & Hl). apply select_ok in Hs as [Hrow ->].
  injection Hl as Hl <-. destruct row as [[id r]|]; [|done]. cbn in Hl.
  destruct (read_enrollment_row id r) as [e'|] eqn:Eread; [|done]. injection Hl as ->.
  symmetry in Hrow. apply head_filter_lookup in Hrow as [Hrow Hh%String.eqb_eq].
  assert (ec_id enrollment = id) as ->.
  { unfold read_enrollment_row in Eread. run_in Eread. destruct (parse_kind _); [|done]. by injection Eread as <-. }
  exists canonical, r. by split_and!.
Qed.

Lemma issue_device_ok kind owner name (s s' : RelayState) credential :
  issue_device kind owner name s = (Ok credential, s') ->
  db_devices (rs_database s) !! dc_device_id credential = None
  /\ (exists created, db_devices (rs_database s')
       = <[dc_device_id credential :=
             mkDeviceRow (device_kind_label kind) name owner (DeviceCredential_secret_hash credential) None
               created None None None None PUBLIC_ACCESS]> (db_devices (rs_database s)))
  /\ (forall user, owner = Some user -> is_Some (db_users (rs_database s) !! user))
  /\ db_enrollments (rs_database s') = db_enrollments (rs_database s)
  /\ rs_relay_id s' = rs_relay_id s.
Proof.
  unfold issue_device. erewrite se_bind_eq by reflexivity.
  intros (c & s1 & Hc & Hr)%se_bind_ok. unfold se_lift in Hc. injection Hc as Hc <-.
  revert Hr. erewrite se_bind_eq by reflexivity. intros (u & s2 & Hq & Hr)%se_bind_ok.
  injection Hr as -> <-. apply query_ok in Hq as (db & Hq & ->). cbn in *.
  unfold create_device in Hq. apply se_bind_ok in Hq as (x & db1 & Hi & Hret). injection Hret as _ <-.
  unfold sql, se_map_err in Hi. destruct (insert_device _ _ _) as [[[]|e] db2] eqn:Ei; [|done].
  injection Hi as _ <-. apply statement_ok in Ei. cbn in Ei.
  destruct (db_devices (rs_database s) !! dc_device_id credential) eqn:Ed; [done|]. split; [done|].
  destruct owner as [user|].
  - case_bool_decide as Hu; [|done]. injection Ei as <-. split_and!; try done.
    + by eexists.
    + by intros v [= <-].
  - injection Ei as <-. split_and!; try done. by eexists.
Qed.

Lemma require_text_ok value field max text :
  require_text value field max = Ok text ->
  text = trim value /\ is_empty text = false /\ chars_count text <= max.
Proof.
  unfold require_text. destruct (is_empty (trim value)) eqn:Ee; [done|].
  destruct (Nat.ltb_spec max (chars_count (trim value))); [done|]. intros [= <-]. by split_and!.
Qed.

Lemma redeemable_open enrollment row now :
  read_enrollment_row (ec_id enrollment) row = Ok enrollment -> is_redeemable enrollment now = true ->
  is_open row = true /\ (now < er_expires_at row)%Z
  /\ parse_kind (er_kind row) = Ok (ec_kind enrollment)
  /\ ec_owner_user_id enrollment = er_owner_user_id row.
Proof.
  unfold read_enrollment_row. intros Hread. run_in Hread. destruct (parse_kind _) as [k|]; [|done].
  injection Hread as <-. unfold is_redeemable, status, is_open, is_none. cbn.
  destruct (er_used_at row); cbn; [done|]. destruct (er_cancelled_at row); cbn; [done|].
  destruct (Z.leb_spec (er_expires_at row) now); [done|]. intros _. by split_and!.
Qed.

(** A device cannot be issued to an account that is gone: whatever the engine does, the answer is the
    internal error and no table changed. *)
Lemma issue_device_orphan kind user name (s : RelayState) :
  db_users (rs_database s) !! user = None ->
  exists s', issue_device kind (Some user) name s = (Err internal, s')
    /\ db_devices (rs_database s') = db_devices (rs_database s)
    /\ db_enrollments (rs_database s') = db_enrollments (rs_database s).
Proof.
  intros Hu. unfold issue_device, generate_credential. erewrite se_bind_eq by reflexivity.
  destruct (rs_credentials s (rs_draws s)) as [credential|e]; cbn [map_err].
  2:{ eexists. split; [by erewrite se_bind_err by reflexivity|done]. }
  do 2 erewrite se_bind_eq by reflexivity.
  match goal with |- context [query ?q] =>
    assert (Hq : forall db, db_users db !! user = None -> exists e faults,
      q db = (Err (DatabaseError_Sqlite e), set_faults faults db)) end.
  { intros db Hdb. unfold create_device, insert_device, sql, se_map_err, statement, mbind, se_bind. cbn.
    destruct (db_faults db) as [|[] faults]; cbn; [|by eexists _, _|]; rewrite Hdb;
      destruct (db_devices db !! dc_device_id credential); by eexists _, _. }
  match goal with |- context [(query _ ;; _) ?t] => destruct (Hq (rs_database t) Hu) as (e & faults & Hrun) end.
  eexists. split.
  - erewrite se_bind_err; [reflexivity|]. unfold query, se_map_err. rewrite database_run, Hrun. reflexivity.
  - done.
Qed.

(** Deleting an account leaves the codes issued for it pending; redeeming one answers the internal error,
    again and again, and spends nothing. *)
Lemma orphaned_code code name trimmed (s s1 : RelayState) enrollment user :
  require_text name DEVICE_NAME_FIELD MAX_DEVICE_NAME_LENGTH = Ok trimmed ->
  find_redeemable code s = (Ok enrollment, s1) -> ec_owner_user_id enrollment = Some user ->
  db_users (rs_database s) !! user = None ->
  exists s', enroll_with_code code name s = (Err internal, s')
    /\ db_devices (rs_database s') = db_devices (rs_database s)
    /\ db_enrollments (rs_database s') = db_enrollments (rs_database s).
Proof.
  intros Hn Hf Ho Hu. destruct (find_redeemable_ok _ _ _ _ Hf) as (_ & _ & _ & _ & _ & _ & _ & Ht & _).
  pose proof (f_equal db_users Ht) as Hus. pose proof (f_equal db_devices Ht) as Hds.
  pose proof (f_equal db_enrollments Ht) as Hes. cbn in Hus, Hds, Hes.
  destruct (issue_device_orphan (ec_kind enrollment) user trimmed s1) as (s2 & Hi & Hd & He); [by rewrite Hus|].
  exists s2. rewrite Hd, He. split; [|done]. unfold enroll_with_code, se_lift. rewrite Hn.
  erewrite se_bind_eq by reflexivity. erewrite se_bind_eq by exact Hf. rewrite Ho. by erewrite se_bind_err by exact Hi.
Qed.

End enrollment.

(** ** Properties *)

Section theorems.
Context `{!Protocol} `{!ProtocolLaws _} `{!JsonCodec} `{!Argon2}.

(** C35: what redeeming a code does.  It succeeds only for a code whose canonical spelling hashes to a
    stored enrollment that is neither used nor cancelled and has not expired, under a usable name; it
    creates exactly one device, of the kind and for the owner the code was issued for, under a fresh id,
    unrevoked, whose stored secret is the one of the credential handed out; and the code is then spent
    on that device, nothing else about it changed. *)
Theorem code_enrollment (code name : string) (s s' : RelayState) (response : EnrollResponse) :
  enroll_with_code code name s = (Ok response, s') ->
  exists canonical id enrollment kind credential created spent_at,
    normalize_code code = Some canonical
    /\ db_enrollments (rs_database s) !! id = Some enrollment
    /\ er_code_hash enrollment = hash_code canonical
    /\ er_used_at enrollment = None /\ er_cancelled_at enrollment = None
    /\ (rs_clock s (rs_reads s) < er_expires_at enrollment)%Z
    /\ is_empty (trim name) = false /\ chars_count (trim name) <= MAX_DEVICE_NAME_LENGTH
    /\ response = response_for s credential
    /\ parse_kind (er_kind enrollment) = Ok kind
    /\ db_devices (rs_database s) !! dc_device_id credential = None
    /\ db_devices (rs_database s')
       = <[dc_device_id credential :=
             mkDeviceRow (device_kind_label kind) (trim name) (er_owner_user_id enrollment)
               (DeviceCredential_secret_hash credential) None created None None None None PUBLIC_ACCESS]>
           (db_devices (rs_database s))
    /\ secret_matches_hash (dc_secret credential) (DeviceCredential_secret_hash credential) = true
    /\ db_enrollments (rs_database s')
       = <[id := with_used spent_at (dc_device_id credential) enrollment]> (db_enrollments (rs_database s)).
Proof.
  unfold enroll_with_code. intros (text & s1 & Ht & Hr)%se_bind_ok. injection Ht as Ht <-.
  apply require_text_ok in Ht as (-> & Hne & Hlen).
  apply se_bind_ok in Hr as (e & s2 & Hf & Hr).
  apply find_redeemable_ok in Hf as (canonical & row & Hc & Hrow & Hh & Hread & Hred & Htab & Hid2).
  destruct (redeemable_open _ _ _ Hread Hred) as (Hopen & Hlt & Hkind & Howner).
  apply se_bind_ok in Hr as (credential & s3 & Hi & Hr).
  apply issue_device_ok in Hi as (Hnew & (created & Hdev) & _ & Henr & Hid3).
  apply settle_ok in Hr as (row' & Hrow' & _ & Hspent & Hdev' & ->).
  assert (Hd2 : db_devices (rs_database s2) = db_devices (rs_database s)) by apply (f_equal db_devices Htab).
  assert (He2 : db_enrollments (rs_database s2) = db_enrollments (rs_database s))
    by apply (f_equal db_enrollments Htab).
  rewrite Henr, He2, Hrow in Hrow'. injection Hrow' as <-.
  unfold is_open in Hopen. apply andb_true_iff in Hopen as [Hused Hcanc].
  exists canonical, (ec_id e), row, (ec_kind e), credential, created, (rs_clock s3 (rs_reads s3)).
  split_and!; try done.
  - by destruct (er_used_at row).
  - by destruct (er_cancelled_at row).
  - unfold response_for. by rewrite Hid3, Hid2.
  - by rewrite <- Hd2.
  - by rewrite Hdev', Hdev, Hd2, Howner.
  - apply secret_hash_matches.
  - by rewrite Hspent, Henr, He2.
Qed.

(** C36: a code is spent once, however the steps of concurrent requests interleave.  Take any schedule
    of looking codes up, creating devices, settling, issuing and cancelling codes: at most one
    settlement of an enrollment succeeds, and at the end the enrollment is recorded as spent on that
    very device.  A settlement that is refused leaves its device revoked. *)
Theorem code_spent_once (ops : list EnrollOp) (s : RelayState) :
  let '(spent, s') := run_ops ops s in
  NoDup (fst <$> spent)
  /\ (forall id device_id, (id, device_id) ∈ spent -> spent_on (rs_database s') id device_id)
  /\ (forall enrollment credential answered,
        settle_enrollment enrollment credential s' = (Err (unauthorized INVALID_CODE), answered) ->
        forall row, db_devices (rs_database answered) !! dc_device_id credential = Some row ->
          is_Some (dr_revoked_at row)).
Proof.
  destruct (run_ops ops s) as [spent s'] eqn:E. destruct (run_ops_spec ops s spent s' E) as (Hnd & Hin & _).
  split; [done|]. split; [|intros enrollment credential answered; apply settle_refused].
  intros id d Hid. by destruct (Hin id d Hid).
Qed.

End theorems.

(** ** Witness *)

#[export] Instance sample_argon2 : Argon2 := {|
  argon2_hash_password password salt := Ok (salt +:+ "$" +:+ password);
  argon2_verify_password password hash := Some (ends_with hash ("$" +:+ password));
|}.

#[export] Instance sample_argon2_laws : Argon2Laws sample_argon2.
Proof.
  split. intros password salt hash [= <-]. cbn. f_equal. unfold ends_with. apply bool_decide_eq_true.
  rewrite strip_suffix_app. by eexists.
Qed.

Definition sample_enrollment : EnrollmentRow :=
  mkEnrollmentRow "#ABCD-EFGH-JKLM" "desktop" None "u1" None 1 9000000 None None None.

Definition sample_enroll_state : RelayState :=
  sample_state (set_enrollments (fun _ => {[ "e1" := sample_enrollment ]}) empty_database).

Lemma code_enrollment_witness :
  fst (enroll_with_code "abcd efgh jklm" " Desk " sample_enroll_state)
  = Ok (mkEnrollResponse "dev9.secret" "dev9" "relay-a")
  /\ exists canonical id enrollment, normalize_code "abcd efgh jklm" = Some canonical
       /\ db_enrollments (rs_database sample_enroll_state) !! id = Some enrollment.
Proof.
  split; [evaluate|].
  destruct (@code_enrollment sample_protocol sample_protocol_laws "abcd efgh jklm" " Desk "
    sample_enroll_state (snd (enroll_with_code "abcd efgh jklm" " Desk " sample_enroll_state))
    (mkEnrollResponse "dev9.secret" "dev9" "relay-a")) as (c & id & e & k & cr & cd & sp & Hc & He & _);
    [apply run_answer; evaluate|].
  exists c, id, e. split; [exact Hc|exact He].
Defined.
