(* ===== verification/AccountTheorems.v ===== *)
(** * Signing in

    What [login] does, against a specification that does not mention how the account is looked up: who
    the lockout stops, what a refusal costs, and what a session is made of. *)

From S2P Require Import Prelude.
From S2P Require Import RustStr.
From S2P Require Import Protocol.
From S2P Require Import Handle.
From S2P Require Import Registry.
From S2P Require Import Config.
From S2P Require Import Database.
From S2P Require Import Auth.
From S2P Require Import Address.
From S2P Require Import Http.
From S2P Require Import Upstream.
From S2P Require Import DatabaseInvariant.
From S2P Require Import State.
From S2P Require Import Access.
From S2P Require Import ApiError.
From S2P Require Import Tunnel.
From S2P Require Import Views.
From S2P Require Import Accounts.
From S2P Require Import Enroll.

(** ** Lemmas: operations on an engine that works *)

(** A sound read of a well-formed database answers. *)
Lemma sound_answers {A} (op : DB A) db :
  sound (db_ok true) (broken true) op -> db_wf db -> db_faults db = [] ->
  exists a db', op db = (Ok a, db') /\ db_wf db' /\ db_faults db' = [].
Proof.
  intros Hop Hwf Hf. specialize (Hop db (conj Hwf (fun _ => Hf))).
  destruct (op db) as [[a|e] db']; [|by destruct Hop]. exists a, db'. destruct Hop as [? Hf']. auto.
Qed.

Lemma find_user_by_username_answers name db :
  db_wf db -> db_faults db = [] ->
  exists found, find_user_by_username name db = (Ok found, db)
    /\ forall user, found = Some user <->
         exists id row, db_users db !! id = Some row /\ ur_username row = name /\ read_user_row id row = Ok user.
Proof.
  intros Hwf Hf. unfold find_user_by_username, read_user. erewrite se_bind_eq by by apply select_healthy.
  unfold se_lift. destruct (head _) as [[id row]|] eqn:Eh.
  - apply head_filter_lookup in Eh as [Hrow Hname]. apply String.eqb_eq in Hname. cbn in Hname.
    destruct (wf_users db Hwf id row Hrow) as [user Hu]. cbn. rewrite Hu. exists (Some user). split; [done|].
    intros user'. split; [intros [= <-]; eauto|]. intros (id' & row' & Hrow' & Hname' & Hu').
    assert (id' = id) as -> by (apply (wf_usernames db Hwf id' id row' row); congruence). congruence.
  - exists None. split; [done|]. intros user. split; [done|]. intros (id & row & Hrow & Hname & _).
    assert (Hin : List.In (id, row)
      (List.filter (fun '(_, r) => String.eqb (ur_username r) name) (map_to_list (db_users db)))).
    { apply List.filter_In. split; [by apply list_elem_of_In, elem_of_map_to_list|]. by apply String.eqb_eq. }
    by destruct (List.filter _ _).
Qed.

Section login.
Context `{!Protocol} `{!JsonCodec} `{!Platform} `{!HttpCrate} `{!Argon2}.

(** The account a name and a password open. *)
Definition opens (db : Database) (name password : string) (user : UserRecord) : Prop :=
  exists id row, db_users db !! id = Some row /\ ur_username row = name /\ read_user_row id row = Ok user
    /\ us_disabled user = false /\ verify_password password (us_password_hash user) = true.

Lemma query_run {A} (op : DB A) (s : RelayState) :
  query op s = (map_err ApiError_from (fst (op (rs_database s))), put_database (snd (op (rs_database s))) s).
Proof. unfold query, se_map_err. by rewrite database_run. Qed.

Lemma query_answers {A} (op : DB A) (s : RelayState) a db :
  op (rs_database s) = (Ok a, db) -> query op s = (Ok a, put_database db s).
Proof. intros Ho. by rewrite query_run, Ho. Qed.

(** The candidate [login] settles on is the account the credentials open. *)
Lemma login_candidate db (name password : string) found :
  (forall user, found = Some user <->
     exists id row, db_users db !! id = Some row /\ ur_username row = name /\ read_user_row id row = Ok user) ->
  forall user,
  (user ← found; if negb (us_disabled user) && verify_password password (us_password_hash user)
                 then Some user else None) = Some user <-> opens db name password user.
Proof.
  intros Hfound user. destruct found as [u|]; cbn.
  - destruct (proj1 (Hfound u) eq_refl) as (id & row & Hrow & Hname & Hu). split.
    + destruct (negb (us_disabled u)) eqn:Ed; [|done]. destruct (verify_password _ _) eqn:Ev; [|done].
      intros [= <-]. apply negb_true_iff in Ed. exists id, row. auto.
    + intros (id' & row' & Hrow' & Hname' & Hu' & Hd & Hv).
      assert (Some u = Some user) as [= ->] by (apply Hfound; eauto). by rewrite Hd, Hv.
  - split; [done|]. intros (id & row & Hrow & Hname & Hu & _).
    assert (None = Some user) as ? by (apply Hfound; eauto). done.
Qed.

(** A state whose database works and is well formed. *)
Definition sane (s : RelayState) : Prop := db_wf (rs_database s) /\ db_faults (rs_database s) = [].

Lemma put_same_database (s : RelayState) : put_database (rs_database s) s = s.
Proof. by destruct s. Qed.

Lemma query_reads {A} (op : DB A) (s : RelayState) :
  sound (db_ok true) (broken true) op -> sane s ->
  (forall db, db_faults db = [] -> snd (op db) = db) -> exists a, query op s = (Ok a, s).
Proof.
  intros Hop [Hwf Hf] Hr. destruct (sound_answers op (rs_database s)) as (a & db' & Ha & _); [done..|].
  exists a. rewrite (query_answers _ _ _ _ Ha). specialize (Hr _ Hf). rewrite Ha in Hr. cbn in Hr.
  subst. by rewrite put_same_database.
Qed.

(** The page an account is answered with only reads. *)
Lemma user_envelope_answers user (s : RelayState) :
  sane s -> exists view, user_envelope user s = (Ok view, s) /\ vu_id view = us_id user.
Proof.
  intros Hs. unfold user_envelope, build_context.
  destruct (query_reads (list_devices_owned_by (us_id user)) s) as [devices Hd]; [|done| |].
  { apply list_devices_owned_by_sound. }
  { intros db Hf. unfold list_devices_owned_by, query_devices. by erewrite se_bind_eq by by apply select_healthy. }
  erewrite se_bind_eq by exact Hd.
  destruct (query_reads list_users s) as [users Hu]; [apply list_users_sound|done| |].
  { intros db Hf. unfold list_users. by erewrite se_bind_eq by by apply select_healthy. }
  erewrite se_bind_eq; [|erewrite se_bind_eq by exact Hu; reflexivity]. by eexists.
Qed.

Lemma audit_record_sane {E} entry (s : RelayState) :
  sane s -> sane (snd (audit_record (E := E) entry s)).
Proof.
  intros [Hwf Hf]. unfold audit_record. erewrite se_bind_eq by reflexivity.
  erewrite se_bind_eq by apply try_database. cbn.
  pose proof (write_audit_sound true (into_record (rs_clock s (rs_reads s)) entry) (rs_database s)
                (conj Hwf (fun _ => Hf))) as Hw.
  destruct (write_audit _ _) as [[u|e] db]; [destruct Hw|destruct Hw as [[? ?] ?]]; split; cbn; auto.
Qed.

Lemma record_user_login_sessions now id : preserves (keeps db_sessions) (record_user_login now id).
Proof.
  unfold record_user_login, update_users_row. apply preserves_bind; [tc_solve| |frame].
  apply preserves_map_err. intros db. unfold keeps, update_row, statement.
  destruct (db_faults db) as [|[] faults]; cbn; [| done |]; by destruct (db_users db !! id).
Qed.

(** A session is stored under a free hash. *)
Lemma create_session_free random now user_id ip token db :
  db_faults db = [] -> random SESSION_TOKEN_BYTES = Ok token -> db_sessions db !! hash_secret token = None ->
  create_session random now user_id ip db
  = (Ok token, set_sessions (<[hash_secret token :=
       mkSessionRecord (hash_secret token) user_id now (now + SESSION_LIFETIME_MS)%Z ip]>) db).
Proof.
  intros Hf Hr Hs. unfold create_session. rewrite Hr. erewrite se_bind_eq by reflexivity.
  erewrite se_bind_eq; [done|]. unfold create_session_row, sql, se_map_err.
  rewrite statement_healthy by done. cbn. by rewrite Hs.
Qed.

(** ** The three outcomes *)

Lemma lockout_is_locked_run {E} source (s : RelayState) :
  lockout_is_locked (E := E) source s
  = (Ok (is_locked (rs_lockout s) source (rs_clock s (rs_reads s))), tick (S (rs_reads s)) (rs_draws s) s).
Proof. done. Qed.


Lemma login_locked client request (s : RelayState) :
  is_locked (rs_lockout s) (cc_ip client) (rs_clock s (rs_reads s)) = true ->
  login client request s = (Err (unauthorized LOCKED_OUT_MESSAGE), tick (S (rs_reads s)) (rs_draws s) s).
Proof. intros Hl. unfold login. erewrite se_bind_eq by apply lockout_is_locked_run. by rewrite Hl. Qed.

Lemma login_refused client request (s : RelayState) :
  sane s -> is_locked (rs_lockout s) (cc_ip client) (rs_clock s (rs_reads s)) = false ->
  (forall user, ~ opens (rs_database s) (trim (lr_username request)) (lr_password request) user) ->
  exists s', login client request s = (Err (unauthorized INVALID_LOGIN), s')
    /\ stored s' = stored s
    /\ rs_lockout s' = record_failure (cc_ip client) (rs_clock s (S (rs_reads s))) (rs_lockout s).
Proof.
  intros [Hwf Hf] Hl Hno. unfold login. erewrite se_bind_eq by apply lockout_is_locked_run. rewrite Hl.
  destruct (find_user_by_username_answers (trim (lr_username request)) (rs_database s)) as (found & Hq & Hfound);
    [done..|].
  erewrite se_bind_eq by by apply query_answers.
  pose proof (login_candidate _ _ (lr_password request) found Hfound) as Hc.
  destruct (found ≫= _) as [user|]; [by destruct (Hno user); apply Hc|].
  erewrite se_bind_eq by reflexivity. set (s2 := put_lockout _ _).
  match goal with |- context [audit_record ?entry] =>
    destruct (audit_record_run (E := ApiError) entry s2) as (s3 & Ha & _ & Hst & Hlk) end.
  erewrite se_bind_eq by exact Ha. exists s3. split; [done|]. rewrite Hst, Hlk. by destruct s.
Qed.

Lemma login_accepted client request (s : RelayState) user token :
  sane s -> is_locked (rs_lockout s) (cc_ip client) (rs_clock s (rs_reads s)) = false ->
  opens (rs_database s) (trim (lr_username request)) (lr_password request) user ->
  rs_random s (rs_draws s) SESSION_TOKEN_BYTES = Ok token ->
  db_sessions (rs_database s) !! hash_secret token = None ->
  let now := rs_clock s (S (S (rs_reads s))) in
  exists view s', login client request s
    = (Ok (mkCookieAnswer OK (header_value_from_str (session_cookie token (is_public_secure s))) view), s')
    /\ vu_id view = us_id user
    /\ db_sessions (rs_database s')
       = <[hash_secret token := mkSessionRecord (hash_secret token) (us_id user) now
             (now + SESSION_LIFETIME_MS)%Z (Some (cc_ip client))]> (db_sessions (rs_database s))
    /\ rs_lockout s' = lockout_clear (cc_ip client) (rs_lockout s).
Proof.
  intros [Hwf Hf] Hl Ho Hr Hfree now. unfold login. erewrite se_bind_eq by apply lockout_is_locked_run.
  rewrite Hl.
  destruct (find_user_by_username_answers (trim (lr_username request)) (rs_database s)) as (found & Hq & Hfound);
    [done..|].
  erewrite se_bind_eq by by apply query_answers. rewrite (proj2 (login_candidate _ _ _ _ Hfound user) Ho).
  do 2 erewrite se_bind_eq by reflexivity.
  set (db := rs_database s). set (login_at := rs_clock _ _).
  destruct (sound_answers (record_user_login login_at (us_id user)) db) as (u & db1 & Hu & Hwf1 & Hf1);
    [apply record_user_login_sound|done..|].
  erewrite se_bind_eq by by apply query_answers. do 2 erewrite se_bind_eq by reflexivity.
  assert (Hs1 : db_sessions db1 = db_sessions db).
  { pose proof (record_user_login_sessions login_at (us_id user) db) as Hk. by rewrite Hu in Hk. }
  pose proof (create_session_free (rs_random s (rs_draws s)) now (us_id user) (Some (cc_ip client)) token db1
    Hf1 Hr ltac:(by rewrite Hs1)) as Hc.
  pose proof (create_session_sound true (rs_random s (rs_draws s)) now (us_id user) (Some (cc_ip client)) db1
    (conj Hwf1 (fun _ => Hf1))) as Hwf2.
  rewrite Hc in Hwf2. destruct Hwf2 as [Hwf2 Hf2].
  erewrite se_bind_eq by by apply query_answers, Hc. set (s2 := put_database _ _).
  match goal with |- context [audit_record ?entry] =>
    destruct (audit_record_run (E := ApiError) entry s2) as (s3 & Ha & (_ & _ & _ & _ & Had) & Hst & Hlk);
    pose proof (audit_record_sane (E := ApiError) entry s2) as Hsane end.
  rewrite Ha in Hsane. erewrite se_bind_eq by exact Ha.
  destruct (user_envelope_answers user s3) as (view & Hv & Hid); [apply Hsane; split; [done|by apply Hf2]|].
  erewrite se_bind_eq by exact Hv. erewrite se_bind_eq by reflexivity. exists view, s3.
  assert (is_public_secure s3 = is_public_secure s) as -> by (unfold is_public_secure, public_url; by rewrite Had).
  split; [done|]. split; [done|]. split; [|by rewrite Hlk].
  pose proof (f_equal db_sessions Hst) as Hss. cbn in Hss. rewrite Hss. cbn. by rewrite Hs1.
Qed.

(** ** Properties *)

(** C18: what signing in does.  On a working database a source that is locked out is refused before any
    account is looked at, and nothing is counted or stored.  Otherwise the answer depends only on
    whether the name and the password open an account that is not disabled: if none, the answer is one
    fixed sentence, exactly one failure is counted against the source and nothing but the audit trail is
    written; if so, the source's failures are forgotten, exactly one session is added - for that account,
    under the drawn token, ending a lifetime from now - and the cookie carries that token. *)
Theorem login_effect (client : ClientContext) (request : LoginRequest) (s : RelayState) :
  db_wf (rs_database s) -> db_faults (rs_database s) = [] ->
  let db := rs_database s in
  let ip := cc_ip client in
  let credentials := opens db (trim (lr_username request)) (lr_password request) in
  let '(answer, s') := login client request s in
  if is_locked (rs_lockout s) ip (rs_clock s (rs_reads s)) then
    answer = Err (unauthorized LOCKED_OUT_MESSAGE) /\ rs_database s' = db /\ rs_lockout s' = rs_lockout s
  else
    ((forall user, ~ credentials user) ->
       answer = Err (unauthorized INVALID_LOGIN) /\ stored s' = stored s
       /\ rs_lockout s' = record_failure ip (rs_clock s (S (rs_reads s))) (rs_lockout s))
    /\ (forall user token, credentials user ->
          rs_random s (rs_draws s) SESSION_TOKEN_BYTES = Ok token -> db_sessions db !! hash_secret token = None ->
          let now := rs_clock s (S (S (rs_reads s))) in
          exists view, answer = Ok (mkCookieAnswer OK
                (header_value_from_str (session_cookie token (is_public_secure s))) view)
            /\ vu_id view = us_id user
            /\ db_sessions (rs_database s')
               = <[hash_secret token := mkSessionRecord (hash_secret token) (us_id user) now
                     (now + SESSION_LIFETIME_MS)%Z (Some ip)]> (db_sessions db)
            /\ rs_lockout s' = lockout_clear ip (rs_lockout s)).
Proof.
  intros Hwf Hf db ip credentials. destruct (is_locked _ _ _) eqn:Hl.
  { by rewrite login_locked. }
  assert (Hs : sane s) by done. destruct (login client request s) as [answer s'] eqn:El. split.
  - intros Hno. destruct (login_refused client request s Hs Hl Hno) as (s1 & Hr & Hst & Hlk).
    rewrite El in Hr. by injection Hr as -> ->.
  - intros user token Ho Hr Hfree now.
    destruct (login_accepted client request s user token Hs Hl Ho Hr Hfree) as (view & s1 & Ha & Hid & Hss & Hlk).
    rewrite El in Ha. injection Ha as -> ->. by exists view.
Qed.

End login.

(** ** Witness *)

(** A database with the one account ada, made by the program. *)
Definition sample_login_database : Database :=
  snd (create_user (Ok "u1") 1 "ada" "salt$secret" UserRole_User empty_database).

Lemma sample_login_wf : db_wf sample_login_database.
Proof.
  pose proof (create_user_sound true (fun _ => True) (Ok "u1") 1 "ada" "salt$secret" UserRole_User) as Hs.
  specialize (Hs (fun _ _ => I) (fun _ _ => I) empty_database (conj (empty_wf []) (fun _ => eq_refl))).
  unfold sample_login_database. destruct (create_user _ _ _ _ _ _) as [[a|e] db]; [exact (proj1 Hs)|exact (proj1 (proj1 Hs))].
Qed.

Definition sample_login_state : RelayState := sample_state sample_login_database.

Definition sample_login_client : ClientContext := mkClientContext "10.0.0.1" "https" "relay.example.com".

Lemma login_effect_witness :
  exists view s', login sample_login_client (mkLoginRequest " ada" "secret") sample_login_state
    = (Ok (mkCookieAnswer OK (header_value_from_str (session_cookie "token" true)) view), s')
    /\ vu_id view = "u1" /\ is_Some (db_sessions (rs_database s') !! "#token").
Proof.
  pose proof (@login_effect sample_protocol sample_json sample_http sample_argon2 sample_login_client
    (mkLoginRequest " ada" "secret") sample_login_state sample_login_wf eq_refl) as Hl.
  cbv zeta in Hl. destruct (login _ _ _) as [answer s'].
  assert (is_locked (rs_lockout sample_login_state) (cc_ip sample_login_client)
    (rs_clock sample_login_state (rs_reads sample_login_state)) = false) as Hopen by reflexivity.
  rewrite Hopen in Hl. destruct Hl as [_ Hl].
  destruct (Hl (mkUserRecord "u1" "ada" "salt$secret" UserRole_User false 1 None) "token")
    as (view & -> & Hid & Hs & _); [|reflexivity..|].
  - exists "u1", (mkUserRow "ada" "salt$secret" "user" 0 1 None). repeat split; reflexivity.
  - exists view, s'. split; [reflexivity|]. split; [exact Hid|]. rewrite Hs. by eexists.
Defined.
