(* ===== verification/Devices.v ===== *)
(** * [src/api/devices.rs], [src/api/users.rs]: managing devices and accounts

    The handlers an administrator and an owner change devices and accounts with.  Revoking a device is
    shared by both, as in the source. *)

From S2P Require Import Prelude.
From S2P Require Import RustStr.
From S2P Require Import Protocol.
From S2P Require Import Handle.
From S2P Require Import Registry.
From S2P Require Import Config.
From S2P Require Import Database.
From S2P Require Import Auth.
From S2P Require Import Address.
From S2P Require Import Http.
From S2P Require Import Upstream.
From S2P Require Import State.
From S2P Require Import Access.
From S2P Require Import ApiError.
From S2P Require Import Tunnel.
From S2P Require Import Views.
From S2P Require Import Accounts.

(** ** Constants *)

Definition MAX_DEVICE_NAME_LENGTH : nat := 64.
Definition MAX_NOTE_LENGTH : nat := 200.
Definition DEVICE_NAME_FIELD : string := "设备名称".
Definition NOTE_FIELD : string := "备注".
Definition UNKNOWN_DEVICE : string := "设备不存在。".
Definition NOT_YOUR_DEVICE : string := "只能管理自己名下的设备。".
Definition NOTHING_TO_UPDATE : string := "没有需要修改的字段。".
Definition REVOKED_REASON : string := "接入已被中继撤销。".
Definition DISCONNECTED_REASON : string := "中继管理员断开了这条隧道。".
Definition MAX_USERNAME_LENGTH : nat := 64.
Definition USERNAME_FIELD : string := "用户名".
Definition UNKNOWN_USER : string := "用户不存在。".
Definition CANNOT_DELETE_SELF : string := "不能删除当前登录的账号。".
Definition USERNAME_HAS_SPACES : string := "用户名不能包含空格。".

(** ** Requests *)

Record DeviceUpdateRequest : Type := mkDeviceUpdateRequest {
  rq_name : option string;
  rq_note : option string;
  rq_access : option string;
}.

Record CreateUserRequest : Type := mkCreateUserRequest {
  cu_username : string;
  cu_password : string;
  cu_role : UserRole;
}.

Record UpdateUserRequest : Type := mkUpdateUserRequest {
  ru_disabled : option bool;
  ru_role : option UserRole;
  ru_password : option string;
}.

Section devices.
Context `{Protocol} `{JsonCodec} `{Argon2}.

(** ** [devices.rs] *)

(** [Option::map(f).transpose()?]. *)
Definition try_map {E A B : Type} (f : A -> result E B) (o : option A) : result E (option B) :=
  transpose (f <$> o).

Definition requested_access (value : string) : result ApiError DeviceAccess :=
  map_err bad_request (DeviceAccess_from_str value).

Definition bounded_note (note : string) : result ApiError string :=
  let trimmed := trim note in
  if MAX_NOTE_LENGTH <? chars_count trimmed
  then Err (bad_request (NOTE_FIELD +:+ "不能超过 " +:+ pretty (Z.of_nat MAX_NOTE_LENGTH) +:+ " 个字符。"))
  else Ok trimmed.

Definition find_known_device (device_id : string) : App ApiError DeviceRecord :=
  found ← query (find_device device_id);
  se_lift (ok_or (not_found UNKNOWN_DEVICE) found).

Definition find_own_device (session : SessionUser) (device_id : string) : App ApiError DeviceRecord :=
  device ← find_known_device device_id;
  if negb (bool_decide (dv_owner_user_id device = Some (us_id (su_user session))))
  then se_fail (forbidden NOT_YOUR_DEVICE)
  else mret device.

Definition device_envelope (device_id : string) : App ApiError DeviceView :=
  device ← find_known_device device_id;
  context ← build_context;
  mret (device_view context device).

Definition list_all (admin : SessionUser) : App ApiError (list DeviceView) :=
  records ← query list_devices;
  context ← build_context;
  mret ((device_view context <$> records) ++ announced_only context records).

Definition list_own (session : SessionUser) : App ApiError (list DeviceView) :=
  records ← query (list_devices_owned_by (us_id (su_user session)));
  context ← build_context;
  mret (device_view context <$> records).

Definition record_update {E} (device : DeviceRecord) (update : DeviceUpdate) (actor_id ip : string)
    : App E unit :=
  (if bool_decide (is_Some (du_name update)) || bool_decide (is_Some (du_note update))
   then
     audit_record (from_ip ip (on_target target.DEVICE (dv_id device) (by_user actor_id action.DEVICE_UPDATED)))
   else mret tt) ;;
  match du_access update with
  | Some access =>
      if bool_decide (access = dv_access device) then mret tt
      else
        audit_record
          (detail "access" (Value_String (DeviceAccess_as_str access))
             (from_ip ip (on_target target.DEVICE (dv_id device)
                (by_user actor_id action.DEVICE_ACCESS_CHANGED))))
  | None => mret tt
  end.

Definition apply_update (device : DeviceRecord) (request : DeviceUpdateRequest) (actor_id ip : string)
    : App ApiError DeviceView :=
  name ← se_lift (try_map (fun name => require_text name DEVICE_NAME_FIELD MAX_DEVICE_NAME_LENGTH)
                    (rq_name request));
  note ← se_lift (try_map bounded_note (rq_note request));
  access ← se_lift (try_map requested_access (rq_access request));
  let update := mkDeviceUpdate name note access in
  if DeviceUpdate_is_empty update then se_fail (bad_request NOTHING_TO_UPDATE)
  else
    query (update_device (dv_id device) update) ;;
    record_update device update actor_id ip ;;
    device_envelope (dv_id device).

Definition update_any (admin : SessionUser) (client : ClientContext) (id : string)
    (request : DeviceUpdateRequest) : App ApiError DeviceView :=
  device ← find_known_device id;
  apply_update device request (us_id (su_user admin)) (cc_ip client).

Definition update_own (session : SessionUser) (client : ClientContext) (id : string)
    (request : DeviceUpdateRequest) : App ApiError DeviceView :=
  device ← find_own_device session id;
  apply_update device (mkDeviceUpdateRequest (rq_name request) None (rq_access request))
    (us_id (su_user session)) (cc_ip client).

(** The push into the tunnel a device is routed over, if it is online. *)
Definition tell_link {E} (device_id : string) (push : TunnelHandle -> Channels -> Channels) : App E unit :=
  found ← se_get (fun s => route (rs_registry s) device_id);
  match found : option Route with
  | Some r => on_channels (push (link r))
  | None => mret tt
  end.

Definition revoke (device_id actor_id ip : string) : App ApiError unit :=
  now ← now_millis;
  changed ← query (revoke_device now device_id);
  tell_link device_id (fun handle => revoke_tunnel handle REVOKED_REASON) ;;
  if changed : bool
  then audit_record (from_ip ip (on_target target.DEVICE device_id (by_user actor_id action.DEVICE_REVOKED)))
  else mret tt.

Definition revoke_any (admin : SessionUser) (client : ClientContext) (id : string) : App ApiError DeviceView :=
  device ← find_known_device id;
  revoke (dv_id device) (us_id (su_user admin)) (cc_ip client) ;;
  device_envelope (dv_id device).

Definition revoke_own (session : SessionUser) (client : ClientContext) (id : string)
    : App ApiError DeviceView :=
  device ← find_own_device session id;
  revoke (dv_id device) (us_id (su_user session)) (cc_ip client) ;;
  device_envelope (dv_id device).

Definition disconnect_any (admin : SessionUser) (client : ClientContext) (id : string) : App ApiError unit :=
  device ← find_known_device id;
  tell_link (dv_id device) (fun handle => disconnect_tunnel handle DISCONNECTED_REASON) ;;
  audit_record
    (from_ip (cc_ip client) (on_target target.DEVICE (dv_id device)
       (by_user (us_id (su_user admin)) action.DEVICE_DISCONNECTED))).

(** ** [users.rs] *)

Definition validated_username (username : string) : result ApiError string :=
  username ← require_text username USERNAME_FIELD MAX_USERNAME_LENGTH;
  if any_whitespace username then Err (bad_request USERNAME_HAS_SPACES) else Ok username.

Definition describe_changes (update : UserUpdate) : string :=
  str_join ","
    ((if bool_decide (is_Some (uu_disabled update)) then ["disabled"] else [])
     ++ (if bool_decide (is_Some (uu_role update)) then ["role"] else [])
     ++ (if bool_decide (is_Some (uu_password_hash update)) then ["password"] else [])).

Definition count_devices (user_id : string) : App ApiError nat :=
  devices ← query (list_devices_owned_by user_id); mret (live_device_count devices).

Definition find_known_user (id : string) : App ApiError UserRecord :=
  found ← query (find_user id);
  se_lift (ok_or (not_found UNKNOWN_USER) found).

Definition account_envelope (user : UserRecord) : App ApiError UserView :=
  build_context ;;
  count ← count_devices (us_id user);
  mret (user_view user count).

Fixpoint account_views (users : list UserRecord) : App ApiError (list UserView) :=
  match users with
  | [] => mret []
  | user :: rest =>
      count ← count_devices (us_id user);
      views ← account_views rest;
      mret (user_view user count :: views)
  end.

Definition list_accounts (admin : SessionUser) : App ApiError (list UserView) :=
  users ← query list_users;
  build_context ;;
  account_views users.

Definition revoke_devices_of (user : UserRecord) (actor_id ip : string) : App ApiError unit :=
  devices ← query (list_devices_owned_by (us_id user));
  se_for devices (fun device => revoke (dv_id device) actor_id ip).

Definition create_account (admin : SessionUser) (client : ClientContext) (request : CreateUserRequest)
    : App ApiError UserView :=
  username ← se_lift (validated_username (cu_username request));
  password ← se_lift (validated_password (cu_password request));
  hash ← hash_new_password password;
  random ← draw;
  now ← now_millis;
  user ← query (create_user (random IDENTIFIER_BYTES) now username hash (cu_role request));
  audit_record
    (detail "role" (Value_String (UserRole_as_str (cu_role request)))
       (detail "username" (Value_String username)
          (from_ip (cc_ip client) (on_target target.USER (us_id user)
             (by_user (us_id (su_user admin)) action.USER_CREATED))))) ;;
  account_envelope user.

(** The new hash of an update, if it asks for one. *)
Definition requested_hash (password : option string) : App ApiError (option string) :=
  match password with
  | None => mret None
  | Some password =>
      password ← se_lift (validated_password password);
      hash ← hash_new_password password;
      mret (Some hash)
  end.

Definition update_account (admin : SessionUser) (client : ClientContext) (id : string)
    (request : UpdateUserRequest) : App ApiError UserView :=
  user ← find_known_user id;
  hash ← requested_hash (ru_password request);
  let update := mkUserUpdate (ru_disabled request) (ru_role request) hash in
  if UserUpdate_is_empty update then se_fail (bad_request NOTHING_TO_UPDATE)
  else
    query (update_user (us_id user) update) ;;
    (if bool_decide (is_Some (uu_password_hash update)) || bool_decide (uu_disabled update = Some true)
     then query (delete_sessions_of_user (us_id user)) else mret tt) ;;
    (if bool_decide (uu_disabled update = Some true)
     then revoke_devices_of user (us_id (su_user admin)) (cc_ip client) else mret tt) ;;
    audit_record
      (detail "changed" (Value_String (describe_changes update))
         (from_ip (cc_ip client) (on_target target.USER (us_id user)
            (by_user (us_id (su_user admin)) action.USER_UPDATED)))) ;;
    updated ← find_known_user id;
    account_envelope updated.

Definition delete_account (admin : SessionUser) (client : ClientContext) (id : string) : App ApiError unit :=
  if String.eqb id (us_id (su_user admin)) then se_fail (bad_request CANNOT_DELETE_SELF)
  else
    user ← find_known_user id;
    revoke_devices_of user (us_id (su_user admin)) (cc_ip client) ;;
    query (disown_devices_of (us_id user)) ;;
    query (delete_sessions_of_user (us_id user)) ;;
    query (delete_user (us_id user)) ;;
    audit_record
      (detail "username" (Value_String (us_username user))
         (from_ip (cc_ip client) (on_target target.USER (us_id user)
            (by_user (us_id (su_user admin)) action.USER_DELETED)))).

End devices.
