(* ===== verification/DeviceTheorems.v ===== *)
(** * What revoking a device and closing an account do

    The theorems about [Devices]: the effect of a revocation on the stored device and on the tunnel, and
    what is left of an account that was disabled or deleted. *)

From stdpp Require Import sorting.
From S2P Require Import Prelude.
From S2P Require Import RustStr.
From S2P Require Import Protocol.
From S2P Require Import Handle.
From S2P Require Import Registry.
From S2P Require Import Config.
From S2P Require Import Database.
From S2P Require Import Auth.
From S2P Require Import Address.
From S2P Require Import Http.
From S2P Require Import Upstream.
From S2P Require Import State.
From S2P Require Import Access.
From S2P Require Import ApiError.
From S2P Require Import Tunnel.
From S2P Require Import UpstreamSession.
From S2P Require Import Enroll.
From S2P Require Import Views.
From S2P Require Import Accounts.
From S2P Require Import Devices.

(** ** What is meant *)

(** The device table after some devices were revoked: those are revoked now, the others are as they
    were, and nothing but the revocation of a device changed. *)
Definition revoked_in (ids : string -> Prop) (m m' : gmap string DeviceRow) : Prop :=
  forall d,
    match m !! d with
    | None => m' !! d = None
    | Some row => exists row', m' !! d = Some row'
        /\ (row' = row \/ exists now, row' = with_revoked_at now row)
        /\ (ids d -> is_Some (dr_revoked_at row'))
        /\ (is_Some (dr_revoked_at row) \/ ~ ids d -> row' = row)
    end.

Definition nothing (d : string) : Prop := False.

Lemma revoked_in_nothing m : revoked_in nothing m m.
Proof. intros d. destruct (m !! d) as [row|]; [|done]. exists row. split_and!; auto. intros []. Qed.

Lemma revoked_in_trans (ids1 ids2 : string -> Prop) m1 m2 m3 :
  revoked_in ids1 m1 m2 -> revoked_in ids2 m2 m3 -> revoked_in (fun d => ids1 d \/ ids2 d) m1 m3.
Proof.
  intros H12 H23 d. specialize (H12 d). specialize (H23 d).
  destruct (m1 !! d) as [row|]; [|by rewrite H12 in H23].
  destruct H12 as (row2 & E2 & Hc2 & Hr2 & Hk2). rewrite E2 in H23.
  destruct H23 as (row3 & E3 & Hc3 & Hr3 & Hk3). exists row3. split; [done|].
  destruct (decide (is_Some (dr_revoked_at row2))) as [Hs|Hn].
  - rewrite (Hk3 (or_introl Hs)) in *. split_and!; auto. intros [Hs'|Hn']; apply Hk2; tauto.
  - assert (row2 = row) as ->.
    { destruct Hc2 as [|[now ->]]; [done|]. destruct Hn. by eexists. }
    split_and!; auto; [|tauto]. intros [Hd|Hd]; [|auto]. destruct Hn. auto.
Qed.

Lemma revoked_in_ext (ids1 ids2 : string -> Prop) m m' :
  (forall d, ids1 d <-> ids2 d) -> revoked_in ids1 m m' -> revoked_in ids2 m m'.
Proof.
  intros Hi H d. specialize (H d). destruct (m !! d) as [row|]; [|done].
  destruct H as (row' & E & Hc & Hr & Hk). exists row'. split; [done|]. split; [done|].
  rewrite <- Hi. done.
Qed.

(** ** Lemmas: the statements involved *)

Section statements.
Context `{!Protocol} `{!JsonCodec}.

(** Everything but the device table, the audit trail and the faults. *)
Definition without_devices (db : Database) : Database := set_devices (fun _ => ∅) (tables db).

Lemma revoke_device_ok now id (db db' : Database) changed :
  revoke_device now id db = (Ok changed, db') ->
  without_devices db' = without_devices db
  /\ revoked_in (fun d => d = id) (db_devices db) (db_devices db').
Proof.
  unfold revoke_device. intros (n & db1 & Hu & Hret)%se_bind_ok. injection Hret as _ <-.
  apply update_row_ok in Hu. cbn in Hu.
  assert (Hsame : forall row, db_devices db !! id = Some row -> is_Some (dr_revoked_at row) ->
    revoked_in (fun d => d = id) (db_devices db) (db_devices db)).
  { intros row Hrow Hs d. destruct (db_devices db !! d) as [r|] eqn:E; [|done]. exists r.
    split_and!; auto. intros ->. congruence. }
  destruct (db_devices db !! id) as [row|] eqn:E.
  - destruct (is_none (dr_revoked_at row)) eqn:En; destruct Hu as [_ ->]; cbn; (split; [done|]).
    + intros d. destruct (decide (d = id)) as [->|Hne].
      * rewrite E, lookup_insert_eq. eexists. split; [done|]. split; [by right; exists now|].
        split; [by eexists|]. intros [[u Hs]|Hn]; [by rewrite Hs in En|by destruct Hn].
      * rewrite lookup_insert_ne by done. destruct (db_devices db !! d) as [r|]; [|done].
        exists r. split_and!; auto. done.
    + apply (Hsame row); [done|]. by destruct (dr_revoked_at row).
  - destruct Hu as [_ ->]. cbn. split; [done|]. intros d.
    destruct (db_devices db !! d) as [r|] eqn:Ed; [|done]. exists r. split_and!; auto.
    intros ->. congruence.
Qed.

Lemma read_device_row_id id row device : read_device_row id row = Ok device -> dv_id device = id.
Proof.
  unfold read_device_row. intros Hr. run_in Hr. destruct (parse_device_row _ _) as [[k a]|]; [|done].
  by injection Hr as <-.
Qed.

Lemma read_rows_ids rows : forall devices,
  collect ((fun '(id, r) => read_device_row id r) <$> rows) = Ok devices -> dv_id <$> devices = fst <$> rows.
Proof.
  induction rows as [|[id row] rows IH]; intros devices; [by intros [= <-]|].
  rewrite fmap_cons. cbn [collect]. destruct (read_device_row id row) as [device|] eqn:Er; [|done].
  run. destruct (collect _) as [rest|]; [|done]. intros [= <-]. cbn.
  by rewrite (read_device_row_id _ _ _ Er), (IH rest).
Qed.

(** The listing answers one record per owned row, in some order. *)
Lemma list_owned_ok owner (db db' : Database) devices :
  list_devices_owned_by owner db = (Ok devices, db') ->
  tables db' = tables db
  /\ forall id, id ∈ (dv_id <$> devices) <->
       exists row, db_devices db !! id = Some row /\ dr_owner_user_id row = Some owner.
Proof.
  unfold list_devices_owned_by, query_devices. intros (rows & db1 & Hs & Hl)%se_bind_ok.
  apply select_ok in Hs as [-> ->]. injection Hl as Hl <-. split; [done|]. cbn in Hl.
  set (rows := merge_sort _ _) in Hl.
  assert (Hids : dv_id <$> devices = fst <$> rows).
  { by apply read_rows_ids. }
  intros id. rewrite Hids. unfold rows. rewrite list_elem_of_fmap. split.
  - intros ([i row] & -> & Hin). rewrite merge_sort_Permutation in Hin.
    rewrite list_elem_of_In, List.filter_In in Hin. destruct Hin as [Hin Ho].
    exists row. split; [by apply elem_of_map_to_list, list_elem_of_In|].
    unfold owned_by in Ho. by apply bool_decide_eq_true in Ho.
  - intros (row & Hrow & Ho). exists (id, row). split; [done|]. rewrite merge_sort_Permutation.
    rewrite list_elem_of_In, List.filter_In. split; [by apply list_elem_of_In, elem_of_map_to_list|].
    unfold owned_by. by apply bool_decide_eq_true.
Qed.

End statements.

(** ** Lemmas: revoking *)

Section revoking.
Context `{!Protocol} `{!JsonCodec}.

(** What a revocation puts into the tunnel the device is routed over. *)
Definition pushed_revocation (r : Registry) (chans : Channels) (device_id : string) : Channels :=
  match route r device_id with
  | Some r => revoke_tunnel (link r) REVOKED_REASON chans
  | None => chans
  end.

Definition rest_of (s : RelayState) : Database := without_devices (rs_database s).
Definition devices_of (s : RelayState) : gmap string DeviceRow := db_devices (rs_database s).

Lemma revoke_ok device_id actor ip (s s' : RelayState) :
  revoke device_id actor ip s = (Ok tt, s') ->
  rs_registry s' = rs_registry s /\ rest_of s' = rest_of s
  /\ rs_channels s' = pushed_revocation (rs_registry s) (rs_channels s) device_id
  /\ revoked_in (fun d => d = device_id) (devices_of s) (devices_of s').
Proof.
  unfold revoke. erewrite se_bind_eq by reflexivity. intros (changed & s1 & Hq & Hr)%se_bind_ok.
  apply query_ok in Hq as (db & Hq & ->). apply revoke_device_ok in Hq as [Hrest Hdev]. cbn in Hrest, Hdev.
  set (s1 := put_database db _) in Hr.
  assert (Ht : tell_link (E := ApiError) device_id (fun handle => revoke_tunnel handle REVOKED_REASON) s1
    = (Ok tt, put_channels (pushed_revocation (rs_registry s) (rs_channels s) device_id) s1)).
  { unfold tell_link. erewrite se_bind_eq by reflexivity. unfold pushed_revocation. cbn.
    by destruct (route (rs_registry s) device_id). }
  apply se_bind_ok in Hr as (u & s2 & Ht' & Hr). rewrite Ht in Ht'. injection Ht' as _ <-.
  destruct changed.
  - match type of Hr with audit_record ?e ?s0 = _ =>
      destruct (audit_record_run (E := ApiError) e s0) as (s3 & Ha & (Hg & _ & Hc & _) & Hst & _) end.
    rewrite Hr in Ha. injection Ha as <-. rewrite Hg, Hc. split; [done|]. unfold rest_of, devices_of, without_devices.
    split; [unfold stored in Hst; rewrite Hst; exact Hrest|]. split; [done|].
    pose proof (f_equal db_devices Hst) as Hd. cbn in Hd. rewrite Hd. exact Hdev.
  - injection Hr as <-. by split_and!.
Qed.

Lemma revoke_each_ok actor ip devices : forall (s s' : RelayState),
  se_for devices (fun device => revoke (dv_id device) actor ip) s = (Ok tt, s') ->
  rs_registry s' = rs_registry s /\ rest_of s' = rest_of s
  /\ rs_channels s'
     = fold_left (pushed_revocation (rs_registry s)) (dv_id <$> devices) (rs_channels s)
  /\ revoked_in (fun d => d ∈ dv_id <$> devices) (devices_of s) (devices_of s').
Proof.
  induction devices as [|device devices IH]; intros s s'; cbn [se_for].
  { intros [= <-]. split_and!; try done. eapply revoked_in_ext; [|apply revoked_in_nothing].
    intros d. split; [done|]. by intros ?%not_elem_of_nil. }
  intros (u & s1 & Hr & Hrest)%se_bind_ok. destruct u.
  apply revoke_ok in Hr as (Hg1 & Hr1 & Hc1 & Hd1). apply IH in Hrest as (Hg2 & Hr2 & Hc2 & Hd2).
  rewrite Hg1 in *. rewrite fmap_cons. cbn [fold_left].
  split; [done|]. split; [congruence|]. split; [by rewrite Hc2, Hc1|].
  eapply revoked_in_ext; [|eapply revoked_in_trans; [exact Hd1|exact Hd2]].
  intros d. by rewrite elem_of_cons.
Qed.

(** The devices of an account are exactly the ones its rows name. *)
Definition owned (owner : string) (m : gmap string DeviceRow) (d : string) : Prop :=
  exists row, m !! d = Some row /\ dr_owner_user_id row = Some owner.

Lemma revoke_devices_of_ok user actor ip (s s' : RelayState) :
  revoke_devices_of user actor ip s = (Ok tt, s') ->
  rs_registry s' = rs_registry s /\ rest_of s' = rest_of s
  /\ revoked_in (owned (us_id user) (devices_of s)) (devices_of s) (devices_of s')
  /\ exists ids, (forall d, d ∈ ids <-> owned (us_id user) (devices_of s) d)
       /\ rs_channels s' = fold_left (pushed_revocation (rs_registry s)) ids (rs_channels s).
Proof.
  unfold revoke_devices_of. intros (devices & s1 & Hq & Hr)%se_bind_ok.
  apply query_ok in Hq as (db & Hq & ->). apply list_owned_ok in Hq as [Htab Hids].
  apply revoke_each_ok in Hr as (Hg & Hrest & Hc & Hd). cbn in *.
  assert (Hdev : db_devices db = db_devices (rs_database s)) by apply (f_equal db_devices Htab).
  split; [done|]. split; [|split].
  - rewrite Hrest. unfold rest_of, without_devices. cbn. by rewrite Htab.
  - unfold devices_of in *. cbn in Hd. rewrite Hdev in Hd. eapply revoked_in_ext; [|exact Hd]. exact Hids.
  - exists (dv_id <$> devices). split; [exact Hids|done].
Qed.

End revoking.

(** ** Lemmas: reading back *)

Lemma query_keeps_stored `{Protocol} {A} (op : DB A) :
  preserves (keeps tables) op -> preserves (keeps stored) (query op).
Proof. intros Hop. by apply preserves_map_err, database_keeps_stored. Qed.

Lemma query_same_routing `{Protocol} {A} (op : DB A) : preserves same_routing (query op).
Proof. apply preserves_map_err, database_same_routing. Qed.

Lemma readers_keep_tables :
  preserves (keeps tables) list_users
  /\ (forall owner, preserves (keeps tables) (list_devices_owned_by owner)).
Proof. unfold list_users, list_devices_owned_by, query_devices. split; intros; frame. Qed.

#[export] Hint Resolve query_same_routing : frame.
#[export] Hint Extern 1 (preserves (keeps stored) (query (find_user _))) =>
  (apply query_keeps_stored, find_user_keeps) : frame.
#[export] Hint Extern 1 (preserves (keeps stored) (query list_users)) =>
  (apply query_keeps_stored, readers_keep_tables) : frame.
#[export] Hint Extern 1 (preserves (keeps stored) (query (list_devices_owned_by _))) =>
  (apply query_keeps_stored, readers_keep_tables) : frame.

Section accounts.
Context `{!Protocol} `{!JsonCodec} `{!Argon2}.

Lemma account_envelope_reads user :
  preserves (keeps stored) (account_envelope user) /\ preserves same_routing (account_envelope user).
Proof. split; unfold account_envelope, build_context, count_devices; frame. Qed.

Lemma find_known_user_ok id (s s' : RelayState) user :
  find_known_user id s = (Ok user, s') ->
  us_id user = id /\ is_Some (db_users (rs_database s) !! id)
  /\ same_routing s s' /\ stored s' = stored s.
Proof.
  intros Hf. assert (preserves same_routing (find_known_user id)) as Hsr by (unfold find_known_user; frame).
  assert (preserves (keeps stored) (find_known_user id)) as Hks by (unfold find_known_user; frame).
  specialize (Hsr s). specialize (Hks s). rewrite Hf in Hsr, Hks. revert Hf. unfold find_known_user.
  intros (found & s1 & Hq & Hr)%se_bind_ok. apply query_ok in Hq as (db & Hq & ->).
  apply find_user_ok in Hq as [Hrow _]. injection Hr as Hr _. destruct found as [u|]; [|done].
  injection Hr as ->. destruct (db_users (rs_database s) !! id) as [row|]; [|done]. cbn in Hrow.
  destruct (read_user_row id row) as [u|] eqn:Er; [|done]. injection Hrow as ->.
  split; [|split; [by eexists|done]]. unfold read_user_row in Er. run_in Er.
  destruct (UserRole_parse _); [|done]. by injection Er as <-.
Qed.

(** What is gone once an account is closed, in the sessions and the devices. *)
Definition closed_account (id : string) (s s' : RelayState) : Prop :=
  rs_registry s' = rs_registry s
  /\ db_sessions (rs_database s')
     = filter (fun '(_, session) => ss_user_id session <> id) (db_sessions (rs_database s))
  /\ (forall d row, devices_of s !! d = Some row -> dr_owner_user_id row = Some id ->
        exists row', devices_of s' !! d = Some row' /\ is_Some (dr_revoked_at row'))
  /\ (forall d row, devices_of s !! d = Some row -> dr_owner_user_id row <> Some id ->
        devices_of s' !! d = Some row)
  /\ exists ids, (forall d, d ∈ ids <-> owned id (devices_of s) d)
       /\ rs_channels s' = fold_left (pushed_revocation (rs_registry s)) ids (rs_channels s).

Lemma owned_not (id d : string) (m : gmap string DeviceRow) row :
  m !! d = Some row -> dr_owner_user_id row <> Some id -> ~ owned id m d.
Proof. intros Hrow Hne (row' & Hrow' & Ho). congruence. Qed.

Lemma delete_account_ok admin client id (s s' : RelayState) :
  delete_account admin client id s = (Ok tt, s') ->
  id <> us_id (su_user admin) /\ closed_account id s s'
  /\ db_users (rs_database s') = delete id (db_users (rs_database s))
  /\ forall d row, devices_of s' !! d = Some row -> dr_owner_user_id row <> Some id.
Proof.
  unfold delete_account. destruct (String.eqb_spec id (us_id (su_user admin))) as [|Hne]; [done|].
  intros (user & s1 & Hf & Hr)%se_bind_ok. apply find_known_user_ok in Hf as (<- & _ & Hsr1 & Hst1).
  apply se_bind_ok in Hr as (u & s2 & Hrev & Hr). destruct u.
  apply revoke_devices_of_ok in Hrev as (Hg2 & Hrest2 & Hd2 & ids & Hids & Hc2).
  apply se_bind_ok in Hr as (u & s3 & Hq3 & Hr). apply query_ok in Hq3 as (db3 & Hq3 & ->).
  apply write_ok in Hq3 as ->.
  apply se_bind_ok in Hr as (u4 & s4 & Hq4 & Hr). apply query_ok in Hq4 as (db4 & Hq4 & ->).
  apply write_ok in Hq4 as ->.
  apply se_bind_ok in Hr as (u5 & s5 & Hq5 & Hr). apply query_ok in Hq5 as (db5 & Hq5 & ->).
  match type of Hr with audit_record ?e ?s0 = _ =>
    destruct (audit_record_run (E := ApiError) e s0) as (s6 & Ha & (Hg6 & _ & Hc6 & _) & Hst6 & _) end.
  rewrite Hr in Ha. injection Ha as <-. split; [done|].
  unfold delete_user, sql, se_map_err in Hq5.
  destruct (statement _ _) as [[[]|e] db6] eqn:E6 in Hq5; [|done]. injection Hq5 as _ <-.
  apply statement_ok in E6. destruct (_ && _) in E6; [done|]. injection E6 as <-.
  destruct Hsr1 as (Hg1 & _ & Hc1 & _).
  pose proof (f_equal db_devices Hst1) as Hdev1. pose proof (f_equal db_sessions Hst1) as Hses1.
  pose proof (f_equal db_users Hst1) as Husr1.
  pose proof (f_equal db_sessions Hrest2) as Hses2. pose proof (f_equal db_users Hrest2) as Husr2.
  pose proof (f_equal db_devices Hst6) as Hdev6. pose proof (f_equal db_sessions Hst6) as Hses6.
  pose proof (f_equal db_users Hst6) as Husr6.
  cbn in *. unfold devices_of in *. rewrite Hdev1 in *.
  assert (Hfinal : forall d, db_devices (rs_database s') !! d
    = (fun r => if owned_by (us_id user) r then without_owner r else r) <$> db_devices (rs_database s2) !! d).
  { intros d. rewrite Hdev6. apply lookup_fmap. }
  unfold closed_account, devices_of. split; [split_and!|split].
  - congruence.
  - congruence.
  - intros d row Hrow Ho. specialize (Hd2 d). rewrite Hrow in Hd2. destruct Hd2 as (row' & E' & _ & Hr' & _).
    rewrite Hfinal, E'. cbn. eexists. split; [done|].
    assert (is_Some (dr_revoked_at row')) by (apply Hr'; by exists row). by destruct (owned_by _ row').
  - intros d row Hrow Ho. specialize (Hd2 d). rewrite Hrow in Hd2. destruct Hd2 as (row' & E' & _ & _ & Hk).
    rewrite (Hk (or_intror (owned_not _ _ _ _ Hrow Ho))) in E'. rewrite Hfinal, E'. cbn.
    unfold owned_by. by rewrite bool_decide_eq_false_2.
  - exists ids. split; [exact Hids|]. congruence.
  - congruence.
  - intros d row. rewrite Hfinal. destruct (db_devices (rs_database s2) !! d) as [r|]; [|done]. cbn.
    intros [= <-]. unfold owned_by. case_bool_decide as Ho; [done|exact Ho].
Qed.

End accounts.

(** ** Lemmas: disabling an account *)

Section disabling.
Context `{!Protocol} `{!JsonCodec} `{!Argon2}.

Definition without_users (db : Database) : Database := set_users (fun _ => ∅) (tables db).

Lemma update_users_row_ok id f (db db' : Database) :
  update_users_row id f db = (Ok tt, db') ->
  without_users db' = without_users db /\ db_users db' = alter f id (db_users db).
Proof.
  unfold update_users_row. intros (n & db1 & Hu & Hret)%se_bind_ok. injection Hret as <-.
  apply update_row_ok in Hu. cbn in Hu. destruct (db_users db !! id) as [row|] eqn:E; cbn in Hu.
  - destruct Hu as [_ ->]. split; [done|]. cbn. apply map_eq. intros i.
    destruct (decide (i = id)) as [->|Hne].
    + by rewrite lookup_insert_eq, lookup_alter_eq, E.
    + by rewrite lookup_insert_ne, lookup_alter_ne.
  - destruct Hu as [_ ->]. split; [done|]. cbn. apply map_eq. intros i.
    destruct (decide (i = id)) as [->|Hne].
    + by rewrite lookup_alter_eq, E.
    + by rewrite lookup_alter_ne.
Qed.

Lemma when_some_users {A} (value : option A) id (f : A -> UserRow -> UserRow) (db db' : Database) :
  when_some value (fun a => update_users_row id (f a)) db = (Ok tt, db') ->
  without_users db' = without_users db
  /\ db_users db' = alter (fun row => default row ((fun a => f a row) <$> value)) id (db_users db).
Proof.
  destruct value as [a|]; cbn; [apply update_users_row_ok|].
  intros [= <-]. split; [done|]. apply map_eq. intros i.
  destruct (decide (i = id)) as [->|Hne]; [|by rewrite lookup_alter_ne].
  rewrite lookup_alter_eq. by destruct (db_users db !! id).
Qed.

(** The row after an update: the columns it names, in the order of its statements. *)
Definition updated_row (update : UserUpdate) (row : UserRow) : UserRow :=
  let row := default row ((fun disabled => with_disabled disabled row) <$> uu_disabled update) in
  let row := default row ((fun role => with_role role row) <$> uu_role update) in
  default row ((fun hash => with_password_hash hash row) <$> uu_password_hash update).

Lemma update_user_ok id update (db db' : Database) :
  update_user id update db = (Ok tt, db') ->
  without_users db' = without_users db /\ db_users db' = alter (updated_row update) id (db_users db).
Proof.
  unfold update_user. intros (u1 & db1 & Hs1 & Hr)%se_bind_ok. destruct u1.
  apply se_bind_ok in Hr as (u2 & db2 & Hs2 & Hr). destruct u2.
  apply se_bind_ok in Hr as (u3 & db3 & Hs3 & Hr). destruct u3. injection Hr as <-.
  apply when_some_users in Hs1 as [Hw1 Hu1]. apply when_some_users in Hs2 as [Hw2 Hu2].
  apply when_some_users in Hs3 as [Hw3 Hu3]. split; [congruence|].
  rewrite Hu3, Hu2, Hu1. apply map_eq. intros i. destruct (decide (i = id)) as [->|Hne].
  - rewrite !lookup_alter_eq. by destruct (db_users db !! id).
  - by rewrite !lookup_alter_ne.
Qed.

Lemma updated_row_disabled update row :
  uu_disabled update = Some true -> ur_disabled (updated_row update row) = 1%Z.
Proof. intros Hd. unfold updated_row. rewrite Hd. by destruct (uu_role update), (uu_password_hash update). Qed.

Lemma requested_hash_reads password :
  preserves (keeps stored) (requested_hash password) /\ preserves same_routing (requested_hash password).
Proof. split; unfold requested_hash, hash_new_password; frame. Qed.

Lemma disable_account_ok admin client id request (s s' : RelayState) view :
  ru_disabled request = Some true ->
  update_account admin client id request s = (Ok view, s') ->
  closed_account id s s'
  /\ exists row, db_users (rs_database s') !! id = Some row /\ ur_disabled row = 1%Z.
Proof.
  intros Hdis. unfold update_account. intros (user & s1 & Hf & Hr)%se_bind_ok.
  apply find_known_user_ok in Hf as (<- & [urow Hurow] & (Hg1 & _ & Hc1 & _) & Hst1).
  apply se_bind_ok in Hr as (hash & s2 & Hh & Hr).
  pose proof (requested_hash_reads (ru_password request)) as [Hks Hsr].
  specialize (Hks s1). specialize (Hsr s1). rewrite Hh in Hks, Hsr. destruct Hsr as (Hg2 & _ & Hc2 & _).
  set (update := mkUserUpdate _ _ _) in Hr. cbn [fst snd] in *.
  assert (Hud : uu_disabled update = Some true) by exact Hdis.
  destruct (UserUpdate_is_empty update); [done|].
  apply se_bind_ok in Hr as (u3 & s3 & Hq3 & Hr). destruct u3. apply query_ok in Hq3 as (db3 & Hq3 & ->).
  apply update_user_ok in Hq3 as [Hw3 Hu3].
  apply se_bind_ok in Hr as (u4 & s4 & Hq4 & Hr).
  rewrite (bool_decide_eq_true_2 (uu_disabled update = Some true) Hud) in Hq4, Hr.
  rewrite orb_true_r in Hq4.
  apply query_ok in Hq4 as (db4 & Hq4 & ->). apply write_ok in Hq4 as ->.
  apply se_bind_ok in Hr as (u5 & s5 & Hrev & Hr). destruct u5.
  apply revoke_devices_of_ok in Hrev as (Hg5 & Hrest5 & Hd5 & ids & Hids & Hc5).
  match type of Hr with ?m ?s0 = _ =>
    assert (preserves (keeps stored) m /\ preserves same_routing m) as [Hk6 Hr6] end.
  { pose proof account_envelope_reads. split; unfold find_known_user; frame; apply account_envelope_reads. }
  specialize (Hk6 s5). specialize (Hr6 s5). rewrite Hr in Hk6, Hr6. destruct Hr6 as (Hg6 & _ & Hc6 & _).
  clear Hr. unfold keeps, stored in Hk6, Hks. cbn [snd] in *. unfold stored in Hst1.
  pose proof (f_equal db_devices Hst1) as Hdev1. pose proof (f_equal db_sessions Hst1) as Hses1.
  pose proof (f_equal db_users Hst1) as Husr1.
  pose proof (f_equal db_devices Hks) as Hdev2. pose proof (f_equal db_sessions Hks) as Hses2.
  pose proof (f_equal db_users Hks) as Husr2.
  pose proof (f_equal db_devices Hw3) as Hdev3. pose proof (f_equal db_sessions Hw3) as Hses3.
  pose proof (f_equal db_sessions Hrest5) as Hses5. pose proof (f_equal db_users Hrest5) as Husr5.
  pose proof (f_equal db_devices Hk6) as Hdev6. pose proof (f_equal db_sessions Hk6) as Hses6.
  pose proof (f_equal db_users Hk6) as Husr6.
  cbn in *. unfold devices_of in *. cbn in *.
  assert (Hd0 : db_devices db3 = db_devices (rs_database s)) by congruence. rewrite Hd0 in *.
  unfold closed_account, devices_of. rewrite Hdev6. split; [split_and!|].
  - congruence.
  - congruence.
  - intros d row Hrow Ho. specialize (Hd5 d). rewrite Hrow in Hd5. destruct Hd5 as (row' & E' & _ & Hrv & _).
    exists row'. split; [done|]. apply Hrv. by exists row.
  - intros d row Hrow Ho. specialize (Hd5 d). rewrite Hrow in Hd5. destruct Hd5 as (row' & E' & _ & _ & Hk).
    by rewrite (Hk (or_intror (owned_not _ _ _ _ Hrow Ho))) in E'.
  - exists ids. split; [exact Hids|]. congruence.
  - exists (updated_row update urow). split; [|by apply updated_row_disabled].
    by rewrite Husr6, Husr5, Hu3, Husr2, Husr1, lookup_alter_eq, Hurow.
Qed.

End disabling.

(** ** Properties *)

Section theorems.
Context `{!Protocol} `{!ProtocolLaws _} `{!HttpCrate} `{!ClientCrate} `{!JsonCodec} `{!Argon2}.

(** C37: what closing an account leaves.  Deleting an account, or disabling it, ends every session of
    the account and no other; revokes every device it owns and leaves every other device as it was; and
    queues the order to close for every one of those devices that is online, on the tunnel it is routed over -
    its own, or a downstream relay's for a device behind one (C38) - as far as that tunnel's queue has room
    (C31).  A deleted account is gone and nothing is owned by
    it any more; a disabled one is marked disabled.  An administrator cannot delete the account they are
    signed in with. *)
Theorem account_closed (admin : SessionUser) (client : ClientContext) (id : string) (s s' : RelayState) :
  (delete_account admin client id s = (Ok tt, s') ->
     id <> us_id (su_user admin) /\ closed_account id s s'
     /\ db_users (rs_database s') = delete id (db_users (rs_database s))
     /\ forall d row, devices_of s' !! d = Some row -> dr_owner_user_id row <> Some id)
  /\ (forall request view,
        ru_disabled request = Some true -> update_account admin client id request s = (Ok view, s') ->
        closed_account id s s'
        /\ exists row, db_users (rs_database s') !! id = Some row /\ ur_disabled row = 1%Z).
Proof.
  split; [apply delete_account_ok|]. intros request view. apply disable_account_ok.
Qed.

(** C38: what revoking a device does, and to whom.  The device's row is marked revoked, keeping the
    moment of an earlier revocation, no other row changes, and the routing table is left to the tunnel's
    own end.  The order to close goes into the tunnel the device is routed over: for a device attached
    here that is its own tunnel, but a device that also has a row here and is currently reached through
    a downstream relay takes that whole relay's tunnel with it - and the relay at the other end reads
    the order as its own revocation, on which it forgets its upstream. *)
Theorem revocation_effect (device_id actor ip : string) (s s' : RelayState) :
  revoke device_id actor ip s = (Ok tt, s') ->
  rs_registry s' = rs_registry s /\ rest_of s' = rest_of s
  /\ revoked_in (fun d => d = device_id) (devices_of s) (devices_of s')
  /\ match route (rs_registry s) device_id with
     | None => rs_channels s' = rs_channels s
     | Some (Route_Direct handle) => rs_channels s' = revoke_tunnel handle REVOKED_REASON (rs_channels s)
     | Some (Route_Via via_link _) =>
         rs_channels s' = revoke_tunnel via_link REVOKED_REASON (rs_channels s)
         /\ forall (E : Type) (welcome : Welcome) (downstream : RelayState),
              handle_control (E := E) (ControlFrame_encode (ControlFrame_Revoked REVOKED_REASON)) welcome
                (Ok tt) downstream
              = (Ok ([], Some (SessionEnd_Revoked REVOKED_REASON)), downstream)
     end.
Proof.
  intros Hr. apply revoke_ok in Hr as (Hg & Hrest & Hc & Hd). split; [done|]. split; [done|]. split; [done|].
  rewrite Hc. unfold pushed_revocation. destruct (route (rs_registry s) device_id) as [[handle|via_link h]|];
    [done| |done]. split; [done|]. intros E welcome downstream. unfold handle_control. by rewrite frame_roundtrip.
Qed.

End theorems.

(** ** Witnesses *)

Definition sample_owned_row : DeviceRow :=
  mkDeviceRow "desktop" "desk" (Some "u1") "#s" None 1 None None None None "public".

Definition sample_account_state : RelayState :=
  sample_state (set_devices (fun _ => {[ "dev1" := sample_owned_row ]}) sample_session_database).

Definition sample_admin : SessionUser :=
  mkSessionUser (mkUserRecord "root" "root" "hash" UserRole_Admin false 1 None) "t".

Definition sample_client_context : ClientContext := mkClientContext "10.0.0.1" "https" "relay.example.com".

Lemma account_closed_witness :
  fst (delete_account sample_admin sample_client_context "u1" sample_account_state) = Ok tt
  /\ db_users (rs_database (snd (delete_account sample_admin sample_client_context "u1" sample_account_state))) = ∅.
Proof.
  split; [evaluate|].
  destruct (@account_closed sample_protocol sample_json sample_argon2 sample_admin sample_client_context "u1"
    sample_account_state (snd (delete_account sample_admin sample_client_context "u1" sample_account_state)))
    as [Hdel _].
  destruct Hdel as (_ & _ & Hu & _); [apply run_answer; evaluate|]. rewrite Hu. evaluate.
Defined.

(** The device is online, behind the downstream relay whose tunnel is channel 7. *)
Definition sample_via_state : RelayState :=
  put_channels {[ 7 := [] ]}
    (put_registry
       (snd (announce_device 3 "branch" (mkTunnelHandle "branch" 7) (mkAnnouncedDevice "dev1" "Desk" true ["relay-b"])
          (rs_registry sample_account_state))) sample_account_state).

Lemma revocation_effect_witness :
  rs_channels (snd (revoke "dev1" "root" "10.0.0.1" sample_via_state))
  = revoke_tunnel (mkTunnelHandle "branch" 7) REVOKED_REASON {[ 7 := [] ]}.
Proof.
  destruct (@revocation_effect sample_protocol sample_protocol_laws sample_json "dev1" "root" "10.0.0.1"
    sample_via_state (snd (revoke "dev1" "root" "10.0.0.1" sample_via_state))) as (_ & _ & _ & Hroute);
    [apply run_answer; evaluate|].
  assert (Hvia : route (rs_registry sample_via_state) "dev1"
                 = Some (Route_Via (mkTunnelHandle "branch" 7) ["relay-b"])) by evaluate.
  rewrite Hvia in Hroute. destruct Hroute as [Hc _]. exact Hc.
Defined.
