(* ===== verification/Console.v ===== *)
(** * [src/console.rs]: the console's static files

    Which file of the embedded bundle a path names, and the answer that carries it.  The bundle itself
    is built from [console/] and embedded by the crate [include_dir]: a class. *)

From S2P Require Import Prelude.
From S2P Require Import RustStr.
From S2P Require Import Http.

(** The embedded directory: a file under a path, with its own path and its contents. *)
Class ConsoleBundle : Type := {
  bundle_file : string -> option (string * string);
}.

Definition CONSOLE_PATH_PREFIX : string := "/console".
Definition CONSOLE_ROOT : string := "/console/".
Definition INDEX_DOCUMENT : string := "index.html".
Definition CONSOLE_MISSING : string := "控制台资源缺失，请重新构建中继。".

Definition CONTENT_TYPES : list (string * string) :=
  [("html", "text/html; charset=utf-8");
   ("js", "text/javascript; charset=utf-8");
   ("mjs", "text/javascript; charset=utf-8");
   ("css", "text/css; charset=utf-8");
   ("json", "application/json; charset=utf-8");
   ("svg", "image/svg+xml");
   ("png", "image/png");
   ("jpg", "image/jpeg");
   ("webp", "image/webp");
   ("ico", "image/x-icon");
   ("woff2", "font/woff2");
   ("txt", "text/plain; charset=utf-8")].

Definition DEFAULT_CONTENT_TYPE : string := "application/octet-stream".
Definition CACHE_CONTROL : string := "cache-control".

(** The last component of a path: [rsplit('/').next()]. *)
Definition file_name (path : string) : string := default EmptyString (last (split slash path)).

Definition extension_of (path : string) : option string :=
  '(_, extension) ← rsplit_once dot (file_name path);
  if is_empty extension then None else Some extension.

Definition console_asset_path (request_path : string) : option string :=
  rest ← strip_prefix CONSOLE_PATH_PREFIX request_path;
  let relative := trim_start_char slash rest in
  if existsb (fun segment => String.eqb segment ".." || String.eqb segment ".") (split slash relative)
  then None
  else if is_empty relative || bool_decide (extension_of relative = None) then Some INDEX_DOCUMENT
  else Some relative.

(** [Path::extension]: what follows the last dot of the file name, unless the name starts there. *)
Definition path_extension (path : string) : option string :=
  '(stem, extension) ← rsplit_once dot (file_name path);
  if is_empty stem || String.eqb (file_name path) ".." then None else Some extension.

Definition content_type (path : string) : string :=
  default DEFAULT_CONTENT_TYPE
    (extension ← path_extension path;
     snd <$> List.find (fun '(known, _) => eq_ignore_ascii_case known extension) CONTENT_TYPES).

Section console.
Context `{HttpCrate} `{ConsoleBundle}.

Definition redirect_to_console : Response := header_response FOUND LOCATION CONSOLE_ROOT Body_Empty.

Definition serve (request_path : string) : Response :=
  match console_asset_path request_path with
  | None => text_response NOT_FOUND "资源不存在。"
  | Some asset_path =>
      match
        match bundle_file asset_path with
        | Some file => Some file
        | None => bundle_file INDEX_DOCUMENT
        end
      with
      | None => text_response SERVICE_UNAVAILABLE CONSOLE_MISSING
      | Some (path, contents) =>
          mkResponse OK
            (header_insert CACHE_CONTROL "no-cache"
               (header_insert CONTENT_TYPE (content_type path) header_map_empty))
            (Body_Text contents)
      end
  end.

End console.

(** ** Lemmas *)

(** A path that climbs never names a file, however it is spelled: no segment of what the bundle is
    asked for is a dot or two. *)
Lemma asset_path_stays (request_path asset : string) :
  console_asset_path request_path = Some asset ->
  forall segment, segment ∈ split slash asset -> segment <> ".." /\ segment <> ".".
Proof.
  unfold console_asset_path. destruct (strip_prefix _ _) as [rest|]; [|done]. simpl.
  destruct (existsb _ _) eqn:He; [done|]. rewrite existsb_false_iff in He.
  destruct (_ || _); intros [= <-] segment Hin.
  - vm_compute in Hin. apply list_elem_of_singleton in Hin. by subst.
  - apply He in Hin. apply orb_false_iff in Hin as [H1 H2]. split; by apply String.eqb_neq.
Qed.

Example shell_for_routes :
  console_asset_path <$> ["/console"; "/console/"; "/console/devices"; "/console/audit/1"]
  = replicate 4 (Some INDEX_DOCUMENT).
Proof. reflexivity. Qed.

Example file_for_files :
  console_asset_path <$> ["/console/main-ABC123.js"; "/console/../relay.db"; "/d/abc/"]
  = [Some "main-ABC123.js"; None; None].
Proof. reflexivity. Qed.

Example types_fall_back :
  content_type <$> ["index.html"; "main-ABC.JS"; "noextension"; ".js"]
  = ["text/html; charset=utf-8"; "text/javascript; charset=utf-8"; DEFAULT_CONTENT_TYPE;
     DEFAULT_CONTENT_TYPE].
Proof. reflexivity. Qed.

(** A bundle with nothing but the shell. *)
#[export] Instance sample_bundle : ConsoleBundle := {|
  bundle_file path := if String.eqb path INDEX_DOCUMENT then Some (path, "<html>") else None;
|}.
