(* ===== verification/Api.v ===== *)
(** * [src/api/]: the relay page, the audit trail, the settings, and the table of endpoints

    The handlers of [relays.rs], [audit.rs] and [settings.rs], then [router] of [api/mod.rs]: which
    handler a method and a path name, and which extractors stand in front of it. *)

From stdpp Require Import sorting.
From S2P Require Import Prelude.
From S2P Require Import RustStr.
From S2P Require Import Protocol.
From S2P Require Import Handle.
From S2P Require Import Registry.
From S2P Require Import Config.
From S2P Require Import Database.
From S2P Require Import Auth.
From S2P Require Import Address.
From S2P Require Import Http.
From S2P Require Import Upstream.
From S2P Require Import State.
From S2P Require Import Access.
From S2P Require Import ApiError.
From S2P Require Import Tunnel.
From S2P Require Import UpstreamSession.
From S2P Require Import Views.
From S2P Require Import Accounts.
From S2P Require Import Enroll.
From S2P Require Import Devices.

(** ** Constants *)

Definition MAX_URL_LENGTH : nat := 256.
Definition MAX_CODE_LENGTH : nat := 128.
Definition URL_FIELD : string := "上游中继地址".
Definition CODE_FIELD : string := "接入码".
Definition DEFAULT_AUDIT_PAGE : Z := 100.

(** ** Requests and answers *)

Record DownstreamView : Type := mkDownstreamView {
  vw_device_id : string;
  vw_name : string;
  vw_online : bool;
  vw_device_count : nat;
}.

Record RelayOverview : Type := mkRelayOverview {
  ro_upstream : option UpstreamView;
  ro_downstreams : list DownstreamView;
}.

Record UpstreamRequest : Type := mkUpstreamRequest {
  rr_url : string;
  rr_code : string;
  rr_certificate_fingerprint : option string;
}.

Record AuditParameters : Type := mkAuditParameters {
  (* u32 *)
  ap_limit : option Z;
  ap_before : option Z;
  ap_target_id : option string;
}.

Record HealthResponse : Type := mkHealthResponse {
  hr_version : string;
  hr_relay_id : string;
  hr_protocol : Z;
}.

Record SettingsResponse : Type := mkSettingsResponse {
  sr_relay_id : string;
  sr_public_url : string;
  sr_version : string;
}.

Section relays.
Context `{Protocol} `{Platform} `{HttpCrate} `{!ClientCrate} `{JsonCodec} `{SettingsCodec}.

(** ** [relays.rs] *)

Definition list_relays (admin : SessionUser) : App ApiError RelayOverview :=
  se_get (fun s =>
    mkRelayOverview (view (rs_upstream s))
      (merge_sort (by_name vw_name)
         ((fun link => mkDownstreamView (dl_device_id link) (dl_name link) true (dl_device_count link))
            <$> downstream_links (rs_registry s)))).

Definition optional_fingerprint (value : option string) : result ApiError (option string) :=
  map_err bad_request
    (transpose (normalize_fingerprint <$> option_filter (fun value => negb (is_empty value)) (trim <$> value))).

Definition set_upstream (exchange : Exchange) (admin : SessionUser) (request : UpstreamRequest)
    : App ApiError UpstreamView :=
  url ← se_lift (require_text (rr_url request) URL_FIELD MAX_URL_LENGTH);
  code ← se_lift (require_text (rr_code request) CODE_FIELD MAX_CODE_LENGTH);
  fingerprint ← se_lift (optional_fingerprint (rr_certificate_fingerprint request));
  se_map_err bad_request
    (UpstreamSession.connect exchange url code fingerprint (us_id (su_user admin))).

Definition clear_upstream (admin : SessionUser) : App ApiError unit :=
  se_map_err bad_request (UpstreamSession.disconnect (us_id (su_user admin))).

(** ** [audit.rs] *)

Definition list_events (admin : SessionUser) (parameters : AuditParameters) : App ApiError (list AuditView) :=
  events ← query (list_audit
    (mkAuditQuery (Z.min (default DEFAULT_AUDIT_PAGE (ap_limit parameters)) MAX_AUDIT_PAGE)
       (ap_before parameters)
       (option_filter (fun id => negb (is_empty id)) (trim <$> ap_target_id parameters))));
  mret (AuditView_from <$> events).

(** ** [settings.rs] *)

Definition health : App ApiError HealthResponse :=
  se_get (fun s => mkHealthResponse RELAY_VERSION (rs_relay_id s) PROTOCOL_VERSION).

Definition settings (admin : SessionUser) : App ApiError SettingsResponse :=
  se_get (fun s => mkSettingsResponse (rs_relay_id s) (pu_origin (public_url s)) RELAY_VERSION).

End relays.

(** ** The endpoints *)

Inductive Endpoint : Type :=
| Endpoint_Health
| Endpoint_Enroll
| Endpoint_Login
| Endpoint_Logout
| Endpoint_Me
| Endpoint_ChangePassword
| Endpoint_ListOwn
| Endpoint_UpdateOwn (id : string)
| Endpoint_RevokeOwn (id : string)
| Endpoint_ListUsers
| Endpoint_CreateUser
| Endpoint_UpdateUser (id : string)
| Endpoint_DeleteUser (id : string)
| Endpoint_ListDevices
| Endpoint_UpdateDevice (id : string)
| Endpoint_RevokeDevice (id : string)
| Endpoint_DisconnectDevice (id : string)
| Endpoint_ListEnrollments
| Endpoint_CreateEnrollment
| Endpoint_CancelEnrollment (id : string)
| Endpoint_ListRelays
| Endpoint_SetUpstream
| Endpoint_ClearUpstream
| Endpoint_ListAudit
| Endpoint_Settings.

(** The table's answer: the endpoint, a path without a handler for the method, or no such path. *)
Inductive RouteMatch : Type :=
| RouteMatch_Found (endpoint : Endpoint)
| RouteMatch_MethodNotAllowed
| RouteMatch_NotFound.

(** The methods of one path; a handler for GET answers HEAD too. *)
Definition methods (method : Method) (get_handler post_handler patch_handler delete_handler : option Endpoint)
    : RouteMatch :=
  match
    match method with
    | Method_GET | Method_HEAD => get_handler
    | Method_POST => post_handler
    | Method_PATCH => patch_handler
    | Method_DELETE => delete_handler
    | Method_OPTIONS | Method_OTHER => None
    end
  with
  | Some endpoint => RouteMatch_Found endpoint
  | None => RouteMatch_MethodNotAllowed
  end.

Definition on_get (e : Endpoint) (method : Method) : RouteMatch := methods method (Some e) None None None.
Definition on_post (e : Endpoint) (method : Method) : RouteMatch := methods method None (Some e) None None.
Definition on_patch (e : Endpoint) (method : Method) : RouteMatch := methods method None None (Some e) None.
Definition on_delete (e : Endpoint) (method : Method) : RouteMatch := methods method None None None (Some e).

(** [{id}] matches one segment that is not empty. *)
Definition with_id (id : string) (m : RouteMatch) : RouteMatch :=
  if is_empty id then RouteMatch_NotFound else m.

(** The segments after [/api/admin/]. *)
Definition admin_route (method : Method) (segments : list string) : RouteMatch :=
  match segments with
  | ["users"] => methods method (Some Endpoint_ListUsers) (Some Endpoint_CreateUser) None None
  | ["users"; id] =>
      with_id id (methods method None None (Some (Endpoint_UpdateUser id)) (Some (Endpoint_DeleteUser id)))
  | ["devices"] => on_get Endpoint_ListDevices method
  | ["devices"; id] => with_id id (on_patch (Endpoint_UpdateDevice id) method)
  | ["devices"; id; "revoke"] => with_id id (on_post (Endpoint_RevokeDevice id) method)
  | ["devices"; id; "disconnect"] => with_id id (on_post (Endpoint_DisconnectDevice id) method)
  | ["enrollments"] => methods method (Some Endpoint_ListEnrollments) (Some Endpoint_CreateEnrollment) None None
  | ["enrollments"; id] => with_id id (on_delete (Endpoint_CancelEnrollment id) method)
  | ["relays"] => on_get Endpoint_ListRelays method
  | ["relays"; "upstream"] => methods method None (Some Endpoint_SetUpstream) None (Some Endpoint_ClearUpstream)
  | ["audit"] => on_get Endpoint_ListAudit method
  | ["settings"] => on_get Endpoint_Settings method
  | _ => RouteMatch_NotFound
  end.

(** The segments after [/api/]. *)
Definition console_route (method : Method) (segments : list string) : RouteMatch :=
  match segments with
  | ["auth"; "login"] => on_post Endpoint_Login method
  | ["auth"; "logout"] => on_post Endpoint_Logout method
  | ["me"] => on_get Endpoint_Me method
  | ["me"; "password"] => on_post Endpoint_ChangePassword method
  | ["devices"] => on_get Endpoint_ListOwn method
  | ["devices"; id] => with_id id (on_patch (Endpoint_UpdateOwn id) method)
  | ["devices"; id; "revoke"] => with_id id (on_post (Endpoint_RevokeOwn id) method)
  | "admin" :: rest => admin_route method rest
  | _ => RouteMatch_NotFound
  end.

Definition api_router `{Protocol} (method : Method) (path : string) : RouteMatch :=
  if String.eqb path HEALTH_PATH then on_get Endpoint_Health method
  else if String.eqb path ENROLL_PATH then on_post Endpoint_Enroll method
  else
    match split slash path with
    | "" :: "api" :: segments => console_route method segments
    | _ => RouteMatch_NotFound
    end.

(** ** Serving an endpoint *)

Inductive ApiAnswer : Type :=
| ApiAnswer_Health (response : HealthResponse)
| ApiAnswer_Enrolled (response : EnrollResponse)
| ApiAnswer_LoggedIn (answer : CookieAnswer UserView)
| ApiAnswer_Cookie (answer : CookieAnswer unit)
| ApiAnswer_User (user : UserView)
| ApiAnswer_Users (users : list UserView)
| ApiAnswer_Device (device : DeviceView)
| ApiAnswer_Devices (devices : list DeviceView)
| ApiAnswer_Enrollments (enrollments : list EnrollmentView)
| ApiAnswer_Issued (issued : IssuedEnrollment)
| ApiAnswer_Relays (overview : RelayOverview)
| ApiAnswer_Upstream (upstream : UpstreamView)
| ApiAnswer_Events (events : list AuditView)
| ApiAnswer_Settings (response : SettingsResponse)
| ApiAnswer_NoContent.

(** What axum and [serde] make of a request: its body as one of the request types, its query, and a
    path segment as text ([None] where it is not UTF-8 once decoded). *)
Class RequestCodec `{HttpCrate} : Type := {
  login_request : HeaderMap -> string -> result JsonRejection LoginRequest;
  password_request : HeaderMap -> string -> result JsonRejection PasswordChangeRequest;
  enroll_request : HeaderMap -> string -> result JsonRejection EnrollRequest;
  create_user_request : HeaderMap -> string -> result JsonRejection CreateUserRequest;
  update_user_request : HeaderMap -> string -> result JsonRejection UpdateUserRequest;
  device_update_request : HeaderMap -> string -> result JsonRejection DeviceUpdateRequest;
  create_enrollment_request : HeaderMap -> string -> result JsonRejection CreateEnrollmentRequest;
  upstream_request : HeaderMap -> string -> result JsonRejection UpstreamRequest;
  audit_parameters : option string -> option AuditParameters;
  path_segment : string -> option string;
}.

(** axum's own answer to a segment that does not decode; its body is not the [ApiError] shape. *)
Definition BAD_PATH : ApiError := bad_request "Invalid URL".

Section endpoints.
Context `{Protocol} `{Platform} `{HttpCrate} `{!ClientCrate} `{JsonCodec} `{SettingsCodec} `{Argon2}
  `{!RequestCodec}.

Definition path_id (id : string) : App ApiError string := se_lift (ok_or BAD_PATH (path_segment id)).

Definition api_query (query : option string) : App ApiError AuditParameters :=
  se_lift (ok_or (bad_request MALFORMED_QUERY) (audit_parameters query)).

Definition map_answer {A} (f : A -> ApiAnswer) (m : App ApiError A) : App ApiError ApiAnswer :=
  a ← m; mret (f a).

(** The extractors in the order of the handler's parameters, then the handler. *)
Definition serve_endpoint (exchange : Exchange) (headers : HeaderMap) (peer : SocketAddr)
    (query : option string) (body : string) (endpoint : Endpoint) : App ApiError ApiAnswer :=
  let client : App ApiError ClientContext := se_get (fun s => resolve s headers peer) in
  match endpoint with
  | Endpoint_Health => map_answer ApiAnswer_Health health
  | Endpoint_Enroll =>
      client ← client; request ← json_body (enroll_request headers body);
      map_answer ApiAnswer_Enrolled (enroll client request)
  | Endpoint_Login =>
      client ← client; request ← json_body (login_request headers body);
      map_answer ApiAnswer_LoggedIn (login client request)
  | Endpoint_Logout =>
      session ← session_user headers; map_answer ApiAnswer_Cookie (logout session)
  | Endpoint_Me => session ← session_user headers; map_answer ApiAnswer_User (me session)
  | Endpoint_ChangePassword =>
      client ← client; session ← session_user headers;
      request ← json_body (password_request headers body);
      map_answer ApiAnswer_Cookie (change_password client session request)
  | Endpoint_ListOwn =>
      session ← session_user headers; map_answer ApiAnswer_Devices (list_own session)
  | Endpoint_UpdateOwn id =>
      session ← session_user headers; client ← client; id ← path_id id;
      request ← json_body (device_update_request headers body);
      map_answer ApiAnswer_Device (update_own session client id request)
  | Endpoint_RevokeOwn id =>
      session ← session_user headers; client ← client; id ← path_id id;
      map_answer ApiAnswer_Device (revoke_own session client id)
  | Endpoint_ListUsers => admin ← admin_user headers; map_answer ApiAnswer_Users (list_accounts admin)
  | Endpoint_CreateUser =>
      admin ← admin_user headers; client ← client;
      request ← json_body (create_user_request headers body);
      map_answer ApiAnswer_User (create_account admin client request)
  | Endpoint_UpdateUser id =>
      admin ← admin_user headers; client ← client; id ← path_id id;
      request ← json_body (update_user_request headers body);
      map_answer ApiAnswer_User (update_account admin client id request)
  | Endpoint_DeleteUser id =>
      admin ← admin_user headers; client ← client; id ← path_id id;
      map_answer (fun _ => ApiAnswer_NoContent) (delete_account admin client id)
  | Endpoint_ListDevices => admin ← admin_user headers; map_answer ApiAnswer_Devices (list_all admin)
  | Endpoint_UpdateDevice id =>
      admin ← admin_user headers; client ← client; id ← path_id id;
      request ← json_body (device_update_request headers body);
      map_answer ApiAnswer_Device (update_any admin client id request)
  | Endpoint_RevokeDevice id =>
      admin ← admin_user headers; client ← client; id ← path_id id;
      map_answer ApiAnswer_Device (revoke_any admin client id)
  | Endpoint_DisconnectDevice id =>
      admin ← admin_user headers; client ← client; id ← path_id id;
      map_answer (fun _ => ApiAnswer_NoContent) (disconnect_any admin client id)
  | Endpoint_ListEnrollments => admin ← admin_user headers; map_answer ApiAnswer_Enrollments (list_codes admin)
  | Endpoint_CreateEnrollment =>
      admin ← admin_user headers; client ← client;
      request ← json_body (create_enrollment_request headers body);
      map_answer ApiAnswer_Issued (create_code admin client request)
  | Endpoint_CancelEnrollment id =>
      admin ← admin_user headers; client ← client; id ← path_id id;
      map_answer (fun _ => ApiAnswer_NoContent) (cancel_code admin client id)
  | Endpoint_ListRelays => admin ← admin_user headers; map_answer ApiAnswer_Relays (list_relays admin)
  | Endpoint_SetUpstream =>
      admin ← admin_user headers; request ← json_body (upstream_request headers body);
      map_answer ApiAnswer_Upstream (set_upstream exchange admin request)
  | Endpoint_ClearUpstream =>
      admin ← admin_user headers; map_answer (fun _ => ApiAnswer_NoContent) (clear_upstream admin)
  | Endpoint_ListAudit =>
      admin ← admin_user headers; parameters ← api_query query;
      map_answer ApiAnswer_Events (list_events admin parameters)
  | Endpoint_Settings => admin ← admin_user headers; map_answer ApiAnswer_Settings (settings admin)
  end.

End endpoints.

(** The status that goes with an answer: the one its handler names, or axum's for a body without one. *)
Definition answer_status (endpoint : Endpoint) (answer : ApiAnswer) : Z :=
  match answer with
  | ApiAnswer_LoggedIn answer => ca_status answer
  | ApiAnswer_Cookie answer => ca_status answer
  | ApiAnswer_Enrolled _ | ApiAnswer_Issued _ | ApiAnswer_Upstream _ => CREATED
  | ApiAnswer_User _ => match endpoint with Endpoint_CreateUser => CREATED | _ => OK end
  | ApiAnswer_NoContent => NO_CONTENT
  | _ => OK
  end.
