(* ===== verification/Server.v ===== *)
(** * [src/server.rs]: the front door

    [serve_request] is [router] with its layers, outermost first: a request on a device's own host goes
    to that device, then the CSRF marker is required, then the routing table picks a handler, and what
    the table does not claim goes through [dispatch].  Every request carries the address of its peer,
    because [serve_on] installs it. *)

From S2P Require Import Prelude.
From S2P Require Import RustStr.
From S2P Require Import Protocol.
From S2P Require Import Handle.
From S2P Require Import Registry.
From S2P Require Import Config.
From S2P Require Import Database.
From S2P Require Import Auth.
From S2P Require Import Address.
From S2P Require Import Http.
From S2P Require Import Upstream.
From S2P Require Import State.
From S2P Require Import Access.
From S2P Require Import Proxy.
From S2P Require Import ApiError.
From S2P Require Import Tunnel.
From S2P Require Import UpstreamSession.
From S2P Require Import Accounts.
From S2P Require Import Console.
From S2P Require Import Api.

Definition PAGE_NOT_FOUND : string := "页面不存在。".

(** What a request is answered with: a page (and what crossed a tunnel for it), axum's answer to a
    known path under another method, an endpoint's answer, or a tunnel that is opened or refused. *)
Inductive Served `{HttpCrate} : Type :=
| Served_Response (response : Response) (crossing : Crossing)
| Served_MethodNotAllowed
| Served_Api (endpoint : Endpoint) (answer : result ApiError ApiAnswer)
| Served_Tunnel (answer : result Response (DeviceRecord * string)).

Section server.
Context `{Protocol} `{Platform} `{HttpCrate} `{!ClientCrate} `{JsonCodec} `{SettingsCodec} `{Argon2}
  `{!RequestCodec} `{ApiJson} `{ConsoleBundle}.

(** A request as the server gets it. *)
Record Incoming : Type := mkIncoming {
  in_parts : Request;
  in_peer : SocketAddr;
}.

Definition in_method (request : Incoming) : Method := rq_method (in_parts request).

(** The world behind the handlers: the upstream's enrollment endpoint, the tunnels, and what axum's
    [WebSocketUpgrade] extractor refuses a request with. *)
Record World : Type := mkWorld {
  wo_exchange : Exchange;
  wo_network : Network;
  wo_not_a_websocket : Method -> HeaderMap -> option Response;
}.

Definition host_header (request : Request) : option string := header_str (rq_headers request) HOST.

Definition forward_to_device {E} (net : Network) (peer : option SocketAddr) (target : DeviceTarget)
    (request : Request) : App E (Response * Crossing) :=
  match peer with
  | None => mret (internal_error, None)
  | Some peer =>
      client ← se_get (fun s => resolve s (rq_headers request) peer);
      forward net client target request
  end.

(** The device whose own host the request names: the first half of [route_device_host]. *)
Definition device_host (s : RelayState) (request : Request) : option string :=
  host_header request ≫= device_from_host (rs_addressing s).

Definition subdomain_target (device_id : string) (request : Request) : DeviceTarget :=
  mkDeviceTarget device_id (trim_start_char slash (rq_path request)) DeviceEntry_Subdomain.

Definition respond {E} (m : App E (Response * Crossing)) : App E Served :=
  '(response, crossing) ← m; mret (Served_Response response crossing).

Definition root : Response := redirect_to_console.

Definition unknown_endpoint : Response := error_response (not_found UNKNOWN_ENDPOINT).

Definition dispatch {E} (net : Network) (peer : SocketAddr) (request : Request)
    : App E (Response * Crossing) :=
  let path := rq_path request in
  if starts_with path "/api/" then mret (unknown_endpoint, None)
  else
    match parse_device_path path with
    | Some (DevicePath_NeedsSlash device_id) => mret (redirect_to_directory device_id, None)
    | Some (DevicePath_Resource device_id rest) =>
        forward_to_device net (Some peer) (mkDeviceTarget device_id rest DeviceEntry_Path) request
    | None =>
        if starts_with path CONSOLE_PATH_PREFIX then mret (Console.serve path, None)
        else mret (text_response NOT_FOUND PAGE_NOT_FOUND, None)
    end.

(** A handler for GET answers HEAD too; any other method of its path is not allowed. *)
Definition get_only {E} (method : Method) (handler : App E Served) : App E Served :=
  match method with
  | Method_GET | Method_HEAD => handler
  | _ => mret Served_MethodNotAllowed
  end.

(** [GET /tunnel]: the extractors, then [upgrade]. *)
Definition serve_tunnel {E} (world : World) (request : Incoming) : App E Served :=
  match wo_not_a_websocket world (in_method request) (rq_headers (in_parts request)) with
  | Some refusal => mret (Served_Response refusal None)
  | None =>
      answer ← se_try (upgrade (rq_headers (in_parts request)) (in_peer request));
      mret (Served_Tunnel answer)
  end.

(** The routing table and its fallback. *)
Definition route_request {E} (world : World) (request : Incoming) : App E Served :=
  let path := rq_path (in_parts request) in
  match api_router (in_method request) path with
  | RouteMatch_Found endpoint =>
      answer ← se_try (serve_endpoint (wo_exchange world) (rq_headers (in_parts request)) (in_peer request)
                         (rq_query (in_parts request)) (rq_body (in_parts request)) endpoint);
      mret (Served_Api endpoint answer)
  | RouteMatch_MethodNotAllowed => mret Served_MethodNotAllowed
  | RouteMatch_NotFound =>
      if String.eqb path TUNNEL_PATH then get_only (in_method request) (serve_tunnel world request)
      else if String.eqb path "/" then get_only (in_method request) (mret (Served_Response root None))
      else respond (dispatch (wo_network world) (in_peer request) (in_parts request))
  end.

(** The inner layer. *)
Definition with_csrf_marker {E} (request : Incoming) (next : App E Served) : App E Served :=
  match require_csrf_marker (in_method request) (rq_path (in_parts request)) (rq_headers (in_parts request)) with
  | Some refusal => mret (Served_Response (error_response refusal) None)
  | None => next
  end.

(** The outer layer. *)
Definition route_device_host {E} (world : World) (request : Incoming) (next : App E Served)
    : App E Served :=
  owner ← se_get (fun s => device_host s (in_parts request));
  match owner with
  | Some device_id =>
      respond (forward_to_device (wo_network world) (Some (in_peer request))
                 (subdomain_target device_id (in_parts request)) (in_parts request))
  | None => next
  end.

Definition serve_request {E} (world : World) (request : Incoming) : App E Served :=
  route_device_host world request (with_csrf_marker request (route_request world request)).

(** The status line of an answer; an upgrade that is accepted is a 101. *)
Definition served_status (served : Served) : Z :=
  match served with
  | Served_Response response _ => rsp_status response
  | Served_MethodNotAllowed => 405
  | Served_Api endpoint (Ok answer) => answer_status endpoint answer
  | Served_Api _ (Err error) => ae_status error
  | Served_Tunnel (Ok _) => SWITCHING_PROTOCOLS
  | Served_Tunnel (Err refusal) => rsp_status refusal
  end.

(** ** Winding down *)

(** [shut_down_on] once the stop request named its signal; [None] is a signal that could not be
    listened for.  The listener is told first, then the link is dropped. *)
Definition shut_down_on {E} (signal : option string) : App E bool :=
  match signal with
  | None => mret false
  | Some _ => on_upstream stop ;; mret true
  end.

End server.
