(* ===== verification/Startup.v ===== *)
(** * Starting up: [src/bootstrap.rs], [prepare] of [src/server.rs], [link] of [src/upstream/mod.rs],
    [src/paths.rs] and the self-signed material of [src/tls.rs]

    What happens between the command line and the listener.  The start-up functions are given the
    database they opened; the files of the data directory are a small file system of their own, in
    which an operation on a path may be refused. *)

From S2P Require Import Prelude.
From S2P Require Import RustStr.
From S2P Require Import Protocol.
From S2P Require Import Handle.
From S2P Require Import Registry.
From S2P Require Import Config.
From S2P Require Import Database.
From S2P Require Import Auth.
From S2P Require Import Address.
From S2P Require Import Http.
From S2P Require Import Upstream.
From S2P Require Import State.
From S2P Require Import UpstreamSession.
From S2P Require Import Accounts.

(** ** [bootstrap.rs] *)

(** What [announce_password] prints. *)
Definition announce_password (username password : string) : list string :=
  ["────────────────────────────────────────────";
   "控制台账号：" +:+ username;
   "一次性密码：" +:+ password;
   "请立即登录 /console/ 并修改密码，这条信息只显示一次。";
   "────────────────────────────────────────────"].

Section bootstrap.
Context `{Protocol} `{Platform} `{HttpCrate} `{!ClientCrate} `{JsonCodec} `{SettingsCodec} `{Argon2}.

(** [generate_password] followed by [hash_password]: the password and its hash. *)
Definition fresh_password : App string (string * string) :=
  random ← draw;
  password ← se_lift (generate_password random);
  salt ← draw;
  hash ← se_lift (hash_password (default EmptyString (ok (salt SALT_BYTES))) password);
  mret (password, hash).

(** [.map_err(|error| format!("...{error}"))] on a database operation. *)
Definition described {A} (prefix : string) (op : DB A) : App string A :=
  se_map_err (fun error => prefix +:+ DatabaseError_to_string error) (database op).

(** The answer is what is printed. *)
Definition ensure_admin_exists : App string (list string) :=
  count ← described "无法读取用户表：" count_users;
  if (0 <? count)%Z then mret []
  else
    '(password, hash) ← fresh_password;
    random ← draw;
    now ← now_millis;
    user ← described "无法创建管理员账号："
             (create_user (random IDENTIFIER_BYTES) now DEFAULT_ADMIN_USERNAME hash UserRole_Admin);
    audit_record
      (detail "username" (Value_String DEFAULT_ADMIN_USERNAME)
         (on_target target.USER (us_id user) (by_system action.BOOTSTRAP_ADMIN))) ;;
    mret (announce_password DEFAULT_ADMIN_USERNAME password).

(** After [Database::open]. *)
Definition reset_password (args : ResetPasswordArgs) : App string (list string) :=
  found ← described "无法查询用户：" (find_user_by_username (rp_username args));
  user ← se_lift (ok_or ("用户 " +:+ rp_username args +:+ " 不存在。") found);
  '(password, hash) ← fresh_password;
  described "无法更新密码：" (update_user (us_id user) (mkUserUpdate None None (Some hash))) ;;
  se_try (database (delete_sessions_of_user (us_id user))) ;;
  audit_record
    (detail "change" (Value_String "password-reset")
       (on_target target.USER (us_id user) (by_system action.USER_UPDATED))) ;;
  mret (announce_password (us_username user) password).

(** ** [server.rs] *)

(** [generated] is [DeviceId::generate]. *)
Definition generate_relay_id (generated : result string string) : result DatabaseError string :=
  map_err DatabaseError_Random generated.

(** Everything [RelayState] holds besides the database is new at a start. *)
Definition fresh_state (args : ServeArgs) (relay_id : string) (s : RelayState) : RelayState :=
  mkRelayState (rs_database s) (Registry.new relay_id) UpstreamLink_new FailureThrottle_default relay_id
    (mkDeviceAddressing (resolved_public_url args) (sv_subdomain_base args)) (sv_trusted_proxy args)
    (TlsMode_is_secure (sv_tls args)) ∅ (rs_clock s) (rs_reads s) (rs_random s) (rs_draws s)
    (rs_credentials s).

(** After [Database::open]; the answer is what was printed and the upstream that is dialled again. *)
Definition prepare (args : ServeArgs) (generated : result string string)
    : App string (list string * option (option UpstreamSettings)) :=
  now ← now_millis;
  se_try (database (delete_expired_sessions now)) ;;
  now ← now_millis;
  relay_id ← described "无法确定中继标识："
               (read_or_initialize_setting now SETTING_RELAY_ID (generate_relay_id generated));
  now ← now_millis;
  se_try (database (write_setting now SETTING_PUBLIC_URL (pu_origin (resolved_public_url args)))) ;;
  printed ← ensure_admin_exists;
  se_modify (fresh_state args relay_id) ;;
  resumed ← resume;
  mret (printed, resumed).

(** ** [upstream::link] *)

(** After [Database::open]; the answer is what is printed. *)
Definition link_command (exchange : Exchange) (args : LinkArgs) : App string (list string) :=
  name ← se_zoom rs_database put_database (link_name (la_name args));
  fingerprint ← se_lift (transpose (normalize_fingerprint <$> la_certificate_fingerprint args));
  settings ← establish exchange (la_upstream args) (la_code args) name fingerprint None;
  mret ["已接入上游中继：" +:+ up_url settings;
        "本中继在上游显示的名称：" +:+ name;
        "下次执行 termexo-relay serve 时会自动建立这条链接。"].

End bootstrap.
