(* ===== verification/StartupTheorems.v ===== *)
(** * What a start leaves behind

    The first start of a relay makes the one administrator whose password it prints, the next start
    makes nothing; the self-signed material of the first start is the material of every later one. *)

From S2P Require Import Prelude.
From S2P Require Import RustStr.
From S2P Require Import Protocol.
From S2P Require Import Handle.
From S2P Require Import Registry.
From S2P Require Import Config.
From S2P Require Import Database.
From S2P Require Import Auth.
From S2P Require Import Address.
From S2P Require Import Http.
From S2P Require Import Upstream.
From S2P Require Import DatabaseInvariant.
From S2P Require Import State.
From S2P Require Import Access.
From S2P Require Import Tunnel.
From S2P Require Import UpstreamSession.
From S2P Require Import UpstreamTheorems.
From S2P Require Import Accounts.
From S2P Require Import Enroll.
From S2P Require Import AccountTheorems.
From S2P Require Import Devices.
From S2P Require Import DeviceTheorems.
From S2P Require Import Startup.

(** ** Lemmas: the steps of [prepare] on an engine that works *)

Section prepare.
Context `{!Protocol} `{!Platform} `{!HttpCrate} `{!ClientCrate} `{!JsonCodec} `{!SettingsCodec} `{!Argon2}
  `{!Argon2Laws _}.

Lemma described_answers {A} prefix (op : DB A) (s : RelayState) a db :
  op (rs_database s) = (Ok a, db) -> described prefix op s = (Ok a, put_database db s).
Proof. intros Ho. unfold described, se_map_err. by rewrite database_run, Ho. Qed.

(** The relay's identifier: the stored one, or else the generated one. *)
Definition identifier (db : Database) (generated : result string string) : option string :=
  match db_settings db !! SETTING_RELAY_ID with
  | Some row => Some (st_value row)
  | None => ok generated
  end.

Lemma read_or_initialize_healthy now generated relay_id db :
  db_faults db = [] -> identifier db generated = Some relay_id ->
  exists db', read_or_initialize_setting now SETTING_RELAY_ID (generate_relay_id generated) db = (Ok relay_id, db')
    /\ db_faults db' = [] /\ db_users db' = db_users db
    /\ st_value <$> db_settings db' !! SETTING_RELAY_ID = Some relay_id.
Proof.
  intros Hf Hi. unfold identifier in Hi. unfold read_or_initialize_setting, read_setting.
  erewrite se_bind_eq by by apply select_healthy.
  destruct (db_settings db !! SETTING_RELAY_ID) as [row|] eqn:E; cbn.
  - injection Hi as <-. exists db. by rewrite E.
  - destruct generated as [g|]; [|done]. injection Hi as ->. erewrite se_bind_eq by reflexivity.
    unfold write_setting. erewrite se_bind_eq by by apply write_healthy. eexists. split; [done|].
    split; [done|]. split; [done|]. cbn. by rewrite lookup_insert_eq.
Qed.

(** What a start has settled before it looks for an administrator. *)
Record settled (relay_id : string) (s s' : RelayState) : Prop := {
  se_faults : db_faults (rs_database s') = [];
  se_users : db_users (rs_database s') = db_users (rs_database s);
  se_setting : st_value <$> db_settings (rs_database s') !! SETTING_RELAY_ID = Some relay_id;
  se_random : rs_random s' = rs_random s;
}.

Lemma prepare_settles args generated relay_id (s : RelayState) :
  db_faults (rs_database s) = [] -> identifier (rs_database s) generated = Some relay_id ->
  exists s', settled relay_id s s'
    /\ prepare args generated s
       = (printed ← ensure_admin_exists;
          se_modify (fresh_state args relay_id) ;;
          resumed ← resume;
          mret (printed, resumed)) s'.
Proof.
  intros Hf Hi. unfold prepare. erewrite se_bind_eq by reflexivity. erewrite se_bind_eq by apply try_database.
  erewrite se_bind_eq by reflexivity. set (s1 := tick _ _ (put_database _ _)).
  assert (Hs1 : db_faults (rs_database s1) = [] /\ db_users (rs_database s1) = db_users (rs_database s)
    /\ db_settings (rs_database s1) = db_settings (rs_database s)).
  { unfold s1. cbn. unfold delete_expired_sessions, sql, se_map_err. by rewrite statement_healthy. }
  destruct Hs1 as (Hf1 & Hu1 & Hst1).
  destruct (read_or_initialize_healthy (rs_clock s (rs_reads (tick (S (rs_reads s)) (rs_draws s) s))) generated relay_id (rs_database s1))
    as (db2 & Hr & Hf2 & Hu2 & Hst2); [done|unfold identifier; by rewrite Hst1|].
  erewrite se_bind_eq by by apply described_answers. erewrite se_bind_eq by reflexivity.
  erewrite se_bind_eq by apply try_database. eexists. split; [|reflexivity]. cbn.
  unfold write_setting. rewrite write_healthy by done. cbn. split; cbn; [done|congruence| |done].
  by rewrite lookup_insert_ne.
Qed.

Lemma resume_keeps_database {E} : preserves (fun s s' : RelayState => db_faults (rs_database s) = [] ->
  rs_database s' = rs_database s /\ rs_relay_id s' = rs_relay_id s) (resume (E := E)).
Proof.
  intros s Hf. unfold resume. unfold mbind, se_bind, se_try, se_zoom.
  assert (Hl : snd (load (rs_database s)) = rs_database s).
  { unfold load, read_setting. unfold se_map_err at 1.
    unfold mbind, se_bind. unfold se_map_err. rewrite select_healthy by done. cbn.
    by destruct (_ <$> _). }
  destruct (load (rs_database s)) as [[[settings|]|e] db]; cbn in *; by subst.
Qed.

Lemma ensure_admin_again (s : RelayState) :
  db_faults (rs_database s) = [] -> db_users (rs_database s) <> ∅ -> ensure_admin_exists s = (Ok [], s).
Proof.
  intros Hf Hu. unfold ensure_admin_exists.
  erewrite se_bind_eq by by apply described_answers, select_healthy.
  assert (0 < Z.of_nat (size (db_users (rs_database s))))%Z as Hlt.
  { destruct (decide (size (db_users (rs_database s)) = 0)) as [He|]; [|lia].
    by apply map_size_empty_inv in He. }
  apply Z.ltb_lt in Hlt. rewrite Hlt. by destruct s.
Qed.

(** An account that can sign in to the console as an administrator with a password. *)
Definition administrator (id : string) (row : UserRow) (name password : string) : Prop :=
  exists user, read_user_row id row = Ok user /\ us_username user = name /\ us_role user = UserRole_Admin
    /\ us_disabled user = false /\ verify_password password (us_password_hash user) = true.

Lemma create_first_user id random now name hash role db :
  random = Ok id -> db_faults db = [] -> db_users db = ∅ ->
  create_user random now name hash role db
  = (Ok (mkUserRecord id name hash role false now None),
     set_users (<[id := mkUserRow name hash (UserRole_as_str role) 0 now None]>) db).
Proof.
  intros -> Hf Hu. unfold create_user. erewrite se_bind_eq by reflexivity.
  unfold insert_user, se_map_err, mbind, se_bind. rewrite statement_healthy by done. cbn.
  unfold username_in_use. by rewrite Hu.
Qed.

Lemma ensure_admin_first (s : RelayState) :
  db_faults (rs_database s) = [] -> db_users (rs_database s) = ∅ ->
  (forall n count, exists drawn, rs_random s n count = Ok drawn) ->
  (forall password salt, exists hash, argon2_hash_password password salt = Ok hash) ->
  exists id row password s', ensure_admin_exists s = (Ok (announce_password DEFAULT_ADMIN_USERNAME password), s')
    /\ db_users (rs_database s') = {[ id := row ]} /\ administrator id row DEFAULT_ADMIN_USERNAME password
    /\ db_faults (rs_database s') = [] /\ db_settings (rs_database s') = db_settings (rs_database s).
Proof.
  intros Hf Hu Hr Hh. unfold ensure_admin_exists.
  erewrite se_bind_eq by by apply described_answers, select_healthy.
  rewrite Hu, map_size_empty. change (0 <? Z.of_nat 0)%Z with false. cbv iota.
  destruct (Hr (rs_draws s) GENERATED_PASSWORD_LENGTH) as [bytes Hbytes].
  set (password := str_map unambiguous_char bytes).
  destruct (Hr (S (rs_draws s)) SALT_BYTES) as [salt Hsalt]. destruct (Hh password salt) as [hash Hhash].
  destruct (Hr (S (S (rs_draws s))) IDENTIFIER_BYTES) as [id Hid].
  set (s1 := put_database (rs_database s) s).
  erewrite se_bind_eq.
  2:{ unfold fresh_password. erewrite se_bind_eq by reflexivity. erewrite se_bind_eq.
      2:{ unfold se_lift, generate_password, random_unambiguous. cbn. by rewrite Hbytes. }
      erewrite se_bind_eq by reflexivity. erewrite se_bind_eq; [reflexivity|].
      unfold se_lift, hash_password. cbn. rewrite Hsalt. cbn. fold password. by rewrite Hhash. }
  cbv beta iota. do 2 erewrite se_bind_eq by reflexivity.
  set (row := mkUserRow DEFAULT_ADMIN_USERNAME hash ADMIN_ROLE 0 (rs_clock s (rs_reads s)) None).
  erewrite se_bind_eq.
  2:{ apply described_answers. apply (create_first_user id); [exact Hid|exact Hf|exact Hu]. }
  set (s3 := put_database (set_users _ _) _).
  match goal with |- context [audit_record ?entry] =>
    destruct (audit_record_run (E := string) entry s3) as (s4 & Ha & _ & Hst & _);
    pose proof (audit_record_healthy (E := string) entry s3 Hf) as Hf4 end.
  erewrite se_bind_eq by exact Ha. rewrite Ha in Hf4. exists id, row, password, s4. split; [reflexivity|].
  pose proof (f_equal db_users Hst) as Hu4. pose proof (f_equal db_settings Hst) as Hs4. cbn in Hu4, Hs4.
  split; [rewrite Hu4; cbn; by rewrite Hu|]. split; [|by split].
  eexists. split; [reflexivity|]. split_and!; [done..|]. cbn. unfold verify_password.
  by rewrite (argon2_verify_own _ _ _ Hhash).
Qed.

(** The rest of [prepare], once the administrator is settled. *)
Lemma prepare_finishes args relay_id printed (s s1 : RelayState) :
  ensure_admin_exists s = (Ok printed, s1) -> db_faults (rs_database s1) = [] ->
  exists resumed s', (printed ← ensure_admin_exists;
      se_modify (fresh_state args relay_id) ;;
      resumed ← resume;
      mret (printed, resumed)) s = (Ok (printed, resumed), s')
    /\ rs_database s' = rs_database s1 /\ rs_relay_id s' = relay_id.
Proof.
  intros He Hf. erewrite se_bind_eq by exact He. erewrite se_bind_eq by reflexivity.
  pose proof (resume_keeps_database (E := string) (fresh_state args relay_id s1) Hf) as [Hd Hi].
  destruct (resume (E := string) (fresh_state args relay_id s1)) as [[resumed|e] s'] eqn:Er.
  - erewrite se_bind_eq by exact Er. by exists resumed, s'.
  - unfold resume, mbind, se_bind, se_try in Er. destruct (se_zoom _ _ _ _) as [[[settings|]|e0] s0] in Er; done.
Qed.

(** C40: the first start makes an administrator and the next ones do not.  On a working database without
    accounts, with a random source and a hasher that answer, [prepare] succeeds, creates exactly one account - an administrator under the default name
    that the printed password signs in - and settles the relay's identifier; every later start on what it
    left, whatever its arguments, succeeds, prints nothing, leaves the accounts alone and keeps the
    identifier. *)
Theorem first_start (args : ServeArgs) (generated : result string string) (relay_id : string) (s : RelayState) :
  db_faults (rs_database s) = [] -> db_users (rs_database s) = ∅ ->
  (forall n count, exists drawn, rs_random s n count = Ok drawn) ->
  (forall password salt, exists hash, argon2_hash_password password salt = Ok hash) ->
  identifier (rs_database s) generated = Some relay_id ->
  exists id row password resumed s1,
    prepare args generated s = (Ok (announce_password DEFAULT_ADMIN_USERNAME password, resumed), s1)
    /\ db_users (rs_database s1) = {[ id := row ]} /\ administrator id row DEFAULT_ADMIN_USERNAME password
    /\ rs_relay_id s1 = relay_id
    /\ forall args' generated', exists resumed' s2,
         prepare args' generated' s1 = (Ok ([], resumed'), s2)
         /\ db_users (rs_database s2) = db_users (rs_database s1) /\ rs_relay_id s2 = relay_id.
Proof.
  intros Hf Hu Hr Hh Hi. destruct (prepare_settles args generated relay_id s Hf Hi) as (s0 & [Hf0 Hu0 Hset0 Hr0] & Hp).
  destruct (ensure_admin_first s0) as (id & row & password & sa & Ha & Hua & Hadmin & Hfa & Hsa);
    [done|congruence|by rewrite Hr0|done|].
  destruct (prepare_finishes args relay_id _ _ _ Ha Hfa) as (resumed & s1 & Hrun & Hd1 & Hi1).
  exists id, row, password, resumed, s1. rewrite Hp, Hd1. split_and!; [done..|]. intros args' generated'.
  destruct (prepare_settles args' generated' relay_id s1) as (sb & [Hfb Hub Hsetb _] & Hpb); [congruence| |].
  { unfold identifier. rewrite Hd1, Hsa. destruct (db_settings (rs_database s0) !! SETTING_RELAY_ID); [|done].
    cbn in Hset0. congruence. }
  assert (Hb : ensure_admin_exists sb = (Ok [], sb)).
  { apply ensure_admin_again; [done|]. rewrite Hub, Hd1, Hua. apply map_non_empty_singleton. }
  destruct (prepare_finishes args' relay_id _ _ _ Hb Hfb) as (resumed' & s2 & Hrun2 & Hd2 & Hi2).
  exists resumed', s2. rewrite Hpb. split; [done|]. split; [|done]. by rewrite Hd2, Hub, Hd1.
Qed.

End prepare.

(** ** Witnesses *)

Definition sample_serve_args : ServeArgs :=
  mkServeArgs "data" (mkSocketAddr "0.0.0.0" 8443)
    (Some (mkPublicUrl "https://relay.example.com" "relay.example.com" true)) TlsMode_SelfSigned None [].

Definition sample_first_state : RelayState := sample_state empty_database.

Lemma first_start_witness :
  exists id row password resumed s1,
    prepare sample_serve_args (Ok "relay-a") sample_first_state
    = (Ok (announce_password "admin" password, resumed), s1)
    /\ db_users (rs_database s1) = {[ id := row ]} /\ administrator id row "admin" password
    /\ exists resumed' s2, prepare sample_serve_args (Ok "relay-b") s1 = (Ok ([], resumed'), s2)
                           /\ rs_relay_id s2 = "relay-a".
Proof.
  destruct (@first_start sample_protocol sample_json
    sample_settings_codec sample_argon2 sample_argon2_laws sample_serve_args (Ok "relay-a") "relay-a" sample_first_state)
    as (id & row & password & resumed & s1 & Hrun & Hu & Ha & _ & Hagain);
    [reflexivity|reflexivity|by eexists|by eexists|reflexivity|].
  destruct (Hagain sample_serve_args (Ok "relay-b")) as (resumed' & s2 & Hrun' & _ & Hid).
  exists id, row, password, resumed, s1. split; [exact Hrun|]. split; [exact Hu|]. split; [exact Ha|].
  exists resumed', s2. by split.
Defined.
