(* ===== verification/PasswordTheorems.v ===== *)
(** * Passwords: changing one's own and the operator's reset

    Whoever knew the old password may hold a session; both operations end every session of the account. *)

From S2P Require Import Prelude.
From S2P Require Import RustStr.
From S2P Require Import Protocol.
From S2P Require Import Handle.
From S2P Require Import Registry.
From S2P Require Import Config.
From S2P Require Import Database.
From S2P Require Import Auth.
From S2P Require Import Address.
From S2P Require Import Http.
From S2P Require Import Upstream.
From S2P Require Import DatabaseInvariant.
From S2P Require Import State.
From S2P Require Import Access.
From S2P Require Import ApiError.
From S2P Require Import Tunnel.
From S2P Require Import UpstreamSession.
From S2P Require Import UpstreamTheorems.
From S2P Require Import Accounts.
From S2P Require Import Enroll.
From S2P Require Import AccountTheorems.
From S2P Require Import Devices.
From S2P Require Import DeviceTheorems.
From S2P Require Import Startup.
From S2P Require Import StartupTheorems.

Section passwords.
Context `{!Protocol} `{!Platform} `{!HttpCrate} `{!ClientCrate} `{!JsonCodec} `{!SettingsCodec} `{!Argon2}
  `{!Argon2Laws _}.

(** ** The password reset *)

Lemma fresh_password_answers (s : RelayState) :
  (forall n count, exists drawn, rs_random s n count = Ok drawn) ->
  (forall password salt, exists hash, argon2_hash_password password salt = Ok hash) ->
  exists password hash s', fresh_password s = (Ok (password, hash), s')
    /\ verify_password password hash = true /\ rs_database s' = rs_database s /\ same_routing s s'.
Proof.
  intros Hr Hh. destruct (Hr (rs_draws s) GENERATED_PASSWORD_LENGTH) as [bytes Hbytes].
  destruct (Hr (S (rs_draws s)) SALT_BYTES) as [salt Hsalt].
  destruct (Hh (str_map unambiguous_char bytes) salt) as [hash Hhash].
  do 3 eexists. split; [|split; [|split]].
  - unfold fresh_password. erewrite se_bind_eq by reflexivity. erewrite se_bind_eq.
    2:{ unfold se_lift, generate_password, random_unambiguous. cbn. by rewrite Hbytes. }
    erewrite se_bind_eq by reflexivity. erewrite se_bind_eq; [reflexivity|].
    unfold se_lift, hash_password. cbn. rewrite Hsalt. cbn. by rewrite Hhash.
  - unfold verify_password. by rewrite (argon2_verify_own _ _ _ Hhash).
  - done.
  - done.
Qed.

Lemma find_described_answers prefix name (s : RelayState) :
  sane s -> exists found, described prefix (find_user_by_username name) s = (Ok found, s)
    /\ forall user, found = Some user <->
         exists id row, db_users (rs_database s) !! id = Some row /\ ur_username row = name
                        /\ read_user_row id row = Ok user.
Proof.
  intros [Hwf Hf]. destruct (find_user_by_username_answers name _ Hwf Hf) as (found & Hq & Hfound).
  exists found. rewrite (described_answers _ _ _ _ _ Hq), put_same_database. by split.
Qed.

Lemma read_new_hash id row user hash :
  read_user_row id row = Ok user ->
  read_user_row id (with_password_hash hash row)
  = Ok (mkUserRecord (us_id user) (us_username user) hash (us_role user) (us_disabled user)
          (us_created_at user) (us_last_login_at user)).
Proof.
  unfold read_user_row. cbn. destruct (UserRole_parse (ur_role row)) as [role|e]; [|done]. by intros [= <-].
Qed.

(** C24: what a password reset does.  On a working database, with a random source and a hasher that answer, for a name that is taken: the printed password
    opens the account (unless it is disabled), every session of the account is gone and no other, and no
    other account, no device, code or setting changed.  For a name that is not: one sentence, and nothing
    is stored. *)
Theorem reset_password_effect (args : ResetPasswordArgs) (s : RelayState) :
  sane s ->
  (forall n count, exists drawn, rs_random s n count = Ok drawn) ->
  (forall password salt, exists hash, argon2_hash_password password salt = Ok hash) ->
  let db := rs_database s in
  let named := fun user => exists id row, db_users db !! id = Some row /\ ur_username row = rp_username args
                                          /\ read_user_row id row = Ok user in
  let '(answer, s') := reset_password args s in
  let db' := rs_database s' in
  ((forall user, ~ named user) ->
     answer = Err ("用户 " +:+ rp_username args +:+ " 不存在。") /\ db' = db)
  /\ (forall user, named user ->
        exists password, answer = Ok (announce_password (us_username user) password)
          /\ (us_disabled user = false -> exists user', opens db' (rp_username args) password user'
                /\ us_id user' = us_id user /\ us_role user' = us_role user)
          /\ db_sessions db' = filter (fun '(_, session) => ss_user_id session <> us_id user) (db_sessions db)
          /\ (forall other, other <> us_id user -> db_users db' !! other = db_users db !! other)
          /\ db_devices db' = db_devices db /\ db_enrollments db' = db_enrollments db
          /\ db_settings db' = db_settings db).
Proof.
  intros Hs Hr Hh db named. destruct (reset_password args s) as [answer s'] eqn:Erun. unfold reset_password in Erun.
  destruct (find_described_answers "无法查询用户：" (rp_username args) s Hs) as (found & Hq & Hfound).
  rewrite (se_bind_eq _ _ _ _ _ Hq) in Erun. destruct found as [u|].
  2:{ split.
      - intros _. erewrite se_bind_err in Erun by reflexivity. by injection Erun as <- <-.
      - intros user Hn. by apply Hfound in Hn. }
  split; [intros Hno; by destruct (Hno u); apply Hfound|]. intros user Hn.
  assert (Some u = Some user) as [= ->] by by apply Hfound.
  destruct Hn as (id & row & Hrow & Hname & Hread).
  erewrite se_bind_eq in Erun by reflexivity.
  destruct (fresh_password_answers s Hr Hh) as (password & hash & s1 & Hp & Hv & Hd1 & _).
  rewrite (se_bind_eq _ _ _ _ _ Hp) in Erun. destruct Hs as [Hwf Hf].
  destruct (sound_answers (update_user (us_id user) (mkUserUpdate None None (Some hash))) db) as
    ([] & db2 & Hu & Hwf2 & Hf2); [apply update_user_sound|done..|].
  erewrite se_bind_eq in Erun by (apply described_answers; rewrite Hd1; exact Hu).
  destruct (sound_answers (delete_sessions_of_user (us_id user)) db2) as ([] & db3 & Hds & _ & _);
    [apply delete_sessions_of_user_sound|done..|].
  erewrite se_bind_eq in Erun by (unfold se_try; rewrite database_run; cbn; rewrite Hds; reflexivity).
  match type of Erun with (audit_record ?entry ;; _) ?t = _ =>
    destruct (audit_record_run (E := string) entry t) as (s4 & Ha & _ & Hst & _) end.
  rewrite (se_bind_eq _ _ _ _ _ Ha) in Erun. injection Erun as <- <-. exists password. split; [done|].
  apply update_user_ok in Hu as [Hw Hus]. apply write_ok in Hds. rewrite next_statement_healthy in Hds by done.
  pose proof (f_equal db_users Hst) as Hu4. pose proof (f_equal db_sessions Hst) as Hs4.
  pose proof (f_equal db_devices Hst) as Hd4. pose proof (f_equal db_enrollments Hst) as He4.
  pose proof (f_equal db_settings Hst) as Hset4. cbn in Hu4, Hs4, Hd4, He4, Hset4. subst db3.
  pose proof (f_equal db_sessions Hw) as Hs2. pose proof (f_equal db_devices Hw) as Hd2.
  pose proof (f_equal db_enrollments Hw) as He2. pose proof (f_equal db_settings Hw) as Hset2.
  cbn in Hs2, Hd2, He2, Hset2. rewrite Hu4, Hs4, Hd4, He4, Hset4. cbn.
  assert (Hid : us_id user = id) by by eapply read_user_row_id. subst id.
  split; [|split; [by rewrite Hs2|split; [intros other Hne; by rewrite Hus, lookup_alter_ne|done]]].
  intros Hdis. eexists (mkUserRecord (us_id user) (us_username user) hash (us_role user) _ _ _). split; [|done].
  exists (us_id user), (with_password_hash hash row). rewrite Hu4. cbn.
  rewrite Hus, lookup_alter_eq, Hrow. split; [done|]. split; [exact Hname|].
  split; [by apply read_new_hash|]. by split.
Qed.

(** ** Changing one's own password *)

Lemma hash_new_password_ok password (s s' : RelayState) hash :
  hash_new_password password s = (Ok hash, s') ->
  verify_password password hash = true /\ rs_database s' = rs_database s /\ same_routing s s'.
Proof.
  unfold hash_new_password. erewrite se_bind_eq by reflexivity. unfold se_lift, hash_password. intros [= Hh <-].
  destruct (argon2_hash_password _ _) as [h|e] eqn:E; [|done]. injection Hh as <-.
  unfold verify_password. by rewrite (argon2_verify_own _ _ _ E).
Qed.

Lemma create_session_ok random now user_id ip token (db db' : Database) :
  create_session random now user_id ip db = (Ok token, db') ->
  db' = set_sessions (<[hash_secret token :=
          mkSessionRecord (hash_secret token) user_id now (now + SESSION_LIFETIME_MS)%Z ip]>) (next_statement db).
Proof.
  unfold create_session. intros (t & db1 & Ht & Hrun)%se_bind_ok. unfold se_lift in Ht. injection Ht as _ <-.
  apply se_bind_ok in Hrun as ([] & db2 & Hc%map_err_ok & Hrun). injection Hrun as -> <-.
  apply statement_ok in Hc. destruct (db_sessions _ !! _) in Hc; [done|]. by injection Hc as <-.
Qed.

(** What changing one's password does.  Without the current password the answer is one sentence and
    nothing is stored.  A success was given the current password and one that is long enough; the account's
    hash is one the new password verifies, no session of the account is left but a new one whose token the
    cookie carries, and no other account, session, device or code changed. *)
Theorem change_password_effect (client : ClientContext) (session : SessionUser)
    (request : PasswordChangeRequest) (s : RelayState) :
  let user := su_user session in
  let knows := verify_password (pc_current_password request) (us_password_hash user) in
  let '(answer, s') := change_password client session request s in
  let db := rs_database s in
  let db' := rs_database s' in
  (knows = false -> answer = Err (unauthorized WRONG_CURRENT_PASSWORD) /\ db' = db)
  /\ (forall cookie, answer = Ok cookie ->
        knows = true /\ MIN_PASSWORD_LENGTH <= chars_count (pc_new_password request)
        /\ exists token hash now,
             cookie = with_session_cookie NO_CONTENT (session_cookie token (is_public_secure s)) tt
             /\ verify_password (pc_new_password request) hash = true
             /\ db_users db' = alter (with_password_hash hash) (us_id user) (db_users db)
             /\ db_sessions db'
                = <[hash_secret token := mkSessionRecord (hash_secret token) (us_id user) now
                      (now + SESSION_LIFETIME_MS)%Z (Some (cc_ip client))]>
                    (filter (fun '(_, row) => ss_user_id row <> us_id user) (db_sessions db))
             /\ db_devices db' = db_devices db /\ db_enrollments db' = db_enrollments db).
Proof.
  intros user knows. destruct (change_password client session request s) as [answer s'] eqn:Erun.
  unfold change_password in Erun. fold user knows in Erun. destruct knows; cbn [negb] in Erun.
  2:{ injection Erun as <- <-. by split. }
  split; [done|]. intros cookie ->. split; [done|].
  apply se_bind_ok in Erun as (password & s1 & Hval & Hrun). unfold se_lift in Hval. injection Hval as Hval <-.
  assert (Hnew : password = pc_new_password request /\ MIN_PASSWORD_LENGTH <= chars_count (pc_new_password request)).
  { unfold validated_password in Hval. destruct (_ <? _) eqn:El; [done|]. injection Hval as <-. split; [done|].
    apply Nat.ltb_ge in El. exact El. }
  destruct Hnew as [Hp Hlong]. subst password. split; [done|].
  apply se_bind_ok in Hrun as (hash & s2 & (Hv & Hd2 & (_ & _ & _ & _ & Ha2))%hash_new_password_ok & Hrun).
  apply se_bind_ok in Hrun as ([] & s3 & (db3 & Hu & ->)%query_ok & Hrun). apply update_user_ok in Hu as [Hw Hus].
  apply se_bind_ok in Hrun as ([] & s4 & (db4 & Hds & ->)%query_ok & Hrun). apply write_ok in Hds.
  do 2 erewrite se_bind_eq in Hrun by reflexivity.
  apply se_bind_ok in Hrun as (token & s5 & (db5 & Hc & ->)%query_ok & Hrun). apply create_session_ok in Hc.
  match type of Hrun with (audit_record ?entry ;; _) ?t = _ =>
    destruct (audit_record_run (E := ApiError) entry t) as (s6 & Ha & (_ & _ & _ & _ & Ha6) & Hst & _) end.
  rewrite (se_bind_eq _ _ _ _ _ Ha) in Hrun. erewrite se_bind_eq in Hrun by reflexivity.
  injection Hrun as <- <-.
  assert (Hsec : is_public_secure s6 = is_public_secure s)
    by (unfold is_public_secure, public_url; rewrite Ha6; cbn; by rewrite Ha2).
  rewrite Hsec. do 3 eexists. split; [done|]. split; [exact Hv|].
  pose proof (f_equal db_users Hst) as Hu6. pose proof (f_equal db_sessions Hst) as Hs6.
  pose proof (f_equal db_devices Hst) as Hd6. pose proof (f_equal db_enrollments Hst) as He6.
  cbn in Hu6, Hs6, Hd6, He6. subst db5 db4.
  pose proof (f_equal db_sessions Hw) as Hs3. pose proof (f_equal db_devices Hw) as Hd3.
  pose proof (f_equal db_enrollments Hw) as He3. cbn in Hs3, Hd3, He3.
  rewrite Hu6, Hs6, Hd6, He6. cbn. rewrite Hus, Hs3, Hd3, He3, Hd2. by repeat split.
Qed.

End passwords.

(** ** Witnesses *)

Lemma reset_password_witness :
  exists password, fst (reset_password (mkResetPasswordArgs "data" "ada") sample_login_state)
    = Ok (announce_password "ada" password).
Proof.
  pose proof (@reset_password_effect sample_protocol sample_json sample_settings_codec sample_argon2
    sample_argon2_laws (mkResetPasswordArgs "data" "ada") sample_login_state (conj sample_login_wf eq_refl)
    (fun n count => ex_intro _ _ eq_refl) (fun password salt => ex_intro _ _ eq_refl)) as Hr.
  cbv zeta in Hr. destruct (reset_password _ _) as [answer s'].
  destruct (proj2 Hr (mkUserRecord "u1" "ada" "salt$secret" UserRole_User false 1 None))
    as (password & -> & _).
  - exists "u1", (mkUserRow "ada" "salt$secret" "user" 0 1 None). repeat split; reflexivity.
  - exists password. reflexivity.
Defined.

Definition sample_session : SessionUser :=
  mkSessionUser (mkUserRecord "u1" "ada" "salt$secret" UserRole_User false 1 None) "cookie-token".

Definition sample_change : PasswordChangeRequest := mkPasswordChangeRequest "secret" "a much longer secret".

Lemma change_password_witness :
  is_ok (fst (change_password sample_login_client sample_session sample_change sample_login_state)) = true
  /\ exists token row, db_sessions (rs_database (snd (change_password sample_login_client sample_session
       sample_change sample_login_state))) !! hash_secret token = Some row /\ ss_user_id row = "u1".
Proof.
  pose proof (change_password_effect sample_login_client sample_session sample_change sample_login_state) as Hc.
  cbv zeta in Hc.
  assert (is_ok (fst (change_password sample_login_client sample_session sample_change sample_login_state)) = true)
    as Hok by reflexivity.
  split; [exact Hok|]. destruct (change_password _ _ _ _) as [answer s']. destruct answer as [cookie|]; [|done].
  destruct (proj2 Hc cookie eq_refl) as (_ & _ & token & hash & now & _ & _ & _ & Hs & _).
  exists token. eexists. cbn. rewrite Hs. split; [apply lookup_insert_eq|reflexivity].
Defined.
