(* ===== verification/Main.v ===== *)
(** * The executable: [src/main.rs], [serve] of [src/server.rs] and [Database::open] of [src/db/mod.rs]

    A [Machine] is what a start finds: the files, what each database file holds, the relay's environment
    and what was written to the terminal.  [start] is [serve] up to the bound listener. *)

From S2P Require Import Prelude.
From S2P Require Import RustStr.
From S2P Require Import Protocol.
From S2P Require Import Registry.
From S2P Require Import Config.
From S2P Require Import Database.
From S2P Require Import Schema.
From S2P Require Import Auth.
From S2P Require Import Address.
From S2P Require Import Http.
From S2P Require Import Upstream.
From S2P Require Import Paths.
From S2P Require Import Tls.
From S2P Require Import State.
From S2P Require Import UpstreamSession.
From S2P Require Import Accounts.
From S2P Require Import Server.
From S2P Require Import Startup.

(** ** The command line ([config.rs]) *)

Inductive AdminCommand : Type :=
| AdminCommand_ResetPassword (args : ResetPasswordArgs).

Inductive Command : Type :=
| Command_Serve (args : ServeArgs)
| Command_Link (args : LinkArgs)
| Command_Admin (command : AdminCommand).

Record Cli : Type := mkCli {
  cl_command : Command;
}.

Inductive ExitCode : Type :=
| ExitCode_SUCCESS
| ExitCode_FAILURE.

(** ** The machine *)

Section program.
Context `{Protocol}.

Record Machine : Type := mkMachine {
  ma_files : FileSystem;
  (* what the database file at a path holds *)
  ma_stores : string -> Store;
  ma_relay : RelayState;
  ma_stdout : list string;
  ma_stderr : list string;
}.

(** What the operating system and the crates answer during one run of the program. *)
Record Outside : Type := mkOutside {
  (* [std::path::absolute] *)
  ou_absolute : string -> result string string;
  (* [DeviceId::generate] *)
  ou_generated : result string string;
  (* [TcpListener::bind] and [set_nonblocking] *)
  ou_bind : SocketAddr -> result string unit;
  ou_set_nonblocking : result string unit;
  (* [axum_server::from_tcp] and [from_tcp_rustls] *)
  ou_from_tcp : result string unit;
  (* what the requests and tunnels did to the state while it served, and how serving ended *)
  ou_life : RelayState -> RelayState;
  ou_served : result string unit;
  (* registering [SIGTERM] and [SIGINT], and whether the first of them comes first *)
  ou_terminate : result string unit;
  ou_interrupt : result string unit;
  ou_terminated : bool;
}.

Definition set_ma_files (fs : FileSystem) (m : Machine) : Machine :=
  mkMachine fs (ma_stores m) (ma_relay m) (ma_stdout m) (ma_stderr m).
Definition set_ma_store (path : string) (store : Store) (m : Machine) : Machine :=
  mkMachine (ma_files m) (fun other => if String.eqb other path then store else ma_stores m other) (ma_relay m)
    (ma_stdout m) (ma_stderr m).
Definition set_ma_relay (s : RelayState) (m : Machine) : Machine :=
  mkMachine (ma_files m) (ma_stores m) s (ma_stdout m) (ma_stderr m).

Definition on_files {E A} (m : SE FileSystem E A) : SE Machine E A := se_zoom ma_files set_ma_files m.
Definition on_store {E A} (path : string) (m : SE Store E A) : SE Machine E A :=
  se_zoom (fun machine => ma_stores machine path) (set_ma_store path) m.
Definition on_relay {E A} (m : SE RelayState E A) : SE Machine E A := se_zoom ma_relay set_ma_relay m.

(** [println!] and [eprintln!]. *)
Definition print {E} (lines : list string) : SE Machine E unit :=
  se_modify (fun m => mkMachine (ma_files m) (ma_stores m) (ma_relay m) (ma_stdout m ++ lines) (ma_stderr m)).
Definition eprint {E} (line : string) : SE Machine E unit :=
  se_modify (fun m => mkMachine (ma_files m) (ma_stores m) (ma_relay m) (ma_stdout m) (ma_stderr m ++ [line])).

(** ** [Database::open] *)

(** The connection serves the typed tables of its file; a store without them holds a value no statement of
    the program writes, and every read of it is an error of the engine. *)
Definition Database_open (data_directory : string) : SE Machine DatabaseError unit :=
  let file := path_join data_directory DATABASE_FILE in
  se_map_err (fun _ => DatabaseError_Sqlite SqliteError_Other) (on_files (open_or_create file)) ;;
  se_map_err (fun _ => DatabaseError_Sqlite SqliteError_Other) (on_files (restrict_to_owner file)) ;;
  on_store file open_connection ;;
  store ← se_get (fun m => ma_stores m file);
  database ← se_lift (ok_or (DatabaseError_Sqlite SqliteError_Other) (database_of store));
  on_relay (se_modify (put_database database)).

(** ** [server.rs] *)

Section serving.
Context `{Platform} `{HttpCrate} `{!ClientCrate} `{JsonCodec} `{SettingsCodec} `{Argon2} `{TlsCrates}.

Definition bind (outside : Outside) (address : SocketAddr) : result string unit :=
  map_err (fun error => "无法监听 " +:+ socket_addr_to_string address +:+ "：" +:+ error)
    (ou_bind outside address) ≫= fun _ =>
  map_err (fun error => "无法配置监听套接字：" +:+ error) (ou_set_nonblocking outside).

Definition opened (data_directory : string) : SE Machine string unit :=
  se_map_err (fun error => "无法打开中继数据库：" +:+ DatabaseError_to_string error)
    (Database_open data_directory).

(** The whole of [prepare]: the data directory, the database, then [Startup.prepare]. *)
Definition prepare_relay (outside : Outside) (args : ServeArgs) : SE Machine string unit :=
  data_dir ← on_files (prepare_data_directory (ou_absolute outside) (sv_data_dir args));
  opened data_dir ;;
  '(printed, _) ← on_relay (prepare args (ou_generated outside));
  print printed.

(** [serve] until the listener is bound; the answer is the listener's TLS configuration. *)
Definition start (outside : Outside) (args : ServeArgs) : SE Machine string (option RustlsConfig) :=
  prepare_relay outside args ;;
  addressing ← se_get (fun m => rs_addressing (ma_relay m));
  tls ← on_files (configure (sv_tls args) (absolute (ou_absolute outside) (sv_data_dir args))
                    (mkSubjectNames (host_name (da_public_url addressing))
                       (DeviceAddressing_wildcard_name addressing)));
  se_lift (bind outside (sv_listen args)) ;;
  mret tls.

Definition SIGNAL_TERMINATE : string := "SIGTERM".
Definition SIGNAL_INTERRUPT : string := "SIGINT".

Definition stop_signal (registered : result string unit) : option unit := ok registered.

Definition wait_for_stop_request (outside : Outside) : option string :=
  _ ← stop_signal (ou_terminate outside);
  _ ← stop_signal (ou_interrupt outside);
  Some (if ou_terminated outside then SIGNAL_TERMINATE else SIGNAL_INTERRUPT).

(** The router serves until the listener is told to stop; the stop request winds the link down. *)
Definition serve_on (outside : Outside) (tls : option RustlsConfig) : SE Machine string unit :=
  se_lift (map_err (fun error =>
             (if tls then "无法启动 HTTPS 服务：" else "无法启动 HTTP 服务：") +:+ error)
             (ou_from_tcp outside)) ;;
  on_relay (se_modify (ou_life outside)) ;;
  on_relay (shut_down_on (wait_for_stop_request outside)) ;;
  se_lift (map_err (fun error => "中继服务异常退出：" +:+ error) (ou_served outside)).

Definition serve (outside : Outside) (args : ServeArgs) : SE Machine string unit :=
  tls ← start outside args;
  serve_on outside tls.

(** ** The other subcommands *)

Definition link (outside : Outside) (exchange : Exchange) (args : LinkArgs) : SE Machine string unit :=
  data_dir ← on_files (prepare_data_directory (ou_absolute outside) (la_data_dir args));
  opened data_dir ;;
  printed ← on_relay (link_command exchange args);
  print printed.

Definition admin_reset_password (args : ResetPasswordArgs) : SE Machine string unit :=
  opened (rp_data_dir args) ;;
  printed ← on_relay (reset_password args);
  print printed.

(** ** [main.rs] *)

Definition run_command (outside : Outside) (exchange : Exchange) (command : Command) : SE Machine string unit :=
  match command with
  | Command_Serve args => serve outside args
  | Command_Link args => link outside exchange args
  | Command_Admin (AdminCommand_ResetPassword args) => admin_reset_password args
  end.

Definition main (outside : Outside) (exchange : Exchange) (cli : Cli) (m : Machine) : ExitCode * Machine :=
  match run_command outside exchange (cl_command cli) m with
  | (Ok _, m') => (ExitCode_SUCCESS, m')
  | (Err error, m') => (ExitCode_FAILURE, snd (eprint (E := string) error m'))
  end.

End serving.

End program.
