(* ===== verification/MainTheorems.v ===== *)
(** * When a relay listens

    What a start has made sure of by the time the listener is bound, and that a start on a machine that
    refuses nothing gets there. *)

From S2P Require Import Prelude.
From S2P Require Import RustStr.
From S2P Require Import Protocol.
From S2P Require Import Registry.
From S2P Require Import Config.
From S2P Require Import Database.
From S2P Require Import Schema.
From S2P Require Import SchemaTheorems.
From S2P Require Import Auth.
From S2P Require Import Address.
From S2P Require Import Http.
From S2P Require Import Upstream.
From S2P Require Import Paths.
From S2P Require Import Tls.
From S2P Require Import State.
From S2P Require Import Access.
From S2P Require Import UpstreamSession.
From S2P Require Import UpstreamTheorems.
From S2P Require Import Accounts.
From S2P Require Import Enroll.
From S2P Require Import Server.
From S2P Require Import Startup.
From S2P Require Import StartupTheorems.
From S2P Require Import Main.

Lemma orderly_run {E A} (m : SE FileSystem E A) fs r fs' :
  preserves orderly m -> m fs = (r, fs') -> orderly fs fs'.
Proof. intros Hp Hm. specialize (Hp fs). by rewrite Hm in Hp. Qed.

(** ** Lemmas: an opened connection *)

Lemma open_connection_takes : takes (ForeignKeysOn :: steps) open_connection.
Proof.
  apply (takes_then [_] steps); [|apply migrate_takes]. apply takes_map_err, takes_batch. by repeat constructor.
Qed.

Lemma open_connection_ok s s' :
  open_connection s = (Ok tt, s') ->
  grown s s' /\ so_foreign_keys s' = true /\ (older s -> current s')
  /\ forall t columns, (t, columns) ∈ SCHEMA -> is_Some (so_tables s' !! t).
Proof.
  intros Hrun. destruct (proj1 open_connection_takes s) as (f & taken & rest & s1 & Hl & He & Hm).
  destruct Hm as [[-> Hm]|(e & Hm)]; [|congruence]. rewrite app_nil_r in Hl. rewrite Hm in Hrun.
  injection Hrun as <-. subst taken. split; [exact (ensure_all_grown _ _ _ He)|]. split; [|split].
  - by apply (ensure_all_done _ _ _ ForeignKeysOn He); left.
  - intros Ho. destruct (migration_possible (set_foreign_keys true s)) as (s2 & He2 & Ho2); [done|].
    assert (Hs2 : s2 = s1).
    { assert (He1 : ensure ForeignKeysOn s = Ok (set_foreign_keys true s)).
      { unfold ensure. destruct (done ForeignKeysOn s) eqn:Ed; [|done]. destruct s. cbn in Ed. by subst. }
      change (ensure ForeignKeysOn s ≫= ensure_all steps = Ok s1) in He. rewrite He1 in He.
      change (ensure_all steps (set_foreign_keys true s) = Ok s1) in He. congruence. }
    subst s2. exact (migrated_current _ _ Ho2 He2).
  - intros t columns Hs. pose proof (ensure_all_done _ _ _ (CreateTable t columns) He) as Hd.
    cbn in Hd. apply bool_decide_eq_true in Hd; [done|]. right. by apply elem_of_SCHEMA.
Qed.

Lemma Database_open_ok `{Protocol} dir m m' :
  let file := path_join dir DATABASE_FILE in
  Database_open dir m = (Ok tt, m') ->
  orderly (ma_files m) (ma_files m')
  /\ (fs_refused (ma_files m) file = false -> private (ma_files m') file)
  /\ open_connection (ma_stores m file) = (Ok tt, ma_stores m' file)
  /\ exists db, database_of (ma_stores m' file) = Some db /\ ma_relay m' = put_database db (ma_relay m).
Proof.
  intros file Hrun. unfold Database_open in Hrun. fold file in Hrun.
  apply se_bind_ok in Hrun as ([] & m1 & H1%map_err_ok%zoom_ok & Hrun). destruct H1 as (fs1 & H1 & ->).
  apply se_bind_ok in Hrun as ([] & m2 & H2%map_err_ok%zoom_ok & Hrun). destruct H2 as (fs2 & H2 & ->).
  apply se_bind_ok in Hrun as ([] & m3 & H3%zoom_ok & Hrun). destruct H3 as (store & H3 & ->).
  apply se_bind_ok in Hrun as (store' & m4 & H4 & Hrun). injection H4 as <- <-.
  apply se_bind_ok in Hrun as (db & m5 & H5 & Hrun). unfold se_lift in H5. injection H5 as H5 <-.
  apply zoom_ok in Hrun as (relay & Hr & ->). injection Hr as <-. cbn in *. rewrite String.eqb_refl in *.
  pose proof (orderly_run _ _ _ _ (open_or_create_orderly file) H1) as Ho1.
  pose proof (orderly_run _ _ _ _ (restrict_to_owner_orderly file) H2) as Ho2.
  split; [by etrans|]. split; [|split].
  - intros Hr. rewrite restrict_to_owner_run in H2. apply (f_equal snd) in H2. cbn [snd] in H2. subst fs2.
    apply restrict_to_owner_private; [by eapply open_or_create_there|]. by rewrite (or_refused _ _ Ho1).
  - exact H3.
  - exists db. destruct (database_of store); [|done]. cbn in H5. injection H5 as ->. done.
Qed.

(** ** Lemmas: there is an account *)

Section accounts.
Context `{!Protocol} `{!Platform} `{!HttpCrate} `{!ClientCrate} `{!JsonCodec} `{!SettingsCodec} `{!Argon2}.

Definition populated (s : RelayState) : Prop := db_users (rs_database s) <> ∅.

Lemma stored_populated s s' : stored s' = stored s -> populated s -> populated s'.
Proof. intros Hs. apply (f_equal db_users) in Hs. cbn in Hs. unfold populated. congruence. Qed.

Lemma described_ok {A} prefix (op : DB A) s a s' :
  described prefix op s = (Ok a, s') -> exists db, op (rs_database s) = (Ok a, db) /\ s' = put_database db s.
Proof. intros Hrun%map_err_ok. by apply database_ok. Qed.

Lemma create_user_populated random now name hash role db user db' :
  create_user random now name hash role db = (Ok user, db') -> db_users db' <> ∅.
Proof.
  unfold create_user. intros (id & db1 & _ & Hrun)%se_bind_ok.
  apply se_bind_ok in Hrun as ([] & db2 & Hrun2%map_err_ok & Hrun). injection Hrun as _ <-.
  unfold insert_user in Hrun2. apply statement_ok in Hrun2. cbn in Hrun2.
  destruct (db_users db1 !! id); [done|]. case_match; [done|]. injection Hrun2 as <-. cbn. apply insert_non_empty.
Qed.

Lemma ensure_admin_populated s printed s' : ensure_admin_exists s = (Ok printed, s') -> populated s'.
Proof.
  unfold ensure_admin_exists. intros (count & s1 & (db & Hrun1 & ->)%described_ok & Hrun)%se_bind_ok.
  apply select_ok in Hrun1 as [-> ->]. destruct (0 <? _)%Z eqn:E.
  - injection Hrun as _ <-. unfold populated. cbn. intros He. cbn in E. rewrite He, map_size_empty in E. done.
  - apply se_bind_ok in Hrun as ([password hash] & s2 & _ & Hrun).
    apply se_bind_ok in Hrun as (random & s3 & _ & Hrun). apply se_bind_ok in Hrun as (now & s4 & _ & Hrun).
    apply se_bind_ok in Hrun as (user & s5 & (db & Hu & ->)%described_ok & Hrun).
    match type of Hrun with (audit_record ?entry ;; _) ?s = _ =>
      destruct (audit_record_run (E := string) entry s) as (s6 & Ha & _ & Hst & _) end.
    rewrite (se_bind_eq _ _ _ _ _ Ha) in Hrun. injection Hrun as _ <-.
    eapply stored_populated; [exact Hst|]. by eapply create_user_populated.
Qed.

Lemma load_keeps : preserves (keeps tables) load.
Proof. unfold load, read_setting. frame. Qed.

Lemma resume_populated {E} s : populated s -> populated (snd (resume (E := E) s)).
Proof.
  unfold resume, mbind, se_bind, se_try, se_zoom. pose proof (load_keeps (rs_database s)) as Hk.
  destruct (load (rs_database s)) as [[[settings|]|e] db]; cbn in *; intros Hp;
    apply (f_equal db_users) in Hk; cbn in Hk; unfold populated in *; cbn; congruence.
Qed.

(** What [prepare] makes of the tables of an opened database, at the time its clock shows: the sessions that
    have run out are dropped, the public address is written and an identifier and a first administrator are
    added if there were none.  Every other row stays as it was. *)
Record start_keeps (now : Z) (db db' : Database) : Prop := {
  sk_devices : db_devices db' = db_devices db;
  sk_enrollments : db_enrollments db' = db_enrollments db;
  sk_users : db_users db' = db_users db
    \/ db_users db = ∅ /\ exists id row, db_users db' = {[ id := row ]}
         /\ ur_role row = ADMIN_ROLE /\ ur_disabled row = 0%Z;
  sk_sessions : db_sessions db' ⊆ db_sessions db;
  sk_expired : forall id session, db_sessions db !! id = Some session ->
    db_sessions db' !! id = None -> is_expired session now = true;
  sk_settings : forall key row, key <> SETTING_PUBLIC_URL -> db_settings db !! key = Some row ->
    db_settings db' !! key = Some row;
  sk_audit : exists added, db_audit db' = db_audit db ++ added;
}.

#[global] Instance start_keeps_preorder now : PreOrder (start_keeps now).
Proof.
  split.
  - intros db. split; auto; [|by exists []; rewrite app_nil_r]. intros id session Hs Hn. congruence.
  - intros db1 db2 db3 [Hd Hn Hu Hs He Hset (a1 & Ha)] [Hd' Hn' Hu' Hs' He' Hset' (a2 & Ha')]. split.
    + congruence.
    + congruence.
    + destruct Hu as [Hu|(Hu & id & row & Hrow & Hadmin)], Hu' as [Hu'|(Hu' & more)].
      * left. congruence.
      * right. split; [congruence|exact more].
      * right. split; [done|]. exists id, row. split; [congruence|done].
      * by rewrite Hrow in Hu'; apply map_non_empty_singleton in Hu'.
    + by etrans.
    + intros id session Hs1 Hs3. destruct (db_sessions db2 !! id) as [session'|] eqn:Hs2; [|by eapply He].
      assert (session' = session) as -> by (pose proof (lookup_weaken _ _ _ _ Hs2 Hs); congruence).
      by eapply He'.
    + auto.
    + exists (a1 ++ a2). by rewrite Ha', Ha, app_assoc.
Qed.

(** The same of a run of the relay. *)
Definition state_keeps (now : Z) (s s' : RelayState) : Prop := start_keeps now (rs_database s) (rs_database s').

#[global] Instance state_keeps_preorder now : PreOrder (state_keeps now).
Proof. split; [intros s; unfold state_keeps; reflexivity|]. intros s1 s2 s3 H12 H23. unfold state_keeps in *. by etrans. Qed.

Lemma same_database_keeps now (s s' : RelayState) : rs_database s' = rs_database s -> state_keeps now s s'.
Proof. intros Hd. unfold state_keeps. by rewrite Hd. Qed.

Lemma statement_start_keeps_at {A} now (f : Database -> result SqliteError (A * Database)) db :
  (forall faults a db', f (set_faults faults db) = Ok (a, db') -> start_keeps now (set_faults faults db) db') ->
  start_keeps now db (snd (statement f db)).
Proof.
  assert (Hrest : forall fs, start_keeps now db (set_faults fs db)).
  { intros fs. split; cbn; auto; [|by exists []; rewrite app_nil_r]. intros id session Hs Hn. congruence. }
  intros Hf. unfold statement.
  destruct (db_faults db) as [|[] faults]; [| |]; try apply Hrest;
    destruct (f _) as [[a db']|e] eqn:E; cbn; try apply Hrest; (etrans; [apply Hrest|by apply (Hf _ _ _ E)]).
Qed.

Lemma statement_start_keeps {A} now (f : Database -> result SqliteError (A * Database)) :
  (forall db a db', f db = Ok (a, db') -> start_keeps now db db') -> preserves (start_keeps now) (statement f).
Proof. intros Hf db. apply statement_start_keeps_at. intros faults. apply Hf. Qed.

Lemma sql_start_keeps {A} now (m : SE Database SqliteError A) :
  preserves (start_keeps now) m -> preserves (start_keeps now) (sql m).
Proof. apply preserves_map_err. Qed.

Lemma select_start_keeps {A} now (f : Database -> A) : preserves (start_keeps now) (select f).
Proof. apply statement_start_keeps. by intros db a db' [= <- <-]. Qed.

Lemma database_start_keeps {A} now (op : DB A) :
  preserves (start_keeps now) op -> preserves (state_keeps now) (database op).
Proof. intros Hop s. rewrite database_run. apply (Hop (rs_database s)). Qed.

Hint Resolve select_start_keeps sql_start_keeps database_start_keeps : frame.
Hint Extern 1 (preserves (state_keeps _) now_millis) => by intros s; apply same_database_keeps : frame.
Hint Extern 1 (preserves (state_keeps _) draw) => by intros s; apply same_database_keeps : frame.

Lemma sweep_keeps now : preserves (start_keeps now) (delete_expired_sessions now).
Proof.
  apply sql_start_keeps, statement_start_keeps. intros db a db' [= <- <-].
  split; cbn; auto; [apply map_filter_subseteq| |by exists []; rewrite app_nil_r].
  intros id session Hs [Hn|Hn]%map_lookup_filter_None; [congruence|]. specialize (Hn session Hs). cbn in Hn.
  apply Z.leb_le. lia.
Qed.

Lemma set_setting_keeps now db key row :
  key = SETTING_PUBLIC_URL \/ db_settings db !! key = None ->
  start_keeps now db (set_settings (<[key := row]>) db).
Proof.
  intros Hkey. split; cbn; auto; [intros id session Hs Hn; congruence| |by exists []; rewrite app_nil_r].
  intros other old Hne Hold. rewrite lookup_insert_ne; [done|]. intros ->. destruct Hkey; congruence.
Qed.

Lemma public_url_keeps now at_time value :
  preserves (start_keeps now) (write_setting at_time SETTING_PUBLIC_URL value).
Proof.
  apply sql_start_keeps, statement_start_keeps. intros db a db' [= <- <-]. apply set_setting_keeps. by left.
Qed.

(** A setting is initialised only where there was none. *)
Lemma initialize_keeps now at_time key fallback :
  preserves (start_keeps now) (read_or_initialize_setting at_time key fallback).
Proof.
  intros db. unfold read_or_initialize_setting, mbind, se_bind.
  pose proof (sql_start_keeps now _ (select_start_keeps now (fun db => st_value <$> db_settings db !! key)) db) as Hr.
  unfold read_setting. destruct (sql _ db) as [[stored|e] db1] eqn:Hs; cbn in Hr |- *; [|done].
  destruct stored as [value|]; [done|]. destruct fallback as [value|]; [|done]. cbn.
  apply select_ok in Hs as [Hnone ->]. symmetry in Hnone. apply fmap_None in Hnone. etrans; [exact Hr|].
  pose proof (statement_start_keeps_at now
    (fun db => Ok (tt, set_settings (<[key := mkSettingRow value at_time]>) db)) _
    (fun faults a db' Ho => ltac:(injection Ho as _ <-; apply set_setting_keeps; right; exact Hnone))) as Hw.
  unfold write_setting, sql, se_map_err, write. by destruct (statement _ _) as [[]].
Qed.

Lemma create_user_keeps now random at_time name hash db user db' :
  create_user random at_time name hash UserRole_Admin db = (Ok user, db') -> db_users db = ∅ ->
  start_keeps now db db'.
Proof.
  unfold create_user. intros (id & db1 & Hid & Hrun)%se_bind_ok Hnone. injection Hid as _ ->.
  apply se_bind_ok in Hrun as ([] & db2 & Hrun2%map_err_ok & Hrun). injection Hrun as _ <-.
  unfold insert_user in Hrun2. apply (f_equal snd) in Hrun2. cbn in Hrun2. subst db2.
  apply statement_start_keeps_at. intros faults a db'. cbn. rewrite Hnone, lookup_empty.
  destruct (username_in_use _ _); [done|]. intros [= _ <-]. split; cbn; auto.
  - right. split; [done|]. rewrite Hnone. by eexists _, _.
  - intros k session Hs Hn. congruence.
  - by exists []; rewrite app_nil_r.
Qed.

Lemma audit_start_keeps {E} now entry : preserves (state_keeps now) (audit_record (E := E) entry).
Proof.
  unfold audit_record. frame. apply database_start_keeps, sql_start_keeps, statement_start_keeps.
  intros ? ? ? [= _ <-]. split; cbn; eauto. intros k session Hs Hn. congruence.
Qed.

Lemma ensure_admin_keeps now s printed s' : ensure_admin_exists s = (Ok printed, s') -> state_keeps now s s'.
Proof.
  unfold ensure_admin_exists. intros (count & s1 & (db & Hrun1 & ->)%described_ok & Hrun)%se_bind_ok.
  assert (Hs1 : state_keeps now s (put_database db s)).
  { pose proof (sql_start_keeps now _ (select_start_keeps now (fun db => Z.of_nat (size (db_users db)))) (rs_database s)) as Hk.
    unfold count_users in Hrun1. by rewrite Hrun1 in Hk. }
  apply select_ok in Hrun1 as [-> ->]. destruct (0 <? _)%Z eqn:E; [by injection Hrun as _ <-|].
  assert (Hnone : db_users (rs_database s) = ∅).
  { apply Z.ltb_ge in E. cbn in E. apply map_size_empty_inv. lia. }
  etrans; [exact Hs1|].
  apply se_bind_ok in Hrun as ([password hash] & s2 & Hp & Hrun).
  apply se_bind_ok in Hrun as (random & s3 & Hd & Hrun). injection Hd as _ <-.
  apply se_bind_ok in Hrun as (now' & s4 & Hn & Hrun). injection Hn as _ <-.
  assert (Hs2 : rs_database s2 = set_faults (tail (db_faults (rs_database s))) (rs_database s)).
  { unfold fresh_password in Hp. apply se_bind_ok in Hp as (r & s5 & Hd & Hp). injection Hd as _ <-.
    apply se_bind_ok in Hp as (pw & s6 & Hl & Hp). injection Hl as _ <-.
    apply se_bind_ok in Hp as (r' & s7 & Hd & Hp). injection Hd as _ <-.
    apply se_bind_ok in Hp as (h & s8 & Hl & Hp). injection Hl as _ <-. by injection Hp as _ _ <-. }
  apply se_bind_ok in Hrun as (user & s5 & (db & Hu & ->)%described_ok & Hrun).
  apply (create_user_keeps now) in Hu; [|cbn; by rewrite Hs2].
  cbn in Hu. rewrite Hs2 in Hu. unfold state_keeps. etrans; [exact Hu|].
  match type of Hrun with (audit_record ?entry ;; _) ?s = _ =>
    destruct (audit_record_run (E := string) entry s) as (s6 & Ha & _);
    pose proof (audit_start_keeps (E := string) now entry s) as Hk end.
  rewrite Ha in Hk. rewrite (se_bind_eq _ _ _ _ _ Ha) in Hrun. injection Hrun as _ <-. exact Hk.
Qed.

Lemma load_start_keeps now : preserves (start_keeps now) load.
Proof. unfold load, read_setting. frame. Qed.

Lemma resume_keeps {E} now : preserves (state_keeps now) (resume (E := E)).
Proof.
  intros s. unfold resume, mbind, se_bind, se_try, se_zoom. pose proof (load_start_keeps now (rs_database s)) as Hk.
  by destruct (load (rs_database s)) as [[[settings|]|e] db].
Qed.

(** A start keeps the rows of the database it opened. *)
Lemma prepare_keeps args generated s answer s' :
  prepare args generated s = (Ok answer, s') -> state_keeps (rs_clock s (rs_reads s)) s s'.
Proof.
  set (now := rs_clock s (rs_reads s)). unfold prepare. intros Hrun.
  assert (Hstep : forall F A (op : DB A) r (u v : RelayState), preserves (start_keeps now) op ->
    se_try (F := F) (database op) u = (r, v) -> state_keeps now u v).
  { intros F A op r u v Hop Hr. rewrite try_database in Hr. injection Hr as _ <-. apply (Hop (rs_database u)). }
  apply se_bind_ok in Hrun as (t & s1 & Ht & Hrun). injection Ht as <- <-. fold now in Hrun.
  apply se_bind_ok in Hrun as (swept & s2 & Hk2%Hstep & Hrun); [|apply sweep_keeps].
  apply se_bind_ok in Hrun as (t & s3 & Ht & Hrun). injection Ht as _ <-.
  apply se_bind_ok in Hrun as (relay_id & s4 & (db & Hid & ->)%described_ok & Hrun).
  pose proof (initialize_keeps now t SETTING_RELAY_ID (generate_relay_id generated) (rs_database s2)) as Hk4.
  cbn in Hid.
  rewrite Hid in Hk4. cbn in Hk4.
  apply se_bind_ok in Hrun as (t' & s5 & Ht & Hrun). injection Ht as _ <-.
  apply se_bind_ok in Hrun as (written & s6 & Hk6%Hstep & Hrun); [|apply public_url_keeps].
  apply se_bind_ok in Hrun as (printed & s7 & Hk7%(ensure_admin_keeps now) & Hrun).
  apply se_bind_ok in Hrun as ([] & s8 & Hfresh & Hrun). injection Hfresh as <-.
  apply se_bind_ok in Hrun as (resumed & s9 & Hres & Hrun). injection Hrun as _ <-.
  pose proof (resume_keeps (E := string) now (fresh_state args relay_id s7)) as Hk9. rewrite Hres in Hk9.
  unfold state_keeps in *. cbn in *. etrans; [exact Hk2|]. etrans; [exact Hk4|]. etrans; [exact Hk6|].
  by etrans; [exact Hk7|].
Qed.

Lemma prepare_populated args generated s answer s' : prepare args generated s = (Ok answer, s') -> populated s'.
Proof.
  unfold prepare. intros Hrun. do 5 apply se_bind_ok in Hrun as (? & ? & _ & Hrun).
  apply se_bind_ok in Hrun as (? & s1 & _ & Hrun).
  apply se_bind_ok in Hrun as (printed & s2 & Ha%ensure_admin_populated & Hrun).
  apply se_bind_ok in Hrun as ([] & s3 & Hrun3 & Hrun). injection Hrun3 as <-.
  apply se_bind_ok in Hrun as (resumed & s4 & Hrun4 & Hrun). injection Hrun as _ <-.
  pose proof (resume_populated (E := string) (fresh_state args x5 s2) Ha) as Hp. by rewrite Hrun4 in Hp.
Qed.

Context `{!TlsCrates}.

Lemma prepare_relay_ok outside args m m' :
  let dir := absolute (ou_absolute outside) (sv_data_dir args) in
  let file := path_join dir DATABASE_FILE in
  prepare_relay outside args m = (Ok tt, m') ->
  orderly (ma_files m) (ma_files m')
  /\ (fs_refused (ma_files m) (sv_data_dir args) = false -> private (ma_files m') (sv_data_dir args))
  /\ (fs_refused (ma_files m) file = false -> private (ma_files m') file)
  /\ open_connection (ma_stores m file) = (Ok tt, ma_stores m' file)
  /\ populated (ma_relay m')
  /\ exists db, database_of (ma_stores m' file) = Some db
       /\ start_keeps (rs_clock (ma_relay m) (rs_reads (ma_relay m))) db (rs_database (ma_relay m')).
Proof.
  intros dir file. unfold prepare_relay. intros (data_dir & m1 & Hd & Hrun)%se_bind_ok.
  apply zoom_ok in Hd as (fs1 & (-> & Ho1 & Hp1)%prepare_data_directory_private & ->). fold dir in Hrun.
  apply se_bind_ok in Hrun as ([] & m2 & Hopen%map_err_ok & Hrun).
  apply Database_open_ok in Hopen as (Ho2 & Hp2 & Hstore & db & Hdb & Hrelay).
  apply se_bind_ok in Hrun as ([printed resumed] & m3 & Hprep & Hrun).
  apply zoom_ok in Hprep as (s & Hprep & ->). injection Hrun as <-.
  pose proof (prepare_keeps _ _ _ _ _ Hprep) as Hkept. apply prepare_populated in Hprep.
  unfold state_keeps in Hkept. rewrite Hrelay in Hkept. cbn in *.
  split; [by etrans|]. split; [|split; [|split; [done|split; [done|by exists db]]]].
  - intros Hr. by apply (or_private _ _ Ho2), Hp1.
  - intros Hr. apply Hp2. by rewrite (or_refused _ _ Ho1).
Qed.

Lemma configure_ok mode dir names config (fs fs' : FileSystem) :
  let key := mp_private_key (MaterialPaths_new (path_join dir TLS_DIRECTORY)) in
  configure mode dir names fs = (Ok config, fs') ->
  orderly fs fs' /\ (mode = TlsMode_SelfSigned -> fs_refused fs key = false -> private fs' key)
  /\ (config = None <-> mode = TlsMode_Disabled).
Proof.
  intros key. destruct mode as [|chain key_file|]; cbn.
  - intros Hrun. apply se_bind_ok in Hrun as (material & fs1 & Hl & Hrun).
    apply se_bind_ok in Hrun as (loaded & fs2 & Hload & Hrun). injection Hload as _ <-. injection Hrun as <- <-.
    split; [by eapply orderly_run, Hl; apply load_or_generate_orderly|]. split; [|by split].
    intros _ Hr. apply load_or_generate_effect in Hl as (_ & _ & Hk). by apply Hk.
  - intros Hrun. apply se_bind_ok in Hrun as (certificate & fs1 & Hc & Hrun).
    apply se_bind_ok in Hrun as (private_key & fs2 & Hk & Hrun).
    apply se_bind_ok in Hrun as (loaded & fs3 & Hload & Hrun). injection Hload as _ <-. injection Hrun as <- <-.
    assert (Hread : forall path contents f f', read_file path f = (Ok contents, f') -> f' = f).
    { intros path contents f f'. unfold read_file. intros (c & f1 & Hg & Hl)%se_bind_ok. injection Hg as _ <-.
      by injection Hl. }
    apply Hread in Hc as ->. apply Hread in Hk as ->. by split_and!.
  - intros [= <- <-]. by split_and!.
Qed.

(** C11: a relay that listens is safe to listen.  Whenever [serve] gets as far as a bound listener, the data
    directory, the database file and the self-signed private key are their owner's alone (unless the system
    refuses to narrow them), there is an account - an enabled administrator, if the start had to make one;
    accounts that were there are as they were, disabled ones included - foreign keys are enforced, and the
    listener is plain HTTP only when TLS was switched off.  Of what the database held only sessions that had run
    out are dropped: the migration keeps every row and, of a database an earlier release left, makes the schema
    of this one, and the start itself then drops those sessions, writes the public address, and otherwise only
    adds. *)
Theorem listening_is_safe (outside : Outside) (args : ServeArgs) (m m' : Machine) (tls : option RustlsConfig) :
  let dir := absolute (ou_absolute outside) (sv_data_dir args) in
  let file := path_join dir DATABASE_FILE in
  let key := mp_private_key (MaterialPaths_new (path_join dir TLS_DIRECTORY)) in
  start outside args m = (Ok tls, m') ->
  (forall path, path = sv_data_dir args \/ path = file \/ path = key /\ sv_tls args = TlsMode_SelfSigned ->
     fs_refused (ma_files m) path = false -> private (ma_files m') path)
  /\ db_users (rs_database (ma_relay m')) <> ∅
  /\ so_foreign_keys (ma_stores m' file) = true
  /\ grown (ma_stores m file) (ma_stores m' file)
  /\ (older (ma_stores m file) -> current (ma_stores m' file))
  /\ (exists db, database_of (ma_stores m' file) = Some db
       /\ start_keeps (rs_clock (ma_relay m) (rs_reads (ma_relay m))) db (rs_database (ma_relay m')))
  /\ (tls = None <-> sv_tls args = TlsMode_Disabled)
  /\ ou_bind outside (sv_listen args) = Ok tt.
Proof.
  intros dir file key. unfold start. intros ([] & m1 & Hprep & Hrun)%se_bind_ok.
  apply prepare_relay_ok in Hprep as (Ho1 & Hdir & Hfile & Hstore & Husers & Hkept). fold dir file in Hfile, Hstore.
  apply se_bind_ok in Hrun as (addressing & m2 & Hget & Hrun). injection Hget as _ <-.
  apply se_bind_ok in Hrun as (config & m3 & Hconf & Hrun).
  apply zoom_ok in Hconf as (fs2 & Hconf%configure_ok & ->). destruct Hconf as (Ho2 & Hkey & Htls).
  apply se_bind_ok in Hrun as ([] & m4 & Hbind & Hrun). injection Hrun as -> <-.
  unfold se_lift in Hbind. injection Hbind as Hbind <-. cbn in *.
  apply open_connection_ok in Hstore as (Hgrown & Hfk & Hcur & _).
  split; [|split_and!; try done].
  - intros path [->|[->|[-> Hself]]] Hr; [by apply (or_private _ _ Ho2), Hdir|by apply (or_private _ _ Ho2), Hfile|].
    apply Hkey; [done|]. by rewrite (or_refused _ _ Ho1).
  - unfold bind in Hbind. by destruct (ou_bind outside (sv_listen args)) as [[]|].
Qed.

End accounts.

(** ** Lemmas: a machine that lets a relay start *)

Lemma open_connection_released s :
  released s -> so_faults s = [] ->
  exists s' db, open_connection s = (Ok tt, s') /\ database_of s' = Some db /\ db_faults db = [].
Proof.
  intros [Ho Hty] Hf.
  assert (Hfk : ensure ForeignKeysOn s = Ok (set_foreign_keys true s)).
  { unfold ensure. destruct (done ForeignKeysOn s) eqn:Ed; [|done]. destruct s. cbn in Ed. by subst. }
  destruct (migration_possible (set_foreign_keys true s)) as (s' & He & Ho'); [done|].
  pose proof (ensure_all_typed _ (set_foreign_keys true s) _ (fun _ Hin => Hin) Hty He) as Hty'.
  destruct (database_of_typed s' Hty' (migrated_current _ _ Ho' He) Ho') as [db Hdb].
  exists s', db. split; [|split; [done|]].
  - apply (proj2 open_connection_takes); [done|].
    change (ensure ForeignKeysOn s ≫= ensure_all steps = Ok s'). by rewrite Hfk.
  - pose proof (ensure_all_same_faults _ _ _ He) as Hfaults. cbn in Hfaults. unfold database_of in Hdb.
    repeat (apply bind_Some in Hdb as (? & ? & Hdb)). injection Hdb as <-. cbn. congruence.
Qed.

(** The paths of a data directory: the directory as it was given and as an absolute path, the one for TLS
    inside it, and three files. *)
Definition relay_directories (given dir : string) : list string := [given; dir; path_join dir TLS_DIRECTORY].
Definition relay_files (dir : string) : list string :=
  let files := MaterialPaths_new (path_join dir TLS_DIRECTORY) in
  [path_join dir DATABASE_FILE; mp_certificate files; mp_private_key files].

Lemma relay_paths_apart given dir path :
  given ∉ relay_files dir -> path ∈ relay_directories given dir -> path ∈ relay_files dir -> False.
Proof.
  intros Hgiven [->|Hpath]%elem_of_cons; [done|]. clear given Hgiven. revert Hpath.
  unfold relay_directories, relay_files, MaterialPaths_new. cbn [mp_certificate mp_private_key].
  assert (Hdb : str_len dir < str_len (path_join dir DATABASE_FILE)) by (apply path_join_longer; cbn; lia).
  assert (Htls : str_len dir < str_len (path_join dir TLS_DIRECTORY)) by (apply path_join_longer; cbn; lia).
  set (tls := path_join dir TLS_DIRECTORY) in *.
  assert (Hcert : str_len tls < str_len (path_join tls CERTIFICATE_FILE)) by (apply path_join_longer; cbn; lia).
  assert (Hkey : str_len tls < str_len (path_join tls PRIVATE_KEY_FILE)) by (apply path_join_longer; cbn; lia).
  intros [->|Hin]%elem_of_cons; [|apply list_elem_of_singleton in Hin as ->]; rewrite !elem_of_cons, !elem_of_nil;
  intros [He|[He|[He|[]]]]; try (apply (f_equal str_len) in He; lia).
  by apply path_join_inj in He.
Qed.

Section starting.
Context `{!Protocol} `{!Platform} `{!HttpCrate} `{!ClientCrate} `{!JsonCodec} `{!SettingsCodec} `{!Argon2}
  `{!Argon2Laws _} `{!TlsCrates}.

Lemma prepare_succeeds args relay_id (s : RelayState) :
  db_faults (rs_database s) = [] ->
  (forall n count, exists drawn, rs_random s n count = Ok drawn) ->
  (forall password salt, exists hash, argon2_hash_password password salt = Ok hash) ->
  exists answer s', prepare args (Ok relay_id) s = (Ok answer, s').
Proof.
  intros Hf Hr Hh.
  destruct (identifier (rs_database s) (Ok relay_id)) as [id|] eqn:Hi;
    [|unfold identifier in Hi; by destruct (_ !! _)].
  destruct (prepare_settles args (Ok relay_id) id s Hf Hi) as (s0 & [Hf0 Hu0 _ Hr0] & Hp). rewrite Hp.
  destruct (decide (db_users (rs_database s0) = ∅)) as [He|Hne].
  - destruct (ensure_admin_first s0) as (uid & row & password & s1 & Ha & _ & _ & Hf1 & _); [done..|by rewrite Hr0|done|].
    destruct (prepare_finishes args id _ _ _ Ha Hf1) as (resumed & s2 & Hrun & _). eauto.
  - destruct (prepare_finishes args id _ _ _ (ensure_admin_again s0 Hf0 Hne) Hf0) as (resumed & s2 & Hrun & _). eauto.
Qed.

Lemma Database_open_succeeds given dir (m : Machine) :
  let file := path_join dir DATABASE_FILE in
  given ∉ relay_files dir -> hospitable (relay_directories given dir) (relay_files dir) (ma_files m) ->
  released (ma_stores m file) -> so_faults (ma_stores m file) = [] ->
  exists m', Database_open dir m = (Ok tt, m')
    /\ hospitable (relay_directories given dir) (relay_files dir) (ma_files m')
    /\ db_faults (rs_database (ma_relay m')) = [] /\ rs_random (ma_relay m') = rs_random (ma_relay m)
    /\ forall path, path <> file \/ is_Some (read_contents path (ma_files m)) ->
         read_contents path (ma_files m') = read_contents path (ma_files m).
Proof.
  intros file Hgiven Hl Hrel Hf.
  destruct (open_or_create_lives _ _ (fun p => relay_paths_apart given dir p Hgiven) file _ Hl) as (fs1 & Ho & Hl1);
    [unfold relay_files; by left|].
  pose proof (restrict_to_owner_lives _ _ file fs1 Hl1) as Hl2.
  destruct (open_connection_released _ Hrel Hf) as (store & db & Hopen & Hdb & Hfaults).
  unfold Database_open. fold file.
  erewrite se_bind_eq by apply map_err_run, zoom_run, Ho.
  erewrite se_bind_eq by apply map_err_run, zoom_run, restrict_to_owner_run.
  erewrite se_bind_eq by apply zoom_run, Hopen. erewrite se_bind_eq by reflexivity.
  cbn [ma_stores set_ma_store]. rewrite String.eqb_refl, Hdb. erewrite se_bind_eq by reflexivity.
  eexists. split; [reflexivity|]. split_and!; [done..|]. intros path Hpath.
  pose proof (open_or_create_keeps_contents file path (ma_files m) Hpath) as Hkept. rewrite Ho in Hkept.
  etrans; [exact (restrict_keeps_contents file path fs1)|exact Hkept].
Qed.

(** rustls takes the pair. *)
Definition accepted (material : PemMaterial) : Prop :=
  exists config, from_pem (pm_certificate material) (pm_private_key material) = Ok config.

(** What TLS needs of the crates and of the files, by the mode it was asked for: a given pair must be there and
    be one rustls takes; so must a self-signed pair an earlier start left, and a new one rcgen makes. *)
Definition tls_ready (mode : TlsMode) (dir : string) (fs : FileSystem) : Prop :=
  match mode with
  | TlsMode_Disabled => True
  | TlsMode_Certificate chain key =>
      exists certificate private_key, read_contents chain fs = Some certificate
        /\ read_contents key fs = Some private_key /\ accepted (mkPemMaterial certificate private_key)
  | TlsMode_SelfSigned =>
      (forall wanted, exists made, generate_simple_self_signed wanted = Ok made /\ accepted made)
      /\ forall material, MaterialPaths_read (MaterialPaths_new (path_join dir TLS_DIRECTORY)) fs = Some material ->
           accepted material
  end.

(** Neither self-signed file is the database. *)
Lemma material_not_database dir name :
  path_join (path_join dir TLS_DIRECTORY) name <> path_join dir DATABASE_FILE.
Proof.
  unfold path_join at 2 3. destruct (is_empty dir || ends_with dir "/"); unfold path_join;
    destruct (_ || _); rewrite !append_assoc; intros He; by apply append_inj_l in He.
Qed.

Lemma configure_succeeds mode given dir names (fs : FileSystem) :
  given ∉ relay_files dir -> hospitable (relay_directories given dir) (relay_files dir) fs -> tls_ready mode dir fs ->
  exists config fs', configure mode dir names fs = (Ok config, fs').
Proof.
  intros Hgiven Hl Hready. destruct mode as [|chain key|]; cbn.
  - destruct Hready as [Hmade Hstored].
    destruct (load_or_generate_lives _ _ dir names fs (fun p => relay_paths_apart given dir p Hgiven) Hl)
      as (material & fs' & Hm & Hwhich);
      [unfold relay_directories; set_solver|unfold relay_files; set_solver|unfold relay_files; set_solver| |].
    { intros wanted. destruct (Hmade wanted) as (made & Hm & _). by exists made. }
    assert (Hc : accepted material).
    { destruct Hwhich as [Hs|Hg]; [by apply Hstored|].
      destruct (Hmade (subject_alt_names names)) as (made & Hm' & Ha). rewrite Hg in Hm'. by injection Hm' as ->. }
    destruct Hc as [config Hc]. exists (Some config), fs'. erewrite se_bind_eq by exact Hm.
    unfold load_material. by rewrite Hc.
  - destruct Hready as (certificate & private_key & Hc & Hk & config & Hpem). exists (Some config), fs.
    cbn in Hpem. unfold read_file. run. rewrite Hc, Hk. cbn. unfold load_material. cbn. by rewrite Hpem.
  - by exists None, fs.
Qed.

(** A machine that refuses nothing lets a relay start. *)
Lemma start_succeeds (outside : Outside) (args : ServeArgs) (relay_id : string) (m : Machine) :
  let dir := absolute (ou_absolute outside) (sv_data_dir args) in
  ou_generated outside = Ok relay_id ->
  ou_bind outside (sv_listen args) = Ok tt -> ou_set_nonblocking outside = Ok tt ->
  sv_data_dir args ∉ relay_files dir ->
  hospitable (relay_directories (sv_data_dir args) dir) (relay_files dir) (ma_files m) ->
  released (ma_stores m (path_join dir DATABASE_FILE)) ->
  so_faults (ma_stores m (path_join dir DATABASE_FILE)) = [] ->
  (forall n count, exists drawn, rs_random (ma_relay m) n count = Ok drawn) ->
  (forall password salt, exists hash, argon2_hash_password password salt = Ok hash) ->
  tls_ready (sv_tls args) dir (ma_files m) ->
  exists tls m', start outside args m = (Ok tls, m').
Proof.
  intros dir Hgen Hbind Hnb Hgiven Hl Hrel Hf Hr Hh Hready.
  pose proof (fun p => relay_paths_apart (sv_data_dir args) dir p Hgiven) as Hapart.
  destruct (prepare_data_directory_lives _ _ Hapart (ou_absolute outside) (sv_data_dir args) _ Hl)
    as (fs1 & Hd & Hl1); [unfold relay_directories; by left|]. fold dir in Hd.
  pose proof (fun p => prepare_data_directory_keeps_contents (ou_absolute outside) (sv_data_dir args) p (ma_files m)) as Hread1.
  rewrite Hd in Hread1. cbn in Hread1.
  destruct (Database_open_succeeds _ dir (set_ma_files fs1 m) Hgiven Hl1 Hrel Hf) as (m2 & Hopen & Hl2 & Hf2 & Hr2 & Hread2).
  destruct (prepare_succeeds args relay_id (ma_relay m2) Hf2) as ([printed resumed] & s3 & Hp); [by rewrite Hr2|done|].
  unfold start. erewrite se_bind_eq.
  2:{ unfold prepare_relay. erewrite se_bind_eq by apply zoom_run, Hd.
      erewrite se_bind_eq by apply map_err_run, Hopen.
      rewrite Hgen. by erewrite se_bind_eq by apply zoom_run, Hp. }
  erewrite se_bind_eq by reflexivity. fold dir.
  assert (Hready2 : tls_ready (sv_tls args) dir (ma_files m2)).
  { assert (Hkept : forall path, path <> path_join dir DATABASE_FILE \/ is_Some (read_contents path (ma_files m)) ->
        read_contents path (ma_files m2) = read_contents path (ma_files m)).
    { intros path Hpath. rewrite <- Hread1. apply Hread2. cbn. by rewrite Hread1. }
    destruct (sv_tls args) as [|chain key|]; [|destruct Hready as (c & k & Hc & Hk & Ha)|done].
    - destruct Hready as [Hmade Hstored]. split; [done|]. intros material. unfold MaterialPaths_read.
      rewrite !Hkept by (left; apply material_not_database). apply Hstored.
    - exists c, k. rewrite !Hkept by (right; by eexists). done. }
  match goal with |- context [configure _ _ ?names] =>
    destruct (configure_succeeds (sv_tls args) _ dir names _ Hgiven Hl2 Hready2) as (config & fs' & Hc) end.
  erewrite se_bind_eq by apply zoom_run, Hc. unfold bind. rewrite Hbind, Hnb. cbn [map_err mbind result_bind].
  erewrite se_bind_eq by reflexivity. eauto.
Qed.


End starting.

(** ** Witnesses *)

Definition sample_machine : Machine :=
  mkMachine sample_file_system (fun _ => empty_store) sample_first_state [] [].

Definition sample_outside : Outside :=
  mkOutside Ok (Ok "relay-a") (fun _ => Ok tt) (Ok tt) (Ok tt) id (Ok tt) (Ok tt) (Ok tt) true.

Lemma empty_released : released empty_store.
Proof. split; [by intros t columns table _|by intros t table]. Qed.

Lemma empty_hospitable directories files : hospitable directories files sample_file_system.
Proof. by split. Qed.

(** A pair is one rustls takes when its key is there. *)
Lemma sample_tls_ready : tls_ready (sv_tls sample_serve_args) "data" (ma_files sample_machine).
Proof. split; [by intros wanted; eexists; split; [reflexivity|eexists]|by intros material]. Qed.

Lemma sample_start_succeeds : exists tls m', start sample_outside sample_serve_args sample_machine = (Ok tls, m').
Proof.
  apply (start_succeeds sample_outside sample_serve_args "relay-a" sample_machine);
    [reflexivity|reflexivity|reflexivity|by apply (bool_decide_unpack _)|apply empty_hospitable|apply empty_released
    |reflexivity|by eexists|by eexists|apply sample_tls_ready].
Qed.




Lemma listening_is_safe_witness :
  exists tls m', start sample_outside sample_serve_args sample_machine = (Ok tls, m')
    /\ private (ma_files m') "data" /\ private (ma_files m') "data/relay.db"
    /\ private (ma_files m') "data/tls/key.pem".
Proof.
  destruct sample_start_succeeds as (tls & m' & Hrun). exists tls, m'. split; [exact Hrun|].
  destruct (listening_is_safe sample_outside sample_serve_args sample_machine m' tls Hrun) as [Hp _].
  split; [|split].
  - apply (Hp "data"); [left; reflexivity|reflexivity].
  - apply (Hp "data/relay.db"); [right; left; reflexivity|reflexivity].
  - apply (Hp "data/tls/key.pem"); [right; right; split; reflexivity|reflexivity].
Defined.
