(* ===== verification/RelayInvariant.v ===== *)
(** * What every handler keeps, and how the API may fail

    [relay_wf] is the well-formedness of the whole state: the database ([db_wf]), the routing table
    ([registry_wf], and a route's link is the tunnel it says), the table's relay id and the bounded
    queues.  [relay_ok true] adds that the environment works.  Every operation is shown sound for it,
    with the errors it may raise: a [refusal] is an answer the caller can act on, and an internal error
    is only left for an environment that fails or a drawn value that is taken. *)

From S2P Require Import Prelude.
From S2P Require Import RustStr.
From S2P Require Import Protocol.
From S2P Require Import Handle.
From S2P Require Import Registry.
From S2P Require Import RegistryProofs.
From S2P Require Import Config.
From S2P Require Import Database.
From S2P Require Import Auth.
From S2P Require Import Address.
From S2P Require Import Http.
From S2P Require Import Upstream.
From S2P Require Import DatabaseInvariant.
From S2P Require Import State.
From S2P Require Import Access.
From S2P Require Import Proxy.
From S2P Require Import ApiError.
From S2P Require Import Tunnel.
From S2P Require Import UpstreamSession.
From S2P Require Import Views.
From S2P Require Import Accounts.
From S2P Require Import Enroll.
From S2P Require Import Devices.
From S2P Require Import Console.
From S2P Require Import Api.
From S2P Require Import Server.
From S2P Require Import Startup.

(** ** The invariant *)

Section invariant.
Context `{!Protocol}.

Record relay_wf (s : RelayState) : Prop := {
  rw_database : db_wf (rs_database s);
  rw_registry : registry_wf (rs_registry s);
  rw_named : well_named (rs_registry s);
  rw_relay_id : reg_relay_id (rs_registry s) = rs_relay_id s;
  rw_channels : channels_bounded (rs_channels s);
}.

(** The engine answers every statement and the system's generator every draw. *)
Definition works (s : RelayState) : Prop :=
  db_faults (rs_database s) = []
  /\ (forall n size, exists drawn, rs_random s n size = Ok drawn)
  /\ (forall n, exists credential, rs_credentials s n = Ok credential).

Definition relay_ok (healthy : bool) (s : RelayState) : Prop :=
  relay_wf s /\ (healthy = true -> works s).

(** An answer of the API that tells the caller what was wrong with the request. *)
Definition answered (e : ApiError) : Prop :=
  ae_status e ∈ [BAD_REQUEST; UNAUTHORIZED; FORBIDDEN; NOT_FOUND; CONFLICT].

(** [fresh] says whether the operation draws a value that may be taken already. *)
Definition refusal (healthy fresh : bool) (e : ApiError) : Prop :=
  answered e \/ (e = internal /\ (healthy = false \/ fresh = true)).

(** ** The primitives *)

Section primitives.
Variable healthy : bool.
Abbreviation OK X m := (sound (relay_ok healthy) X m).

Lemma database_triple {E A} P Q X (op : SE Database E A) :
  triple (fun db => db_ok healthy db /\ P db) op (fun a db => db_ok healthy db /\ Q a db)
    (fun e db => db_ok healthy db /\ X e) ->
  triple (fun s => relay_ok healthy s /\ P (rs_database s)) (se_zoom rs_database put_database op)
    (fun a s => relay_ok healthy s /\ Q a (rs_database s)) (fun e s => relay_ok healthy s /\ X e).
Proof.
  intros Hop s [[Hwf Hw] Hp]. unfold se_zoom.
  assert (Hdb : db_ok healthy (rs_database s)) by (split; [apply Hwf|intros Ht; by apply Hw]).
  assert (Hput : forall db, db_ok healthy db -> relay_ok healthy (put_database db s)).
  { intros db [Hd Hf]. split; [by destruct Hwf|]. intros Ht. split; [by apply Hf|by apply Hw]. }
  specialize (Hop _ (conj Hdb Hp)). destruct (op (rs_database s)) as [[a|e] db]; destruct Hop;
    by split; [apply Hput|].
Qed.

Lemma on_database_sound {E A} X (op : SE Database E A) :
  sound (db_ok healthy) X op -> OK X (se_zoom rs_database put_database op).
Proof.
  intros Hop. eapply triple_weaken; [apply (database_triple (fun _ => True) (fun _ _ => True) X)|naive_solver..].
  intros db [Hdb _]. specialize (Hop db Hdb). by destruct (op db) as [[a|e] db'].
Qed.

Lemma database_sound {A} X (op : DB A) : sound (db_ok healthy) X op -> OK X (database op).
Proof. apply on_database_sound. Qed.

(** The parts the invariant is about. *)
Definition same_parts (s s' : RelayState) : Prop :=
  rs_database s' = rs_database s /\ rs_registry s' = rs_registry s /\ rs_relay_id s' = rs_relay_id s
  /\ rs_channels s' = rs_channels s /\ rs_random s' = rs_random s /\ rs_credentials s' = rs_credentials s.

Lemma same_parts_ok s s' : same_parts s s' -> relay_ok healthy s -> relay_ok healthy s'.
Proof.
  intros (Hd & Hr & Hi & Hc & Hn & Hg) [Hwf Hw]. split.
  - destruct Hwf. split; by rewrite ?Hd, ?Hr, ?Hi, ?Hc.
  - intros Ht. unfold works. rewrite Hd, Hn, Hg. by apply Hw.
Qed.

(** A step that reads the environment or writes another part, and cannot fail. *)
Lemma other_part_sound {E A} X (m : App E A) (answer : RelayState -> A) (next : RelayState -> RelayState) :
  m = (fun s => (Ok (answer s), next s)) -> (forall s, same_parts s (next s)) -> OK X m.
Proof. intros -> Hn s Hs. by apply (same_parts_ok s). Qed.

Lemma now_millis_sound {E} X : OK X (now_millis (E := E)).
Proof. by eapply other_part_sound. Qed.

Lemma clock_readings_sound {E} X n : OK X (clock_readings (E := E) n).
Proof. by eapply other_part_sound. Qed.

Lemma draw_sound {E} X : OK X (draw (E := E)).
Proof. by eapply other_part_sound. Qed.

(** A draw is answered where the generator works. *)
Lemma draw_answers {E} (X : E -> RelayState -> Prop) :
  triple (relay_ok healthy) (draw (E := E))
    (fun random s => relay_ok healthy s /\ (healthy = true -> forall size, exists drawn, random size = Ok drawn)) X.
Proof.
  intros s Hs. cbn. split; [by apply (same_parts_ok s)|]. intros Ht size. by apply Hs.
Qed.

Lemma generate_credential_sound {E} X : OK X (generate_credential (E := E)).
Proof. by eapply other_part_sound. Qed.

Lemma on_upstream_sound {E} X f : OK X (on_upstream (E := E) f).
Proof. by eapply other_part_sound. Qed.

Lemma lockout_is_locked_sound {E} X source : OK X (lockout_is_locked (E := E) source).
Proof. apply sound_bind; [apply now_millis_sound|intros; apply sound_get]. Qed.

Lemma lockout_record_failure_sound {E} X source : OK X (lockout_record_failure (E := E) source).
Proof. by eapply other_part_sound. Qed.

Lemma lockout_forget_sound {E} X source : OK X (lockout_forget (E := E) source).
Proof. by eapply other_part_sound. Qed.

Lemma on_channels_sound {E} X f :
  (forall chans, channels_bounded chans -> channels_bounded (f chans)) -> OK X (on_channels (E := E) f).
Proof.
  intros Hf s [Hwf Hw]. split; [|exact Hw]. destruct Hwf. split; try done. by apply Hf.
Qed.

(** A step of the routing table, where it is safe to take. *)
Lemma on_registry_triple {E A} (P : Registry -> Prop) X (f : Registry -> A * Registry) :
  (forall r, registry_wf r -> well_named r -> P r -> good_step r (snd (f r)) /\ well_named (snd (f r))) ->
  triple (fun s => relay_ok healthy s /\ P (rs_registry s)) (on_registry (E := E) f)
    (fun _ => relay_ok healthy) X.
Proof.
  intros Hf s [[Hwf Hw] Hp]. rewrite on_registry_run. destruct Hwf.
  destruct (Hf (rs_registry s)) as [(Hr & Hi & _) Hn]; [done..|].
  split; [|exact Hw]. split; try done. cbn. congruence.
Qed.

Lemma on_registry_sound {E A} X (f : Registry -> A * Registry) :
  (forall r, registry_wf r -> well_named r -> good_step r (snd (f r)) /\ well_named (snd (f r))) ->
  OK X (on_registry (E := E) f).
Proof.
  intros Hf s Hs. apply (on_registry_triple (fun _ => True)); [|done]. auto.
Qed.

Context `{!JsonCodec}.

Lemma audit_record_sound {E} X entry : OK X (audit_record (E := E) entry).
Proof.
  unfold audit_record. apply sound_bind; [apply now_millis_sound|intros now].
  apply sound_bind; [|intros; apply sound_ret]. eapply sound_try, database_sound, write_audit_sound.
Qed.

Lemma publish_addresses_bounded s : channels_bounded (rs_channels s) -> channels_bounded (publish_addresses s).
Proof.
  unfold publish_addresses. generalize (rs_channels s). induction (snapshot (rs_registry s)) as [|d l IH];
    intros chans Hc; [done|]. cbn. apply IH. destruct (od_route d); [|done]. by apply try_send_bounded.
Qed.

Lemma push_addresses_sound {E} X : OK X (push_addresses (E := E)).
Proof.
  intros s [Hwf Hw]. split; [|exact Hw]. destruct Hwf. split; try done. by apply publish_addresses_bounded.
Qed.

Lemma revoke_tunnel_bounded handle reason chans :
  channels_bounded chans -> channels_bounded (revoke_tunnel handle reason chans).
Proof. intros Hc. by apply try_send_bounded, try_send_bounded. Qed.

Lemma disconnect_tunnel_bounded handle reason chans :
  channels_bounded chans -> channels_bounded (disconnect_tunnel handle reason chans).
Proof. apply try_send_bounded. Qed.

Lemma tell_link_sound {E} X device_id push :
  (forall handle chans, channels_bounded chans -> channels_bounded (push handle chans)) ->
  OK X (tell_link (E := E) device_id push).
Proof.
  intros Hp. unfold tell_link. apply sound_bind; [apply sound_get|intros found].
  destruct found; [apply on_channels_sound; auto|apply sound_ret].
Qed.

Lemma tell_revoked_sound {E} X device_id reason :
  OK X (tell_link (E := E) device_id (fun handle => revoke_tunnel handle reason)).
Proof. apply tell_link_sound. intros. by apply revoke_tunnel_bounded. Qed.

Lemma tell_disconnected_sound {E} X device_id reason :
  OK X (tell_link (E := E) device_id (fun handle => disconnect_tunnel handle reason)).
Proof. apply tell_link_sound. intros. by apply disconnect_tunnel_bounded. Qed.

(** A query that can only fail with the engine. *)
Lemma broken_refused fresh d : broken healthy d -> refusal healthy fresh (ApiError_from d).
Proof. intros Hb. destruct d; cbn; [right..|left]; auto. unfold answered. cbn. set_solver. Qed.

Lemma query_triple {A} fresh P Q (op : DB A) :
  triple (fun db => db_ok healthy db /\ P db) op (fun a db => db_ok healthy db /\ Q a db)
    (fun e db => db_ok healthy db /\ broken healthy e) ->
  triple (fun s => relay_ok healthy s /\ P (rs_database s)) (query op)
    (fun a s => relay_ok healthy s /\ Q a (rs_database s))
    (fun e s => relay_ok healthy s /\ refusal healthy fresh e).
Proof.
  intros Hop. apply (triple_map_err _ _ _ _ (fun e s => relay_ok healthy s /\ refusal healthy fresh e)).
  eapply triple_weaken; [by apply (database_triple P Q (broken healthy))|done..|].
  intros e s [Hs Hb]. split; [done|]. by apply broken_refused.
Qed.

Lemma query_sound {A} fresh (op : DB A) :
  sound (db_ok healthy) (broken healthy) op -> OK (refusal healthy fresh) (query op).
Proof.
  intros Hop. apply sound_map_err, database_sound. eapply sound_weaken; [exact Hop|].
  intros e. apply broken_refused.
Qed.

(** ... or because the name it would give is taken, ... *)
Lemma query_taken {A} fresh (op : DB A) :
  sound (db_ok healthy) (taken healthy) op -> OK (refusal healthy fresh) (query op).
Proof.
  intros Hop. apply sound_map_err, database_sound. eapply sound_weaken; [exact Hop|].
  intros e [Hb| ->]; [by apply broken_refused|left]. unfold answered. cbn. set_solver.
Qed.

(** ... or for whatever reason, in an operation that draws. *)
Lemma query_fresh {A} (op : DB A) :
  sound (db_ok healthy) (fun _ => True) op -> OK (refusal healthy true) (query op).
Proof.
  intros Hop. apply sound_map_err, database_sound. eapply sound_weaken; [exact Hop|].
  intros e _. destruct e; cbn; [right..|left]; auto. unfold answered. cbn. set_solver.
Qed.

End primitives.
End invariant.

#[export] Hint Resolve now_millis_sound clock_readings_sound draw_sound generate_credential_sound
  on_upstream_sound lockout_is_locked_sound lockout_record_failure_sound lockout_forget_sound
  audit_record_sound push_addresses_sound tell_revoked_sound tell_disconnected_sound database_sound query_sound : sound.

(** ** The refusals the handlers spell out *)

Section refusals.
Variables healthy fresh : bool.
Abbreviation R := (refusal healthy fresh).

Lemma refusal_spelled e :
  bool_decide (ae_status e ∈ [BAD_REQUEST; UNAUTHORIZED; FORBIDDEN; NOT_FOUND; CONFLICT]) = true -> R e.
Proof. intros He. left. by apply bool_decide_eq_true in He. Qed.

Lemma bad_request_refusal message : R (bad_request message).
Proof. by apply refusal_spelled. Qed.

Lemma unauthorized_refusal message : R (unauthorized message).
Proof. by apply refusal_spelled. Qed.

Lemma forbidden_refusal message : R (forbidden message).
Proof. by apply refusal_spelled. Qed.

Lemma not_found_refusal message : R (not_found message).
Proof. by apply refusal_spelled. Qed.

Lemma conflict_refusal message : R (conflict message).
Proof. by apply refusal_spelled. Qed.

Lemma bad_requests_refused {A F} (f : F -> string) (r : result F A) e :
  map_err (fun x => bad_request (f x)) r = Err e -> R e.
Proof. destruct r; [done|]. intros [= <-]. apply bad_request_refusal. Qed.

Lemma bad_request_refused {A} (r : result string A) e : map_err bad_request r = Err e -> R e.
Proof. apply (bad_requests_refused id). Qed.

Lemma absence_refused {A} refused (o : option A) e : R refused -> ok_or refused o = Err e -> R e.
Proof. intros HR. destruct o; [done|]. by intros [= <-]. Qed.

Lemma require_text_refused value field n e : require_text value field n = Err e -> R e.
Proof.
  unfold require_text. repeat case_match; [| |done]; intros [= <-]; apply bad_request_refusal.
Qed.

Lemma validated_password_refused password e : validated_password password = Err e -> R e.
Proof. unfold validated_password. case_match; [|done]. intros [= <-]. apply bad_request_refusal. Qed.

Lemma validated_username_refused username e : validated_username username = Err e -> R e.
Proof.
  unfold validated_username. intros He. run_in He.
  destruct (require_text username USERNAME_FIELD MAX_USERNAME_LENGTH) eqn:Et.
  - destruct (any_whitespace a); [|done]. injection He as <-. apply bad_request_refusal.
  - injection He as <-. by eapply require_text_refused.
Qed.

Lemma transpose_refused {A B} (f : A -> result ApiError B) (o : option A) e :
  (forall a e', f a = Err e' -> R e') -> try_map f o = Err e -> R e.
Proof.
  intros Hf. unfold try_map. destruct o as [a|]; [cbn|done]. destruct (f a) eqn:Ea; [done|].
  intros [= <-]. by eapply Hf.
Qed.

Lemma requested_access_refused value e : requested_access value = Err e -> R e.
Proof. apply bad_request_refused. Qed.

Lemma device_note_refused note e : Devices.bounded_note note = Err e -> R e.
Proof. unfold Devices.bounded_note. case_match; [|done]. intros [= <-]. apply bad_request_refusal. Qed.

Lemma enrollment_note_refused note e : Enroll.bounded_note note = Err e -> R e.
Proof.
  unfold Enroll.bounded_note. repeat case_match; try done. intros [= <-]. apply bad_request_refusal.
Qed.

Lemma name_refused field n (name : option string) e :
  try_map (fun name => require_text name field n) name = Err e -> R e.
Proof. apply transpose_refused. intros. by eapply require_text_refused. Qed.

Lemma try_note_refused (note : option string) e : try_map Devices.bounded_note note = Err e -> R e.
Proof. apply transpose_refused, device_note_refused. Qed.

Lemma try_access_refused (access : option string) e : try_map requested_access access = Err e -> R e.
Proof. apply transpose_refused, requested_access_refused. Qed.

End refusals.

#[export] Hint Resolve bad_request_refusal unauthorized_refusal forbidden_refusal not_found_refusal
  conflict_refusal bad_requests_refused bad_request_refused absence_refused require_text_refused
  validated_password_refused validated_username_refused name_refused try_note_refused try_access_refused
  enrollment_note_refused : sound.

(** ** The API: extractors, accounts, devices *)

Section accounts.
Context `{!Protocol} `{!Platform} `{!HttpCrate} `{!ClientCrate} `{!JsonCodec} `{!SettingsCodec} `{!Argon2}
  `{!RequestCodec}.
Variables healthy fresh : bool.
Abbreviation OK m := (sound (relay_ok healthy) (refusal healthy fresh) m).

Lemma json_body_sound {A} (body : result JsonRejection A) : OK (json_body body).
Proof. unfold json_body. sound. Qed.

Lemma first_session_sound now tokens : OK (first_session now tokens).
Proof. induction tokens as [|token tokens IH]; cbn [first_session]; sound. Qed.

Hint Resolve json_body_sound first_session_sound : sound.

Lemma session_user_sound headers : OK (session_user headers).
Proof. unfold session_user. sound. Qed.

Hint Resolve session_user_sound : sound.

Lemma admin_user_sound headers : OK (admin_user headers).
Proof. unfold admin_user. sound. Qed.

Lemma build_context_sound : OK build_context.
Proof. unfold build_context. sound. Qed.

Hint Resolve admin_user_sound build_context_sound : sound.

Lemma hash_new_password_sound password : OK (hash_new_password password).
Proof. unfold hash_new_password. sound. Qed.

Lemma user_envelope_sound user : OK (user_envelope user).
Proof. unfold user_envelope. sound. Qed.

Lemma logout_sound session : OK (logout session).
Proof. unfold logout. sound. Qed.

Lemma find_known_device_sound id : OK (find_known_device id).
Proof. unfold find_known_device. sound. Qed.

Hint Resolve hash_new_password_sound user_envelope_sound find_known_device_sound : sound.

Lemma find_own_device_sound session id : OK (find_own_device session id).
Proof. unfold find_own_device. sound. Qed.

Lemma device_envelope_sound id : OK (device_envelope id).
Proof. unfold device_envelope. sound. Qed.

Hint Resolve find_own_device_sound device_envelope_sound : sound.

Lemma list_all_sound admin : OK (list_all admin).
Proof. unfold list_all. sound. Qed.

Lemma list_own_sound session : OK (list_own session).
Proof. unfold list_own. sound. Qed.

Lemma record_update_sound {E} X device update actor ip :
  sound (relay_ok healthy) X (record_update (E := E) device update actor ip).
Proof. unfold record_update. sound. Qed.

Hint Resolve record_update_sound : sound.

Lemma apply_update_sound device request actor ip : OK (apply_update device request actor ip).
Proof. unfold apply_update. sound. Qed.

Lemma revoke_sound id actor ip : OK (revoke id actor ip).
Proof. unfold revoke. sound. Qed.

Hint Resolve apply_update_sound revoke_sound : sound.

Lemma update_any_sound admin client id request : OK (update_any admin client id request).
Proof. unfold update_any. sound. Qed.

Lemma update_own_sound session client id request : OK (update_own session client id request).
Proof. unfold update_own. sound. Qed.

Lemma revoke_any_sound admin client id : OK (revoke_any admin client id).
Proof. unfold revoke_any. sound. Qed.

Lemma revoke_own_sound session client id : OK (revoke_own session client id).
Proof. unfold revoke_own. sound. Qed.

Lemma disconnect_any_sound admin client id : OK (disconnect_any admin client id).
Proof. unfold disconnect_any. sound. Qed.

Lemma count_devices_sound id : OK (count_devices id).
Proof. unfold count_devices. sound. Qed.

Lemma find_known_user_sound id : OK (find_known_user id).
Proof. unfold find_known_user. sound. Qed.

Hint Resolve count_devices_sound find_known_user_sound : sound.

Lemma account_envelope_sound user : OK (account_envelope user).
Proof. unfold account_envelope. sound. Qed.

Lemma account_views_sound users : OK (account_views users).
Proof. induction users as [|user users IH]; cbn [account_views]; sound. Qed.

Hint Resolve account_envelope_sound account_views_sound : sound.

Lemma list_accounts_sound admin : OK (list_accounts admin).
Proof. unfold list_accounts. sound. Qed.

Lemma revoke_devices_of_sound user actor ip : OK (revoke_devices_of user actor ip).
Proof. unfold revoke_devices_of. sound. Qed.

Lemma requested_hash_sound password : OK (requested_hash password).
Proof. unfold requested_hash. sound. Qed.

Hint Resolve revoke_devices_of_sound requested_hash_sound : sound.

Lemma update_account_sound admin client id request : OK (update_account admin client id request).
Proof. unfold update_account. sound. Qed.

(** A drawn id that answers makes an account unless the name is taken. *)
Lemma create_account_sound admin client request : OK (create_account admin client request).
Proof.
  unfold create_account. apply sound_bind; [sound|intros username]. apply sound_bind; [sound|intros password].
  apply sound_bind; [sound|intros hash]. eapply triple_bind; [apply draw_answers|intros random].
  apply (triple_bind _ _ _ (fun _ s => relay_ok healthy s
    /\ (healthy = true -> forall size, exists drawn, random size = Ok drawn))).
  { intros s [Hs Hr]. split; [|exact Hr]. by apply (same_parts_ok healthy s). }
  intros now s [Hs Hr]. revert s Hs. change (OK (user ← query (create_user (random IDENTIFIER_BYTES) now username hash (cu_role request));
    audit_record
      (detail "role" (Value_String (UserRole_as_str (cu_role request)))
         (detail "username" (Value_String username)
            (from_ip (cc_ip client) (on_target target.USER (us_id user)
               (by_user (us_id (su_user admin)) action.USER_CREATED))))) ;;
    account_envelope user)).
  apply sound_bind; [|sound]. apply query_taken, create_user_sound; [done|].
  intros e He. left. apply not_true_is_false. intros Ht. destruct (Hr Ht IDENTIFIER_BYTES). congruence.
Qed.

(** The last statement finds nothing that refers to the account. *)
Lemma delete_account_sound admin client id : OK (delete_account admin client id).
Proof.
  unfold delete_account. destruct (String.eqb _ _); [sound|]. apply sound_bind; [sound|intros user].
  apply sound_bind; [sound|intros _].
  set (free := owns_nothing (us_id user)).
  apply (triple_bind _ _ _ (fun _ s => relay_ok healthy s /\ free (rs_database s))).
  { eapply triple_weaken; [apply (query_triple healthy fresh (fun _ => True) (fun _ => free))|naive_solver..].
    intros db [Hdb _]. by apply disown_devices_of_effect. }
  intros _. apply (triple_bind _ _ _ (fun _ s => relay_ok healthy s /\ free (rs_database s))).
  { apply (query_triple healthy fresh free (fun _ => free)).
    apply (sound_keeps _ _ _ db_devices (fun m => forall d row, m !! d = Some row -> dr_owner_user_id row <> Some (us_id user)));
      [apply delete_sessions_of_user_sound|apply delete_sessions_of_user_keeps]. }
  intros _. apply (triple_bind _ _ _ (fun _ => relay_ok healthy)); [|sound].
  eapply triple_weaken; [apply (query_triple healthy fresh free (fun _ _ => True))|naive_solver..].
  eapply triple_weaken; [apply delete_user_free|naive_solver..].
Qed.

End accounts.

#[export] Hint Resolve json_body_sound session_user_sound admin_user_sound build_context_sound
  hash_new_password_sound user_envelope_sound logout_sound list_all_sound list_own_sound
  update_any_sound update_own_sound revoke_any_sound revoke_own_sound disconnect_any_sound
  list_accounts_sound create_account_sound update_account_sound delete_account_sound : sound.

(** Operations that draw a value which may be taken. *)
Section drawing.
Context `{!Protocol} `{!Platform} `{!HttpCrate} `{!ClientCrate} `{!JsonCodec} `{!SettingsCodec} `{!Argon2}
  `{!RequestCodec}.
Variable healthy : bool.
Abbreviation OK m := (sound (relay_ok healthy) (refusal healthy true) m).

Hint Resolve query_fresh create_session_sound create_device_sound create_enrollment_sound : sound.

Lemma login_sound client request : OK (login client request).
Proof. unfold login. sound. Qed.

Lemma change_password_sound client session request : OK (change_password client session request).
Proof. unfold change_password. sound. Qed.

Lemma internal_refused {A F} (r : result F A) e :
  map_err (fun _ => internal) r = Err e -> refusal healthy true e.
Proof. destruct r; [done|]. intros [= <-]. right. auto. Qed.

Hint Resolve internal_refused : sound.

Lemma issue_device_sound kind owner name : OK (issue_device kind owner name).
Proof. unfold issue_device. sound. Qed.

Lemma find_redeemable_sound code : OK (find_redeemable code).
Proof. unfold find_redeemable. sound. Qed.

Lemma settle_enrollment_sound enrollment credential : OK (settle_enrollment enrollment credential).
Proof. unfold settle_enrollment. sound. Qed.

Hint Resolve issue_device_sound find_redeemable_sound settle_enrollment_sound : sound.

Lemma enroll_with_code_sound code name : OK (enroll_with_code code name).
Proof. unfold enroll_with_code. sound. Qed.

Lemma enroll_with_password_sound username password name : OK (enroll_with_password username password name).
Proof. unfold enroll_with_password. sound. Qed.

(** The outcome of a sound computation that is looked at and passed on. *)
Lemma try_sound {A B} X (m : App ApiError A) (f : result ApiError A -> App ApiError B) :
  sound (relay_ok healthy) X m -> (forall a, sound (relay_ok healthy) X (f (Ok a))) ->
  (forall e, X e -> sound (relay_ok healthy) X (f (Err e))) ->
  sound (relay_ok healthy) X (outcome ← se_try m; f outcome).
Proof.
  intros Hm Hok Herr s Hs. unfold mbind, se_bind, se_try. specialize (Hm s Hs).
  destruct (m s) as [[a|e] s']; [by apply Hok|]. destruct Hm. by apply Herr.
Qed.

Lemma enroll_sound client request : OK (enroll client request).
Proof.
  unfold enroll. apply sound_bind; [sound|intros locked]. destruct locked; [sound|].
  apply try_sound; [|intros; sound|intros e He; sound].
  destruct request; [apply enroll_with_code_sound|apply enroll_with_password_sound].
Qed.

Lemma normalized_owner_sound owner : OK (normalized_owner owner).
Proof. unfold normalized_owner. sound. Qed.

Hint Resolve normalized_owner_sound : sound.

Lemma create_code_sound admin client request : OK (create_code admin client request).
Proof. unfold create_code. sound. Qed.

End drawing.

(** ** The upstream link *)

Section upstream.
Context `{!Protocol} `{!HttpCrate} `{!ClientCrate} `{!JsonCodec} `{!SettingsCodec}.
Variable healthy : bool.

Lemma withdraw_sound {E} X settings reason : sound (relay_ok healthy) X (withdraw (E := E) settings reason).
Proof. unfold withdraw, record_disconnected. sound. Qed.

Lemma adopt_sound {E} X settings welcome : sound (relay_ok healthy) X (adopt (E := E) settings welcome).
Proof. unfold adopt, record_connected. sound. Qed.

Lemma pump_event_sound {E} X welcome event : sound (relay_ok healthy) X (pump_event (E := E) welcome event).
Proof. unfold pump_event, handle_message, handle_control. sound. Qed.

Hint Resolve withdraw_sound adopt_sound pump_event_sound : sound.

Lemma pump_loop_sound {E} X welcome events : sound (relay_ok healthy) X (pump_loop (E := E) welcome events).
Proof. induction events as [|event events IH]; cbn [pump_loop]; sound. Qed.

Hint Resolve pump_loop_sound : sound.

Lemma pump_sound {E} X welcome sent events : sound (relay_ok healthy) X (pump (E := E) welcome sent events).
Proof. unfold pump. sound. Qed.

Hint Resolve pump_sound : sound.

Lemma run_sound {E} X settings attempt : sound (relay_ok healthy) X (run (E := E) settings attempt).
Proof. unfold run. sound. Qed.

Lemma forget_sound {E} X settings reason : sound (relay_ok healthy) X (forget (E := E) settings reason).
Proof. unfold forget. sound. Qed.

Hint Resolve run_sound forget_sound : sound.

Lemma supervise_loop_sound {E} X settings rounds : forall backoff,
  sound (relay_ok healthy) X (supervise_loop (E := E) settings backoff rounds).
Proof.
  induction rounds as [|[attempt slept] rounds IH]; intros backoff; cbn [supervise_loop]; sound.
Qed.

Lemma supervise_sound {E} X settings rounds : sound (relay_ok healthy) X (supervise (E := E) settings rounds).
Proof. apply supervise_loop_sound. Qed.

Abbreviation OK m := (sound (relay_ok healthy) (fun _ => True) m).

Lemma stored_sound {A} (f : DatabaseError -> string) (op : DB A) :
  sound (db_ok healthy) (broken healthy) op -> OK (se_map_err f (database op)).
Proof. intros Hop. apply sound_map_err, database_sound. by eapply sound_weaken. Qed.

Lemma lift_any {E A} (r : result E A) : OK (se_lift r).
Proof. by apply sound_lift. Qed.

Hint Resolve stored_sound lift_any : sound.

Lemma join_sound exchange url code name fingerprint : OK (join exchange url code name fingerprint).
Proof. unfold join. sound. Qed.

Hint Resolve join_sound : sound.

Lemma establish_sound exchange url code name fingerprint actor :
  OK (establish exchange url code name fingerprint actor).
Proof. unfold establish. sound. Qed.

Hint Resolve establish_sound : sound.

Lemma connect_sound exchange url code fingerprint actor :
  OK (UpstreamSession.connect exchange url code fingerprint actor).
Proof. unfold UpstreamSession.connect. sound. Qed.

Lemma disconnect_sound actor : OK (UpstreamSession.disconnect actor).
Proof. unfold UpstreamSession.disconnect. sound. Qed.

Lemma resume_sound {E} X : sound (relay_ok healthy) X (resume (E := E)).
Proof.
  unfold resume. apply sound_bind; [|sound]. eapply sound_try, on_database_sound, load_sound.
Qed.

End upstream.

#[export] Hint Resolve run_sound supervise_sound establish_sound connect_sound disconnect_sound
  resume_sound : sound.

(** ** The table of endpoints *)

(** The endpoints that store a value they draw: a device id, a session, a code. *)
Definition draws_fresh (endpoint : Endpoint) : bool :=
  match endpoint with
  | Endpoint_Enroll | Endpoint_Login | Endpoint_ChangePassword | Endpoint_CreateEnrollment => true
  | _ => false
  end.

Section endpoints.
Context `{!Protocol} `{!Platform} `{!HttpCrate} `{!ClientCrate} `{!JsonCodec} `{!SettingsCodec} `{!Argon2}
  `{!RequestCodec}.

Section served.
Variables healthy fresh : bool.
Abbreviation OK m := (sound (relay_ok healthy) (refusal healthy fresh) m).

Lemma list_codes_sound admin : OK (list_codes admin).
Proof. unfold list_codes. sound. Qed.

Lemma cancel_code_sound admin client id : OK (cancel_code admin client id).
Proof. unfold cancel_code. sound. Qed.

Lemma list_relays_sound admin : OK (list_relays admin).
Proof. unfold list_relays. sound. Qed.

Lemma fingerprint_refused value e : optional_fingerprint value = Err e -> refusal healthy fresh e.
Proof. apply bad_request_refused. Qed.

Hint Resolve fingerprint_refused : sound.

(** Whatever goes wrong with the link is a bad request. *)
Lemma bad_request_sound {A} (m : App string A) :
  sound (relay_ok healthy) (fun _ => True) m -> OK (se_map_err bad_request m).
Proof.
  intros Hm. apply sound_map_err. eapply sound_weaken; [exact Hm|]. intros e _. apply bad_request_refusal.
Qed.

Hint Resolve bad_request_sound : sound.

Lemma set_upstream_sound exchange admin request : OK (set_upstream exchange admin request).
Proof. unfold set_upstream. sound. Qed.

Lemma clear_upstream_sound admin : OK (clear_upstream admin).
Proof. unfold clear_upstream. sound. Qed.

Lemma list_events_sound admin parameters : OK (list_events admin parameters).
Proof. unfold list_events. sound. Qed.

Lemma path_id_sound id : OK (path_id id).
Proof. unfold path_id. apply sound_lift. intros e. apply absence_refused, bad_request_refusal. Qed.

Lemma api_query_sound q : OK (api_query q).
Proof. unfold api_query. sound. Qed.

Lemma map_answer_sound {A} (f : A -> ApiAnswer) (m : App ApiError A) : OK m -> OK (map_answer f m).
Proof. intros Hm. unfold map_answer. sound. Qed.

End served.

Hint Resolve list_codes_sound cancel_code_sound list_relays_sound set_upstream_sound clear_upstream_sound
  list_events_sound path_id_sound api_query_sound map_answer_sound login_sound change_password_sound
  enroll_sound create_code_sound : sound.

Lemma serve_endpoint_sound healthy exchange headers peer q body endpoint :
  sound (relay_ok healthy) (refusal healthy (draws_fresh endpoint))
    (serve_endpoint exchange headers peer q body endpoint).
Proof. destruct endpoint; cbn [serve_endpoint draws_fresh]; unfold me; sound. Qed.

End endpoints.

#[export] Hint Resolve serve_endpoint_sound : sound.

(** ** The front door *)

Section server.
Context `{!Protocol} `{!Platform} `{!HttpCrate} `{!ClientCrate} `{!JsonCodec} `{!SettingsCodec} `{!Argon2}
  `{!RequestCodec} `{!ApiJson} `{!ConsoleBundle}.
Variable healthy : bool.
Abbreviation OK X m := (sound (relay_ok healthy) X m).

Lemma first_signed_in_sound' {E} X now tokens : OK X (first_signed_in (E := E) now tokens).
Proof. induction tokens as [|token tokens IH]; cbn [first_signed_in]; sound. Qed.

Hint Resolve first_signed_in_sound' : sound.

Lemma guard_sound' {E} X headers device target query : OK X (guard (E := E) headers device target query).
Proof. unfold guard, signed_in_user. sound. Qed.

Lemma offline_page_sound {E} X name seen : OK X (offline_page (E := E) name seen).
Proof. unfold offline_page. sound. Qed.

Hint Resolve guard_sound' offline_page_sound : sound.

Lemma unreachable_page_sound {E} X id record : OK X (unreachable_page (E := E) id record).
Proof. unfold unreachable_page. sound. Qed.

Lemma bridge_websocket_sound {E} X net parts : OK X (bridge_websocket (E := E) net parts).
Proof. unfold bridge_websocket. sound. Qed.

Hint Resolve unreachable_page_sound bridge_websocket_sound : sound.

Lemma forward_sound {E} X net client target request : OK X (forward (E := E) net client target request).
Proof. unfold forward. sound. Qed.

Hint Resolve forward_sound : sound.

Lemma forward_to_device_sound {E} X net peer target request :
  OK X (forward_to_device (E := E) net peer target request).
Proof. unfold forward_to_device. sound. Qed.

Lemma authenticate_sound headers : OK (fun _ => True) (authenticate headers).
Proof.
  unfold authenticate. apply sound_bind; [by apply sound_lift|intros credential].
  apply sound_bind; [|sound].
  apply sound_map_err, database_sound. by eapply sound_weaken; [apply find_device_sound|].
Qed.

Hint Resolve forward_to_device_sound authenticate_sound : sound.

Lemma upgrade_sound headers peer : OK (fun _ => True) (upgrade headers peer).
Proof. unfold upgrade. sound. Qed.

Hint Resolve upgrade_sound : sound.

Lemma dispatch_sound {E} X net peer request : OK X (dispatch (E := E) net peer request).
Proof. unfold dispatch. sound. Qed.

Hint Resolve dispatch_sound : sound.

Lemma respond_sound {E} X (m : App E (Response * Crossing)) : OK X m -> OK X (respond m).
Proof. intros Hm. unfold respond. sound. Qed.

Hint Resolve respond_sound : sound.

Lemma serve_request_sound {E} X world request : OK X (serve_request (E := E) world request).
Proof.
  unfold serve_request, route_device_host, with_csrf_marker, route_request, get_only, serve_tunnel. sound.
Qed.

Lemma shut_down_on_sound {E} X signal : OK X (shut_down_on (E := E) signal).
Proof. unfold shut_down_on. sound. Qed.

(** ** The tunnels *)

(** How many sequence numbers a control frame may draw. *)
Definition frame_draws (frame : ControlFrame) : N :=
  match frame with
  | ControlFrame_Announce devices => N.of_nat (length devices)
  | ControlFrame_DeviceOnline _ _ _ => 1
  | _ => 0
  end.

(** The counter has room for [n] more. *)
Definition room (n : N) (r : Registry) : Prop := (reg_sequence r + n < u64_modulus)%N.

(** Something is known of the table over the steps that leave it alone. *)
Lemma room_kept {E A} X (m : App E A) P :
  OK X m -> preserves (keeps rs_registry) m ->
  triple (fun s => relay_ok healthy s /\ P (rs_registry s)) m
    (fun _ s => relay_ok healthy s /\ P (rs_registry s)) (fun e s => relay_ok healthy s /\ X e).
Proof. apply sound_keeps. Qed.

Lemma open_session_triple {E} (X : E -> Prop) device peer hello channel :
  triple (fun s => relay_ok healthy s /\ room 1 (rs_registry s))
    (open_session (E := E) device peer hello channel)
    (fun _ => relay_ok healthy) (fun e s => relay_ok healthy s /\ X e).
Proof.
  unfold open_session. eapply triple_bind.
  { apply (room_kept X _ (room 1)); [|frame]. apply on_channels_sound. intros chans Hc i q.
    intros [[<- <-]|[_ Hq]]%lookup_insert_Some; [cbn; lia|by eapply Hc]. }
  intros ?. eapply triple_bind; [apply (room_kept X _ (room 1)); [sound|frame]|intros now].
  eapply triple_bind.
  { apply (on_registry_triple healthy (room 1)). intros r Hwf Hn Hr.
    split; [by apply connect_good|by apply connect_named]. }
  intros registration. cbn beta. change (OK X (match rg_displaced registration with
    | Some previous => on_channels (close previous CLOSE_GOING_AWAY REASON_REPLACED)
    | None => mret tt
    end ;;
    now ← now_millis;
    se_try (database (record_device_connection now (dv_id device) peer (he_version hello))) ;;
    audit_record
      (detail "version" (Value_String (he_version hello))
         (detail "kind" (Value_String (kind_label hello))
            (from_ip peer (by_device (dv_id device) action.TUNNEL_CONNECTED)))) ;;
    mret (mkTunnelHandle (dv_id device) channel, registration))).
  sound. apply on_channels_sound. intros chans. apply try_send_bounded.
Qed.

Lemma handle_control_frame_triple {E} (X : E -> Prop) handle kind frame :
  triple (fun s => relay_ok healthy s /\ room (frame_draws frame) (rs_registry s))
    (handle_control_frame (E := E) handle kind frame)
    (fun _ => relay_ok healthy) (fun e s => relay_ok healthy s /\ X e).
Proof.
  assert (Hsound : forall (m : App E unit), OK X m ->
    triple (fun s => relay_ok healthy s /\ room (frame_draws frame) (rs_registry s)) m
      (fun _ => relay_ok healthy) (fun e s => relay_ok healthy s /\ X e)).
  { intros m Hm. eapply triple_weaken; [exact Hm|naive_solver..]. }
  assert (Hpong : OK X (on_channels (E := E) (send_frame handle ControlFrame_Pong))).
  { apply on_channels_sound. intros chans. apply try_send_bounded. }
  assert (Hoff : forall now id, OK X (on_registry (E := E)
      (fun r => (tt, withdraw_device now (th_device_id handle) id r)))).
  { intros now id. apply on_registry_sound. intros r Hwf Hn. split; [by apply withdraw_good|by apply withdraw_named]. }
  unfold handle_control_frame. destruct frame, kind; try solve [apply Hsound; sound]; cbn [frame_draws].
  - eapply triple_bind; [apply (room_kept X _ (room (N.of_nat (length devices)))); [sound|frame]|intros size].
    eapply triple_bind; [apply (room_kept X _ (room (N.of_nat (length devices)))); [sound|frame]|intros clock].
    apply (on_registry_triple healthy (room (N.of_nat (length devices)))). intros r Hwf Hn Hr.
    split; [by apply apply_good|by apply apply_named].
  - eapply triple_bind; [apply (room_kept X _ (room 1)); [sound|frame]|intros now].
    eapply triple_bind; [|intros ?; apply sound_ret].
    apply (on_registry_triple healthy (room 1)). intros r Hwf Hn Hr.
    split; [by apply announce_good|by apply announce_named].
Qed.

Lemma close_session_sound {E} X device peer handle registration cause :
  OK X (close_session (E := E) device peer handle registration cause).
Proof.
  unfold close_session. apply sound_bind; [apply on_channels_sound; intros chans; apply try_send_bounded|intros ?].
  apply sound_bind.
  { apply on_channels_sound. intros chans Hc i q [_ Hq]%lookup_delete_Some. by apply (Hc i). }
  intros ?. apply sound_bind; [|sound]. apply on_registry_sound. intros r Hwf Hn.
  split; [by apply disconnect_good|by apply disconnect_named].
Qed.

(** ** Starting up and the commands *)

Hint Resolve stored_sound lift_any : sound.

Lemma fresh_password_sound : OK (fun _ => True) fresh_password.
Proof. unfold fresh_password. sound. Qed.

Lemma described_any {A} prefix (op : DB A) :
  sound (db_ok healthy) (fun _ => True) op -> OK (fun _ => True) (described prefix op).
Proof. intros Hop. by apply sound_map_err, database_sound. Qed.

Lemma described_sound {A} prefix (op : DB A) :
  sound (db_ok healthy) (broken healthy) op -> OK (fun _ => True) (described prefix op).
Proof. intros Hop. apply described_any. by eapply sound_weaken. Qed.

Hint Resolve fresh_password_sound described_sound : sound.

Lemma ensure_admin_exists_sound : OK (fun _ => True) ensure_admin_exists.
Proof.
  unfold ensure_admin_exists. sound. apply described_any. by apply create_user_sound.
Qed.

Lemma reset_password_sound args : OK (fun _ => True) (reset_password args).
Proof. unfold reset_password. sound. Qed.

Hint Resolve ensure_admin_exists_sound : sound.

(** A start begins with an empty table and no tunnels, whatever ran before. *)
Lemma fresh_state_ok args relay_id s : relay_ok healthy s -> relay_ok healthy (fresh_state args relay_id s).
Proof.
  intros [Hwf Hw]. split; [|done]. split; [apply Hwf|apply new_wf|apply new_named|done|]. by intros channel queue.
Qed.

Lemma prepare_sound args generated : OK (fun _ => True) (prepare args generated).
Proof.
  unfold prepare. sound.
  - apply described_any, read_or_initialize_setting_sound.
  - apply sound_modify. apply fresh_state_ok.
Qed.

Lemma link_name_sound requested : sound (db_ok healthy) (fun _ => True) (link_name requested).
Proof. unfold link_name. sound. Qed.

Lemma link_command_sound exchange args : OK (fun _ => True) (link_command exchange args).
Proof.
  unfold link_command. apply sound_bind; [apply on_database_sound, link_name_sound|sound].
Qed.

End server.
