(* ===== verification/ApiTheorems.v ===== *)
(** * Who may call what

    The theorem about [Api] as a whole: the gate in front of the administrator's endpoints and of an
    owner's own devices. *)

From S2P Require Import Prelude.
From S2P Require Import RustStr.
From S2P Require Import Protocol.
From S2P Require Import Handle.
From S2P Require Import Registry.
From S2P Require Import Config.
From S2P Require Import Database.
From S2P Require Import Auth.
From S2P Require Import Address.
From S2P Require Import Http.
From S2P Require Import Upstream.
From S2P Require Import State.
From S2P Require Import Access.
From S2P Require Import ApiError.
From S2P Require Import Tunnel.
From S2P Require Import TunnelTheorems.
From S2P Require Import UpstreamSession.
From S2P Require Import UpstreamTheorems.
From S2P Require Import Views.
From S2P Require Import Accounts.
From S2P Require Import Enroll.
From S2P Require Import Devices.
From S2P Require Import DeviceTheorems.
From S2P Require Import Api.

(** ** What is meant *)

Definition is_admin_endpoint (e : Endpoint) : bool :=
  match e with
  | Endpoint_Health | Endpoint_Enroll | Endpoint_Login | Endpoint_Logout | Endpoint_Me
  | Endpoint_ChangePassword | Endpoint_ListOwn | Endpoint_UpdateOwn _ | Endpoint_RevokeOwn _ => false
  | _ => true
  end.

Section definitions.
Context `{Protocol} `{HttpCrate}.

(** The caller of the request is signed in as [user]. *)
Definition signed_in_as (headers : HeaderMap) (s : RelayState) (user : UserRecord) : Prop :=
  exists token session, token ∈ read_session_cookies (cookie_fields headers)
    /\ live_session (rs_database s) token (rs_clock s (rs_reads s)) session user.

(** Everything stored but the sessions, the audit trail and the faults. *)
Definition without_sessions (s : RelayState) : Database := set_sessions (fun _ => ∅) (stored s).

(** A refusal: nothing changed but sessions the check itself ended or extended. *)
Definition refused {A} (s : RelayState) (answer : result ApiError A) (s' : RelayState) : Prop :=
  is_ok answer = false /\ same_routing s s' /\ without_sessions s' = without_sessions s
  /\ rs_lockout s' = rs_lockout s.

End definitions.

(** ** Lemmas: the session check *)

Section gate.
Context `{!Protocol} `{!HttpCrate}.

Definition sessions_only (db : Database) : Database := set_sessions (fun _ => ∅) (tables db).

Lemma resolve_session_keeps token now : preserves (keeps sessions_only) (resolve_session token now).
Proof.
  assert (Hst : forall A (f : Database -> result SqliteError (A * Database)),
    (forall db a db', f db = Ok (a, db') -> sessions_only db' = sessions_only db) ->
    preserves (keeps sessions_only) (sql (statement f))).
  { intros A f Hf. apply preserves_map_err. intros db. unfold keeps, statement.
    destruct (db_faults db) as [|[] faults]; [| |]; try done;
      destruct (f _) as [[a db']|e] eqn:E; try done; (etrans; [apply (Hf _ _ _ E)|done]). }
  assert (Hsel : forall A (f : Database -> A), preserves (keeps sessions_only) (sql (select f))).
  { intros A f. apply Hst. by intros db a db' [= _ <-]. }
  assert (Hdel : forall h, preserves (keeps sessions_only) (delete_session h)).
  { intros h. apply Hst. by intros db a db' [= _ <-]. }
  assert (Hext : forall h e, preserves (keeps sessions_only) (extend_session h e)).
  { intros h e. apply preserves_bind; [tc_solve| |by intros]. apply Hst. intros db a db' Hu.
    destruct (db_sessions db !! h); by injection Hu as _ <-. }
  unfold resolve_session, find_session, find_user, read_user. frame.
Qed.

Lemma first_session_frame now tokens :
  preserves same_routing (first_session now tokens)
  /\ preserves (keeps without_sessions) (first_session now tokens)
  /\ preserves (keeps rs_lockout) (first_session now tokens).
Proof.
  assert (Hq : forall token, preserves (keeps without_sessions) (query (resolve_session token now))
                             /\ preserves (keeps rs_lockout) (query (resolve_session token now))).
  { intros token. split; apply preserves_map_err; intros s; rewrite database_run; [|done].
    apply (resolve_session_keeps token now (rs_database s)). }
  induction tokens as [|token rest (IH1 & IH2 & IH3)]; cbn [first_session]; [split_and!; frame|].
  split_and!; (apply preserves_bind; [tc_solve|first [apply Hq|frame]|intros [user|]; frame]).
Qed.

Lemma first_session_live now tokens (s s' : RelayState) session :
  first_session now tokens s = (Ok session, s') ->
  exists row, su_token session ∈ tokens
    /\ live_session (rs_database s) (su_token session) now row (su_user session).
Proof.
  revert s. induction tokens as [|token rest IH]; intros s; [done|]. cbn [first_session].
  intros (account & s1 & Hq & Hr)%se_bind_ok. apply query_ok in Hq as (db & Hq & ->).
  destruct account as [user|].
  - injection Hr as <- _. apply resolve_session_some in Hq as (row & Hlive & _).
    exists row. split; [left|done].
  - apply IH in Hr as (row & Hin & (Hs & Hlt & (urow & Hurow & Hread) & Hd)).
    apply resolve_session_none in Hq as [Hsub Husers]. cbn in *. exists row.
    split; [by right|]. split_and!; [|done| |done].
    + eapply lookup_weaken; [exact Hs|exact Hsub].
    + exists urow. by rewrite <- Husers.
Qed.

(** Whatever stands behind [session_user] runs for a signed-in caller or not at all. *)
Lemma session_gate {A} headers (rest : SessionUser -> App ApiError A) (s s' : RelayState) answer :
  (session ← session_user headers; rest session) s = (answer, s') ->
  (exists session s1, signed_in_as headers s (su_user session) /\ rest session s1 = (answer, s')
     /\ same_routing s s1 /\ without_sessions s1 = without_sessions s /\ rs_lockout s1 = rs_lockout s)
  \/ refused s answer s'.
Proof.
  unfold session_user. set (tokens := read_session_cookies (cookie_fields headers)).
  set (now := rs_clock s (rs_reads s)). set (s0 := tick (S (rs_reads s)) (rs_draws s) s).
  destruct (first_session_frame now tokens) as (Hr & Hk & Hl). specialize (Hr s0). specialize (Hk s0).
  specialize (Hl s0).
  assert (Hu : forall t : App ApiError SessionUser, t s0 = first_session now tokens s0 ->
    (now ← now_millis; first_session now tokens) s = first_session now tokens s0)
    by (intros; by erewrite se_bind_eq by reflexivity).
  specialize (Hu _ eq_refl).
  destruct (first_session now tokens s0) as [[session|e] s1] eqn:Ef.
  - erewrite se_bind_eq by exact Hu. intros Hrest. left. exists session, s1.
    apply first_session_live in Ef as (row & Hin & Hlive). split; [by exists (su_token session), row|].
    split; [done|]. split; [exact Hr|]. split; [exact Hk|exact Hl].
  - erewrite se_bind_err by exact Hu. intros [= <- <-]. right. by split_and!.
Qed.

Lemma admin_gate {A} headers (rest : SessionUser -> App ApiError A) (s s' : RelayState) answer :
  (admin ← admin_user headers; rest admin) s = (answer, s') ->
  (exists user, signed_in_as headers s user /\ us_role user = UserRole_Admin) \/ refused s answer s'.
Proof.
  intros Hrun.
  assert (Hassoc : (session ← session_user headers;
     admin ← (if negb (is_admin (us_role (su_user session))) then se_fail (forbidden ADMIN_REQUIRED)
              else mret session); rest admin) s = (answer, s')).
  { rewrite <- Hrun. unfold admin_user, mbind, se_bind. by destruct (session_user headers s) as [[]]. }
  apply session_gate in Hassoc as [(session & s1 & Hs & Hrest & Hr & Hk & Hl)|]; [|by right].
  destruct (us_role (su_user session)) eqn:Erole; cbn in Hrest.
  - left. by exists (su_user session).
  - right. injection Hrest as <- <-. by split_and!.
Qed.

Lemma find_own_device_ok session id (s s' : RelayState) device :
  find_own_device session id s = (Ok device, s') ->
  exists row, devices_of s !! id = Some row /\ dr_owner_user_id row = Some (us_id (su_user session)).
Proof.
  unfold find_own_device, find_known_device. intros (d & s1 & Hf & Hr)%se_bind_ok.
  apply se_bind_ok in Hf as (found & s2 & Hq & Hf). apply query_ok in Hq as (db & Hq & ->).
  apply find_device_ok in Hq as [Hrow _]. injection Hf as Hf _. destruct found as [d'|]; [|done].
  injection Hf as ->. case_bool_decide as Ho; [|done]. unfold devices_of.
  destruct (db_devices (rs_database s) !! id) as [row|]; [|done]. exists row. split; [done|].
  cbn in Hrow. unfold read_device_row in Hrow. run_in Hrow.
  destruct (parse_device_row _ _) as [[k a]|]; [|done]. by injection Hrow as <-.
Qed.

End gate.

(** ** Lemmas: the paths under [/api/admin/] *)

Lemma starts_with_split s p : starts_with s p = true -> exists rest, s = p +:+ rest.
Proof.
  unfold starts_with. intros [rest Hs]%bool_decide_eq_true. exists rest. by apply strip_prefix_Some.
Qed.

Definition only_admin (m : RouteMatch) : bool :=
  match m with
  | RouteMatch_Found endpoint => is_admin_endpoint endpoint
  | _ => true
  end.

Lemma only_admin_methods method g p t d :
  forallb (fun o => match o with Some e => is_admin_endpoint e | None => true end) [g; p; t; d] = true ->
  only_admin (methods method g p t d) = true.
Proof.
  cbn. rewrite !andb_true_iff. intros (Hg & Hp & Ht & Hd & _). unfold methods.
  destruct method; cbn; [destruct g|destruct g| |destruct p|destruct t|destruct d|]; done.
Qed.

Lemma only_admin_id id m : only_admin m = true -> only_admin (with_id id m) = true.
Proof. unfold with_id. by destruct (is_empty id). Qed.

Lemma admin_route_admin method segments : only_admin (admin_route method segments) = true.
Proof.
  unfold admin_route, on_get, on_post, on_patch, on_delete.
  repeat first [exact eq_refl | apply only_admin_id | by apply only_admin_methods | case_match].
Qed.

Lemma admin_path_route `{!Protocol} `{!ProtocolLaws _} method rest endpoint :
  api_router method ("/api/admin/" +:+ rest) = RouteMatch_Found endpoint ->
  is_admin_endpoint endpoint = true.
Proof.
  unfold api_router. destruct api_paths as (-> & -> & _).
  replace (String.eqb ("/api/admin/" +:+ rest) "/api/health") with false by done.
  replace (String.eqb ("/api/admin/" +:+ rest) "/api/enroll") with false by done.
  change ("/api/admin/" +:+ rest) with ("" +:+ String slash ("api" +:+ String slash ("admin" +:+ String slash rest))).
  rewrite !split_cons by done. intros Hr.
  pose proof (admin_route_admin method (split slash rest)) as Ha. cbn in Hr. by rewrite Hr in Ha.
Qed.

(** ** Properties *)

Section theorems.
Context `{!Protocol} `{!ProtocolLaws _} `{!Platform} `{!HttpCrate} `{!ClientCrate} `{!JsonCodec}
  `{!SettingsCodec} `{!Argon2} `{!RequestCodec}.

(** C39: the gate in front of the console's endpoints.  Every handler a path under [/api/admin/] names is
    an administrator's; such a handler only runs when one of the request's cookies is the token of a
    live session of an administrator in good standing, and otherwise the answer is a refusal that
    changed no route, no tunnel, no lockout and nothing stored but the sessions the check itself ended
    or extended.  A device's owner reaches the two handlers of their own devices only signed in, and
    those succeed only on a device the signed-in account owns. *)
Theorem api_gate (exchange : Exchange) (headers : HeaderMap) (peer : SocketAddr) (query : option string)
    (body path : string) (method : Method) (endpoint : Endpoint) (s s' : RelayState)
    (answer : result ApiError ApiAnswer) :
  api_router method path = RouteMatch_Found endpoint ->
  serve_endpoint exchange headers peer query body endpoint s = (answer, s') ->
  (starts_with path "/api/admin/" = true -> is_admin_endpoint endpoint = true)
  /\ (is_admin_endpoint endpoint = true ->
        (exists user, signed_in_as headers s user /\ us_role user = UserRole_Admin)
        \/ refused s answer s')
  /\ (forall id, endpoint = Endpoint_UpdateOwn id \/ endpoint = Endpoint_RevokeOwn id ->
        is_ok answer = true ->
        exists user device_id row, signed_in_as headers s user /\ path_segment id = Some device_id
          /\ devices_of s !! device_id = Some row /\ dr_owner_user_id row = Some (us_id user)).
Proof.
  intros Hroute Hserve. split; [|split].
  - intros [rest ->]%starts_with_split. by apply admin_path_route in Hroute.
  - intros Hadmin. destruct endpoint; try done; cbn [serve_endpoint] in Hserve; by apply admin_gate in Hserve.
  - intros id Hown Hok.
    assert (Hfound : exists session s1 device_id device s2, signed_in_as headers s (su_user session)
      /\ without_sessions s1 = without_sessions s /\ path_segment id = Some device_id
      /\ find_own_device session device_id s1 = (Ok device, s2)).
    { destruct answer as [a|]; [|done].
      destruct Hown as [-> | ->]; cbn [serve_endpoint] in Hserve;
        (apply session_gate in Hserve as [(session & s1 & Hs & Hrest & _ & Hk & _)|[Hno _]]; [|done]);
        revert Hrest; erewrite se_bind_eq by reflexivity; intros (device_id & s2 & Hp & Hr)%se_bind_ok;
        (unfold path_id, se_lift, ok_or in Hp; destruct (path_segment id) as [i|] eqn:Ei; [|done]);
        injection Hp as -> <-.
      - apply se_bind_ok in Hr as (request & s3 & Hj & Hr). unfold json_body, se_lift in Hj.
        injection Hj as _ <-. unfold map_answer, update_own in Hr.
        apply se_bind_ok in Hr as (v & s4 & Hv & _). apply se_bind_ok in Hv as (device & s5 & Hf & _).
        by exists session, s1, device_id, device, s5.
      - unfold map_answer, revoke_own in Hr.
        apply se_bind_ok in Hr as (v & s4 & Hv & _). apply se_bind_ok in Hv as (device & s5 & Hf & _).
        by exists session, s1, device_id, device, s5. }
    destruct Hfound as (session & s1 & device_id & device & s2 & Hs & Hk & Hp & Hf).
    apply find_own_device_ok in Hf as (row & Hrow & Ho).
    assert (Hdev : devices_of s1 = devices_of s) by apply (f_equal db_devices Hk).
    exists (su_user session), device_id, row. by rewrite <- Hdev.
Qed.

End theorems.

(** ** Witness *)

#[export] Instance sample_requests : RequestCodec := {|
  login_request _ _ := Err JsonRejection_JsonSyntaxError;
  password_request _ _ := Err JsonRejection_JsonSyntaxError;
  enroll_request _ _ := Err JsonRejection_JsonSyntaxError;
  create_user_request _ _ := Err JsonRejection_JsonSyntaxError;
  update_user_request _ _ := Err JsonRejection_JsonSyntaxError;
  device_update_request _ body := Ok (mkDeviceUpdateRequest (Some body) None None);
  create_enrollment_request _ _ := Err JsonRejection_JsonSyntaxError;
  upstream_request _ _ := Err JsonRejection_JsonSyntaxError;
  audit_parameters _ := Some (mkAuditParameters None None None);
  path_segment id := Some id;
|}.

Definition sample_exchange : Exchange :=
  mkExchange sample_provider (fun _ => Ok tt) (fun _ _ _ => Err "offline").

Definition sample_cookie : @HeaderMap sample_http := [("cookie", "termexo_relay_session=t")].

(** An ordinary account asks for the administrator's list, and is refused. *)
Lemma api_gate_witness :
  let answer := serve_endpoint sample_exchange sample_cookie sample_peer None "" Endpoint_ListUsers
                  sample_account_state in
  api_router Method_GET "/api/admin/users" = RouteMatch_Found Endpoint_ListUsers
  /\ fst answer = Err (forbidden ADMIN_REQUIRED)
  /\ ((exists user, signed_in_as sample_cookie sample_account_state user /\ us_role user = UserRole_Admin)
      \/ refused sample_account_state (fst answer) (snd answer)).
Proof.
  intros answer. split; [evaluate|]. split; [evaluate|].
  destruct (@api_gate sample_protocol sample_protocol_laws sample_platform sample_http sample_client sample_json
    sample_settings_codec sample_argon2 sample_requests sample_exchange sample_cookie sample_peer None ""
    "/api/admin/users" Method_GET Endpoint_ListUsers sample_account_state (snd answer) (fst answer))
    as (_ & Hgate & _); [evaluate|apply surjective_pairing|].
  exact (Hgate eq_refl).
Defined.
