(* ===== verification/ServerTheorems.v ===== *)
(** * What the front door guarantees

    The theorem about [Server]: whatever a request is answered with, which part of the relay it got to
    and what that part was allowed to change. *)

From S2P Require Import Prelude.
From S2P Require Import RustStr.
From S2P Require Import Protocol.
From S2P Require Import Handle.
From S2P Require Import Registry.
From S2P Require Import Config.
From S2P Require Import Database.
From S2P Require Import Auth.
From S2P Require Import Address.
From S2P Require Import Http.
From S2P Require Import Upstream.
From S2P Require Import State.
From S2P Require Import Access.
From S2P Require Import Proxy.
From S2P Require Import ApiError.
From S2P Require Import Tunnel.
From S2P Require Import UpstreamSession.
From S2P Require Import Accounts.
From S2P Require Import Console.
From S2P Require Import Api.
From S2P Require Import TunnelTheorems.
From S2P Require Import UpstreamTheorems.
From S2P Require Import Enroll.
From S2P Require Import DeviceTheorems.
From S2P Require Import ApiTheorems.
From S2P Require Import Server.

Section definitions.
Context `{Protocol} `{HttpCrate}.

(** Serving a page: the routing, the tunnels and the lockouts are as they were, and so is everything
    stored but the sessions. *)
Definition serves_page (s s' : RelayState) : Prop :=
  same_routing s s' /\ without_sessions s' = without_sessions s /\ rs_lockout s' = rs_lockout s.

#[global] Instance serves_page_preorder : PreOrder serves_page.
Proof.
  split; [done|]. intros s1 s2 s3 (Hr1 & Hk1 & Hl1) (Hr2 & Hk2 & Hl2).
  split; [by etrans|]. split; congruence.
Qed.

(** The access rule of a target's own row, if this relay has one. *)
Definition access_granted (headers : HeaderMap) (target : DeviceTarget) (s : RelayState) : Prop :=
  forall row, db_devices (rs_database s) !! dt_device_id target = Some row ->
    DeviceAccess_from_str (dr_access row) = Ok DeviceAccess_RelayLogin ->
    dt_entry target = DeviceEntry_Path
    /\ exists user, signed_in_as headers s user
         /\ (us_role user = UserRole_Admin \/ dr_owner_user_id row = Some (us_id user)).

End definitions.

Section answers.
Context `{!Protocol} `{!Platform} `{!HttpCrate} `{!JsonCodec} `{!ClientCrate}.

(** The link is that of the device's route, or one the client still pools a connection on for the device's
    authority.  The connector finds the device in the authority of the address, where [forward] put it; an id
    with a colon or an at sign in it would be read as another one ([tunnel_uri_device]). *)
Definition addressed (net : Network) (s : RelayState) (device_id : string) (uri : Uri) (l : TunnelHandle) : Prop :=
  authority_device_id uri = Some device_id -> crossed_to net s device_id uri l.

(** What a device's own host answers with: the device's answer, a failed exchange with it, the way to the path
    form of a restricted device, a page about that device, a path no request can have, or a fault of the
    database.  Nothing here is the console, an endpoint's answer, or a refusal of theirs. *)
Inductive own_host_answer (net : Network) (device_id : string) (request : Request) (s : RelayState)
    : Response -> Crossing -> Prop :=
| own_host_relayed l ob status headers :
    net_exchange net l ob = Some (status, headers) ->
    own_host_answer net device_id request s
      (relay_response (mkResponse status headers
         (if is_websocket_upgrade (rq_headers request) && (status =? SWITCHING_PROTOCOLS)%Z then Body_Empty
          else Body_Relayed)))
      (Some (l, ob))
| own_host_exchange_failed l ob :
    net_exchange net l ob = None -> own_host_answer net device_id request s bad_gateway (Some (l, ob))
| own_host_handshake_failed l :
    is_websocket_upgrade (rq_headers request) = true -> net_handshake net l = false ->
    own_host_answer net device_id request s bad_gateway None
| own_host_restricted row :
    db_devices (rs_database s) !! device_id = Some row ->
    DeviceAccess_from_str (dr_access row) = Ok DeviceAccess_RelayLogin ->
    own_host_answer net device_id request s
      (redirect (path_form_url (rs_addressing s) device_id
                   (trim_start_char slash (rq_path request)) (rq_query request))) None
| own_host_offline name last_seen_at response :
    is_online (rs_registry s) device_id = false
    \/ (exists uri e, tunnel_uri device_id (trim_start_char slash (rq_path request)) (rq_query request) = Some uri
          /\ connector_call net s uri = Err e) ->
    (exists t, fst (offline_page (E := unit) name last_seen_at t) = Ok response) ->
    own_host_answer net device_id request s response None
| own_host_unknown :
    db_devices (rs_database s) !! device_id = None -> last_known (rs_registry s) device_id = None ->
    own_host_answer net device_id request s unknown_device_page None
| own_host_invalid_path :
    tunnel_uri device_id (trim_start_char slash (rq_path request)) (rq_query request) = None ->
    own_host_answer net device_id request s (text_response BAD_REQUEST "请求路径无效。") None
| own_host_database e :
    fst (find_device device_id (rs_database s)) = Err e ->
    own_host_answer net device_id request s internal_error None.

Lemma unreachable_own_host {E} net device_id request (s t t' : RelayState) record response :
  transpose (read_device_row device_id <$> db_devices (rs_database s) !! device_id) = Ok record ->
  rs_registry t = rs_registry s ->
  is_online (rs_registry s) device_id = false
  \/ (exists uri e, tunnel_uri device_id (trim_start_char slash (rq_path request)) (rq_query request) = Some uri
        /\ connector_call net s uri = Err e) ->
  unreachable_page (E := E) device_id record t = (Ok response, t') ->
  own_host_answer net device_id request s response None.
Proof.
  intros Hrow Hreg Hoff Hrun.
  assert (Hpage : forall name last (u u' : RelayState), offline_page (E := E) name last u = (Ok response, u') ->
    own_host_answer net device_id request s response None).
  { intros name last u u' Hp. apply (own_host_offline _ _ _ _ name last); [done|]. exists u.
    unfold offline_page in *. run_in Hp. cbn in Hp |- *. by injection Hp as <- _. }
  destruct record as [record|]; [by eapply Hpage|].
  unfold unreachable_page in Hrun. erewrite se_bind_eq in Hrun by reflexivity. rewrite Hreg in Hrun.
  destruct (last_known (rs_registry s) device_id) as [known|] eqn:Hk; [by eapply Hpage|].
  injection Hrun as <- _. apply own_host_unknown; [|done].
  destruct (db_devices (rs_database s) !! device_id) as [row|]; [|done]. simpl in Hrow.
  by destruct (read_device_row device_id row).
Qed.

Lemma bridge_own_host {E} net parts device_id request (s t t' : RelayState) response crossing :
  is_websocket_upgrade (rq_headers request) = true ->
  tunnel_uri device_id (trim_start_char slash (rq_path request)) (rq_query request) = Some (ob_uri parts) ->
  connector_call net t (ob_uri parts) = connector_call net s (ob_uri parts) ->
  bridge_websocket (E := E) net parts t = (Ok (response, crossing), t') ->
  own_host_answer net device_id request s response crossing.
Proof.
  intros Hws Huri Hsame. unfold bridge_websocket. erewrite se_bind_eq by reflexivity. rewrite Hsame.
  destruct (connector_call net s (ob_uri parts)) as [l|e] eqn:Hc.
  - destruct (net_handshake net l) eqn:Hh; simpl.
    + destruct (net_exchange net l parts) as [[status headers]|] eqn:He.
      * pose proof (own_host_relayed net device_id request s l parts status headers He) as Ha. rewrite Hws in Ha.
        simpl in Ha. destruct (_ =? _)%Z; by intros [= <- <- _].
      * intros [= <- <- _]. by apply own_host_exchange_failed.
    + intros [= <- <- _]. by eapply own_host_handshake_failed.
  - unfold offline_page. intros Hp. run_in Hp. cbn in Hp. injection Hp as <- <- _.
    eapply (own_host_offline _ _ _ _ _ None); [right; eauto|]. exists t. unfold offline_page. by run.
Qed.

(** Whatever [forward] answers for a device's own host is such an answer. *)
Lemma forward_own_host {E} net client device_id request (s s' : RelayState) response crossing :
  forward (E := E) net client (subdomain_target device_id request) request s = (Ok (response, crossing), s') ->
  own_host_answer net device_id request s response crossing.
Proof.
  unfold forward. cbn [subdomain_target dt_device_id dt_rest dt_entry].
  erewrite se_bind_eq by apply try_database.
  destruct (find_device device_id (rs_database s)) as [found db] eqn:Hfind. cbn [fst snd].
  destruct found as [record|e]; [|intros [= <- <- _]; apply (own_host_database _ _ _ _ e); by rewrite Hfind].
  apply find_device_ok in Hfind as [Hrow ->].
  set (t := put_database _ s). intros (refusal & u & Hg & Hrun)%se_bind_ok.
  assert (Hu : u = t /\ (forall page, refusal = Some page ->
      own_host_answer net device_id request s page None)).
  { unfold guard in Hg. destruct record as [record|]; [|by injection Hg as <- <-].
    destruct (requires_console_session (dv_access record)) eqn:Ha; [|by injection Hg as <- <-].
    cbn in Hg. injection Hg as <- <-. split; [done|]. intros page [= <-].
    destruct (db_devices (rs_database s) !! device_id) as [row|] eqn:Hlook; [|done].
    apply (own_host_restricted _ _ _ _ row); [done|]. simpl in Hrow.
    unfold read_device_row, parse_device_row in Hrow. run_in Hrow.
    destruct (parse_device_kind (dr_kind row)) as [kind|]; [|done]. simpl in Hrow.
    destruct (DeviceAccess_from_str (dr_access row)) as [access|]; [|done]. simpl in Hrow.
    injection Hrow as <-. simpl in Ha. by destruct access. }
  destruct Hu as [-> Hrefused]. destruct refusal as [page|]; [injection Hrun as <- <- _; by apply Hrefused|].
  erewrite se_bind_eq in Hrun by reflexivity. change (rs_registry t) with (rs_registry s) in Hrun.
  destruct (is_online (rs_registry s) device_id) eqn:Honline; simpl in Hrun.
  2:{ apply se_bind_ok in Hrun as (page & v & Hp & Hr). injection Hr as <- <- _.
      eapply unreachable_own_host; [exact Hrow| |by left|exact Hp]. done. }
  destruct (tunnel_uri _ _ _) as [uri|] eqn:Huri; [|injection Hrun as <- <- _; by apply own_host_invalid_path].
  destruct (is_websocket_upgrade (rq_headers request)) eqn:Hws; [by eapply bridge_own_host in Hrun|].
  erewrite se_bind_eq in Hrun by reflexivity. unfold client_request in Hrun. cbn [ob_uri] in Hrun.
  destruct (match net_pooled net uri with Some l => Ok l | None => connector_call net t uri end)
    as [l|e] eqn:Hc.
  - destruct (net_exchange _ _ _) as [[status headers]|] eqn:He; injection Hrun as <- <- _.
    + pose proof (own_host_relayed net device_id request s l _ status headers He) as Ha. by rewrite Hws in Ha.
    + by apply own_host_exchange_failed.
  - destruct (net_pooled net uri); [done|].
    apply se_bind_ok in Hrun as (page & v & Hp & Hr). injection Hr as <- <- _.
    eapply unreachable_own_host; [exact Hrow| |right; eauto|exact Hp]. done.
Qed.

End answers.

(** ** Lemmas: serving a page *)

Section pages.
Context `{!Protocol} `{!Platform} `{!HttpCrate} `{!JsonCodec} `{!ApiJson} `{!ConsoleBundle}.

Lemma now_millis_page {E} : preserves serves_page (now_millis (E := E)).
Proof. by intros s. Qed.

Lemma resolve_page token now : preserves serves_page (database (resolve_session token now)).
Proof.
  intros s. rewrite database_run. split; [done|]. split; [|done].
  apply (resolve_session_keeps token now (rs_database s)).
Qed.

Lemma find_device_page id : preserves serves_page (database (find_device id)).
Proof.
  intros s. rewrite database_run. split; [done|]. split; [|done]. unfold without_sessions. f_equal.
  apply (find_device_keeps id (rs_database s)).
Qed.

Hint Resolve now_millis_page resolve_page find_device_page : frame.

Lemma guard_page {E} headers device target query :
  preserves serves_page (guard (E := E) headers device target query).
Proof.
  assert (Hfirst : forall now tokens, preserves serves_page (first_signed_in (E := E) now tokens)).
  { intros now tokens. induction tokens as [|token rest IH]; cbn [first_signed_in]; frame. }
  unfold guard, signed_in_user. frame.
Qed.

Lemma bridge_page {E} net parts : preserves serves_page (bridge_websocket (E := E) net parts).
Proof. unfold bridge_websocket, offline_page. frame. Qed.

Hint Resolve guard_page bridge_page : frame.

Lemma forward_page {E} net client target request :
  preserves serves_page (forward (E := E) net client target request).
Proof. unfold forward, unreachable_page, offline_page. frame. Qed.

Hint Resolve forward_page : frame.

Lemma forward_to_device_page {E} net peer target request :
  preserves serves_page (forward_to_device (E := E) net peer target request).
Proof. unfold forward_to_device. frame. Qed.

Hint Resolve forward_to_device_page : frame.

Lemma dispatch_page {E} net peer request :
  preserves serves_page (dispatch (E := E) net peer request).
Proof. unfold dispatch. frame. Qed.

Lemma forward_to_device_crossing {E} net peer target request (s s' : RelayState) response l ob :
  forward_to_device (E := E) net (Some peer) target request s = (Ok (response, Some (l, ob)), s') ->
  is_online (rs_registry s) (dt_device_id target) = true
  /\ addressed net s (dt_device_id target) (ob_uri ob) l
  /\ carried (resolve s (rq_headers request) peer) target request ob
  /\ access_granted (rq_headers request) target s.
Proof.
  unfold forward_to_device. erewrite se_bind_eq by reflexivity.
  intros (Ho & _ & Hc & Hh & Hg)%forward_gated. split; [done|].
  split; [done|]. split; [done|].
  intros row Hrow Hacc. destruct (Hg row Hrow Hacc) as (He & token & sess & user & Hin & Hlive & Hu).
  split; [done|]. exists user. split; [by exists token, sess|done].
Qed.

Lemma respond_ok {E} (m : App E (Response * Crossing)) (s s' : RelayState) served :
  respond m s = (Ok served, s') ->
  exists response crossing, served = Served_Response response crossing
                            /\ m s = (Ok (response, crossing), s').
Proof.
  unfold respond. intros ([response crossing] & s1 & Hm & Hr)%se_bind_ok. injection Hr as <- <-. eauto.
Qed.

End pages.

(** ** Lemmas: the CSRF marker *)

Lemma api_router_path `{!Protocol} `{!ProtocolLaws _} method path endpoint :
  api_router method path = RouteMatch_Found endpoint -> starts_with path "/api/" = true.
Proof.
  unfold api_router. destruct api_paths as (-> & -> & _).
  destruct (String.eqb_spec path "/api/health") as [->|]; [done|].
  destruct (String.eqb_spec path "/api/enroll") as [->|]; [done|].
  pose proof (str_join_split slash path) as Hjoin. intros Hr.
  assert (Hshape : exists third rest, split slash path = "" :: "api" :: third :: rest).
  { destruct (split slash path) as [|first segments]; [done|].
    destruct first; [|done]. destruct segments as [|second segments]; [done|].
    destruct (String.eqb_spec second "api") as [->|Hne].
    - destruct segments; [done|]. eauto.
    - exfalso. repeat case_match; naive_solver. }
  destruct Hshape as (third & rest & Hs). rewrite Hs in Hjoin. rewrite <- Hjoin, !str_join_cons by done.
  unfold starts_with. apply bool_decide_eq_true. eexists. by apply strip_prefix_Some.
Qed.

(** A request the inner layer lets on to an endpoint was marked, or needs no mark. *)
Lemma csrf_passed `{!Protocol} `{!HttpCrate} method path headers :
  starts_with path "/api/" = true -> require_csrf_marker method path headers = None ->
  path = ENROLL_PATH \/ path = HEALTH_PATH \/ safe_method method = true
  \/ has_csrf_marker (header_str headers CSRF_HEADER) = true.
Proof.
  intros Hp. unfold require_csrf_marker. rewrite Hp. simpl.
  destruct (String.eqb_spec path ENROLL_PATH); [auto|].
  destruct (String.eqb_spec path HEALTH_PATH); [auto|]. simpl.
  destruct (safe_method method); [auto|]. destruct (has_csrf_marker _); [auto|done].
Qed.

(** ** Properties *)

Section theorems.
Context `{!Protocol} `{!ProtocolLaws _} `{!Platform} `{!HttpCrate} `{!ClientCrate} `{!JsonCodec}
  `{!SettingsCodec} `{!Argon2} `{!RequestCodec} `{!ApiJson} `{!ConsoleBundle}.

(** What the answer to a request tells about the part of the relay that gave it. *)
Definition admitted (world : World) (request : Incoming) (served : Served) (s s' : RelayState) : Prop :=
  let parts := in_parts request in
  let path := rq_path parts in
  match served with
  | Served_Response response crossing =>
      serves_page s s'
      /\ (forall device_id, device_host s parts = Some device_id ->
           own_host_answer (wo_network world) device_id parts s response crossing)
      /\ forall l ob, crossing = Some (l, ob) ->
           exists target,
             match device_host s parts with
             | Some device_id => target = subdomain_target device_id parts
             | None => dt_entry target = DeviceEntry_Path /\ starts_with path "/api/" = false
                       /\ path = path_base (dt_device_id target) +:+ dt_rest target
             end
             /\ is_online (rs_registry s) (dt_device_id target) = true
             /\ addressed (wo_network world) s (dt_device_id target) (ob_uri ob) l
             /\ carried (resolve s (rq_headers parts) (in_peer request)) target parts ob
             /\ access_granted (rq_headers parts) target s
  | Served_MethodNotAllowed => device_host s parts = None /\ s' = s
  | Served_Api endpoint answer =>
      device_host s parts = None
      /\ api_router (in_method request) path = RouteMatch_Found endpoint
      /\ (path = ENROLL_PATH \/ path = HEALTH_PATH \/ safe_method (in_method request) = true
          \/ has_csrf_marker (header_str (rq_headers parts) CSRF_HEADER) = true)
      /\ serve_endpoint (wo_exchange world) (rq_headers parts) (in_peer request) (rq_query parts)
           (rq_body (in_parts request)) endpoint s = (answer, s')
  | Served_Tunnel answer =>
      device_host s parts = None /\ path = TUNNEL_PATH
      /\ upgrade (rq_headers parts) (in_peer request) s = (answer, s')
  end.

Lemma dispatch_crossing {E} net peer request (s s' : RelayState) response l ob :
  dispatch (E := E) net peer request s = (Ok (response, Some (l, ob)), s') ->
  exists target, dt_entry target = DeviceEntry_Path /\ starts_with (rq_path request) "/api/" = false
    /\ rq_path request = path_base (dt_device_id target) +:+ dt_rest target
    /\ forward_to_device (E := E) net (Some peer) target request s = (Ok (response, Some (l, ob)), s').
Proof.
  unfold dispatch. destruct (starts_with _ "/api/") eqn:Ha; [done|].
  destruct (parse_device_path (rq_path request)) as [[d|d rest]|] eqn:Hp.
  - by intros [=].
  - intros Hf. exists (mkDeviceTarget d rest DeviceEntry_Path).
    split; [done|]. split; [done|]. split; [|done]. by apply device_path_resource in Hp as (? & _).
  - destruct (starts_with (rq_path request) CONSOLE_PATH_PREFIX); by intros [=].
Qed.

Lemma route_request_admitted {E} world request (s s' : RelayState) served :
  device_host s (in_parts request) = None ->
  require_csrf_marker (in_method request) (rq_path (in_parts request)) (rq_headers (in_parts request)) = None ->
  route_request (E := E) world request s = (Ok served, s') -> admitted world request served s s'.
Proof.
  intros Hd Hcsrf. unfold route_request, admitted. rewrite Hd.
  destruct (api_router _ _) as [endpoint| |] eqn:Hroute.
  - intros (answer & s1 & Ht & Hr)%se_bind_ok. injection Hr as <- <-. unfold se_try in Ht.
    destruct (serve_endpoint _ _ _ _ _ _ s) as [r s2]. injection Ht as <- <-.
    split; [done|]. split; [done|]. split; [|done]. eapply csrf_passed; [|exact Hcsrf].
    by eapply api_router_path.
  - by intros [= <- <-].
  - destruct (String.eqb_spec (rq_path (in_parts request)) TUNNEL_PATH) as [Hp|_].
    + unfold get_only, serve_tunnel. destruct (in_method request) eqn:Em; try by intros [= <- <-].
      all: destruct (wo_not_a_websocket _ _ _); [by intros [= <- <-]|].
      all: intros (answer & s1 & Ht & Hr)%se_bind_ok; injection Hr as <- <-; unfold se_try in Ht.
      all: destruct (upgrade _ _ s) as [r s2]; by injection Ht as <- <-.
    + destruct (String.eqb _ "/"); [unfold get_only; destruct (in_method request); by intros [= <- <-]|].
      intros (response & crossing & -> & Hrun)%respond_ok.
      pose proof (dispatch_page (E := E) (wo_network world) (in_peer request) (in_parts request) s) as Hpage.
      rewrite Hrun in Hpage. split; [exact Hpage|]. split; [done|]. intros l ob ->.
      apply dispatch_crossing in Hrun as (target & He & Ha & Hp & Hf).
      apply forward_to_device_crossing in Hf. exists target. tauto.
Qed.

(** C10: the front door.  A request whose [Host] field is a device's own host gets nowhere but to that device:
    it is answered with what the device answered, with the way to the path form if the device is restricted, with
    a page that says the device is offline or unknown, or with the plain error of a failed exchange, of a path no
    request can have or of the database - never by an endpoint, a tunnel, the console or one of their refusals.
    (An HTTP/2 request names its host in [:authority], which the relay does not read, so it counts as a request
    to the relay's own host.)  On the relay's own host an endpoint only ever runs for
    the path and method the table names, and - enrollment and the health check aside - a request that
    can modify something only with the console's marker; a tunnel is only negotiated on its own path;
    and a request is only carried to a device by that device's path, never by one under [/api/].  What
    is carried goes to an attached device, over the link of its route or a connection still pooled for it, as
    HTTP/1.1 with the method it had, the prepared head and at most the body the limit allows, and to a
    restricted device only for a signed-in owner or administrator on the path form.  Answering with a page
    changes nothing but sessions. *)
Theorem front_door (E : Type) (world : World) (request : Incoming) (s s' : RelayState) (served : Served) :
  serve_request (E := E) world request s = (Ok served, s') -> admitted world request served s s'.
Proof.
  unfold serve_request, route_device_host. erewrite se_bind_eq by reflexivity.
  destruct (device_host s (in_parts request)) as [device_id|] eqn:Hd.
  - intros (response & crossing & -> & Hrun)%respond_ok. unfold admitted. rewrite Hd.
    pose proof (forward_to_device_page (E := E) (wo_network world) (Some (in_peer request))
      (subdomain_target device_id (in_parts request)) (in_parts request) s) as Hpage.
    rewrite Hrun in Hpage. split; [exact Hpage|].
    split; [intros ? [= <-]; unfold forward_to_device in Hrun; erewrite se_bind_eq in Hrun by reflexivity;
            by eapply forward_own_host|]. intros l ob ->.
    apply forward_to_device_crossing in Hrun. exists (subdomain_target device_id (in_parts request)).
    tauto.
  - unfold with_csrf_marker. destruct (require_csrf_marker _ _ _) as [refusal|] eqn:Hcsrf.
    + intros [= <- <-]. split; [reflexivity|]. split; [congruence|done].
    + by apply route_request_admitted.
Qed.

(** Only a [Host] field names a device's host.  A request that names it in its URI's authority, as every
    HTTP/2 request does, is a request to the relay itself. *)
Lemma authority_is_not_read {E} (world : World) (request : Incoming) (s : RelayState) :
  get_all (rq_headers (in_parts request)) HOST = [] ->
  serve_request (E := E) world request s = with_csrf_marker request (route_request world request) s
  /\ cc_host (resolve s (rq_headers (in_parts request)) (in_peer request))
     = if negb (rs_tls_enabled s) && is_trusted_proxy (rs_trusted_proxies s) (sa_ip (in_peer request))
       then default (pu_host (public_url s)) (header_str (rq_headers (in_parts request)) HEADER_FORWARDED_HOST)
       else pu_host (public_url s).
Proof.
  intros Hhost. split.
  - unfold serve_request, route_device_host, device_host, host_header, header_str, header_get.
    by rewrite Hhost.
  - assert (Hstr : header_str (rq_headers (in_parts request)) HOST = None).
    { unfold header_str, header_get. by rewrite Hhost. }
    unfold resolve. rewrite Hstr. by destruct (_ && is_trusted_proxy _ _).
Qed.

End theorems.

(** ** Witness *)

Definition sample_world : World := mkWorld sample_exchange sample_network (fun _ _ => None).

(** The address of a device in subdomain mode, opened by a browser that speaks HTTP/2: the browser is sent to
    the console. *)
Lemma http2_device_host_example :
  let addressing := mkDeviceAddressing (mkPublicUrl "https://relay.test" "relay.test" true)
                      (Some (mkSubdomainBase "relay.test")) in
  let s := sample_online_state in
  let s := mkRelayState (rs_database s) (rs_registry s) (rs_upstream s) (rs_lockout s) (rs_relay_id s) addressing
             [] true (rs_channels s) (rs_clock s) 0 (rs_random s) 0 (rs_credentials s) in
  let request host version :=
    mkIncoming (mkRequest Method_GET (Some "dev1.relay.test") "/" None version host "") sample_peer in
  device_url addressing "dev1" = "https://dev1.relay.test/"
  /\ device_host s (in_parts (request [("host", "dev1.relay.test")] Version_HTTP_11)) = Some "dev1"
  /\ fst (serve_request (E := unit) sample_world (request [] Version_HTTP_2) s)
     = Ok (Served_Response redirect_to_console None).
Proof. split; [|split]; evaluate. Qed.

Definition sample_incoming : Incoming := mkIncoming sample_request sample_peer.

(** The owner's request for a restricted device crosses, to that device and by the rule. *)
Lemma front_door_witness :
  exists response l ob s',
    serve_request (E := unit) sample_world sample_incoming sample_online_state
    = (Ok (Served_Response response (Some (l, ob))), s')
  /\ exists target, dt_entry target = DeviceEntry_Path
       /\ rq_path sample_request = path_base (dt_device_id target) +:+ dt_rest target
       /\ is_online (rs_registry sample_online_state) (dt_device_id target) = true
       /\ access_granted (rq_headers sample_request) target sample_online_state.
Proof.
  assert (Hrun : match fst (serve_request (E := unit) sample_world sample_incoming sample_online_state) with
    | Ok (Served_Response _ (Some _)) => true
    | _ => false
    end = true) by evaluate.
  destruct (serve_request _ _ _) as [[[response [[l ob]|]| | |]|e] s'] eqn:E; try done.
  exists response, l, ob, s'. split; [done|].
  destruct (@front_door sample_protocol sample_protocol_laws sample_platform sample_http sample_client
    sample_json sample_settings_codec sample_argon2 sample_requests sample_api_json sample_bundle unit
    sample_world sample_incoming sample_online_state s' _ E) as (_ & _ & Hcross).
  destruct (Hcross l ob eq_refl) as (target & Hwho & Ho & _ & _ & Hg).
  assert (Hd : device_host sample_online_state (in_parts sample_incoming) = None) by evaluate.
  rewrite Hd in Hwho. destruct Hwho as (He & _ & Hp). by exists target.
Defined.
