(* ===== verification/RelayTheorems.v ===== *)
(** * The whole relay: what is always true, and how its API fails

    A relay's life is a sequence of events: it is started, it is asked for things, tunnels come up, send
    frames and go down, the upstream link runs, commands run next to it on the same database, and the
    engine may fail any statement.  [advance] is what one event does, [lived] the states a relay that
    began with an empty database can be in. *)

From S2P Require Import Prelude.
From S2P Require Import RustStr.
From S2P Require Import Protocol.
From S2P Require Import Handle.
From S2P Require Import Registry.
From S2P Require Import RegistryProofs.
From S2P Require Import Config.
From S2P Require Import Database.
From S2P Require Import Auth.
From S2P Require Import Address.
From S2P Require Import Http.
From S2P Require Import Upstream.
From S2P Require Import DatabaseInvariant.
From S2P Require Import State.
From S2P Require Import Access.
From S2P Require Import Proxy.
From S2P Require Import ApiError.
From S2P Require Import Tunnel.
From S2P Require Import TunnelTheorems.
From S2P Require Import UpstreamSession.
From S2P Require Import UpstreamTheorems.
From S2P Require Import Views.
From S2P Require Import Accounts.
From S2P Require Import Enroll.
From S2P Require Import Devices.
From S2P Require Import Console.
From S2P Require Import Api.
From S2P Require Import Server.
From S2P Require Import Startup.
From S2P Require Import StartupTheorems.
From S2P Require Import RelayInvariant.
From S2P Require Import ApiTheorems.
From S2P Require Import ServerTheorems.

(** ** Events *)

Section life.
Context `{!Protocol} `{!Platform} `{!HttpCrate} `{!ClientCrate} `{!JsonCodec} `{!SettingsCodec} `{!Argon2}
  `{!RequestCodec} `{!ApiJson} `{!ConsoleBundle}.

Inductive Event : Type :=
| Event_Start (args : ServeArgs) (generated : result string string)
| Event_Request (world : World) (request : Incoming)
| Event_TunnelOpened (device : DeviceRecord) (peer : string) (hello : Hello) (channel : nat)
| Event_TunnelFrame (handle : TunnelHandle) (kind : DeviceKind) (frame : ControlFrame)
(* the writer took the oldest command of a queue *)
| Event_TunnelWrote (channel : nat)
| Event_TunnelClosed (device : DeviceRecord) (peer : string) (handle : TunnelHandle)
    (registration : Registration) (cause : CloseCause)
| Event_Supervised (settings : UpstreamSettings) (rounds : list (Attempt * bool))
| Event_ResetPassword (args : ResetPasswordArgs)
| Event_LinkCommand (exchange : Exchange) (args : LinkArgs)
| Event_ShutDown (signal : option string)
(* the statements the engine is going to fail *)
| Event_Faults (faults : list bool).

Definition advance (event : Event) (s : RelayState) : RelayState :=
  match event with
  | Event_Start args generated => snd (prepare args generated s)
  | Event_Request world request => snd (serve_request (E := Empty_set) world request s)
  | Event_TunnelOpened device peer hello channel =>
      snd (open_session (E := Empty_set) device peer hello channel s)
  | Event_TunnelFrame handle kind frame => snd (handle_control_frame (E := Empty_set) handle kind frame s)
  | Event_TunnelWrote channel => put_channels (alter tail channel (rs_channels s)) s
  | Event_TunnelClosed device peer handle registration cause =>
      snd (close_session (E := Empty_set) device peer handle registration cause s)
  | Event_Supervised settings rounds => snd (supervise (E := Empty_set) settings rounds s)
  | Event_ResetPassword args => snd (reset_password args s)
  | Event_LinkCommand exchange args => snd (link_command exchange args s)
  | Event_ShutDown signal => snd (shut_down_on (E := Empty_set) signal s)
  | Event_Faults faults => put_database (set_faults faults (rs_database s)) s
  end.

(** The sequence counter is 64 bits wide: an event that draws from it is considered while it has not
    wrapped. *)
Definition draws_of (event : Event) : N :=
  match event with
  | Event_TunnelOpened _ _ _ _ => 1
  | Event_TunnelFrame _ _ frame => frame_draws frame
  | _ => 0
  end.

Definition advance_all (events : list Event) (s : RelayState) : RelayState :=
  fold_left (fun s event => advance event s) events s.

Inductive lived : RelayState -> Prop :=
| lived_first args relay_id faults s :
    rs_database s = set_faults faults empty_database ->
    lived (fresh_state args relay_id s)
| lived_next event s :
    lived s -> room (draws_of event) (rs_registry s) -> lived (advance event s).

(** ** Lemmas *)

Lemma advance_ok event s :
  relay_ok false s -> room (draws_of event) (rs_registry s) -> relay_ok false (advance event s).
Proof.
  intros Hs Hroom. destruct event; cbn [advance draws_of] in *.
  - by eapply sound_state; [apply prepare_sound|].
  - by eapply (sound_state _ (fun _ => True)); [apply serve_request_sound|].
  - pose proof (open_session_triple false (fun _ : Empty_set => True) device peer hello channel s (conj Hs Hroom)) as Ht.
    by destruct (open_session _ _ _ _ s) as [[a|[]] s'].
  - pose proof (handle_control_frame_triple false (fun _ : Empty_set => True) handle kind frame s (conj Hs Hroom)) as Ht.
    by destruct (handle_control_frame _ _ _ s) as [[a|[]] s'].
  - destruct Hs as [Hwf _]. split; [|done]. split; try apply Hwf. cbn. intros i q.
    rewrite lookup_alter_Some. intros [(-> & q0 & Hq & ->)|[_ Hq]]; [|by apply (rw_channels s Hwf i)].
    apply (rw_channels s Hwf) in Hq. destruct q0; cbn in *; lia.
  - by eapply (sound_state _ (fun _ => True)); [apply close_session_sound|].
  - by eapply (sound_state _ (fun _ => True)); [apply supervise_sound|].
  - by eapply sound_state; [apply reset_password_sound|].
  - by eapply sound_state; [apply link_command_sound|].
  - by eapply (sound_state _ (fun _ => True)); [apply shut_down_on_sound|].
  - destruct Hs as [Hwf _]. split; [|done]. split; try apply Hwf. cbn.
    pose proof (rw_database s Hwf) as Hdb. by destruct Hdb; split.
Qed.

Lemma lived_ok s : lived s -> relay_ok false s.
Proof.
  induction 1 as [args relay_id faults s Hdb|event s _ IH Hroom]; [|by apply advance_ok].
  split; [|done]. split; cbn; [rewrite Hdb; apply empty_wf|apply new_wf|apply new_named|done|]. by intros i q.
Qed.

(** ** Properties *)

(** C1: the state of a relay is well formed at every moment of its life.  Whatever requests, tunnels,
    frames, upstream sessions, restarts and commands a relay that began with an empty database goes
    through, in whatever order and whichever statements the engine fails: every stored row reads back,
    user names and codes are unique, every device's owner has an account, a code is spent or cancelled but
    never both and names the device it was spent on, sessions are filed under their own hash, the audit
    trail is numbered without a gap; the routing table keeps its own invariant under the relay's id; every
    route's link is the tunnel of the device the entry says; and no tunnel's queue outgrows its
    capacity. *)
Theorem relay_invariant (s : RelayState) : lived s -> relay_wf s.
Proof. intros Hs. by destruct (lived_ok s Hs). Qed.

(** C3: what the relay stores is always of the type it is read at.  At every moment of a relay's life in
    which the engine works, listing the accounts, the devices and the codes answers one record for every
    row: no value the program ever wrote fails to parse.  The accounts listed have different names, every
    listed device's owner is a listed account, and every listed code is marked used exactly when it names
    the device it was used for, and then not cancelled. *)
Theorem stored_rows_read (s : RelayState) :
  lived s -> db_faults (rs_database s) = [] ->
  let db := rs_database s in
  exists users devices codes,
    list_users db = (Ok users, db) /\ list_devices db = (Ok devices, db)
    /\ list_enrollments db = (Ok codes, db)
    /\ length users = size (db_users db) /\ length devices = size (db_devices db)
    /\ length codes = size (db_enrollments db)
    /\ NoDup (us_username <$> users)
    /\ (forall device owner, device ∈ devices -> dv_owner_user_id device = Some owner -> owner ∈ us_id <$> users)
    /\ (forall code, code ∈ codes -> (is_Some (ec_used_at code) <-> is_Some (ec_used_by_device_id code))
          /\ (is_Some (ec_used_at code) -> ec_cancelled_at code = None)).
Proof.
  intros Hs Hf db. destruct (lived_ok s Hs) as [[Hwf _ _ _ _] _].
  destruct (list_users_answers db) as (users & Hu & Hup); [done..|].
  destruct (list_devices_answers db) as (devices & Hd & Hdp); [done..|].
  destruct (list_enrollments_answers db) as (codes & Hc & Hcp); [done..|].
  exists users, devices, codes. split; [done|]. split; [done|]. split; [done|].
  split_and!.
  - apply Permutation_length in Hup. by rewrite !length_fmap, length_map_to_list in Hup.
  - apply Permutation_length in Hdp. by rewrite !length_fmap, length_map_to_list in Hdp.
  - apply Permutation_length in Hcp. by rewrite !length_fmap, length_map_to_list in Hcp.
  - assert (us_username <$> users ≡ₚ (fun p => ur_username p.2) <$> map_to_list (db_users db)) as ->.
    { apply (fmap_Permutation snd) in Hup. by rewrite <- !list_fmap_compose in Hup. }
    apply NoDup_fmap_2_strong; [|apply NoDup_map_to_list]. intros [i1 r1] [i2 r2] Hr1 Hr2 He.
    apply elem_of_map_to_list in Hr1, Hr2. cbn in He.
    assert (i1 = i2) as -> by by apply (wf_usernames db Hwf i1 i2 r1 r2). congruence.
  - intros device owner Hin Ho.
    assert (Hp : (dv_id device, dv_owner_user_id device)
      ∈ (fun d => (dv_id d, dv_owner_user_id d)) <$> devices) by (apply list_elem_of_fmap; eauto).
    rewrite Hdp, list_elem_of_fmap in Hp. destruct Hp as ([i row] & [= _ He] & Hrow).
    apply elem_of_map_to_list in Hrow. destruct (wf_owners db Hwf i row owner) as [r Hr]; [done|congruence|].
    assert (us_id <$> users ≡ₚ fst <$> map_to_list (db_users db)) as ->.
    { apply (fmap_Permutation fst) in Hup. by rewrite <- !list_fmap_compose in Hup. }
    apply list_elem_of_fmap. exists (owner, r). split; [done|]. by apply elem_of_map_to_list.
  - intros code Hin.
    assert (Hp : (ec_id code, (ec_used_at code, ec_used_by_device_id code, ec_cancelled_at code))
      ∈ (fun c => (ec_id c, (ec_used_at c, ec_used_by_device_id c, ec_cancelled_at c))) <$> codes)
      by (apply list_elem_of_fmap; eauto).
    rewrite Hcp, list_elem_of_fmap in Hp. destruct Hp as ([i row] & [= _ -> -> ->] & Hrow).
    apply elem_of_map_to_list in Hrow. by destruct (wf_enrollments db Hwf i row Hrow) as [_ [? ?]].
Qed.

(** C2: how the API fails.  On a well-formed state every error of every endpoint is one of five client
    errors, or the one internal error whose fixed text says nothing of the cause.  The internal error
    needs an engine or a random source that fails, or an endpoint that stores a value it draws: all the
    others - deleting an account that owns devices included - never raise it.  And a request that fails,
    wherever it fails, leaves the state well formed. *)
Theorem api_errors (exchange : Exchange) (headers : HeaderMap) (peer : SocketAddr) (query : option string)
    (body : string) (endpoint : Endpoint) (s s' : RelayState) (e : ApiError) :
  relay_wf s -> serve_endpoint exchange headers peer query body endpoint s = (Err e, s') ->
  (answered e \/ e = internal)
  /\ (works s -> draws_fresh endpoint = false -> answered e)
  /\ relay_wf s'.
Proof.
  intros Hwf He.
  assert (Hany : forall healthy, relay_ok healthy s ->
    relay_ok healthy s' /\ refusal healthy (draws_fresh endpoint) e).
  { intros healthy Hs. pose proof (serve_endpoint_sound healthy exchange headers peer query body endpoint s Hs) as Ht.
    by rewrite He in Ht. }
  destruct (Hany false) as [[Hwf' _] Hr]; [by split|]. split_and!; [|intros Hw Hd|done].
  - destruct Hr as [|[-> _]]; auto.
  - destruct (Hany true) as [_ [Ha|[_ [|Hf]]]]; [by split|done..|congruence].
Qed.

End life.

(** ** Witnesses *)

Definition sample_hello : Hello := mkHello DeviceKind_Relay "0.10.2" (Some "relay-b").

Definition sample_handle : TunnelHandle := mkTunnelHandle "dev1" 7.

(** A relay that was started, whose tunnel then came up and announced a device. *)
Definition sample_started : RelayState :=
  advance (Event_Start sample_serve_args (Ok "relay-a")) (fresh_state sample_serve_args "relay-a" sample_first_state).

Definition sample_attached : RelayState :=
  advance (Event_TunnelOpened sample_device "10.0.0.2" sample_hello 7) sample_started.

Definition sample_announced : RelayState :=
  advance (Event_TunnelFrame sample_handle DeviceKind_Relay (ControlFrame_DeviceOnline "dev2" "laptop" ["relay-b"]))
    sample_attached.

Lemma sample_started_lived : lived sample_started.
Proof. apply lived_next; [by apply (lived_first _ _ [])|done]. Qed.

Lemma relay_invariant_witness : lived sample_announced /\ relay_wf sample_announced.
Proof.
  assert (Hs : lived sample_announced).
  { apply lived_next; [apply lived_next; [exact sample_started_lived|reflexivity]|reflexivity]. }
  split; [exact Hs|]. exact (relay_invariant sample_announced Hs).
Defined.

Lemma stored_rows_witness :
  exists users devices codes,
    list_users (rs_database sample_started) = (Ok users, rs_database sample_started)
    /\ list_devices (rs_database sample_started) = (Ok devices, rs_database sample_started)
    /\ list_enrollments (rs_database sample_started) = (Ok codes, rs_database sample_started)
    /\ length users = size (db_users (rs_database sample_started)).
Proof.
  destruct (stored_rows_read sample_started sample_started_lived) as (users & devices & codes & Hu & Hd & Hc & Hn & _);
    [reflexivity|].
  exists users, devices, codes. by split_and!.
Defined.

Definition sample_fresh : RelayState := fresh_state sample_serve_args "relay-a" sample_first_state.

Lemma sample_fresh_lived : lived sample_fresh.
Proof. by apply (lived_first _ _ []). Qed.

Lemma api_errors_witness :
  let answer := serve_endpoint sample_exchange header_map_empty sample_peer None "" Endpoint_ListUsers sample_fresh in
  fst answer = Err (unauthorized NOT_LOGGED_IN) /\ answered (unauthorized NOT_LOGGED_IN) /\ relay_wf (snd answer).
Proof.
  intros answer. assert (He : fst answer = Err (unauthorized NOT_LOGGED_IN)) by evaluate.
  split; [exact He|].
  destruct (api_errors sample_exchange header_map_empty sample_peer None "" Endpoint_ListUsers sample_fresh (snd answer)
    (unauthorized NOT_LOGGED_IN)) as (_ & Ha & Hwf);
    [exact (proj1 (lived_ok _ sample_fresh_lived))|exact (run_answer _ _ He)|].
  split; [|exact Hwf]. apply Ha; [|reflexivity].
  split; [reflexivity|]. split; by eexists.
Defined.
