(* ===== verification/Interleaving.v ===== *)
(** * Everything at once: the relay at the granularity of its locks

    The runtime has several threads, so the operations of a relay run side by side, and so do the commands
    that open the same database.  What no other thread can see the middle of is one call of [Database] (it
    holds the connection), one critical section of the routing table, one publication, one send on a
    channel, one access to the lockout table or to the link.  [relay_step] is one of those, with whatever
    arguments; every operation of the relay is a sequence of them, and any interleaving of operations is
    one too. *)

From S2P Require Import Prelude.
From S2P Require Import RustStr.
From S2P Require Import Protocol.
From S2P Require Import Handle.
From S2P Require Import Registry.
From S2P Require Import RegistryProofs.
From S2P Require Import Config.
From S2P Require Import Database.
From S2P Require Import Auth.
From S2P Require Import Address.
From S2P Require Import Http.
From S2P Require Import Upstream.
From S2P Require Import DatabaseInvariant.
From S2P Require Import State.
From S2P Require Import Access.
From S2P Require Import Proxy.
From S2P Require Import ApiError.
From S2P Require Import Tunnel.
From S2P Require Import UpstreamSession.
From S2P Require Import UpstreamTheorems.
From S2P Require Import Views.
From S2P Require Import Accounts.
From S2P Require Import Enroll.
From S2P Require Import Devices.
From S2P Require Import Console.
From S2P Require Import Api.
From S2P Require Import Server.
From S2P Require Import Startup.
From S2P Require Import StartupTheorems.
From S2P Require Import RelayInvariant.
From S2P Require Import ApiTheorems.
From S2P Require Import RelayTheorems.

(** ** The steps *)

Section steps.
Context `{!Protocol}.

(** A call of [Database]: a query, or one of the methods that write. *)
Inductive method : forall {A : Type}, DB A -> Prop :=
| method_query {A} (f : Database -> A) : method (sql (select f))
| method_write_setting now key value : method (write_setting now key value)
| method_delete_setting key : method (delete_setting key)
| method_create_session session : method (create_session_row session)
| method_extend_session id_hash expires_at : method (extend_session id_hash expires_at)
| method_delete_session id_hash : method (delete_session id_hash)
| method_delete_sessions_of_user user_id : method (delete_sessions_of_user user_id)
| method_delete_expired_sessions now : method (delete_expired_sessions now)
| method_create_user random now username hash role : method (create_user random now username hash role)
| method_update_user id update : method (update_user id update)
| method_delete_user id : method (delete_user id)
| method_record_user_login now id : method (record_user_login now id)
| method_create_device now device : method (create_device now device)
| method_update_device id update : method (update_device id update)
| method_revoke_device now id : method (revoke_device now id)
| method_disown_devices_of owner : method (disown_devices_of owner)
| method_record_device_connection now id ip version : method (record_device_connection now id ip version)
| method_record_device_disconnection now id : method (record_device_disconnection now id)
| method_create_enrollment random now enrollment : method (create_enrollment random now enrollment)
| method_mark_enrollment_used now id device_id : method (mark_enrollment_used now id device_id)
| method_cancel_enrollment now id : method (cancel_enrollment now id)
| method_write_audit record : method (write_audit record).

Inductive database_step (db : Database) : Database -> Prop :=
| database_call {A} (op : DB A) : method op -> database_step db (snd (op db))
(* the statements the engine is going to fail *)
| database_faults faults : database_step db (set_faults faults db).

(** A critical section of the routing table, the draw of a sequence number before it, or the publication
    after it. *)
Inductive table_step (r : Registry) : Registry -> Prop :=
| table_draw : table_step r (snd (next_sequence r))
| table_connect now serial presence :
    th_device_id (dp_handle presence) = dp_device_id presence ->
    table_step r (snd (connect_locked now serial presence r))
| table_disconnect device_id serial changes r' :
    disconnect_locked device_id serial r = Some (changes, r') -> table_step r r'
| table_announce now sequence l device change r' :
    is_announcement_routable (reg_relay_id r) (ad_via device) = true ->
    announce_locked now sequence (th_device_id l) l device r = Some (change, r') -> table_step r r'
| table_withdraw now link_device_id device_id :
    table_step r (snd (withdraw_locked now link_device_id device_id r))
| table_publish changes : table_step r (publish changes r).

Inductive channel_step (chans : Channels) : Channels -> Prop :=
| channel_open channel : channel_step chans (<[channel := []]> chans)
| channel_send handle command : channel_step chans (snd (try_send handle command chans))
| channel_written channel : channel_step chans (alter tail channel chans)
| channel_drop channel : channel_step chans (delete channel chans).

Inductive relay_step (s : RelayState) : RelayState -> Prop :=
| relay_database db : database_step (rs_database s) db -> relay_step s (put_database db s)
| relay_table r : table_step (rs_registry s) r -> relay_step s (put_registry r s)
| relay_channels chans : channel_step (rs_channels s) chans -> relay_step s (put_channels chans s)
| relay_lockout t : relay_step s (put_lockout t s)
| relay_link u : relay_step s (put_upstream u s)
(* a clock reading or a random draw *)
| relay_tick reads draws : relay_step s (tick reads draws s).

Abbreviation interleaved := (rtc relay_step).

(** An operation that other threads interrupt: between two of its calls any number of steps of others may
    be taken, and it goes on with the answers it has and the state it then finds. *)
Inductive interrupted : forall {E A : Type}, App E A -> RelayState -> result E A -> RelayState -> Prop :=
| interrupted_call {E A} (m : App E A) s :
    preserves interleaved m -> interrupted m s (fst (m s)) (snd (m s))
| interrupted_wait {E A} (m : App E A) s s1 r s' :
    interleaved s s1 -> interrupted m s1 r s' -> interrupted m s r s'
| interrupted_bind {E A B} (m : App E A) (f : A -> App E B) s a s1 r s' :
    interrupted m s (Ok a) s1 -> interrupted (f a) s1 r s' -> interrupted (a ← m; f a) s r s'
| interrupted_error {E A B} (m : App E A) (f : A -> App E B) s e s' :
    interrupted m s (Err e) s' -> interrupted (a ← m; f a) s (Err e) s'
| interrupted_try {E F A} (m : App E A) s r s' :
    interrupted m s r s' -> interrupted (se_try m : App F (result E A)) s (Ok r) s'
| interrupted_map_err {E F A} (g : E -> F) (m : App E A) s r s' :
    interrupted m s r s' -> interrupted (se_map_err g m) s (map_err g r) s'.

(** ** What no interleaving breaks *)

(** An entry of the routing table, whatever numbers were drawn. *)
Definition entry_shaped (relay_id id : string) (e : Entry) : Prop :=
  od_device_id (en_device e) = id
  /\ match en_origin e with
     | Origin_Direct _ => is_direct (od_route (en_device e)) = true
     | Origin_Announced _ =>
         od_kind (en_device e) = DeviceKind_Desktop
         /\ exists l h, od_route (en_device e) = Route_Via l h /\ is_announcement_routable relay_id h = true
     end.

Record table_wf (r : Registry) : Prop := {
  tw_entries : forall id e, reg_entries r !! id = Some e -> entry_shaped (reg_relay_id r) id e;
  tw_withdrawn : forall id, is_Some (reg_withdrawn r !! id) -> reg_entries r !! id = None;
  tw_links : forall relay_id id, reg_relay_links r !! relay_id = Some id ->
    exists e, reg_entries r !! id = Some e /\ is_direct_origin e;
}.

Record shared_wf (s : RelayState) : Prop := {
  sw_database : db_wf (rs_database s);
  sw_table : table_wf (rs_registry s);
  sw_named : well_named (rs_registry s);
  sw_relay_id : reg_relay_id (rs_registry s) = rs_relay_id s;
  sw_channels : channels_bounded (rs_channels s);
}.

(** ** Lemmas: every step keeps it *)

Lemma method_sound {A} (op : DB A) : method op -> sound (db_ok false) (fun _ => True) op.
Proof.
  destruct 1; try (eapply sound_weaken; [solve [eauto 2 with sound]|done]).
  - apply create_session_row_sound.
  - by apply create_user_sound.
  - apply create_device_sound.
  - intros db Hdb. pose proof (disown_devices_of_effect false owner db Hdb) as Hd.
    by destruct (disown_devices_of owner db) as [[a|e] db']; destruct Hd.
  - apply create_enrollment_sound.
Qed.

Lemma database_step_wf db db' : database_step db db' -> db_wf db -> db_wf db'.
Proof.
  destruct 1 as [A op Hop|faults]; intros Hdb.
  - by apply (sound_state _ _ _ db (method_sound op Hop)).
  - by destruct Hdb; split.
Qed.

Lemma channel_step_bounded chans chans' : channel_step chans chans' -> channels_bounded chans -> channels_bounded chans'.
Proof.
  destruct 1 as [channel|handle command|channel|channel]; intros Hc.
  - intros i q [[_ <-]|[_ Hq]]%lookup_insert_Some; [cbn; lia|by eapply Hc].
  - by apply try_send_bounded.
  - intros i q. rewrite lookup_alter_Some. intros [(-> & q0 & Hq & ->)|[_ Hq]]; [|by apply (Hc i)].
    apply Hc in Hq. destruct q0; cbn in *; lia.
  - intros i q [_ Hq]%lookup_delete_Some. by apply (Hc i).
Qed.

Lemma table_insert r id e links withdrawn seq changes :
  table_wf r -> entry_shaped (reg_relay_id r) id e ->
  (forall i, is_Some (withdrawn !! i) -> i <> id /\ is_Some (reg_withdrawn r !! i)) ->
  (forall rid i, links !! rid = Some i ->
     (i = id /\ is_direct_origin e) \/ (i <> id /\ reg_relay_links r !! rid = Some i)) ->
  table_wf (mkRegistry (reg_relay_id r) (<[id := e]> (reg_entries r)) links withdrawn seq changes).
Proof.
  intros Hwf He Hw Hl. split; cbn.
  - intros i f [[<- <-]|[_ Hf]]%lookup_insert_Some; [done|by apply (tw_entries r Hwf)].
  - intros i [Hne Hi]%Hw. rewrite lookup_insert_ne by done. by apply (tw_withdrawn r Hwf).
  - intros rid i [[-> Hd]|[Hne Hi]]%Hl; [exists e; by rewrite lookup_insert_eq|].
    rewrite lookup_insert_ne by done. by apply (tw_links r Hwf rid).
Qed.

Lemma connect_locked_wf now serial presence r : table_wf r -> table_wf (snd (connect_locked now serial presence r)).
Proof.
  intros Hwf. unfold connect_locked. cbv zeta.
  set (r1 := match dp_relay_id presence, dp_kind presence with
             | Some relay_id, DeviceKind_Relay => set_relay_links (<[relay_id := dp_device_id presence]>) r
             | _, _ => r
             end).
  assert (reg_relay_id r1 = reg_relay_id r /\ reg_entries r1 = reg_entries r /\ reg_withdrawn r1 = reg_withdrawn r
    /\ forall rid i, reg_relay_links r1 !! rid = Some i ->
         i = dp_device_id presence \/ reg_relay_links r !! rid = Some i) as (Hi & He & Hw & Hl).
  { subst r1. destruct (dp_relay_id presence) as [rid|], (dp_kind presence); split_and!; cbn; try done; eauto.
    intros rid' i [[_ <-]|[_ Hi]]%lookup_insert_Some; eauto. }
  clearbody r1. cbn -[link]. unfold set_entries, set_withdrawn. cbn. rewrite Hi, He, Hw. apply table_insert; [done|done| |].
  - intros i. rewrite lookup_delete_is_Some. naive_solver.
  - intros rid i Hri. destruct (decide (i = dp_device_id presence)) as [->|Hne]; [by left|right].
    by destruct (Hl rid i Hri).
Qed.

Lemma disconnect_locked_wf device_id serial r changes r' :
  disconnect_locked device_id serial r = Some (changes, r') -> table_wf r -> table_wf r'.
Proof.
  intros Hd Hwf. pose proof (disconnect_entries _ _ _ _ _ Hd) as He.
  destruct (disconnect_locked_Some _ _ _ _ _ Hd) as (e & es & _ & _ & _ & ->). cbn in He. split; cbn.
  - intros id f. rewrite He. destruct (reg_entries r !! id) as [f'|] eqn:Ef; [|done].
    case_decide; [done|]. destruct (announced_by device_id f'); [done|]. intros [= <-]. by apply (tw_entries r Hwf).
  - intros id [w Hw]. apply map_lookup_filter_Some in Hw as [Hw _].
    rewrite He, (tw_withdrawn r Hwf); [done|by eexists].
  - intros rid id [Hi Hne]%map_lookup_filter_Some. destruct (tw_links r Hwf rid id Hi) as (f & Hf & Hdir).
    exists f. rewrite He, Hf, decide_False by done. unfold announced_by. unfold is_direct_origin in *.
    by destruct (en_origin f).
Qed.

Lemma announce_locked_wf now sequence l device change r r' :
  is_announcement_routable (reg_relay_id r) (ad_via device) = true ->
  announce_locked now sequence (th_device_id l) l device r = Some (change, r') -> table_wf r -> table_wf r'.
Proof.
  intros Hroute (Hrep & _ & ->)%announce_locked_Some Hwf. apply table_insert; [done| | |].
  - split; [done|]. cbn. split; [done|]. by eauto.
  - intros i. rewrite lookup_delete_is_Some. naive_solver.
  - intros rid i Hi. right. split; [|done]. intros ->. destruct (tw_links r Hwf rid _ Hi) as (f & Hf & Hd).
    specialize (Hrep f Hf). destruct (tw_entries r Hwf _ _ Hf) as [_ Hcase]. unfold is_direct_origin in Hd.
    destruct (en_origin f); [|done]. by destruct (od_route (en_device f)).
Qed.

Lemma withdraw_locked_wf now link_device_id id r :
  table_wf r -> table_wf (snd (withdraw_locked now link_device_id id r)).
Proof.
  intros Hwf. destruct (withdraw_locked_cases now link_device_id id r) as [(e & He & Ha & ->)|[-> _]]; [|done].
  split; cbn.
  - intros i f [_ Hf]%lookup_delete_Some. by apply (tw_entries r Hwf).
  - intros i. rewrite lookup_insert_is_Some. intros [<-|[Hne Hi]]; [apply lookup_delete_eq|].
    rewrite lookup_delete_ne by done. by apply (tw_withdrawn r Hwf).
  - intros rid i Hi. destruct (tw_links r Hwf rid i Hi) as (f & Hf & Hd). exists f. split; [|done].
    apply lookup_delete_Some. split; [|done]. intros ->. assert (f = e) as -> by congruence.
    unfold announced_by, is_direct_origin in *. by destruct (en_origin e).
Qed.

Lemma table_step_wf r r' :
  table_step r r' -> table_wf r -> well_named r ->
  table_wf r' /\ well_named r' /\ reg_relay_id r' = reg_relay_id r.
Proof.
  destruct 1 as [|now serial presence Hh|device_id serial changes r' Hd|now sequence l device change r' Hr Ha
                |now link_device_id id|changes]; intros Hwf Hn.
  - by destruct Hwf; split_and!; try split.
  - split; [by apply connect_locked_wf|]. unfold connect_locked.
    destruct (dp_relay_id presence), (dp_kind presence); cbn -[link]; (split; [|done]); intros id e; cbn;
      (intros [[<- <-]|[_ He]]%lookup_insert_Some; [exact Hh|by apply Hn]).
  - split; [by eapply disconnect_locked_wf|]. pose proof (disconnect_entries _ _ _ _ _ Hd) as He. split.
    + eapply well_named_fewer; [|exact Hn]. intros id e. rewrite He.
      destruct (reg_entries r !! id); [|done]. case_decide; [done|]. by destruct (announced_by _ _).
    + by destruct (disconnect_locked_Some _ _ _ _ _ Hd) as (e & es & _ & _ & _ & ->).
  - split; [by eapply announce_locked_wf|]. apply announce_locked_Some in Ha as (_ & _ & ->). split; [|done].
    intros id e. cbn. intros [[<- <-]|[_ He]]%lookup_insert_Some; [done|by apply Hn].
  - split; [by apply withdraw_locked_wf|].
    destruct (withdraw_locked_cases now link_device_id id r) as [(e & _ & _ & ->)|[-> _]]; cbn; (split; [|done]);
      [|done]. eapply well_named_fewer; [|exact Hn]. cbn. by intros i f [_ Hf]%lookup_delete_Some.
  - by destruct Hwf; split_and!; try split.
Qed.

Lemma relay_step_wf s s' : relay_step s s' -> shared_wf s -> shared_wf s'.
Proof.
  destruct 1 as [db Hdb|r Hr|chans Hc|t|u|reads draws]; intros [Hd Ht Hn Hi Hb].
  - split; cbn; try done. by apply (database_step_wf _ _ Hdb).
  - destruct (table_step_wf _ _ Hr Ht Hn) as (Ht' & Hn' & Hi'). split; cbn; try done. by rewrite Hi'.
  - split; cbn; try done. by apply (channel_step_bounded _ _ Hc).
  - by split.
  - by split.
  - by split.
Qed.

Lemma interleaved_wf s s' : interleaved s s' -> shared_wf s -> shared_wf s'.
Proof. induction 1 as [|s1 s2 s3 Hs _ IH]; [done|]. intros Hwf. by apply IH, (relay_step_wf s1). Qed.

Lemma interrupted_interleaved {E A} (m : App E A) s r s' : interrupted m s r s' -> interleaved s s'.
Proof. induction 1 as [E A m s Hm| | | | |]; [apply Hm|by etrans|by etrans|done..]. Qed.

(** ** Lemmas: every operation is a sequence of steps *)

(** Two preorders: what a sequence of calls does to a database, and of steps to a relay. *)
Abbreviation queried := (preserves (rtc database_step)).
Abbreviation stepped := (preserves interleaved).

Lemma method_queried {A} (op : DB A) : method op -> queried op.
Proof. intros Hop db. by apply rtc_once, database_call. Qed.

(** Steps of a part are steps of the relay. *)
Lemma database_interleaved s db : rtc database_step (rs_database s) db -> interleaved s (put_database db s).
Proof.
  intros Hs%(rtc_congruence (fun x => put_database x s) relay_step); [by destruct s|].
  intros x y Hxy. by apply (relay_database (put_database x s)).
Qed.

Lemma table_interleaved s r : rtc table_step (rs_registry s) r -> interleaved s (put_registry r s).
Proof.
  intros Hs%(rtc_congruence (fun x => put_registry x s) relay_step); [by destruct s|].
  intros x y Hxy. by apply (relay_table (put_registry x s)).
Qed.

Lemma channels_interleaved s c : rtc channel_step (rs_channels s) c -> interleaved s (put_channels c s).
Proof.
  intros Hs%(rtc_congruence (fun x => put_channels x s) relay_step); [by destruct s|].
  intros x y Hxy. by apply (relay_channels (put_channels x s)).
Qed.

Lemma se_zoom_stepped {E A} (op : SE Database E A) :
  queried op -> stepped (se_zoom rs_database put_database op).
Proof.
  intros Hop s. specialize (Hop (rs_database s)). unfold se_zoom. destruct (op (rs_database s)) as [r db].
  by apply database_interleaved.
Qed.

Lemma on_registry_stepped {E A} (f : Registry -> A * Registry) :
  (forall r, rtc table_step r (snd (f r))) -> stepped (on_registry (E := E) f).
Proof. intros Hf s. rewrite on_registry_run. by apply table_interleaved. Qed.

Lemma on_channels_stepped {E} (f : Channels -> Channels) :
  (forall chans, rtc channel_step chans (f chans)) -> stepped (on_channels (E := E) f).
Proof. intros Hf s. by apply channels_interleaved. Qed.

(** A computation that is one step, whatever the state. *)
Lemma once_stepped {E A} (m : App E A) : (forall s, relay_step s (snd (m s))) -> stepped m.
Proof. intros Hm s. by apply rtc_once. Qed.

(** The operations of the table. *)
Lemma publish_steps changes r : rtc table_step r (publish changes r).
Proof. apply rtc_once, table_publish. Qed.

Lemma connect_steps now presence r :
  th_device_id (dp_handle presence) = dp_device_id presence -> rtc table_step r (snd (Registry.connect now presence r)).
Proof.
  intros Hh. unfold Registry.connect. eapply rtc_l; [apply table_draw|].
  destruct (next_sequence r) as [serial r1]. cbn [snd].
  eapply rtc_l; [apply (table_connect r1 now serial presence Hh)|].
  destruct (connect_locked now serial presence r1) as [[registration change] r2]. apply publish_steps.
Qed.

Lemma disconnect_steps device_id serial r : rtc table_step r (snd (Registry.disconnect device_id serial r)).
Proof.
  unfold Registry.disconnect. destruct (disconnect_locked device_id serial r) as [[changes r']|] eqn:Hd; [|done].
  eapply rtc_l; [by eapply table_disconnect|apply publish_steps].
Qed.

Lemma announce_steps now l device r :
  rtc table_step r (snd (announce_device now (th_device_id l) l device r)).
Proof.
  unfold announce_device. destruct (is_announcement_routable _ _) eqn:Hr; [cbn [negb]|done].
  assert (Hi : reg_relay_id (snd (next_sequence r)) = reg_relay_id r) by done.
  eapply rtc_l; [apply table_draw|]. destruct (next_sequence r) as [sequence r1]. cbn [snd] in *.
  rewrite <- Hi in Hr. destruct (announce_locked now sequence _ l device r1) as [[change r2]|] eqn:Ha; [|done].
  eapply rtc_l; [by eapply table_announce|apply publish_steps].
Qed.

Lemma withdraw_steps now link_device_id id r : rtc table_step r (withdraw_device now link_device_id id r).
Proof.
  unfold withdraw_device. eapply rtc_l; [apply (table_withdraw r now link_device_id id)|].
  destruct (withdraw_locked now link_device_id id r). apply publish_steps.
Qed.

Lemma apply_announcement_steps now l devices r :
  rtc table_step r (apply_announcement now (th_device_id l) l devices r).
Proof.
  assert (Hin : forall i r, rtc table_step r (snd (install_all now i (th_device_id l) l devices r))).
  { induction devices as [|d devices IH]; intros i r1; cbn [install_all]; [done|].
    destruct (ad_online d); cbn [negb]; [|apply IH]. pose proof (announce_steps (now i) l d r1) as Ha.
    destruct (announce_device (now i) (th_device_id l) l d r1) as [accepted r2]. specialize (IH (S i) r2).
    destruct (install_all now (S i) (th_device_id l) l devices r2) as [installed r3]. by etrans. }
  unfold apply_announcement. specialize (Hin 0 r).
  destruct (install_all now 0 (th_device_id l) l devices r) as [installed r1]. etrans; [exact Hin|]. clear Hin.
  generalize (length devices) as i. revert r1.
  induction (List.filter _ _) as [|id stale IH]; intros r1 i; cbn [withdraw_all]; [done|].
  etrans; [apply withdraw_steps|apply IH].
Qed.

(** The operations on channels. *)
Lemma try_send_steps handle command chans : rtc channel_step chans (snd (try_send handle command chans)).
Proof. apply rtc_once, channel_send. Qed.

Lemma revoke_tunnel_steps handle reason chans : rtc channel_step chans (revoke_tunnel handle reason chans).
Proof. etrans; apply try_send_steps. Qed.

Lemma push_addresses_stepped {E} : stepped (push_addresses (E := E)).
Proof.
  intros s. apply channels_interleaved. unfold publish_addresses. generalize (rs_channels s) as chans.
  induction (snapshot (rs_registry s)) as [|d l IH]; intros chans; cbn [fold_left]; [done|].
  etrans; [|apply IH]. destruct (od_route d); [apply try_send_steps|done].
Qed.

Lemma connect_stepped {E} now presence :
  th_device_id (dp_handle presence) = dp_device_id presence ->
  stepped (on_registry (E := E) (Registry.connect now presence)).
Proof. intros Hh. apply on_registry_stepped. intros r. by apply connect_steps. Qed.

Lemma disconnect_stepped {E} device_id serial :
  stepped (on_registry (E := E) (Registry.disconnect device_id serial)).
Proof. apply on_registry_stepped, disconnect_steps. Qed.

Lemma announce_stepped {E} now l device :
  stepped (on_registry (E := E) (fun r => announce_device now (th_device_id l) l device r)).
Proof. apply on_registry_stepped, announce_steps. Qed.

Lemma withdraw_stepped {E} now link_device_id id :
  stepped (on_registry (E := E) (fun r => (tt, withdraw_device now link_device_id id r))).
Proof. apply on_registry_stepped. intros r. apply withdraw_steps. Qed.

Lemma apply_announcement_stepped {E} now l devices :
  stepped (on_registry (E := E) (fun r => (tt, apply_announcement now (th_device_id l) l devices r))).
Proof. apply on_registry_stepped. intros r. apply apply_announcement_steps. Qed.

Lemma send_stepped {E} handle frame : stepped (on_channels (E := E) (send_frame handle frame)).
Proof. apply on_channels_stepped. intros chans. apply try_send_steps. Qed.

Lemma close_stepped {E} handle code reason : stepped (on_channels (E := E) (close handle code reason)).
Proof. apply on_channels_stepped. intros chans. apply try_send_steps. Qed.

Lemma revoke_stepped {E} handle reason : stepped (on_channels (E := E) (revoke_tunnel handle reason)).
Proof. apply on_channels_stepped. intros chans. apply revoke_tunnel_steps. Qed.

Lemma disconnected_stepped {E} handle reason : stepped (on_channels (E := E) (disconnect_tunnel handle reason)).
Proof. apply on_channels_stepped. intros chans. apply try_send_steps. Qed.

Lemma open_stepped {E} channel : stepped (on_channels (E := E) (fun chans => <[channel := []]> chans)).
Proof. apply on_channels_stepped. intros chans. apply rtc_once, channel_open. Qed.

Lemma drop_stepped {E} channel : stepped (on_channels (E := E) (delete channel)).
Proof. apply on_channels_stepped. intros chans. apply rtc_once, channel_drop. Qed.

(** The clock, the generator, the lockout table and the link. *)
Lemma now_millis_stepped {E} : stepped (now_millis (E := E)).
Proof. apply once_stepped. intros s. apply relay_tick. Qed.

Lemma clock_readings_stepped {E} n : stepped (clock_readings (E := E) n).
Proof. apply once_stepped. intros s. apply relay_tick. Qed.

Lemma draw_stepped {E} : stepped (draw (E := E)).
Proof. apply once_stepped. intros s. apply relay_tick. Qed.

Lemma generate_credential_stepped {E} : stepped (generate_credential (E := E)).
Proof. apply once_stepped. intros s. apply relay_tick. Qed.

Lemma on_upstream_stepped {E} f : stepped (on_upstream (E := E) f).
Proof. apply once_stepped. intros s. apply relay_link. Qed.

Lemma on_lockout_stepped {E} f : stepped (se_modify (fun s => put_lockout (f s) s) : App E unit).
Proof. apply once_stepped. intros s. apply relay_lockout. Qed.

End steps.

Abbreviation interleaved := (rtc relay_step).
Abbreviation queried := (preserves (rtc database_step)).
Abbreviation stepped := (preserves interleaved).

#[export] Hint Constructors method : frame.
#[export] Hint Resolve method_queried push_addresses_stepped disconnect_stepped announce_stepped
  withdraw_stepped apply_announcement_stepped send_stepped close_stepped revoke_stepped disconnected_stepped open_stepped drop_stepped
  now_millis_stepped clock_readings_stepped draw_stepped generate_credential_stepped on_upstream_stepped
  on_lockout_stepped : frame.
#[export] Hint Extern 1 (preserves _ (on_registry (Registry.connect _ _))) =>
  (apply connect_stepped; reflexivity) : frame.

(** Follows an operation down to the calls the hints know, unfolding what it is made of. *)
Ltac head_of m :=
  lazymatch m with
  | ?f _ => head_of f
  | _ => m
  end.

Ltac follow_one :=
  lazymatch goal with
  | |- preserves _ (let _ := _ in _) => cbv zeta
  | |- preserves _ (match ?x with _ => _ end) => destruct x
  | |- preserves _ ?m =>
      let f := head_of m in
      lazymatch f with
      | @mret => apply preserves_ret; tc_solve
      | @mbind => apply preserves_bind; [tc_solve|..]
      | @se_fail => apply preserves_fail; tc_solve
      | @se_lift => apply preserves_lift; tc_solve
      | @se_get => apply preserves_get; tc_solve
      | @se_try => apply preserves_try
      | @se_map_err => apply preserves_map_err
      | @se_for => apply preserves_for; [tc_solve|]
      | @se_zoom => apply se_zoom_stepped
      | _ => first [progress unfold f | progress cbv beta]
      end
  end.

Ltac follow := repeat first [progress intros | solve [auto 3 with frame nocore] | follow_one].

(** *** The loops *)

Section operations.
Context `{!Protocol} `{!Platform} `{!HttpCrate} `{!ClientCrate} `{!JsonCodec} `{!SettingsCodec} `{!Argon2}
  `{!RequestCodec} `{!ApiJson} `{!ConsoleBundle}.

Lemma revoke_each_queried clock ids : forall i, queried (revoke_each clock i ids).
Proof. induction ids as [|id ids IH]; intros i; cbn [revoke_each]; follow. Qed.

Lemma first_session_stepped now tokens : stepped (first_session now tokens).
Proof. induction tokens as [|token tokens IH]; cbn [first_session]; follow. Qed.

Lemma first_signed_in_stepped {E} now tokens : stepped (first_signed_in (E := E) now tokens).
Proof. induction tokens as [|token tokens IH]; cbn [first_signed_in]; follow. Qed.

Hint Resolve revoke_each_queried first_session_stepped first_signed_in_stepped : frame.

Lemma account_views_stepped users : stepped (account_views users).
Proof. induction users as [|user users IH]; cbn [account_views]; follow. Qed.

Hint Resolve account_views_stepped : frame.

Lemma serve_endpoint_stepped exchange headers peer query body endpoint :
  stepped (serve_endpoint exchange headers peer query body endpoint).
Proof. destruct endpoint; cbn [serve_endpoint]; follow. Qed.

Hint Resolve serve_endpoint_stepped : frame.

Lemma serve_request_stepped {E} world request : stepped (serve_request (E := E) world request).
Proof. follow. Qed.

Lemma handle_control_frame_stepped {E} handle kind frame :
  stepped (handle_control_frame (E := E) handle kind frame).
Proof. follow. Qed.

Lemma open_session_stepped {E} device peer hello channel :
  stepped (open_session (E := E) device peer hello channel).
Proof. follow. Qed.

Lemma close_session_stepped {E} device peer handle registration cause :
  stepped (close_session (E := E) device peer handle registration cause).
Proof. follow. Qed.

Lemma pump_loop_stepped {E} welcome events : stepped (pump_loop (E := E) welcome events).
Proof. induction events as [|event events IH]; cbn [pump_loop]; follow. Qed.

Hint Resolve pump_loop_stepped : frame.

Lemma supervise_stepped {E} settings rounds : stepped (supervise (E := E) settings rounds).
Proof.
  unfold supervise. generalize Backoff_new as backoff.
  induction rounds as [|[attempt slept] rounds IH]; intros backoff; cbn [supervise_loop]; follow.
Qed.

Lemma reset_password_stepped args : stepped (reset_password args).
Proof. follow. Qed.

Lemma link_command_stepped exchange args : stepped (link_command exchange args).
Proof. follow. Qed.

Lemma shut_down_on_stepped {E} signal : stepped (shut_down_on (E := E) signal).
Proof. follow. Qed.

(** ** Property *)

(** An event of a running relay; a start belongs to the next process. *)
Definition running (event : Event) : Prop :=
  match event with
  | Event_Start _ _ => False
  | _ => True
  end.

Lemma advance_interleaved event s : running event -> interleaved s (advance event s).
Proof.
  intros Hr. destruct event; cbn [advance]; [done|..].
  - apply serve_request_stepped.
  - apply open_session_stepped.
  - apply handle_control_frame_stepped.
  - by apply channels_interleaved, rtc_once, channel_written.
  - apply close_session_stepped.
  - apply supervise_stepped.
  - apply reset_password_stepped.
  - apply link_command_stepped.
  - apply shut_down_on_stepped.
  - apply database_interleaved, rtc_once, database_faults.
Qed.

Lemma fresh_shared_wf args relay_id faults s :
  rs_database s = set_faults faults empty_database -> shared_wf (fresh_state args relay_id s).
Proof.
  intros Hdb. split; cbn; [rewrite Hdb; apply empty_wf| |apply new_named|done|by intros i q].
  split; cbn; [by intros|by intros|by intros].
Qed.

(** C4: no interleaving breaks the shared state.  Once a relay runs on a database that began empty, any
    sequence of single calls of its threads and of the commands beside it - one method of the database, one
    critical section or publication of the routing table, one send - leaves every row well formed with its
    keys and owners, every entry of the table under its own id with a route of its kind over the tunnel it
    names, no device both withdrawn and listed, every relay link at a direct entry, and every queue within
    its capacity.  Every request, tunnel, frame, session and command is such a sequence; so is one that
    others interrupt between any two of its calls. *)
Theorem interleavings_are_safe (args : ServeArgs) (relay_id : string) (faults : list bool) (s0 s : RelayState) :
  rs_database s0 = set_faults faults empty_database ->
  interleaved (fresh_state args relay_id s0) s ->
  shared_wf s
  /\ (forall event, running event -> interleaved s (advance event s))
  /\ (forall E A (m : App E A) r s', interrupted m s r s' -> shared_wf s').
Proof.
  intros Hdb Hs. assert (Hwf : shared_wf s).
  { eapply interleaved_wf; [exact Hs|]. by eapply fresh_shared_wf. }
  split_and!; [done|intros event; apply advance_interleaved|]. intros E A m r s' Hm.
  by apply (interleaved_wf s); [eapply interrupted_interleaved|].
Qed.

End operations.

(** ** Witness *)

(** The middle of a tunnel's opening: the clock is read, then the table is entered. *)
Definition sample_opening : App Empty_set Registration :=
  now ← now_millis;
  on_registry (Registry.connect now
    (mkDirectPresence "dev9" "desk" DeviceKind_Desktop None None None (mkTunnelHandle "dev9" 9))).

(** Another tunnel comes up in between. *)
Definition sample_between : RelayState :=
  advance (Event_TunnelOpened sample_device "10.0.0.2" sample_hello 7) (snd (now_millis (E := Empty_set) sample_fresh)).

Definition sample_interrupted : RelayState :=
  snd (on_registry (E := Empty_set) (Registry.connect (rs_clock sample_fresh (rs_reads sample_fresh))
    (mkDirectPresence "dev9" "desk" DeviceKind_Desktop None None None (mkTunnelHandle "dev9" 9))) sample_between).

Lemma sample_opening_interrupted :
  exists r, interrupted sample_opening sample_fresh r sample_interrupted.
Proof.
  eexists. eapply interrupted_bind.
  - apply (interrupted_call (now_millis (E := Empty_set)) sample_fresh), now_millis_stepped.
  - eapply interrupted_wait; [by apply (advance_interleaved (Event_TunnelOpened sample_device "10.0.0.2" sample_hello 7))|].
    eapply interrupted_call, connect_stepped. reflexivity.
Qed.

Lemma interleavings_are_safe_witness :
  rs_database sample_first_state = set_faults [] empty_database
  /\ (forall event, running event -> interleaved sample_fresh (advance event sample_fresh))
  /\ shared_wf sample_interrupted
  /\ dom (reg_entries (rs_registry sample_interrupted)) = {["dev1"; "dev9"]}.
Proof.
  destruct (interleavings_are_safe sample_serve_args "relay-a" [] sample_first_state sample_fresh)
    as (_ & Hrun & Hint); [reflexivity|reflexivity|].
  destruct sample_opening_interrupted as [r Hr].
  split; [reflexivity|]. split; [exact Hrun|]. split; [exact (Hint _ _ _ _ _ Hr)|].
  apply (bool_decide_unpack _). vm_compute. exact I.
Defined.
