(* ===== verification/Conformance.v ===== *)
(** * The source's own tests, run on the model

    Every file of the source ends in a module of tests.  The files [*Tests] translate them: a test is a
    computation over the state it works on that fails where an assertion of the test would, and each file's
    last lemma evaluates all of its tests.  Where a test uses a crate that is a parameter of the model, it
    runs on the crate's [sample_*] instance.  This file holds what the tests share. *)

From S2P Require Import Prelude.
From S2P Require Import RustStr.

Abbreviation Test S := (SE S string).

Section assertions.
Context {S : Type}.

(** [assert!], and [assert_eq!] on a decidable equality. *)
Definition assert (condition : bool) : Test S unit :=
  if condition then mret tt else se_fail "assertion failed".

Definition assert_eq {A} `{!EqDecision A} (a b : A) : Test S unit := assert (bool_decide (a = b)).

(** [expect] on an option and on a result, and [expect_err]. *)
Definition expect {A} (o : option A) : Test S A :=
  match o with
  | Some a => mret a
  | None => se_fail "expected a value"
  end.

Definition expect_ok {E A} (r : result E A) : Test S A := expect (ok r).

Definition expect_err {E A} (r : result E A) : Test S E :=
  match r with
  | Ok _ => se_fail "expected an error"
  | Err e => mret e
  end.

(** An operation that cannot fail, as a step of a test. *)
Definition act {A} (f : S -> A * S) : Test S A := se_state f.

(** An operation with errors of its own, which are looked at. *)
Definition attempt {E A} (m : SE S E A) : Test S (result E A) := se_try m.

(** [.expect] on the outcome of such an operation. *)
Definition must {E A} (m : SE S E A) : Test S A := outcome ← attempt m; expect_ok outcome.

Definition passes (test : Test S unit) (s : S) : bool := is_ok (fst (test s)).

End assertions.

(** A test of functions that share no state. *)
Definition holds (test : Test unit unit) : bool := passes test tt.
