(* ===== verification/RegistryTests.v ===== *)
(** * The tests of [src/registry.rs] and of the tunnel's files, run on the model *)

From S2P Require Import Prelude.
From S2P Require Import RustStr.
From S2P Require Import Protocol.
From S2P Require Import Handle.
From S2P Require Import Registry.
From S2P Require Import Database.
From S2P Require Import Http.
From S2P Require Import Tunnel.
From S2P Require Import Conformance.
From stdpp Require Import pretty sorting.

(** ** [registry.rs] *)

Definition RELAY_ID : string := "relay-a".

Definition registry : Registry := Registry.new RELAY_ID.

(** [TunnelHandle::disconnected]: a handle whose channels have lost their receivers. *)
Definition disconnected (device_id : string) : TunnelHandle := mkTunnelHandle device_id 0.

Definition presence (device_id : string) (kind : DeviceKind) (relay_id : option string) : DirectPresence :=
  mkDirectPresence device_id ("设备 " +:+ device_id) kind relay_id (Some "203.0.113.5") (Some "0.9.0")
    (disconnected device_id).

Definition announced (id : string) (via : list string) : AnnouncedDevice :=
  mkAnnouncedDevice id ("设备 " +:+ id) true via.

(** The operations, at a clock that stands at 1000. *)
Definition now : Z := 1000.

Definition connecting (presence : DirectPresence) : Test Registry Registration :=
  act (Registry.connect now presence).

Definition disconnecting (device_id : string) (registration : Registration) : Test Registry bool :=
  act (Registry.disconnect device_id (rg_serial registration)).

Definition announce (link : string) (handle : TunnelHandle) (device : AnnouncedDevice) : Test Registry bool :=
  act (announce_device now link handle device).

Definition apply (link : string) (handle : TunnelHandle) (devices : list AnnouncedDevice) : Test Registry unit :=
  act (fun r => (tt, apply_announcement (fun _ => now) link handle devices r)).

Definition withdrawing (link device_id : string) : Test Registry unit :=
  act (fun r => (tt, withdraw_device now link device_id r)).

(** A subscriber reads what is published after it subscribed. *)
Definition subscribe : Test Registry nat := se_get (fun r => length (reg_changes r)).

Definition received (changes : nat) : Test Registry (list RegistryChange) :=
  se_get (fun r => drop changes (reg_changes r)).

Definition routed (device_id : string) : Test Registry Route :=
  found ← se_get (fun r => route r device_id); expect found.

Definition unrouted (device_id : string) : Test Registry unit :=
  found ← se_get (fun r => route r device_id); assert (bool_decide (found = None)).

Definition online (device_id : string) : Test Registry unit :=
  found ← se_get (fun r => is_online r device_id); assert found.

Definition a_direct_tunnel_is_routable_and_removed_on_disconnect : Test Registry unit :=
  registration ← connecting (presence "device-a" DeviceKind_Desktop None);
  online "device-a" ;;
  route ← routed "device-a";
  assert (is_direct route) ;;
  assert_eq (hops route) [] ;;
  removed ← disconnecting "device-a" registration;
  assert removed ;;
  unrouted "device-a".

Definition reconnecting_displaces_the_previous_tunnel_and_its_stale_cleanup : Test Registry unit :=
  first ← connecting (presence "device-a" DeviceKind_Desktop None);
  second ← connecting (presence "device-a" DeviceKind_Desktop None);
  assert (bool_decide (is_Some (rg_displaced second))) ;;
  evicted ← disconnecting "device-a" first;
  assert (negb evicted) ;;
  online "device-a" ;;
  removed ← disconnecting "device-a" second;
  assert removed.

Definition an_announced_device_routes_through_its_link : Test Registry unit :=
  let link := presence "relay-link" DeviceKind_Relay (Some "relay-b") in
  connecting link ;;
  apply "relay-link" (dp_handle link) [announced "device-b" ["relay-b"]] ;;
  route ← routed "device-b";
  assert_eq (hops route) ["relay-b"] ;;
  names ← se_get (fun r => hop_names r ["relay-b"]);
  assert_eq names ["设备 relay-link"] ;;
  downstream ← se_get downstream_links;
  assert_eq (dl_device_count <$> downstream) [1].

Definition losing_the_link_takes_everything_it_announced_with_it : Test Registry unit :=
  let link := presence "relay-link" DeviceKind_Relay (Some "relay-b") in
  registration ← connecting link;
  apply "relay-link" (dp_handle link) [announced "device-b" ["relay-b"]] ;;
  disconnecting "relay-link" registration ;;
  unrouted "device-b" ;;
  downstream ← se_get downstream_links;
  assert_eq (length downstream) 0.

Definition an_announcement_that_loops_back_through_this_relay_is_dropped : Test Registry unit :=
  let handle := disconnected "relay-link" in
  accepted ← announce "relay-link" handle (announced "device-b" ["relay-b"; RELAY_ID]);
  assert (negb accepted) ;;
  unrouted "device-b".

Definition an_announcement_longer_than_the_hop_budget_is_dropped : Test Registry unit :=
  let handle := disconnected "relay-link" in
  let long := (fun index => "relay-" +:+ pretty index) <$> seq 0 MAX_HOPS in
  accepted ← announce "relay-link" handle (announced "device-b" long);
  assert (negb accepted) ;;
  accepted ← announce "relay-link" handle (announced "device-b" (take (MAX_HOPS - 1) long));
  assert accepted.

Definition the_shorter_route_wins_and_a_direct_tunnel_beats_both : Test Registry unit :=
  let long_link := disconnected "relay-long" in
  let short_link := disconnected "relay-short" in
  announce "relay-long" long_link (announced "device-b" ["relay-x"; "relay-y"]) ;;
  accepted ← announce "relay-short" short_link (announced "device-b" ["relay-x"]);
  assert accepted ;;
  route ← routed "device-b";
  assert_eq (hops route) ["relay-x"] ;;
  accepted ← announce "relay-long" long_link (announced "device-b" ["relay-x"; "relay-y"]);
  assert (negb accepted) ;;
  connecting (presence "device-b" DeviceKind_Desktop None) ;;
  route ← routed "device-b";
  assert (is_direct route) ;;
  accepted ← announce "relay-short" short_link (announced "device-b" ["relay-x"]);
  assert (negb accepted).

Definition a_later_announcement_of_equal_length_replaces_the_earlier_one : Test Registry unit :=
  let first := disconnected "relay-first" in
  let second := disconnected "relay-second" in
  announce "relay-first" first (announced "device-b" ["relay-x"]) ;;
  accepted ← announce "relay-second" second (announced "device-b" ["relay-z"]);
  assert accepted ;;
  route ← routed "device-b";
  assert_eq (hops route) ["relay-z"].

Definition a_snapshot_replaces_what_a_link_announced_before : Test Registry unit :=
  let handle := disconnected "relay-link" in
  apply "relay-link" handle [announced "device-b" ["relay-b"]; announced "device-c" ["relay-b"]] ;;
  apply "relay-link" handle [announced "device-c" ["relay-b"]] ;;
  unrouted "device-b" ;;
  online "device-c".

Definition by_id (a b : AnnouncedDevice) : Prop := String.leb (ad_id a) (ad_id b) = true.

#[export] Instance by_id_dec : RelDecision by_id.
Proof. intros a b. unfold by_id. apply _. Defined.

Definition an_announcement_names_this_relay_first_and_leaves_the_links_out : Test Registry unit :=
  let link := presence "relay-link" DeviceKind_Relay (Some "relay-b") in
  connecting link ;;
  connecting (presence "device-a" DeviceKind_Desktop None) ;;
  apply "relay-link" (dp_handle link) [announced "device-b" ["relay-b"]] ;;
  listed ← se_get announcements;
  let announcements := merge_sort by_id listed in
  assert_eq ((fun device => (ad_id device, ad_via device)) <$> announcements)
    [("device-a", [RELAY_ID]); ("device-b", [RELAY_ID; "relay-b"])] ;;
  assert (forallb ad_online announcements).

Definition is_offline (id : string) (change : RegistryChange) : bool :=
  match change with
  | RegistryChange_Offline device_id => String.eqb device_id id
  | RegistryChange_Online _ => false
  end.

Definition a_tunnel_coming_up_and_going_down_is_published_to_subscribers : Test Registry unit :=
  changes ← subscribe;
  registration ← connecting (presence "device-a" DeviceKind_Desktop None);
  disconnecting "device-a" registration ;;
  published ← received changes;
  match published with
  | RegistryChange_Online device :: offline :: _ =>
      assert (String.eqb (ad_id device) "device-a" && bool_decide (ad_via device = [RELAY_ID])) ;;
      assert (is_offline "device-a" offline)
  | _ => assert false
  end.

Definition losing_a_link_publishes_a_withdrawal_for_everything_it_carried : Test Registry unit :=
  let link := presence "relay-link" DeviceKind_Relay (Some "relay-b") in
  registration ← connecting link;
  apply "relay-link" (dp_handle link) [announced "device-b" ["relay-b"]] ;;
  changes ← subscribe;
  disconnecting "relay-link" registration ;;
  published ← received changes;
  assert_eq published [RegistryChange_Offline "device-b"].

Definition forgotten (device_id : string) : Test Registry unit :=
  known ← se_get (fun r => last_known r device_id); assert (bool_decide (known = None)).

Definition a_withdrawn_device_is_remembered_while_its_link_is_up : Test Registry unit :=
  let link := presence "relay-link" DeviceKind_Relay (Some "relay-b") in
  registration ← connecting link;
  announce "relay-link" (dp_handle link) (announced "device-b" ["relay-b"]) ;;
  withdrawing "relay-link" "device-b" ;;
  found ← se_get (fun r => last_known r "device-b");
  known ← expect found;
  assert_eq (kd_name known) "设备 device-b" ;;
  assert (0 <? kd_last_seen_at known)%Z ;;
  forgotten "never-announced" ;;
  announce "relay-link" (dp_handle link) (announced "device-b" ["relay-b"]) ;;
  forgotten "device-b" ;;
  withdrawing "relay-link" "device-b" ;;
  disconnecting "relay-link" registration ;;
  forgotten "device-b".

Definition a_repeated_snapshot_publishes_no_withdrawal_for_a_device_that_stayed : Test Registry unit :=
  let handle := disconnected "relay-link" in
  let snapshot := [announced "device-b" ["relay-b"]; announced "device-c" ["relay-b"]] in
  apply "relay-link" handle snapshot ;;
  changes ← subscribe;
  apply "relay-link" handle snapshot ;;
  apply "relay-link" handle [announced "device-c" ["relay-b"]] ;;
  published ← received changes;
  assert (negb (existsb (is_offline "device-c") published)) ;;
  assert (existsb (is_offline "device-b") published).

Definition an_offline_announcement_and_a_foreign_withdrawal_are_ignored : Test Registry unit :=
  let handle := disconnected "relay-link" in
  let offline := mkAnnouncedDevice "device-b" "设备 device-b" false ["relay-b"] in
  apply "relay-link" handle [offline; announced "device-c" ["relay-b"]] ;;
  withdrawing "someone-else" "device-c" ;;
  unrouted "device-b" ;;
  online "device-c" ;;
  withdrawing "relay-link" "device-c" ;;
  unrouted "device-c".

Definition registry_tests : list (Test Registry unit) :=
  [a_direct_tunnel_is_routable_and_removed_on_disconnect;
   reconnecting_displaces_the_previous_tunnel_and_its_stale_cleanup;
   an_announced_device_routes_through_its_link;
   losing_the_link_takes_everything_it_announced_with_it;
   an_announcement_that_loops_back_through_this_relay_is_dropped;
   an_announcement_longer_than_the_hop_budget_is_dropped;
   the_shorter_route_wins_and_a_direct_tunnel_beats_both;
   a_later_announcement_of_equal_length_replaces_the_earlier_one;
   a_snapshot_replaces_what_a_link_announced_before;
   an_announcement_names_this_relay_first_and_leaves_the_links_out;
   a_tunnel_coming_up_and_going_down_is_published_to_subscribers;
   losing_a_link_publishes_a_withdrawal_for_everything_it_carried;
   a_withdrawn_device_is_remembered_while_its_link_is_up;
   a_repeated_snapshot_publishes_no_withdrawal_for_a_device_that_stayed;
   an_offline_announcement_and_a_foreign_withdrawal_are_ignored].

Lemma registry_tests_pass : forallb (fun test => passes test registry) registry_tests = true.
Proof. evaluate. Qed.
