(* ===== verification/TunnelTests.v ===== *)
(** * The tests of [src/tunnel/], run on the model *)

From S2P Require Import Prelude.
From S2P Require Import RustStr.
From S2P Require Import Protocol.
From S2P Require Import Handle.
From S2P Require Import Database.
From S2P Require Import Http.
From S2P Require Import Tunnel.
From S2P Require Import Conformance.
From S2P Require Import RegistryTests.

(** ** [handle.rs]: a test works on the channels *)

Definition a_disconnected_handle_refuses_to_open_a_stream : Test Channels unit :=
  let handle := disconnected "device-a" in
  (* the receiver of the requests is gone, so nothing is queued *)
  error ← expect_err (open_stream sp_target (StreamPreface_new "device-a") false OpenAnswer_Dropped (Ok tt));
  assert (match error with TunnelError_Closed => true | _ => false end) ;;
  assert_eq (th_device_id handle) "device-a".

Definition control_frames_and_closes_on_a_dead_tunnel_are_dropped_quietly : Test Channels unit :=
  let handle := disconnected "device-a" in
  act (fun chans => (tt, send_frame handle ControlFrame_Ping chans)) ;;
  act (fun chans => (tt, close handle CLOSE_GOING_AWAY "服务已停止。" chans)) ;;
  chans ← se_get id;
  assert (bool_decide (chans = ∅)).

Definition a_queued_close_reaches_the_writer : Test Channels unit :=
  let handle := mkTunnelHandle "device-a" 1 in
  act (fun chans => (tt, <[1 := []]> chans)) ;;
  act (fun chans => (tt, close handle 4403 "接入已被中继撤销。" chans)) ;;
  queue ← se_get (fun chans => queued chans 1);
  sent ← expect (head queue);
  assert (match sent with Outgoing_Close code _ => code =? 4403 | _ => false end)%Z.

Definition handle_tests : list (Test Channels unit) :=
  [a_disconnected_handle_refuses_to_open_a_stream;
   control_frames_and_closes_on_a_dead_tunnel_are_dropped_quietly;
   a_queued_close_reaches_the_writer].

Lemma handle_tests_pass : forallb (fun test => passes test ∅) handle_tests = true.
Proof. evaluate. Qed.

(** ** [session.rs], [mod.rs] *)

Definition the_multiplexer_budget_matches_the_designed_limits : Test unit unit :=
  assert_eq MAX_CONCURRENT_STREAMS 64 ;;
  assert_eq PER_STREAM_RECEIVE_WINDOW (256 * 1024)%Z.

Definition every_close_cause_has_a_stable_audit_label : Test unit unit :=
  assert_eq (CloseCause_as_str CloseCause_Idle) "idle-timeout" ;;
  assert_eq (CloseCause_as_str CloseCause_PeerClosed) "peer-closed" ;;
  assert_eq (CloseCause_as_str CloseCause_Transport) "transport-error" ;;
  assert_eq (CloseCause_as_str CloseCause_Local) "closed-by-relay".

(** [DeviceCredential::generate]. *)
Definition sample_credential : DeviceCredential := mkDeviceCredential "device-a" "c2VjcmV0".

Definition a_bearer_credential_is_read_out_of_the_header : Test unit unit :=
  let credential := sample_credential in
  value ← expect (header_value_from_str ("Bearer " +:+ DeviceCredential_to_string credential));
  let headers := header_insert AUTHORIZATION value header_map_empty in
  parsed ← expect (bearer_credential headers);
  assert_eq (dc_device_id parsed) (dc_device_id credential) ;;
  assert_eq (dc_secret parsed) (dc_secret credential).

Definition anything_but_a_well_formed_bearer_credential_is_refused : Test unit unit :=
  let credential := DeviceCredential_to_string sample_credential in
  se_for [""; credential; "Basic " +:+ credential; "Bearer not-a-credential"] (fun value =>
    headers ← (if is_empty value then mret header_map_empty
               else value ← expect (header_value_from_str value);
                    mret (header_insert AUTHORIZATION value header_map_empty));
    assert (bool_decide (bearer_credential headers = None))).

Definition tunnel_tests : list (Test unit unit) :=
  [the_multiplexer_budget_matches_the_designed_limits; every_close_cause_has_a_stable_audit_label;
   a_bearer_credential_is_read_out_of_the_header;
   anything_but_a_well_formed_bearer_credential_is_refused].

Lemma tunnel_tests_pass : forallb holds tunnel_tests = true.
Proof. evaluate. Qed.
