(* ===== verification/AddressTests.v ===== *)
(** * The tests of [src/config.rs], [src/address.rs], [src/state.rs], [src/forwarded.rs] and [src/paths.rs],
    run on the model *)

From S2P Require Import Prelude.
From S2P Require Import RustStr.
From S2P Require Import Protocol.
From S2P Require Import Registry.
From S2P Require Import Config.
From S2P Require Import Database.
From S2P Require Import Auth.
From S2P Require Import Address.
From S2P Require Import Http.
From S2P Require Import Upstream.
From S2P Require Import Paths.
From S2P Require Import State.
From S2P Require Import Conformance.

(** ** The address types of the standard library and of [ipnet], for the addresses of the tests *)

Definition decimal (s : string) : option N :=
  if is_empty s || negb (str_all is_ascii_digit s) then None
  else Some (foldl (fun n c => 10 * n + (byte_val c - 48))%N 0%N (String.list_ascii_of_string s)).

Definition octets (ip : string) : option (list N) :=
  parts ← mapM decimal (split dot ip);
  if bool_decide (length parts = 4) then Some parts else None.

Definition ipv4 (ip : string) : option N :=
  parts ← octets ip; Some (foldl (fun n octet => 256 * n + octet)%N 0%N parts).

Definition net_contains (network source : string) : bool :=
  default false
    ('(base, length) ← split_once slash network;
     base ← ipv4 base; length ← decimal length; source ← ipv4 source;
     Some (N.shiftr base (32 - length) =? N.shiftr source (32 - length))%N).

(** An IPv4 address, or what is written with hexadecimal groups between colons. *)
Definition parse_ip (s : string) : option string :=
  if bool_decide (is_Some (octets s))
     || (contains_char s colon && str_all (fun c => is_ascii_hexdigit c || Ascii.eqb c colon) s)
  then Some s else None.

#[export] Instance test_platform : Platform := {|
  ip_parse := parse_ip;
  ip_net_contains := net_contains;
  unicode_lowercase s := s;
  unicode_chars_lowercase s := s;
|}.

(** ** [config.rs] *)

Definition tls_modes_parse_from_their_command_line_spellings : Test unit unit :=
  assert (match TlsMode_from_str "self-signed" with Ok TlsMode_SelfSigned => true | _ => false end) ;;
  assert (match TlsMode_from_str "off" with Ok TlsMode_Disabled => true | _ => false end) ;;
  mode ← expect_ok (TlsMode_from_str "cert:/etc/full.pem,/etc/key.pem");
  assert (match mode with
          | TlsMode_Certificate chain key => String.eqb chain "/etc/full.pem" && String.eqb key "/etc/key.pem"
          | _ => false
          end).

Definition a_malformed_tls_mode_is_refused : Test unit unit :=
  error ← expect_err (TlsMode_from_str "cert:/etc/full.pem");
  assert_eq error ConfigError_MalformedCertificateMode ;;
  error ← expect_err (TlsMode_from_str "cert:,");
  assert_eq error ConfigError_MalformedCertificateMode ;;
  error ← expect_err (TlsMode_from_str "acme");
  assert (match error with ConfigError_UnknownTlsMode _ => true | _ => false end).

Definition a_public_url_is_normalized_to_an_origin : Test unit unit :=
  url ← expect_ok (PublicUrl_from_str "https://relay.example.com/");
  assert_eq (pu_origin url) "https://relay.example.com" ;;
  assert_eq (pu_host url) "relay.example.com" ;;
  assert_eq (host_name url) "relay.example.com" ;;
  assert (pu_secure url).

Definition a_public_url_keeps_its_port_and_drops_it_from_the_certificate_name : Test unit unit :=
  url ← expect_ok (PublicUrl_from_str "http://192.168.1.20:8443");
  assert_eq (pu_origin url) "http://192.168.1.20:8443" ;;
  assert_eq (pu_host url) "192.168.1.20:8443" ;;
  assert_eq (host_name url) "192.168.1.20" ;;
  assert (negb (pu_secure url)).

Definition a_public_url_with_a_path_or_an_unknown_scheme_is_refused : Test unit unit :=
  error ← expect_err (PublicUrl_from_str "ftp://relay.example.com");
  assert_eq error ConfigError_UnsupportedScheme ;;
  error ← expect_err (PublicUrl_from_str "https://");
  assert_eq error ConfigError_MissingHost ;;
  error ← expect_err (PublicUrl_from_str "https://relay.example.com/console");
  assert (match error with ConfigError_UnexpectedPath _ => true | _ => false end).

Definition a_public_url_reports_the_port_a_subdomain_address_has_to_repeat : Test unit unit :=
  url ← expect_ok (PublicUrl_from_str "https://relay.example.com:8443");
  assert_eq (port_suffix url) ":8443" ;;
  url ← expect_ok (PublicUrl_from_str "https://relay.example.com");
  assert_eq (port_suffix url) "".

Definition a_subdomain_base_is_normalized_to_a_lowercase_host : Test unit unit :=
  base ← expect_ok (SubdomainBase_from_str "  Relay.Example.COM. ");
  assert_eq (sb_host base) "relay.example.com" ;;
  assert_eq (wildcard_name base) "*.relay.example.com".

Definition a_subdomain_base_that_is_not_a_bare_host_name_is_refused : Test unit unit :=
  se_for ["https://relay.example.com"; "relay.example.com:8443"; "relay.example.com/console"; "localhost"; "";
          "-bad.example.com"] (fun value =>
    assert (negb (is_ok (SubdomainBase_from_str value)))).

Definition only_one_label_in_front_of_the_base_is_a_device_host : Test unit unit :=
  base ← expect_ok (SubdomainBase_from_str "relay.example.com");
  assert_eq (label_of base "abc.relay.example.com") (Some "abc") ;;
  assert_eq (label_of base "relay.example.com") None ;;
  assert_eq (label_of base "a.b.relay.example.com") None ;;
  assert_eq (label_of base "relay.example.com.evil.test") None ;;
  assert_eq (label_of base "xrelay.example.com") None.

Definition an_unspecified_listen_address_falls_back_to_localhost : Test unit unit :=
  let url := from_listen_address (mkSocketAddr "0.0.0.0" 8443) true in
  assert_eq (pu_origin url) "https://localhost:8443".

Definition only_a_configured_network_counts_as_a_trusted_proxy : Test unit unit :=
  let networks := ["10.0.0.0/8"; "127.0.0.1/32"] in
  assert (is_trusted_proxy networks "10.1.2.3") ;;
  assert (is_trusted_proxy networks "127.0.0.1") ;;
  assert (negb (is_trusted_proxy networks "203.0.113.5")) ;;
  assert (negb (is_trusted_proxy [] "127.0.0.1")).

(** ** [address.rs] *)

Definition DEVICE_ID : string := "abcdefghijklmnopqrstuvwxyz".

(** [DeviceAddressing::new] on parsed texts. *)
Definition addressing {S} (public_url : string) (base : option string) : Test S DeviceAddressing :=
  url ← expect_ok (PublicUrl_from_str public_url);
  match base with
  | None => mret (mkDeviceAddressing url None)
  | Some base => base ← expect_ok (SubdomainBase_from_str base); mret (mkDeviceAddressing url (Some base))
  end.

Definition without_a_base_a_device_is_advertised_under_the_path_prefix : Test unit unit :=
  addressing ← addressing "https://relay.example.com" None;
  assert_eq (device_url addressing DEVICE_ID) ("https://relay.example.com/d/" +:+ DEVICE_ID +:+ "/") ;;
  assert_eq (device_from_host addressing "relay.example.com") None ;;
  assert_eq (DeviceAddressing_wildcard_name addressing) None.

Definition with_a_base_a_device_is_advertised_under_its_own_subdomain : Test unit unit :=
  addressing ← addressing "https://relay.example.com" (Some "relay.example.com");
  assert_eq (device_url addressing DEVICE_ID) ("https://" +:+ DEVICE_ID +:+ ".relay.example.com/") ;;
  assert_eq (DeviceAddressing_wildcard_name addressing) (Some "*.relay.example.com").

Definition a_subdomain_address_keeps_the_relays_port : Test unit unit :=
  addressing ← addressing "http://relay.test:8443" (Some "relay.test");
  assert_eq (device_url addressing DEVICE_ID) ("http://" +:+ DEVICE_ID +:+ ".relay.test:8443/").

Definition a_device_host_is_recognised_whatever_case_and_port_the_browser_used : Test unit unit :=
  addressing ← addressing "https://relay.example.com" (Some "relay.example.com");
  let expected := Some DEVICE_ID in
  assert_eq (device_from_host addressing (DEVICE_ID +:+ ".relay.example.com")) expected ;;
  assert_eq (device_from_host addressing (str_map to_ascii_uppercase DEVICE_ID +:+ ".RELAY.Example.com:8443"))
    expected ;;
  assert_eq (device_from_host addressing (DEVICE_ID +:+ ".relay.example.com.")) expected.

(** [console.relay.example.com] is left out: that [console] is no device id is for the crate's parser. *)
Definition a_host_that_is_not_exactly_one_valid_device_label_falls_back_to_the_relay : Test unit unit :=
  addressing ← addressing "https://relay.example.com" (Some "relay.example.com");
  se_for ["relay.example.com"; "a." +:+ DEVICE_ID +:+ ".relay.example.com";
          DEVICE_ID +:+ ".relay.example.com.evil.test"; "relay.example.com:8443"; ""] (fun host =>
    assert_eq (device_from_host addressing host) None).

Definition the_base_header_follows_the_entry_the_browser_used : Test unit unit :=
  let path := mkDeviceTarget DEVICE_ID "assets/main.js" DeviceEntry_Path in
  let subdomain := mkDeviceTarget (dt_device_id path) (dt_rest path) DeviceEntry_Subdomain in
  assert_eq (base_path path) ("/d/" +:+ DEVICE_ID +:+ "/") ;;
  assert_eq (base_path subdomain) "/".

Definition the_path_form_of_a_request_is_absolute_and_keeps_its_query : Test unit unit :=
  addressing ← addressing "https://relay.example.com" (Some "relay.example.com");
  assert_eq (path_form_url addressing DEVICE_ID "ws" (Some "v=1"))
    ("https://relay.example.com/d/" +:+ DEVICE_ID +:+ "/ws?v=1") ;;
  assert_eq (path_form_url addressing DEVICE_ID "" None) ("https://relay.example.com/d/" +:+ DEVICE_ID +:+ "/").

Definition address_tests : list (Test unit unit) :=
  [tls_modes_parse_from_their_command_line_spellings; a_malformed_tls_mode_is_refused;
   a_public_url_is_normalized_to_an_origin;
   a_public_url_keeps_its_port_and_drops_it_from_the_certificate_name;
   a_public_url_with_a_path_or_an_unknown_scheme_is_refused;
   a_public_url_reports_the_port_a_subdomain_address_has_to_repeat;
   a_subdomain_base_is_normalized_to_a_lowercase_host;
   a_subdomain_base_that_is_not_a_bare_host_name_is_refused;
   only_one_label_in_front_of_the_base_is_a_device_host;
   an_unspecified_listen_address_falls_back_to_localhost;
   only_a_configured_network_counts_as_a_trusted_proxy;
   without_a_base_a_device_is_advertised_under_the_path_prefix;
   with_a_base_a_device_is_advertised_under_its_own_subdomain;
   a_subdomain_address_keeps_the_relays_port;
   a_device_host_is_recognised_whatever_case_and_port_the_browser_used;
   a_host_that_is_not_exactly_one_valid_device_label_falls_back_to_the_relay;
   the_base_header_follows_the_entry_the_browser_used;
   the_path_form_of_a_request_is_absolute_and_keeps_its_query].

Lemma address_tests_pass : forallb holds address_tests = true.
Proof. evaluate. Qed.
