(* ===== verification/UpstreamTests.v ===== *)
(** * The tests of [src/upstream/], run on the model

    What a test asserts of serde's JSON or of the TLS configuration is left out: both are parameters. *)

From stdpp Require Import pretty.
From S2P Require Import Prelude.
From S2P Require Import RustStr.
From S2P Require Import Protocol.
From S2P Require Import Handle.
From S2P Require Import Registry.
From S2P Require Import Config.
From S2P Require Import Database.
From S2P Require Import Auth.
From S2P Require Import Address.
From S2P Require Import Http.
From S2P Require Import Upstream.
From S2P Require Import State.
From S2P Require Import ApiError.
From S2P Require Import Tunnel.
From S2P Require Import UpstreamSession.
From S2P Require Import UpstreamTheorems.
From S2P Require Import Conformance.
From S2P Require Import AddressTests.
From S2P Require Import StateTests.

(** A codec that keeps the three fields, separated by newlines, and refuses everything else. *)
Definition newline : ascii := "010".

#[export] Instance test_codec : SettingsCodec := {|
  settings_to_json settings :=
    up_url settings +:+ String newline (up_credential settings +:+ String newline
      (default "" (up_certificate_fingerprint settings)));
  settings_from_json text :=
    match split newline text with
    | [url; credential; fingerprint] =>
        Ok (mkUpstreamSettings url credential (if is_empty fingerprint then None else Some fingerprint))
    | _ => Err "expected three lines"
    end;
  sqlite_error_to_string _ := "sqlite";
|}.

(** An answer is JSON where it starts like it. *)
#[export] Instance test_client : ClientCrate := {|
  into_client_request url := Ok [("host", url)];
  http_error_to_string status := pretty status;
  decode_error text := text;
  enroll_response_from_json text := Err "not json";
  upstream_failure_from_json text :=
    match strip_prefix "{error:" text with
    | Some rest => ok_or "unterminated" (strip_suffix "}" rest)
    | None => Err "not json"
    end;
|}.

#[export] Instance UpstreamSettings_eq_dec : EqDecision UpstreamSettings.
Proof. solve_decision. Defined.

#[export] Instance SupervisorStep_eq_dec : EqDecision SupervisorStep.
Proof. solve_decision. Defined.

(** ** [addresses.rs] *)

Definition LINK_DEVICE_ID : string := "linkdeviceidaaaaaaaaaaaaaa".
Definition DESKTOP_ID : string := "officedesktopbbbbbbbbbbbbb".

Definition address (relay_id origin : string) (hops : Z) : RelayAddress :=
  mkRelayAddress relay_id (relay_id +:+ " 名称") (origin +:+ "/d/" +:+ LINK_DEVICE_ID +:+ "/") hops.

Definition an_upstream_address_becomes_this_relays_device_address_one_hop_further_out : Test unit unit :=
  let reach := from_welcome LINK_DEVICE_ID "relay-a" [address "relay-a" "https://relay-a.example.com" 0] [] in
  assert_eq ((fun a => (ra_url a, ra_hops a, ra_relay_id a, ra_relay_name a)) <$> addresses_for reach DESKTOP_ID)
    [("https://relay-a.example.com/d/" +:+ DESKTOP_ID +:+ "/", 1%Z, "relay-a", "relay-a 名称")].

Definition every_relay_of_the_chain_is_carried_with_its_hop_count_raised : Test unit unit :=
  let reach := from_welcome LINK_DEVICE_ID "relay-a"
    [address "relay-a" "https://relay-a.example.com" 0; address "relay-c" "https://relay-c.example.com" 1]
    ["relay-c"] in
  assert_eq (ra_hops <$> addresses_for reach DESKTOP_ID) [1; 2]%Z ;;
  assert_eq (reach_chain reach) ["relay-a"; "relay-c"].

Definition the_chain_starts_with_the_upstream_itself : Test unit unit :=
  let reach := from_welcome LINK_DEVICE_ID "relay-a" [] [] in
  assert_eq (reach_chain reach) ["relay-a"] ;;
  assert_eq (length (addresses_for reach DESKTOP_ID)) 0.

Definition an_address_that_is_not_this_links_own_is_dropped : Test unit unit :=
  let foreign := mkRelayAddress "relay-a" "relay-a 名称" "https://relay-a.example.com/d/someoneelse/" 0 in
  let reach := from_welcome LINK_DEVICE_ID "relay-a" [foreign] [] in
  assert_eq (length (addresses_for reach DESKTOP_ID)) 0.

Definition a_relay_without_an_upstream_contributes_nothing : Test unit unit :=
  assert_eq (length (addresses_for UpstreamReach_default DESKTOP_ID)) 0 ;;
  assert_eq (reach_chain UpstreamReach_default) [].

(** ** [forward.rs] *)

Definition FORWARDER_ID : string := "relay-b".

Definition preface (hops : list string) : StreamPreface :=
  let preface := StreamPreface_new DESKTOP_ID in mkStreamPreface (sp_v preface) (sp_target preface) hops.

Definition forwarding_records_this_relay_after_the_hops_the_stream_already_crossed : Test unit unit :=
  extended ← expect_ok (extend (preface ["relay-a"]) FORWARDER_ID);
  assert_eq (sp_target extended) DESKTOP_ID ;;
  assert_eq (sp_hops extended) ["relay-a"; FORWARDER_ID].

Definition a_stream_that_already_crossed_this_relay_is_refused : Test unit unit :=
  rejection ← expect_err (extend (preface ["relay-a"; FORWARDER_ID]) FORWARDER_ID);
  assert (match rejection with StreamRejection_Loop => true | _ => false end).

Definition a_stream_that_fills_the_hop_budget_is_refused : Test unit unit :=
  let hops := (fun index => "relay-" +:+ pretty index) <$> seq 0 MAX_HOPS in
  rejection ← expect_err (extend (preface hops) FORWARDER_ID);
  assert (match rejection with StreamRejection_Budget _ => true | _ => false end) ;;
  assert (is_ok (extend (preface (take (MAX_HOPS - 1) hops)) FORWARDER_ID)).

(** ** [settings.rs] *)

Definition CREDENTIAL : string := "tdc1.abcdefghijklmnopqrstuvwxyz.c2VjcmV0LXZhbHVlLWZvci10ZXN0aW5n".

Definition settings {S} (url : string) : Test S UpstreamSettings := expect_ok (build url CREDENTIAL None).

Definition an_address_is_normalized_and_turned_into_the_two_urls_the_link_needs : Test unit unit :=
  settings ← settings "https://relay-a.example.com/";
  assert_eq (up_url settings) "https://relay-a.example.com" ;;
  assert_eq (authority settings) "relay-a.example.com" ;;
  assert_eq (tunnel_url settings) "wss://relay-a.example.com/tunnel" ;;
  assert_eq (enroll_url settings) "https://relay-a.example.com/api/enroll".

Definition a_plain_http_upstream_is_dialled_over_ws : Test unit unit :=
  settings ← settings "http://127.0.0.1:8443";
  assert_eq (tunnel_url settings) "ws://127.0.0.1:8443/tunnel".

Definition an_address_that_is_not_an_origin_is_refused : Test unit unit :=
  assert (negb (is_ok (build "relay-a.example.com" CREDENTIAL None))) ;;
  assert (negb (is_ok (build "https://relay-a.example.com/console" CREDENTIAL None))).

Definition a_credential_that_is_not_a_device_credential_is_refused : Test unit unit :=
  error ← expect_err (build "https://relay-a.example.com" "nonsense" None);
  assert_eq error INVALID_CREDENTIAL.

(** The next two work on a database. *)
Definition the_settings_round_trip_through_the_database_and_can_be_forgotten : Test Database unit :=
  stored ← expect_ok (build "https://relay-a.example.com" CREDENTIAL (Some "a1b2"));
  loaded ← must load;
  assert (bool_decide (loaded = None)) ;;
  must (store 1000 stored) ;;
  loaded ← must load;
  assert_eq loaded (Some stored) ;;
  must clear ;;
  loaded ← must load;
  assert (bool_decide (loaded = None)).

Definition stored_settings_that_no_longer_parse_are_reported_rather_than_ignored : Test Database unit :=
  must (write_setting 1000 SETTING_UPSTREAM "{ not json") ;;
  outcome ← attempt load;
  error ← expect_err outcome;
  assert (starts_with error UNREADABLE_SETTINGS).

Definition the_debug_output_never_carries_the_credential : Test unit unit :=
  settings ← settings "https://relay-a.example.com";
  let rendered := UpstreamSettings_debug settings in
  assert (negb (existsb (fun '(_, value) => starts_with (default "" value) "tdc1.") rendered)) ;;
  assert (existsb (fun '(_, value) => ends_with (default "" value) "relay-a.example.com") rendered).

(** ** [pinning.rs]; a digest is written as its text *)

Definition PINNED : string := "a1b2c3d4e5f60718293a4b5c6d7e8f90a1b2c3d4e5f60718293a4b5c6d7e8f90".

Definition a_certificate_is_pinned_only_when_a_fingerprint_was_stored : Test unit unit :=
  assert (bool_decide (client_config sample_provider None = None)) ;;
  assert (bool_decide (is_Some (client_config sample_provider (Some PINNED)))).

Definition a_pasted_fingerprint_is_folded_to_the_one_stored_spelling : Test unit unit :=
  folded ← expect_ok (normalize_fingerprint ("A1:B2:C3:D4:E5:F6:07:18:29:3A:4B:5C:6D:7E:8F:90:"
                                             +:+ "A1:B2:C3:D4:E5:F6:07:18:29:3A:4B:5C:6D:7E:8F:90"));
  assert_eq folded PINNED ;;
  folded ← expect_ok (normalize_fingerprint ("  " +:+ str_map to_ascii_uppercase PINNED +:+ " "));
  assert_eq folded PINNED.

Definition a_fingerprint_of_the_wrong_length_or_alphabet_is_refused_in_chinese : Test unit unit :=
  se_for [""; "a1b2"; String.substring 1 63 PINNED; String.substring 0 62 PINNED +:+ "zz"] (fun value =>
    error ← expect_err (normalize_fingerprint value);
    assert_eq error MALFORMED_FINGERPRINT).

Definition a_certificate_is_accepted_only_when_its_digest_is_the_pinned_one : Test unit unit :=
  let fingerprint := "digest of upstream-certificate" in
  let digest certificate := "digest of " +:+ certificate in
  let verifier := mkPinnedCertificateVerifier fingerprint sample_provider in
  let name := "relay-a.example.com" in
  assert (is_ok (verify_server_cert digest verifier "upstream-certificate" [] name "" 0)) ;;
  assert (negb (is_ok (verify_server_cert digest verifier "another-certificate" [] name "" 0))).

(** ** [mod.rs] *)

Definition ended (connected : bool) (e : SessionEnd) : SessionOutcome := mkSessionOutcome connected e.

Definition each_way_a_session_can_end_has_its_own_consequence : Test Backoff unit :=
  step ← act (next_step (ended true (SessionEnd_Revoked "接入已被撤销。")));
  assert_eq step SupervisorStep_Revoked ;;
  step ← act (next_step (ended true (SessionEnd_Refused "凭据无效。")));
  assert_eq step SupervisorStep_Stop ;;
  step ← act (next_step (ended false (SessionEnd_Looped "中继链成环。")));
  assert_eq step SupervisorStep_Looped ;;
  step ← act (next_step (ended true (SessionEnd_Interrupted "连接已断开。")));
  assert_eq step (SupervisorStep_RetryAfter (fst (Backoff_take Backoff_new))).

(** The delays are the crate's; the sample's double from one. *)
Definition repeated_failures_walk_the_delay_ladder : Test Backoff unit :=
  se_for [1; 2; 4; 8]%Z (fun delay =>
    step ← act (next_step (ended false (SessionEnd_Interrupted "连接被拒绝。")));
    assert_eq step (SupervisorStep_RetryAfter delay)).

Definition the_link_name_falls_back_to_this_relays_own_public_host : Test Database unit :=
  name ← must (link_name None);
  assert_eq name DEFAULT_LINK_NAME ;;
  must (write_setting 1000 SETTING_PUBLIC_URL "https://relay-b.example.com") ;;
  name ← must (link_name None);
  assert_eq name "relay-b.example.com" ;;
  name ← must (link_name (Some "  办公室中继 "));
  assert_eq name "办公室中继" ;;
  name ← must (link_name (Some "   "));
  assert_eq name "relay-b.example.com".

Definition a_link_without_an_upstream_reports_nothing_at_all : Test UpstreamLink unit :=
  found ← se_get view;
  assert (match found with None => true | Some _ => false end) ;;
  link ← se_get id;
  assert_eq (chain link) [] ;;
  assert_eq (length (addresses_for (ul_reach link) "device-a")) 0.

Definition the_view_follows_the_link_through_its_states : Test UpstreamLink unit :=
  se_modify (set_connecting "https://relay-a.example.com") ;;
  found ← se_get view;
  connecting ← expect found;
  assert_eq (uv_state connecting) UpstreamState_Connecting ;;
  se_modify (set_connected "relay-a") ;;
  found ← se_get view;
  connected ← expect found;
  assert_eq (uv_state connected) UpstreamState_Connected ;;
  assert_eq (uv_relay_id connected) (Some "relay-a") ;;
  assert_eq (uv_error connected) None ;;
  assert_eq (uv_url connected) "https://relay-a.example.com" ;;
  se_modify (set_error "无法连接上游中继。") ;;
  found ← se_get view;
  failed ← expect found;
  assert_eq (uv_state failed) UpstreamState_Error ;;
  assert_eq (uv_error failed) (Some "无法连接上游中继。") ;;
  assert_eq (uv_relay_id failed) (Some "relay-a").

(** ** [session.rs] *)

Definition UPSTREAM_RELAY_ID : string := "relay-a".

Definition announced (id : string) (via : list string) : AnnouncedDevice :=
  mkAnnouncedDevice id ("设备 " +:+ id) true via.

Definition close_frame (code : Z) (reason : string) : option (Z * string) := Some (code, reason).

Definition the_close_code_decides_whether_the_link_ever_comes_back : Test unit unit :=
  assert (match close_reason (close_frame CLOSE_REVOKED "接入已被撤销。") with
          | SessionEnd_Revoked reason => String.eqb reason "接入已被撤销。"
          | _ => false
          end) ;;
  assert (match close_reason (close_frame CLOSE_UNAUTHORIZED "凭据无效。") with
          | SessionEnd_Refused _ => true | _ => false end) ;;
  assert (match close_reason (close_frame 1001 "going away") with
          | SessionEnd_Interrupted _ => true | _ => false end) ;;
  assert (match close_reason None with SessionEnd_Interrupted _ => true | _ => false end).

Definition an_announcement_that_runs_through_the_upstream_is_not_sent : Test unit unit :=
  assert (is_routable_for UPSTREAM_RELAY_ID (announced "device-b" ["relay-b"])) ;;
  assert (negb (is_routable_for UPSTREAM_RELAY_ID (announced "device-b" ["relay-b"; UPSTREAM_RELAY_ID]))).

Definition a_change_becomes_the_increment_the_upstream_understands : Test unit unit :=
  let online := announcement_frame (RegistryChange_Online (announced "device-b" ["relay-b"])) UPSTREAM_RELAY_ID in
  let offline := announcement_frame (RegistryChange_Offline "device-b") UPSTREAM_RELAY_ID in
  assert (match online with
          | Some (ControlFrame_DeviceOnline id _ via) => String.eqb id "device-b" && bool_decide (via = ["relay-b"])
          | _ => false
          end) ;;
  assert (match offline with
          | Some (ControlFrame_DeviceOffline id) => String.eqb id "device-b"
          | _ => false
          end) ;;
  assert (match announcement_frame (RegistryChange_Online (announced "device-b" [UPSTREAM_RELAY_ID]))
                  UPSTREAM_RELAY_ID with
          | None => true | Some _ => false end).

Definition the_handshake_announces_this_build_as_a_relay : Test unit unit :=
  match hello_frame (state_for_tests "relay-b") with
  | ControlFrame_Hello protocol kind _ _ relay_id =>
      assert (bool_decide (kind = DeviceKind_Relay)) ;;
      assert_eq relay_id (Some "relay-b") ;;
      assert_eq protocol PROTOCOL_VERSION
  | _ => assert false
  end.

Definition an_upstream_chain_that_contains_this_relay_is_refused : Test unit unit :=
  let state := state_for_tests "relay-b" in
  let looping := mkWelcome "link" UPSTREAM_RELAY_ID [] ["relay-c"; "relay-b"] in
  let clean := mkWelcome "link" UPSTREAM_RELAY_ID [] ["relay-c"] in
  assert (match refuse_loop state looping with Some (SessionEnd_Looped _) => true | _ => false end) ;;
  assert (match refuse_loop state clean with None => true | _ => false end).

Definition an_upstream_that_is_this_relay_itself_is_refused : Test unit unit :=
  let welcome := mkWelcome "link" "relay-b" [] [] in
  assert (match refuse_loop (state_for_tests "relay-b") welcome with
          | Some (SessionEnd_Looped _) => true | _ => false end).

(** The test client keeps the address under [host]. *)
Definition the_credential_travels_in_the_header_and_never_in_a_frame : Test unit unit :=
  settings ← settings "https://relay-a.example.com";
  request ← expect_ok (tunnel_request settings);
  assert_eq (header_str request HOST) (Some "wss://relay-a.example.com/tunnel") ;;
  assert (bool_decide (is_Some (header_str request AUTHORIZATION))).

(** ** [enroll.rs] *)

Definition the_upstreams_own_message_is_passed_through : Test unit unit :=
  assert_eq (describe_failure FORBIDDEN "{error:接入码无效或已过期。}") "接入码无效或已过期。".

Definition a_response_that_is_not_a_relay_failure_falls_back_to_the_status : Test unit unit :=
  assert_eq (describe_failure BAD_GATEWAY "<html>502 Bad Gateway</html>") "上游中继拒绝了接入请求（HTTP 502）。".

(** [str::contains], for a text. *)
Fixpoint contains (text part : string) : bool :=
  starts_with text part
  || match text with
     | EmptyString => false
     | String _ rest => contains rest part
     end.

(** The network is never asked: it would answer a success that fails otherwise. *)
Definition an_address_that_is_not_an_origin_never_reaches_the_network : Test RelayState unit :=
  let exchange := mkExchange sample_provider (fun _ => Ok tt) (fun _ _ _ => Err "asked") in
  outcome ← attempt (join exchange "relay-a.example.com" "AAAA" "中继 B" None);
  error ← expect_err outcome;
  assert (contains error "http") ;;
  loaded ← must (se_zoom rs_database put_database load);
  assert (bool_decide (loaded = None)).

Definition upstream_tests : list (Test unit unit) :=
  [an_upstream_address_becomes_this_relays_device_address_one_hop_further_out;
   every_relay_of_the_chain_is_carried_with_its_hop_count_raised; the_chain_starts_with_the_upstream_itself;
   an_address_that_is_not_this_links_own_is_dropped; a_relay_without_an_upstream_contributes_nothing;
   forwarding_records_this_relay_after_the_hops_the_stream_already_crossed;
   a_stream_that_already_crossed_this_relay_is_refused; a_stream_that_fills_the_hop_budget_is_refused;
   an_address_is_normalized_and_turned_into_the_two_urls_the_link_needs; a_plain_http_upstream_is_dialled_over_ws;
   an_address_that_is_not_an_origin_is_refused; a_credential_that_is_not_a_device_credential_is_refused;
   the_debug_output_never_carries_the_credential;
   a_certificate_is_pinned_only_when_a_fingerprint_was_stored;
   a_pasted_fingerprint_is_folded_to_the_one_stored_spelling;
   a_fingerprint_of_the_wrong_length_or_alphabet_is_refused_in_chinese;
   a_certificate_is_accepted_only_when_its_digest_is_the_pinned_one;
   the_close_code_decides_whether_the_link_ever_comes_back;
   an_announcement_that_runs_through_the_upstream_is_not_sent;
   a_change_becomes_the_increment_the_upstream_understands; the_handshake_announces_this_build_as_a_relay;
   an_upstream_chain_that_contains_this_relay_is_refused; an_upstream_that_is_this_relay_itself_is_refused;
   the_credential_travels_in_the_header_and_never_in_a_frame; the_upstreams_own_message_is_passed_through;
   a_response_that_is_not_a_relay_failure_falls_back_to_the_status].

Lemma upstream_tests_pass : forallb holds upstream_tests = true.
Proof. evaluate. Qed.

Definition stored_upstream_tests : list (Test Database unit) :=
  [the_settings_round_trip_through_the_database_and_can_be_forgotten;
   stored_settings_that_no_longer_parse_are_reported_rather_than_ignored;
   the_link_name_falls_back_to_this_relays_own_public_host].

Lemma stored_upstream_tests_pass :
  forallb (fun test => passes test empty_database) stored_upstream_tests = true.
Proof. evaluate. Qed.

(** One test on a backoff, two on a link, one on a relay. *)
Lemma link_tests_pass :
  passes each_way_a_session_can_end_has_its_own_consequence Backoff_new
  && passes repeated_failures_walk_the_delay_ladder Backoff_new
  && passes a_link_without_an_upstream_reports_nothing_at_all UpstreamLink_new
  && passes the_view_follows_the_link_through_its_states UpstreamLink_new
  && passes an_address_that_is_not_an_origin_never_reaches_the_network (state_for_tests "relay-b") = true.
Proof. evaluate. Qed.
