(* ===== verification/AuthTests.v ===== *)
(** * The tests of [src/auth/], [src/console.rs] and [src/bootstrap.rs], run on the model

    What a test asserts of a digest or of the alphabet's real random source is left to the crates. *)

From stdpp Require Import pretty.
From S2P Require Import Prelude.
From S2P Require Import RustStr.
From S2P Require Import Protocol.
From S2P Require Import Config.
From S2P Require Import Database.
From S2P Require Import Auth.
From S2P Require Import Address.
From S2P Require Import Http.
From S2P Require Import Upstream.
From S2P Require Import State.
From S2P Require Import Access.
From S2P Require Import Console.
From S2P Require Import Startup.
From S2P Require Import Conformance.
From S2P Require Import AddressTests.
From S2P Require Import StateTests.
From S2P Require Import UpstreamTests.

(** ** The crates *)

(** Random bytes that count up from a seed. *)
Definition filled (seed count : nat) : result string string :=
  Ok (String.string_of_list_ascii ((fun i => Ascii.ascii_of_nat ((seed + 7 * i) mod 256)) <$> seq 0 count)).

(** A hash carries its salt and the password; what does not start like a hash does not parse. *)
#[export] Instance test_argon2 : Argon2 := {|
  argon2_hash_password password salt := Ok ("$argon2id$" +:+ salt +:+ "$" +:+ password);
  argon2_verify_password password hash :=
    if starts_with hash "$argon2id$" then Some (ends_with hash ("$" +:+ password)) else None;
|}.

#[export] Instance test_json : JsonCodec := {|
  json_object_to_string m :=
    "{" +:+ str_join "," ((fun '(key, value) => quoted key +:+ ":" +:+
      match value with
      | Value_String text => quoted text
      | Value_Bool true => "true"
      | Value_Bool false => "false"
      | Value_Number n => pretty n
      end) <$> map_to_list m) +:+ "}";
|}.

(** ** [auth/mod.rs]; the sample's budget is five failures *)

Definition MAX_FAILURES_PER_WINDOW : nat := 5.

Definition source : string := "203.0.113.5".

Definition fail (source : string) : Test LockoutTable unit := se_modify (record_failure source 1000).

Definition locked (source : string) : Test LockoutTable bool := se_get (fun table => is_locked table source 1000).

Definition a_source_locks_after_the_shared_budget_is_spent : Test LockoutTable unit :=
  se_for (seq 0 MAX_FAILURES_PER_WINDOW) (fun _ =>
    before ← locked source;
    assert (negb before) ;;
    fail source) ;;
  after ← locked source;
  assert after.

Definition a_success_forgets_the_failures_and_leaves_other_sources_alone : Test LockoutTable unit :=
  se_for (seq 0 (MAX_FAILURES_PER_WINDOW - 1)) (fun _ => fail source) ;;
  se_modify (lockout_clear source) ;;
  fail source ;;
  here ← locked source;
  assert (negb here) ;;
  other ← locked "203.0.113.6";
  assert (negb other).

Definition lockout_tests : list (Test LockoutTable unit) :=
  [a_source_locks_after_the_shared_budget_is_spent;
   a_success_forgets_the_failures_and_leaves_other_sources_alone].

Lemma lockout_tests_pass : forallb (fun test => passes test FailureThrottle_default) lockout_tests = true.
Proof. evaluate. Qed.

(** ** [password.rs], [code.rs], [random.rs] *)

Definition a_password_verifies_against_its_own_hash_only : Test unit unit :=
  hash ← expect_ok (hash_password "salt" "correct horse battery");
  assert (verify_password "correct horse battery" hash) ;;
  assert (negb (verify_password "correct horse batter" hash)) ;;
  assert (negb (verify_password "" hash)).

Definition the_same_password_hashes_differently_every_time : Test unit unit :=
  first ← expect_ok (hash_password "salt-1" "correct horse battery");
  second ← expect_ok (hash_password "salt-2" "correct horse battery");
  assert (negb (String.eqb first second)) ;;
  assert (starts_with first "$argon2id$").

Definition an_unparsable_hash_never_matches : Test unit unit :=
  assert (negb (verify_password "anything" "not-a-phc-string")) ;;
  assert (negb (verify_password "anything" "")).

Definition generated_passwords_are_long_enough_for_the_console_floor : Test unit unit :=
  password ← expect_ok (generate_password (filled 3));
  assert_eq (str_len password) GENERATED_PASSWORD_LENGTH ;;
  assert (MIN_PASSWORD_LENGTH <=? str_len password).

Definition a_generated_code_is_grouped_and_unique : Test unit unit :=
  first ← expect_ok (generate_code (filled 0));
  second ← expect_ok (generate_code (filled 100));
  assert_eq (str_len first) (GROUP_LENGTH * GROUP_COUNT + GROUP_COUNT - 1) ;;
  assert_eq (length (split GROUP_SEPARATOR first)) GROUP_COUNT ;;
  assert (negb (String.eqb first second)) ;;
  assert_eq (normalize_code first) (Some first).

Definition a_code_typed_loosely_normalizes_to_the_canonical_spelling : Test unit unit :=
  se_for ["abcd-efgh-jklm"; "ABCDEFGHJKLM"; " abcd efgh jklm "; "abcd-EFGH-jklm"] (fun spelling =>
    assert_eq (normalize_code spelling) (Some "ABCD-EFGH-JKLM")).

Definition a_code_of_the_wrong_length_does_not_normalize : Test unit unit :=
  assert_eq (normalize_code "") None ;;
  assert_eq (normalize_code "ABCD-EFGH") None ;;
  assert_eq (normalize_code "ABCD-EFGH-JKLMN") None.

Definition hashing_covers_every_spelling_of_the_same_code : Test unit unit :=
  canonical ← expect (normalize_code "abcd-efgh-jklm");
  loose ← expect (normalize_code "ABCDEFGHJKLM");
  assert_eq (hash_code canonical) (hash_code loose) ;;
  assert (negb (String.eqb (hash_code canonical) (hash_code "ABCD-EFGH-JKLN"))).

Definition a_requested_lifetime_is_clamped_into_the_allowed_range : Test unit unit :=
  assert_eq (clamp_ttl_minutes None) DEFAULT_TTL_MINUTES ;;
  assert_eq (clamp_ttl_minutes (Some 60%Z)) 60%Z ;;
  assert_eq (clamp_ttl_minutes (Some 0%Z)) 1%Z ;;
  assert_eq (clamp_ttl_minutes (Some u32_max)) MAX_TTL_MINUTES.

Definition the_alphabet_is_uniformly_drawable_and_free_of_look_alikes : Test unit unit :=
  assert_eq (str_len UNAMBIGUOUS_ALPHABET) 32 ;;
  assert_eq (256 mod str_len UNAMBIGUOUS_ALPHABET) 0 ;;
  se_for (String.list_ascii_of_string "0O1I") (fun confusable =>
    assert (negb (contains_char UNAMBIGUOUS_ALPHABET confusable))).

Definition generated_values_have_the_requested_length_and_differ : Test unit unit :=
  first ← expect_ok (random_unambiguous 16 (filled 0));
  second ← expect_ok (random_unambiguous 16 (filled 1));
  assert_eq (str_len first) 16 ;;
  assert (negb (String.eqb first second)) ;;
  assert (str_all (contains_char UNAMBIGUOUS_ALPHABET) first).

(** ** [session.rs] *)

(** The clock of the tests. *)
Definition moment : Z := 1000000000.

Definition database_with_user (disabled : bool) : Test Database string :=
  user ← must (create_user (Ok "u1") moment "alice" "hash" UserRole_Admin);
  (if disabled then must (update_user (us_id user) (mkUserUpdate (Some true) None None)) else mret tt) ;;
  mret (us_id user).

(** [random_base64url]. *)
Definition token_bytes (count : nat) : result string string := Ok "token".

Definition a_session_resolves_to_its_account_and_the_cookie_value_is_not_stored : Test Database unit :=
  user_id ← database_with_user false;
  token ← must (create_session token_bytes moment user_id None);
  answer ← must (resolve_session token moment);
  resolved ← expect answer;
  assert_eq (us_id resolved) user_id ;;
  plain ← must (find_session token);
  assert (match plain with None => true | Some _ => false end) ;;
  hashed ← must (find_session (hash_secret token));
  assert (bool_decide (is_Some hashed)).

Definition an_expired_session_is_refused_and_forgotten : Test Database unit :=
  user_id ← database_with_user false;
  token ← must (create_session token_bytes moment user_id None);
  answer ← must (resolve_session token (moment + SESSION_LIFETIME_MS + 1)%Z);
  assert (match answer with None => true | Some _ => false end) ;;
  stored ← must (find_session (hash_secret token));
  assert (match stored with None => true | Some _ => false end).

Definition a_disabled_account_loses_its_session : Test Database unit :=
  user_id ← database_with_user true;
  token ← must (create_session token_bytes moment user_id None);
  answer ← must (resolve_session token moment);
  assert (match answer with None => true | Some _ => false end).

Definition the_deadline_slides_only_once_it_has_moved_far_enough : Test unit unit :=
  let fresh := (moment + SESSION_LIFETIME_MS)%Z in
  assert_eq (renewed_expiry fresh moment) None ;;
  assert_eq (renewed_expiry fresh (moment + SESSION_RENEWAL_THRESHOLD_MS - 1)) None ;;
  assert_eq (renewed_expiry fresh (moment + SESSION_RENEWAL_THRESHOLD_MS))
    (Some (moment + SESSION_RENEWAL_THRESHOLD_MS + SESSION_LIFETIME_MS)%Z).

Definition the_cookie_carries_secure_only_over_https : Test unit unit :=
  let secure := session_cookie "token" true in
  let plain := session_cookie "token" false in
  assert (contains secure "; Secure") ;;
  assert (contains secure "HttpOnly") ;;
  assert (contains secure "SameSite=Strict") ;;
  assert (negb (contains plain "Secure")) ;;
  assert (contains (cleared_session_cookie false) "Max-Age=0").

Definition the_session_cookie_is_picked_out_of_a_crowded_header : Test unit unit :=
  let header := "other=1; " +:+ SESSION_COOKIE_NAME +:+ "=abc; last=2" in
  assert_eq (read_session_cookies [header]) ["abc"] ;;
  assert_eq (length (read_session_cookies ["other=1"])) 0 ;;
  assert_eq (length (read_session_cookies [SESSION_COOKIE_NAME +:+ "="])) 0.

Definition every_session_cookie_in_one_field_is_offered : Test unit unit :=
  let header := SESSION_COOKIE_NAME +:+ "=stale; other=1; " +:+ SESSION_COOKIE_NAME +:+ "=fresh" in
  assert_eq (read_session_cookies [header]) ["stale"; "fresh"].

Definition a_session_split_across_http2_cookie_fields_is_still_found : Test unit unit :=
  let session := SESSION_COOKIE_NAME +:+ "=live" in
  assert_eq (read_session_cookies ["unrelated=1"; "another=2"; session]) ["live"].

Definition the_csrf_marker_is_required_verbatim_but_case_insensitively : Test unit unit :=
  assert (has_csrf_marker (Some CSRF_HEADER_VALUE)) ;;
  assert (has_csrf_marker (Some "Termexo-Console")) ;;
  assert (negb (has_csrf_marker (Some "XMLHttpRequest"))) ;;
  assert (negb (has_csrf_marker None)).

Definition session_tests : list (Test Database unit) :=
  [a_session_resolves_to_its_account_and_the_cookie_value_is_not_stored;
   an_expired_session_is_refused_and_forgotten; a_disabled_account_loses_its_session].

Lemma session_tests_pass : forallb (fun test => passes test empty_database) session_tests = true.
Proof. evaluate. Qed.

(** ** [console.rs] *)

Definition a_client_side_route_resolves_to_the_shell_document : Test unit unit :=
  se_for ["/console"; "/console/"; "/console/devices"; "/console/audit/1"] (fun path =>
    assert_eq (console_asset_path path) (Some INDEX_DOCUMENT)).

Definition a_file_request_resolves_to_that_file : Test unit unit :=
  assert_eq (console_asset_path "/console/main-ABC123.js") (Some "main-ABC123.js") ;;
  assert_eq (console_asset_path "/console/assets/logo.svg") (Some "assets/logo.svg").

Definition a_path_that_climbs_out_of_the_bundle_is_refused : Test unit unit :=
  assert_eq (console_asset_path "/console/../relay.db") None ;;
  assert_eq (console_asset_path "/console/assets/../../key.pem") None ;;
  assert_eq (console_asset_path "/d/abc/") None.

Definition content_types_cover_a_bundle_and_fall_back_safely : Test unit unit :=
  assert_eq (content_type "index.html") "text/html; charset=utf-8" ;;
  assert_eq (content_type "main-ABC.js") "text/javascript; charset=utf-8" ;;
  assert_eq (content_type "font.woff2") "font/woff2" ;;
  assert_eq (content_type "data.bin") DEFAULT_CONTENT_TYPE ;;
  assert_eq (content_type "noextension") DEFAULT_CONTENT_TYPE.

Definition auth_tests : list (Test unit unit) :=
  [a_password_verifies_against_its_own_hash_only; the_same_password_hashes_differently_every_time;
   an_unparsable_hash_never_matches; generated_passwords_are_long_enough_for_the_console_floor;
   a_generated_code_is_grouped_and_unique; a_code_typed_loosely_normalizes_to_the_canonical_spelling;
   a_code_of_the_wrong_length_does_not_normalize; hashing_covers_every_spelling_of_the_same_code;
   a_requested_lifetime_is_clamped_into_the_allowed_range;
   the_alphabet_is_uniformly_drawable_and_free_of_look_alikes;
   generated_values_have_the_requested_length_and_differ;
   the_deadline_slides_only_once_it_has_moved_far_enough; the_cookie_carries_secure_only_over_https;
   the_session_cookie_is_picked_out_of_a_crowded_header; every_session_cookie_in_one_field_is_offered;
   a_session_split_across_http2_cookie_fields_is_still_found;
   the_csrf_marker_is_required_verbatim_but_case_insensitively;
   a_client_side_route_resolves_to_the_shell_document; a_file_request_resolves_to_that_file;
   a_path_that_climbs_out_of_the_bundle_is_refused; content_types_cover_a_bundle_and_fall_back_safely].

Lemma auth_tests_pass : forallb holds auth_tests = true.
Proof. evaluate. Qed.

(** ** [bootstrap.rs] *)

Definition the_first_start_creates_exactly_one_administrator : Test RelayState unit :=
  must ensure_admin_exists ;;
  must ensure_admin_exists ;;
  users ← must (database list_users);
  assert (bool_decide ((fun user => (us_username user, us_role user)) <$> users = [(DEFAULT_ADMIN_USERNAME, UserRole_Admin)])) ;;
  assert (forallb (fun user => negb (verify_password "" (us_password_hash user))) users).

Definition the_bootstrap_is_audited_without_the_password : Test RelayState unit :=
  must ensure_admin_exists ;;
  events ← must (database (list_audit (mkAuditQuery 10 None None)));
  assert_eq ((fun event => (ar_action event, ar_actor_kind event, ar_detail event)) <$> events)
    [(action.BOOTSTRAP_ADMIN, "system", Some ("{" +:+ quoted "username" +:+ ":" +:+ quoted "admin" +:+ "}"))].

Definition an_existing_account_suppresses_the_bootstrap : Test RelayState unit :=
  must (database (create_user (Ok "u1") 1000 "alice" "hash" UserRole_User)) ;;
  must ensure_admin_exists ;;
  count ← must (database count_users);
  assert_eq count 1%Z ;;
  found ← must (database (find_user_by_username DEFAULT_ADMIN_USERNAME));
  assert (match found with None => true | Some _ => false end).

Definition bootstrap_tests : list (Test RelayState unit) :=
  [the_first_start_creates_exactly_one_administrator; the_bootstrap_is_audited_without_the_password;
   an_existing_account_suppresses_the_bootstrap].

Lemma bootstrap_tests_pass : forallb (fun test => passes test (state_for_tests "relay-a")) bootstrap_tests = true.
Proof. evaluate. Qed.
