(* ===== verification/DatabaseTests.v ===== *)
(** * The tests of [src/db/] and [src/audit.rs], run on the model

    Where the source draws an id, a test names it. *)

From stdpp Require Import pretty.
From S2P Require Import Prelude.
From S2P Require Import RustStr.
From S2P Require Import Protocol.
From S2P Require Import Config.
From S2P Require Import Database.
From S2P Require Import Auth.
From S2P Require Import Schema.
From S2P Require Import State.
From S2P Require Import Access.
From S2P Require Import Conformance.
From S2P Require Import StateTests.
From S2P Require Import AuthTests.

Definition none {S A} (o : option A) : Test S unit := assert (match o with None => true | Some _ => false end).

Definition some {S A} (o : option A) : Test S unit := assert (match o with None => false | Some _ => true end).

Definition user_named (username : string) (role : UserRole) : Test Database UserRecord :=
  must (create_user (Ok ("id-of-" +:+ username)) moment username "hash" role).

Definition found_user (id : string) : Test Database UserRecord := found ← must (find_user id); expect found.

Definition found_device (id : string) : Test Database DeviceRecord := found ← must (find_device id); expect found.

Definition found_code (id : string) : Test Database EnrollmentRecord :=
  found ← must (find_enrollment id); expect found.

(** ** [sessions.rs] *)

Definition DAY_MS : Z := 24 * 60 * 60 * 1000.

Definition session (user_id : string) (expires_at : Z) : SessionRecord :=
  mkSessionRecord ("digest-" +:+ pretty expires_at) user_id moment expires_at (Some "203.0.113.5").

Definition a_session_round_trips_and_can_be_extended : Test Database unit :=
  user_id ← database_with_user false;
  let record := session user_id (moment + DAY_MS) in
  must (create_session_row record) ;;
  must (extend_session (ss_id_hash record) (moment + 2 * DAY_MS)) ;;
  stored ← must (find_session (ss_id_hash record));
  found ← expect stored;
  assert_eq (ss_user_id found) user_id ;;
  assert_eq (ss_expires_at found) (moment + 2 * DAY_MS)%Z ;;
  assert (negb (is_expired found moment)) ;;
  assert (is_expired found (moment + 2 * DAY_MS)).

Definition disabling_a_user_can_drop_every_session_they_hold : Test Database unit :=
  user_id ← database_with_user false;
  must (create_session_row (session user_id (moment + DAY_MS))) ;;
  must (create_session_row (session user_id (moment + 2 * DAY_MS))) ;;
  must (delete_sessions_of_user user_id) ;;
  found ← must (find_session ("digest-" +:+ pretty (moment + DAY_MS)%Z));
  none found.

Definition expired_sessions_are_swept : Test Database unit :=
  user_id ← database_with_user false;
  must (create_session_row (session user_id (moment - 1))) ;;
  must (create_session_row (session user_id (moment + DAY_MS))) ;;
  swept ← must (delete_expired_sessions moment);
  assert_eq swept 1.

(** ** [users.rs] *)

Definition a_created_user_is_found_by_id_and_by_name : Test Database unit :=
  created ← user_named "alice" UserRole_Admin;
  by_id ← found_user (us_id created);
  found ← must (find_user_by_username "alice");
  by_name ← expect found;
  assert_eq (us_id by_id) (us_id created) ;;
  assert_eq (us_id by_name) (us_id created) ;;
  assert_eq (us_role by_id) UserRole_Admin ;;
  assert (negb (us_disabled by_id)) ;;
  count ← must count_users;
  assert_eq count 1%Z.

Definition a_duplicate_username_is_refused : Test Database unit :=
  user_named "alice" UserRole_User ;;
  outcome ← attempt (create_user (Ok "another-id") moment "alice" "other" UserRole_User);
  error ← expect_err outcome;
  assert_eq error DatabaseError_UsernameTaken.

Definition an_update_only_touches_the_fields_it_carries : Test Database unit :=
  created ← user_named "alice" UserRole_User;
  must (update_user (us_id created) (mkUserUpdate (Some true) None None)) ;;
  updated ← found_user (us_id created);
  assert (us_disabled updated) ;;
  assert_eq (us_role updated) UserRole_User ;;
  assert_eq (us_password_hash updated) "hash".

Definition a_login_is_recorded_and_a_deleted_user_is_gone : Test Database unit :=
  created ← user_named "alice" UserRole_User;
  must (record_user_login moment (us_id created)) ;;
  user ← found_user (us_id created);
  some (us_last_login_at user) ;;
  must (delete_user (us_id created)) ;;
  found ← must (find_user (us_id created));
  none found.

(** ** [enrollments.rs] *)

Definition HOUR_MS : Z := 60 * 60 * 1000.

Definition insert_code (code_hash : string) (expires_at : Z) : Test Database EnrollmentRecord :=
  must (create_enrollment (Ok ("id-of-" +:+ code_hash)) moment
          (mkNewEnrollment code_hash DeviceKind_Desktop None "admin" (Some "给同事") expires_at)).

Definition a_code_is_found_by_its_digest_and_starts_pending : Test Database unit :=
  created ← insert_code "digest" (moment + HOUR_MS);
  answer ← must (find_enrollment_by_hash "digest");
  found ← expect answer;
  assert_eq (ec_id found) (ec_id created) ;;
  assert_eq (status found moment) EnrollmentStatus_Pending ;;
  assert (is_redeemable found moment) ;;
  assert_eq (ec_note found) (Some "给同事").

Definition a_code_can_only_be_used_once : Test Database unit :=
  created ← insert_code "digest" (moment + HOUR_MS);
  first ← must (mark_enrollment_used moment (ec_id created) "device-a");
  assert first ;;
  second ← must (mark_enrollment_used moment (ec_id created) "device-b");
  assert (negb second) ;;
  found ← found_code (ec_id created);
  assert_eq (ec_used_by_device_id found) (Some "device-a") ;;
  assert_eq (status found moment) EnrollmentStatus_Used ;;
  assert (negb (is_redeemable found moment)).

Definition an_expired_code_reports_expired_without_a_write : Test Database unit :=
  created ← insert_code "digest" (moment - 1);
  assert_eq (status created moment) EnrollmentStatus_Expired ;;
  assert (negb (is_redeemable created moment)).

Definition cancelling_blocks_redemption_and_is_reported_once : Test Database unit :=
  created ← insert_code "digest" (moment + HOUR_MS);
  first ← must (cancel_enrollment moment (ec_id created));
  assert first ;;
  second ← must (cancel_enrollment moment (ec_id created));
  assert (negb second) ;;
  found ← found_code (ec_id created);
  assert_eq (status found moment) EnrollmentStatus_Cancelled ;;
  used ← must (mark_enrollment_used moment (ec_id created) "device-a");
  assert (negb used).

Definition a_used_code_stays_used_after_it_expires : Test Database unit :=
  created ← insert_code "digest" (moment + HOUR_MS);
  must (mark_enrollment_used moment (ec_id created) "device-a") ;;
  found ← found_code (ec_id created);
  assert_eq (status found (moment + 2 * HOUR_MS)) EnrollmentStatus_Used.

(** ** [devices.rs] *)

Definition insert_device_of (id : string) (owner : option string) : Test Database DeviceRecord :=
  must (create_device moment (mkNewDevice id DeviceKind_Desktop "书房台式机" owner ("#secret-of-" +:+ id) None)).

Definition a_created_device_is_read_back_with_its_kind : Test Database unit :=
  created ← insert_device_of "device-1" None;
  found ← found_device (dv_id created);
  assert (bool_decide (dv_kind found = DeviceKind_Desktop)) ;;
  assert_eq (dv_name found) "书房台式机" ;;
  assert (negb (is_revoked found)) ;;
  devices ← must list_devices;
  assert_eq (length devices) 1.

Definition revoking_is_permanent_and_reported_once : Test Database unit :=
  created ← insert_device_of "device-1" None;
  first ← must (revoke_device moment (dv_id created));
  assert first ;;
  second ← must (revoke_device moment (dv_id created));
  assert (negb second) ;;
  found ← found_device (dv_id created);
  assert (is_revoked found).

Definition disabling_an_owner_revokes_only_their_live_devices : Test Database unit :=
  owner ← user_named "alice" UserRole_User;
  mine ← insert_device_of "mine" (Some (us_id owner));
  already_revoked ← insert_device_of "already-revoked" (Some (us_id owner));
  someone_elses ← insert_device_of "someone-elses" None;
  must (revoke_device moment (dv_id already_revoked)) ;;
  revoked ← must (revoke_devices_owned_by (fun _ => moment) (us_id owner));
  assert_eq revoked [dv_id mine] ;;
  other ← found_device (dv_id someone_elses);
  assert (negb (is_revoked other)).

Definition an_access_policy_reads_back_from_the_two_spellings_it_is_stored_under : Test Database unit :=
  access ← expect_ok (DeviceAccess_from_str "public");
  assert_eq access DeviceAccess_Public ;;
  access ← expect_ok (DeviceAccess_from_str "  relay-login ");
  assert_eq access DeviceAccess_RelayLogin ;;
  error ← expect_err (DeviceAccess_from_str "relayLogin");
  assert_eq error UNKNOWN_ACCESS_MESSAGE ;;
  assert_eq (DeviceAccess_as_str DeviceAccess_RelayLogin) "relay-login" ;;
  assert (requires_console_session DeviceAccess_RelayLogin) ;;
  assert (negb (requires_console_session DeviceAccess_Public)).

Definition a_device_starts_public_and_keeps_whatever_the_console_set : Test Database unit :=
  created ← insert_device_of "device-1" None;
  assert_eq (dv_access created) DeviceAccess_Public ;;
  must (update_device (dv_id created) (mkDeviceUpdate None None (Some DeviceAccess_RelayLogin))) ;;
  found ← found_device (dv_id created);
  assert_eq (dv_access found) DeviceAccess_RelayLogin.

Definition a_restricted_device_is_reachable_by_its_owner_and_by_an_administrator : Test Database unit :=
  owner ← user_named "alice" UserRole_User;
  device ← insert_device_of "device-1" (Some (us_id owner));
  assert (is_reachable_by device (us_id owner) false) ;;
  assert (is_reachable_by device "someone-else" true) ;;
  assert (negb (is_reachable_by device "someone-else" false)) ;;
  other ← insert_device_of "device-2" None;
  assert (negb (is_reachable_by other "someone-else" false)).

Definition a_connection_records_the_address_and_version : Test Database unit :=
  created ← insert_device_of "device-1" None;
  must (record_device_connection moment (dv_id created) "203.0.113.5" "0.9.0") ;;
  found ← found_device (dv_id created);
  assert_eq (dv_last_ip found) (Some "203.0.113.5") ;;
  assert_eq (dv_last_version found) (Some "0.9.0") ;;
  some (dv_last_seen_at found).

(** ** [db/audit.rs] *)

Definition record (action : string) (target : option string) : AuditRecord :=
  mkAuditRecord 0 moment "user" (Some "user-1") action (target ≫= fun _ => Some "device") target
    (Some "203.0.113.5") None.

Definition listed (limit : Z) (before_id : option Z) (target_id : option string) : Test Database (list AuditRecord) :=
  must (list_audit (mkAuditQuery limit before_id target_id)).

Definition events_come_back_newest_first : Test Database unit :=
  must (write_audit (record "login" None)) ;;
  must (write_audit (record "device-revoked" (Some "device-a"))) ;;
  events ← listed 10 None None;
  assert_eq (ar_action <$> events) ["device-revoked"; "login"].

Definition the_cursor_and_the_object_filter_narrow_the_page : Test Database unit :=
  se_for (seq 0 3) (fun _ =>
    must (write_audit (record "device-revoked" (Some "device-a"))) ;;
    must (write_audit (record "login" None)) ;;
    mret tt) ;;
  first_page ← listed 2 None None;
  cursor ← expect (ar_id <$> first_page !! 1);
  next_page ← listed 2 (Some cursor) None;
  for_device ← listed 10 None (Some "device-a");
  assert_eq (length first_page) 2 ;;
  following ← expect (ar_id <$> head next_page);
  assert (following <? cursor)%Z ;;
  assert_eq (length for_device) 3 ;;
  assert (forallb (fun event => bool_decide (ar_target_id event = Some "device-a")) for_device).

Definition the_page_size_is_clamped_to_the_maximum : Test Database unit :=
  must (write_audit (record "login" None)) ;;
  events ← listed 0 None None;
  assert_eq (length events) 1.

(** ** [db/mod.rs] *)

Definition a_setting_round_trips_and_overwrites : Test Database unit :=
  before ← must (read_setting SETTING_RELAY_ID);
  assert_eq before None ;;
  must (write_setting moment SETTING_RELAY_ID "first") ;;
  must (write_setting moment SETTING_RELAY_ID "second") ;;
  after ← must (read_setting SETTING_RELAY_ID);
  assert_eq after (Some "second").

(** A fallback that is asked for the second time would fail. *)
Definition a_setting_is_initialized_once_and_then_read_back : Test Database unit :=
  first ← must (read_or_initialize_setting moment SETTING_RELAY_ID (Ok "generated"));
  second ← must (read_or_initialize_setting moment SETTING_RELAY_ID (Err (DatabaseError_Random "asked")));
  assert_eq first "generated" ;;
  assert_eq second "generated".

Definition database_tests : list (Test Database unit) :=
  [a_session_round_trips_and_can_be_extended; disabling_a_user_can_drop_every_session_they_hold;
   expired_sessions_are_swept; a_created_user_is_found_by_id_and_by_name; a_duplicate_username_is_refused;
   an_update_only_touches_the_fields_it_carries; a_login_is_recorded_and_a_deleted_user_is_gone;
   a_code_is_found_by_its_digest_and_starts_pending; a_code_can_only_be_used_once;
   an_expired_code_reports_expired_without_a_write; cancelling_blocks_redemption_and_is_reported_once;
   a_used_code_stays_used_after_it_expires; a_created_device_is_read_back_with_its_kind;
   revoking_is_permanent_and_reported_once; disabling_an_owner_revokes_only_their_live_devices;
   an_access_policy_reads_back_from_the_two_spellings_it_is_stored_under;
   a_device_starts_public_and_keeps_whatever_the_console_set;
   a_restricted_device_is_reachable_by_its_owner_and_by_an_administrator;
   a_connection_records_the_address_and_version; events_come_back_newest_first;
   the_cursor_and_the_object_filter_narrow_the_page; the_page_size_is_clamped_to_the_maximum;
   a_setting_round_trips_and_overwrites; a_setting_is_initialized_once_and_then_read_back].

Lemma database_tests_pass : forallb (fun test => passes test empty_database) database_tests = true.
Proof. evaluate. Qed.

(** ** [audit.rs]; the clock of a relay stands at 1000 *)

Definition newest : Test RelayState (list AuditRecord) := must (database (list_audit (mkAuditQuery 10 None None))).

Definition an_entry_becomes_a_row_with_a_json_detail : Test RelayState unit :=
  audit_record
    (detail "username" (Value_String "alice")
       (from_ip "203.0.113.5" (on_target target.USER "user-2" (by_user "user-1" action.USER_CREATED)))) ;;
  events ← newest;
  event ← expect (head events);
  assert_eq (length events) 1 ;;
  assert_eq (ar_actor_kind event) "user" ;;
  assert_eq (ar_actor_id event) (Some "user-1") ;;
  assert_eq (ar_target_kind event) (Some "user") ;;
  assert_eq (ar_ip event) (Some "203.0.113.5") ;;
  assert_eq (ar_detail event) (Some ("{" +:+ quoted "username" +:+ ":" +:+ quoted "alice" +:+ "}")).

Definition an_entry_without_detail_stores_no_detail_at_all : Test RelayState unit :=
  audit_record (by_system action.BOOTSTRAP_ADMIN) ;;
  events ← newest;
  event ← expect (head events);
  assert_eq (ar_detail event) None ;;
  assert_eq (ar_actor_kind event) "system".

Definition a_device_entry_is_its_own_target : Test RelayState unit :=
  let entry := into_record 1000 (by_device "device-a" action.TUNNEL_CONNECTED) in
  assert_eq (ar_actor_id entry) (Some "device-a") ;;
  assert_eq (ar_target_id entry) (Some "device-a") ;;
  assert_eq (ar_target_kind entry) (Some target.DEVICE).

Definition audit_tests : list (Test RelayState unit) :=
  [an_entry_becomes_a_row_with_a_json_detail; an_entry_without_detail_stores_no_detail_at_all;
   a_device_entry_is_its_own_target].

Lemma audit_tests_pass : forallb (fun test => passes test (state_for_tests "relay-a")) audit_tests = true.
Proof. evaluate. Qed.

(** ** [db/mod.rs]: the migration, on a store *)

Definition adding_an_existing_column_is_a_no_op : Test Store unit :=
  must open_connection ;;
  must (ensure_column "enrollment_codes" CANCELLED_AT) ;;
  must (ensure_column "enrollment_codes" CANCELLED_AT) ;;
  mret tt.

(** The devices of a version before the [access] column. *)
Definition legacy_devices : list Column :=
  [with_key Key_Primary (column "id" TEXT); not_null (column "kind" TEXT); not_null (column "name" TEXT);
   column "owner_user_id" TEXT; not_null (column "secret_hash" TEXT); column "note" TEXT;
   not_null (column "created_at" INTEGER); column "revoked_at" INTEGER; column "last_seen_at" INTEGER;
   column "last_ip" TEXT; column "last_version" TEXT].

Definition the_whole_migration_is_idempotent_on_a_database_that_predates_a_column : Test Store unit :=
  must (execute_batch [CreateTable "devices" legacy_devices]) ;;
  must migrate ;;
  must migrate ;;
  columns ← must (table_info "devices");
  assert_eq (length (List.filter (String.eqb "access") columns)) 1.

Definition migration_tests : list (Test Store unit) :=
  [adding_an_existing_column_is_a_no_op;
   the_whole_migration_is_idempotent_on_a_database_that_predates_a_column].

Lemma migration_tests_pass : forallb (fun test => passes test empty_store) migration_tests = true.
Proof. evaluate. Qed.
