(* ===== verification/ProxyTests.v ===== *)
(** * The tests of [src/proxy.rs], [src/access.rs] and [src/server.rs], run on the model *)

From stdpp Require Import pretty.
From S2P Require Import Prelude.
From S2P Require Import RustStr.
From S2P Require Import Protocol.
From S2P Require Import Handle.
From S2P Require Import Registry.
From S2P Require Import Config.
From S2P Require Import Database.
From S2P Require Import Auth.
From S2P Require Import Address.
From S2P Require Import Http.
From S2P Require Import Upstream.
From S2P Require Import State.
From S2P Require Import Access.
From S2P Require Import Proxy.
From S2P Require Import Conformance.
From S2P Require Import AddressTests.
From S2P Require Import StateTests.
From S2P Require Import UpstreamTests.
From S2P Require Import AuthTests.
From S2P Require Import DatabaseTests.
From S2P Require Import Console.
From S2P Require Import Server.

(** ** [proxy.rs] *)

Definition is_resource (device_id rest : string) (path : option DevicePath) : bool :=
  match path with
  | Some (DevicePath_Resource d r) => String.eqb d device_id && String.eqb r rest
  | _ => false
  end.

Definition a_device_path_splits_into_an_id_and_the_rest : Test unit unit :=
  assert (is_resource "abc" "index.html" (parse_device_path "/d/abc/index.html")) ;;
  assert (is_resource "abc" "" (parse_device_path "/d/abc/")) ;;
  assert (match parse_device_path "/d/abc" with
          | Some (DevicePath_NeedsSlash device_id) => String.eqb device_id "abc"
          | _ => false
          end) ;;
  assert (is_resource "abc" "assets/main.js" (parse_device_path "/d/abc/assets/main.js")).

Definition a_path_that_is_not_a_device_address_is_refused : Test unit unit :=
  none (parse_device_path "/console/") ;;
  none (parse_device_path "/d/") ;;
  none (parse_device_path "/d//index.html").

(** A URI of the sample is its authority and its path. *)
Definition uri_parts (uri : Uri) : string * string := uri.

Definition the_tunnel_uri_carries_the_device_id_and_keeps_the_query : Test unit unit :=
  uri ← expect (tunnel_uri "abc" "ws" (Some "token=1"));
  assert_eq (uri_parts uri) ("abc.termexo-tunnel", "/ws?token=1") ;;
  assert_eq (authority_device_id uri) (Some "abc") ;;
  uri ← expect (tunnel_uri "abc" "" None);
  assert_eq (snd (uri_parts uri)) "/".

Definition hop_by_hop_headers_are_removed_including_the_ones_connection_names : Test unit unit :=
  headers ← headers [(CONNECTION, "keep-alive, x-hop"); ("keep-alive", "timeout=5"); ("x-hop", "private");
                     ("transfer-encoding", "chunked"); ("accept", "text/html")];
  let headers := strip_hop_by_hop false headers in
  none (header_str headers CONNECTION) ;;
  none (header_str headers "keep-alive") ;;
  none (header_str headers "x-hop") ;;
  none (header_str headers "transfer-encoding") ;;
  assert_eq (header_str headers "accept") (Some "text/html").

Definition an_upgrade_keeps_the_headers_that_describe_it : Test unit unit :=
  headers ← headers [(CONNECTION, "Upgrade"); (UPGRADE, "websocket"); ("transfer-encoding", "chunked")];
  let headers := strip_hop_by_hop true headers in
  assert_eq (header_str headers UPGRADE) (Some "websocket") ;;
  assert_eq (header_str headers CONNECTION) (Some "Upgrade") ;;
  none (header_str headers "transfer-encoding").

Definition client : ClientContext := mkClientContext "203.0.113.5" "https" "relay.example.com".

Definition forwarding_headers_replace_whatever_the_browser_sent : Test unit unit :=
  headers ← headers [(HOST, "relay.example.com"); (HEADER_FORWARDED_FOR, "10.0.0.9")];
  let headers := prepare_request_headers client "/d/abc/" false headers in
  none (header_str headers HOST) ;;
  assert_eq (header_str headers HEADER_FORWARDED_FOR) (Some "203.0.113.5") ;;
  assert_eq (header_str headers HEADER_FORWARDED_PROTO) (Some "https") ;;
  assert_eq (header_str headers HEADER_FORWARDED_HOST) (Some "relay.example.com") ;;
  assert_eq (header_str headers HEADER_TERMEXO_BASE) (Some "/d/abc/").

Definition the_console_session_cookie_never_crosses_a_tunnel : Test unit unit :=
  headers ← headers [(COOKIE, "a=1; termexo_relay_session=secret; b=2")];
  let headers := prepare_request_headers client "/d/abc/" false headers in
  assert_eq (header_str headers COOKIE) (Some "a=1; b=2").

Definition a_request_whose_only_cookie_was_the_session_arrives_without_a_cookie_header : Test unit unit :=
  assert_eq (without_cookie "termexo_relay_session=secret" "termexo_relay_session") "" ;;
  assert_eq (without_cookie " other=1 ; termexo_relay_session=s" "termexo_relay_session") "other=1" ;;
  assert_eq (cookie_name "termexo_relay_session=s; Path=/") (Some "termexo_relay_session") ;;
  assert_eq (cookie_name "novalue") None.

Definition a_device_cannot_set_the_consoles_session_cookie : Test unit unit :=
  let headers :=
    header_append SET_COOKIE "theme=dark"
      (header_append SET_COOKIE "termexo_relay_session=attacker; Path=/" header_map_empty) in
  assert_eq (omap header_to_str (get_all (refuse_console_session_cookies headers) SET_COOKIE)) ["theme=dark"].

Definition a_websocket_request_is_recognised_case_insensitively : Test unit unit :=
  websocket ← headers [(UPGRADE, "WebSocket")];
  assert (is_websocket_upgrade websocket) ;;
  other ← headers [(UPGRADE, "h2c")];
  assert (negb (is_websocket_upgrade other)) ;;
  assert (negb (is_websocket_upgrade header_map_empty)).

Definition only_a_route_through_a_downstream_relay_carries_a_hop : Test unit unit :=
  let handle := mkTunnelHandle "device-a" 0 in
  let direct := stream_preface (Route_Direct handle) "device-a" "relay-a" in
  let via := stream_preface (Route_Via handle ["relay-b"]) "device-a" "relay-a" in
  assert_eq (sp_hops direct) [] ;;
  assert_eq (sp_target direct) "device-a" ;;
  assert_eq (sp_hops via) ["relay-a"].

Definition the_last_seen_description_reads_naturally_in_every_range : Test unit unit :=
  let now := 10000000000%Z in
  assert_eq (describe_last_seen None now) "从未接入" ;;
  se_for [(1000, "刚刚"); (5 * 60000, "5 分钟前"); (3 * 3600000, "3 小时前"); (2 * 86400000, "2 天前");
          (-60000, "刚刚")]%Z (fun '(age, text) =>
    assert_eq (describe_last_seen (Some (now - age)%Z) now) text).

Definition a_device_name_cannot_inject_markup_into_the_offline_page : Test unit unit :=
  assert_eq (escape_html ("<script>alert(" +:+ quoted "x" +:+ ")</script>&"))
    "&lt;script&gt;alert(&quot;x&quot;)&lt;/script&gt;&amp;".

Definition proxy_tests : list (Test unit unit) :=
  [a_device_path_splits_into_an_id_and_the_rest; a_path_that_is_not_a_device_address_is_refused;
   the_tunnel_uri_carries_the_device_id_and_keeps_the_query;
   hop_by_hop_headers_are_removed_including_the_ones_connection_names;
   an_upgrade_keeps_the_headers_that_describe_it; forwarding_headers_replace_whatever_the_browser_sent;
   the_console_session_cookie_never_crosses_a_tunnel;
   a_request_whose_only_cookie_was_the_session_arrives_without_a_cookie_header;
   a_device_cannot_set_the_consoles_session_cookie; a_websocket_request_is_recognised_case_insensitively;
   only_a_route_through_a_downstream_relay_carries_a_hop;
   the_last_seen_description_reads_naturally_in_every_range;
   a_device_name_cannot_inject_markup_into_the_offline_page].

Lemma proxy_tests_pass : forallb holds proxy_tests = true.
Proof. evaluate. Qed.

(** ** [access.rs] *)

(** A test of the database, on the database of a relay. *)
Definition on_tables {A} (test : Test Database A) : Test RelayState A := se_zoom rs_database put_database test.

Definition device (owner : option string) (access : DeviceAccess) : Test RelayState DeviceRecord :=
  on_tables
    (record ← insert_device_of "device-1" owner;
     must (update_device (dv_id record) (mkDeviceUpdate None None (Some access))) ;;
     found_device (dv_id record)).

Definition user (username : string) (role : UserRole) : Test RelayState UserRecord :=
  on_tables (user_named username role).

Definition cookies (user_id : string) : Test RelayState HeaderMap :=
  token ← must (database (create_session (fun _ => Ok ("token-of-" +:+ user_id)) 1000 user_id None));
  headers [(COOKIE, "termexo_relay_session=" +:+ token)].

Definition target (device_id rest : string) (entry : DeviceEntry) : DeviceTarget :=
  mkDeviceTarget device_id rest entry.

Definition location (response : Response) : string := default "" (header_str (rsp_headers response) LOCATION).

Definition a_public_device_is_forwarded_without_a_session : Test RelayState unit :=
  record ← device None DeviceAccess_Public;
  refusal ← guard header_map_empty (Some record) (target (dv_id record) "" DeviceEntry_Path) None;
  none refusal.

Definition a_device_without_a_row_is_treated_as_public : Test RelayState unit :=
  refusal ← guard header_map_empty None (target "announced" "" DeviceEntry_Path) None;
  none refusal.

Definition a_restricted_device_sends_a_stranger_to_the_login_page_with_a_way_back : Test RelayState unit :=
  record ← device None DeviceAccess_RelayLogin;
  refusal ← guard header_map_empty (Some record) (target (dv_id record) "assets/main.js" DeviceEntry_Path) (Some "v=1");
  response ← expect refusal;
  assert_eq (rsp_status response) FOUND ;;
  assert_eq (location response)
    ("/console/login?next=%2Fd%2F" +:+ dv_id record +:+ "%2Fassets%2Fmain.js%3Fv%3D1").

Definition a_crafted_request_path_cannot_escape_the_redirect_target : Test RelayState unit :=
  let encoded := percent_encode ("/d/abc/" +:+ String "013" (String newline "Set-Cookie: a=b")) in
  assert (negb (contains_char encoded "013") && negb (contains_char encoded newline)) ;;
  assert (negb (contains_char encoded " ")) ;;
  assert_eq (percent_encode "/d/abc/") "%2Fd%2Fabc%2F".

Definition a_signed_in_stranger_is_told_why_rather_than_sent_round_the_login_loop : Test RelayState unit :=
  owner ← user "alice" UserRole_User;
  intruder ← user "mallory" UserRole_User;
  record ← device (Some (us_id owner)) DeviceAccess_RelayLogin;
  headers ← cookies (us_id intruder);
  refusal ← guard headers (Some record) (target (dv_id record) "" DeviceEntry_Path) None;
  response ← expect refusal;
  assert_eq (rsp_status response) FORBIDDEN.

Definition the_owner_and_an_administrator_both_get_through : Test RelayState unit :=
  owner ← user "alice" UserRole_User;
  admin ← user "root" UserRole_Admin;
  record ← device (Some (us_id owner)) DeviceAccess_RelayLogin;
  se_for [us_id owner; us_id admin] (fun user_id =>
    headers ← cookies user_id;
    refusal ← guard headers (Some record) (target (dv_id record) "ws" DeviceEntry_Path) None;
    none refusal).

Definition a_restricted_device_on_its_subdomain_is_sent_to_the_path_form : Test RelayState unit :=
  owner ← user "alice" UserRole_User;
  record ← device (Some (us_id owner)) DeviceAccess_RelayLogin;
  headers ← cookies (us_id owner);
  refusal ← guard headers (Some record) (target (dv_id record) "ws" DeviceEntry_Subdomain) (Some "v=1");
  response ← expect refusal;
  assert_eq (rsp_status response) FOUND ;;
  assert_eq (location response) ("https://relay.example.com/d/" +:+ dv_id record +:+ "/ws?v=1").

(** ** [server.rs]; the listener itself is in the environment *)

Definition UNREACHABLE_UPSTREAM : string := "https://127.0.0.1:9".

Definition a_stop_request_closes_the_listener_and_the_upstream_link : Test RelayState unit :=
  settings ← expect_ok (build UNREACHABLE_UPSTREAM CREDENTIAL None);
  on_upstream (start settings) ;;
  before ← se_get (fun s => view (rs_upstream s));
  some before ;;
  closed ← shut_down_on (Some "SIGINT");
  assert closed ;;
  after ← se_get (fun s => view (rs_upstream s));
  none after.

Definition a_wait_that_names_no_signal_shuts_nothing_down : Test RelayState unit :=
  closed ← shut_down_on None;
  assert (negb closed).

Definition access_tests : list (Test RelayState unit) :=
  [a_public_device_is_forwarded_without_a_session; a_device_without_a_row_is_treated_as_public;
   a_restricted_device_sends_a_stranger_to_the_login_page_with_a_way_back;
   a_crafted_request_path_cannot_escape_the_redirect_target;
   a_signed_in_stranger_is_told_why_rather_than_sent_round_the_login_loop;
   the_owner_and_an_administrator_both_get_through;
   a_restricted_device_on_its_subdomain_is_sent_to_the_path_form;
   a_stop_request_closes_the_listener_and_the_upstream_link;
   a_wait_that_names_no_signal_shuts_nothing_down].

Lemma access_tests_pass : forallb (fun test => passes test (state_for_tests "relay-a")) access_tests = true.
Proof. evaluate. Qed.
