(* ===== verification/ApiTests.v ===== *)
(** * The tests of [src/tls.rs] and [src/api/], run on the model

    What a test asserts of serde's JSON is left out. *)

From stdpp Require Import pretty.
From S2P Require Import Prelude.
From S2P Require Import RustStr.
From S2P Require Import Protocol.
From S2P Require Import Handle.
From S2P Require Import Registry.
From S2P Require Import Config.
From S2P Require Import Database.
From S2P Require Import Auth.
From S2P Require Import Address.
From S2P Require Import Http.
From S2P Require Import Upstream.
From S2P Require Import Paths.
From S2P Require Import Tls.
From S2P Require Import State.
From S2P Require Import ApiError.
From S2P Require Import Views.
From S2P Require Import Accounts.
From S2P Require Import Enroll.
From S2P Require Import Devices.
From S2P Require Import Api.
From S2P Require Import Conformance.
From S2P Require Import AddressTests.
From S2P Require Import StateTests.
From S2P Require Import UpstreamTests.
From S2P Require Import AuthTests.
From S2P Require Import DatabaseTests.
From S2P Require Import ProxyTests.

(** ** [tls.rs]; base64 is text of its alphabet, a digest 32 bytes *)

#[export] Instance test_digests : DigestCrates := {|
  sha256 s := str_take 32 (s +:+ "................................");
  base64_decode s :=
    if str_all (fun c => is_ascii_alphanumeric c || Ascii.eqb c "+" || Ascii.eqb c slash || Ascii.eqb c "=") s
    then Some s else None;
  hexupper := str_flat_map hex_byte;
  hexlower s := str_map to_ascii_lowercase (str_flat_map hex_byte s);
|}.

Definition pem (label body : string) : string :=
  "-----BEGIN " +:+ label +:+ "-----" +:+ String newline body +:+ String newline "-----END " +:+ label +:+ "-----".

#[export] Instance test_tls : TlsCrates := {|
  generate_simple_self_signed names := Ok (mkPemMaterial (pem "CERTIFICATE" "Q2VydA==") (pem "PRIVATE KEY" "S2V5"));
  RustlsConfig := unit;
  from_pem _ _ := Ok tt;
|}.

Definition names (public_host : string) (wildcard : option string) : SubjectNames :=
  mkSubjectNames public_host wildcard.

Definition the_san_list_always_covers_localhost_without_duplicating_it : Test unit unit :=
  assert_eq (subject_alt_names (names "relay.example.com" None)) ["localhost"; "relay.example.com"] ;;
  assert_eq (subject_alt_names (names "localhost" None)) ["localhost"] ;;
  assert_eq (subject_alt_names (names "  " None)) ["localhost"].

Definition subdomain_mode_adds_the_wildcard_the_device_addresses_need : Test unit unit :=
  assert_eq (subject_alt_names (names "relay.example.com" (Some "*.relay.example.com")))
    ["localhost"; "relay.example.com"; "*.relay.example.com"].

Definition a_generated_certificate_has_a_readable_fingerprint : Test unit unit :=
  material ← expect_ok (Tls.generate (names "relay.example.com" None));
  fingerprint ← expect (certificate_fingerprint (pm_certificate material));
  assert_eq (length (split colon fingerprint)) 32 ;;
  assert (str_all (fun c => is_ascii_hexdigit c || Ascii.eqb c colon) fingerprint) ;;
  assert (contains (pm_private_key material) "PRIVATE KEY-----").

Definition material_that_is_not_a_certificate_has_no_fingerprint : Test unit unit :=
  assert_eq (certificate_fingerprint "not a certificate") None ;;
  assert_eq (certificate_fingerprint (pem "CERTIFICATE" "!!!")) None.

Definition a_persisted_certificate_is_reused_rather_than_regenerated : Test FileSystem unit :=
  let subject := names "relay.example.com" None in
  first ← must (load_or_generate temporary_directory subject);
  second ← must (load_or_generate temporary_directory subject);
  assert_eq (pm_certificate first) (pm_certificate second).

(** ** The functions of [api/] *)

Fixpoint repeated (n : nat) (text : string) : string :=
  match n with
  | 0 => EmptyString
  | S n => text +:+ repeated n text
  end.

Definition a_short_password_is_refused_with_the_required_length : Test unit unit :=
  error ← expect_err (validated_password (repeated (MIN_PASSWORD_LENGTH - 1) "a"));
  assert_eq (ae_status error) BAD_REQUEST ;;
  assert (is_ok (validated_password (repeated MIN_PASSWORD_LENGTH "a"))).

Definition the_cookie_is_attached_to_an_empty_body_too : Test unit unit :=
  let response := with_session_cookie NO_CONTENT "termexo_relay_session=abc; HttpOnly" tt in
  assert_eq (ca_status response) NO_CONTENT ;;
  assert_eq (ca_cookie response) (Some "termexo_relay_session=abc; HttpOnly").

Definition an_absent_or_blank_note_is_stored_as_nothing : Test unit unit :=
  note ← expect_ok (Enroll.bounded_note None);
  assert_eq note None ;;
  note ← expect_ok (Enroll.bounded_note (Some "  "));
  assert_eq note None ;;
  note ← expect_ok (Enroll.bounded_note (Some "  给同事  "));
  assert_eq note (Some "给同事") ;;
  assert (negb (is_ok (Enroll.bounded_note (Some (repeated (Enroll.MAX_NOTE_LENGTH + 1) "字"))))).

Definition a_username_is_trimmed_and_must_not_contain_spaces : Test unit unit :=
  username ← expect_ok (validated_username "  alice  ");
  assert_eq username "alice" ;;
  assert (negb (is_ok (validated_username "al ice"))) ;;
  assert (negb (is_ok (validated_username "  "))).

Definition the_audit_detail_names_the_fields_without_their_values : Test unit unit :=
  let described := describe_changes (mkUserUpdate (Some true) None (Some "$argon2id$secret")) in
  assert_eq described "disabled,password" ;;
  assert (negb (contains described "argon2")).

Definition a_note_may_be_cleared_but_not_be_unbounded : Test unit unit :=
  note ← expect_ok (Devices.bounded_note "  留言  ");
  assert_eq note "留言" ;;
  note ← expect_ok (Devices.bounded_note "   ");
  assert_eq note "" ;;
  assert (negb (is_ok (Devices.bounded_note (repeated (Devices.MAX_NOTE_LENGTH + 1) "字")))).

Definition an_access_policy_the_relay_does_not_have_is_refused_by_name : Test unit unit :=
  access ← expect_ok (requested_access "relay-login");
  assert_eq access DeviceAccess_RelayLogin ;;
  error ← expect_err (requested_access "everyone");
  assert_eq (ae_status error) BAD_REQUEST.

Definition a_label_is_trimmed_and_bounded : Test unit unit :=
  label ← expect_ok (require_text "  书房台式机  " "设备名称" 64);
  assert_eq label "书房台式机" ;;
  assert (negb (is_ok (require_text "   " "设备名称" 64))) ;;
  assert (negb (is_ok (require_text (repeated 65 "名") "设备名称" 64))).

Definition a_taken_username_is_a_conflict_rather_than_an_internal_error : Test unit unit :=
  let error := ApiError_from DatabaseError_UsernameTaken in
  assert_eq (ae_status error) CONFLICT ;;
  assert_eq (ae_message error) "用户名已被占用。".

Definition an_unexpected_database_failure_never_leaks_its_detail : Test unit unit :=
  let error := ApiError_from (DatabaseError_UnknownValue "users.role" "root") in
  assert_eq (ae_status error) INTERNAL_SERVER_ERROR ;;
  assert_eq (ae_message error) INTERNAL_MESSAGE.

Definition an_omitted_or_blank_fingerprint_leaves_the_upstream_unpinned : Test unit unit :=
  fingerprint ← expect_ok (optional_fingerprint None);
  assert_eq fingerprint None ;;
  fingerprint ← expect_ok (optional_fingerprint (Some "  "));
  assert_eq fingerprint None.

Definition a_pasted_fingerprint_is_normalized_and_a_malformed_one_refused : Test unit unit :=
  pinned ← expect_ok (optional_fingerprint (Some ("A1:B2:C3:D4:E5:F6:07:18:29:3A:4B:5C:6D:7E:8F:90:"
                                                  +:+ "A1:B2:C3:D4:E5:F6:07:18:29:3A:4B:5C:6D:7E:8F:90")));
  assert_eq pinned (Some "a1b2c3d4e5f60718293a4b5c6d7e8f90a1b2c3d4e5f60718293a4b5c6d7e8f90") ;;
  error ← expect_err (optional_fingerprint (Some "not-a-digest"));
  assert_eq (ae_status error) BAD_REQUEST.

Definition api_tests : list (Test unit unit) :=
  [the_san_list_always_covers_localhost_without_duplicating_it;
   subdomain_mode_adds_the_wildcard_the_device_addresses_need;
   a_generated_certificate_has_a_readable_fingerprint; material_that_is_not_a_certificate_has_no_fingerprint;
   a_short_password_is_refused_with_the_required_length; the_cookie_is_attached_to_an_empty_body_too;
   an_absent_or_blank_note_is_stored_as_nothing; a_username_is_trimmed_and_must_not_contain_spaces;
   the_audit_detail_names_the_fields_without_their_values; a_note_may_be_cleared_but_not_be_unbounded;
   an_access_policy_the_relay_does_not_have_is_refused_by_name; a_label_is_trimmed_and_bounded;
   a_taken_username_is_a_conflict_rather_than_an_internal_error;
   an_unexpected_database_failure_never_leaks_its_detail;
   an_omitted_or_blank_fingerprint_leaves_the_upstream_unpinned;
   a_pasted_fingerprint_is_normalized_and_a_malformed_one_refused].

Lemma api_tests_pass :
  forallb holds api_tests && passes a_persisted_certificate_is_reused_rather_than_regenerated host = true.
Proof. evaluate. Qed.

(** ** [api/views.rs] *)

Definition owned_device (id : string) (owner : option string) : Test RelayState DeviceRecord :=
  on_tables (insert_device_of id owner).

Definition a_device_view_carries_the_public_address_and_the_owner_name : Test RelayState unit :=
  owner ← user "alice" UserRole_User;
  record ← owned_device "device-1" (Some (us_id owner));
  context ← must build_context;
  let view := device_view context record in
  assert_eq (vd_access_url view) ("https://relay.example.com/d/" +:+ dv_id record +:+ "/") ;;
  assert_eq (vd_owner_username view) (Some "alice") ;;
  assert (negb (vd_online view)) ;;
  assert_eq (vd_via view) [] ;;
  assert_eq (vd_access view) DeviceAccess_Public.

Definition a_connected_device_reports_the_live_address_and_no_hops : Test RelayState unit :=
  record ← owned_device "device-1" None;
  on_registry (Registry.connect 1000
    (mkDirectPresence (dv_id record) (dv_name record) DeviceKind_Desktop None (Some "203.0.113.5") (Some "0.9.0")
       (mkTunnelHandle (dv_id record) 0))) ;;
  context ← must build_context;
  let view := device_view context record in
  assert (vd_online view) ;;
  assert_eq (vd_last_ip view) (Some "203.0.113.5") ;;
  assert_eq (vd_last_version view) (Some "0.9.0") ;;
  some (vd_connected_since view).

Definition an_announced_device_appears_only_when_it_has_no_row_of_its_own : Test RelayState unit :=
  on_registry (announce_device 1000 "relay-link" (mkTunnelHandle "relay-link" 0)
    (mkAnnouncedDevice "announced-device" "办公室电脑" true ["relay-b"])) ;;
  known ← owned_device "device-1" None;
  context ← must build_context;
  let announced := announced_only context [known] in
  assert_eq (length announced) 1 ;;
  view ← expect (head announced);
  assert_eq (vd_id view) "announced-device" ;;
  assert_eq (vd_via view) ["relay-b"] ;;
  none (vd_owner_user_id view) ;;
  assert (vd_online view).

Definition only_live_devices_count_towards_an_account : Test RelayState unit :=
  owner ← user "alice" UserRole_User;
  live ← owned_device "live" (Some (us_id owner));
  revoked ← owned_device "revoked" (Some (us_id owner));
  must (database (revoke_device 1000 (dv_id revoked))) ;;
  devices ← must (database (list_devices_owned_by (us_id owner)));
  assert_eq (live_device_count devices) 1 ;;
  assert (existsb (fun device => String.eqb (dv_id device) (dv_id live)) devices).

Definition views_tests : list (Test RelayState unit) :=
  [a_device_view_carries_the_public_address_and_the_owner_name;
   a_connected_device_reports_the_live_address_and_no_hops;
   an_announced_device_appears_only_when_it_has_no_row_of_its_own;
   only_live_devices_count_towards_an_account].

Lemma views_tests_pass : forallb (fun test => passes test (state_for_tests "relay-a")) views_tests = true.
Proof. evaluate. Qed.
