(* ===== verification/Integration.v ===== *)
(** * [src/tests/support/mod.rs]: what the integration tests share, on the model

    A test relay is what [prepare] makes of an empty database, with an administrator of the tests' own;
    its front door is [serve_request].  A fake device is a tunnel that [upgrade], [accept_hello] and
    [open_session] let in; what it hears is what the writer makes of its channel.  Where a test waits for
    something that travels a tunnel, the step that carries it is run. *)

From stdpp Require Import pretty.
From S2P Require Import Prelude.
From S2P Require Import RustStr.
From S2P Require Import Protocol.
From S2P Require Import Handle.
From S2P Require Import Registry.
From S2P Require Import Config.
From S2P Require Import Database.
From S2P Require Import Auth.
From S2P Require Import Address.
From S2P Require Import Http.
From S2P Require Import Upstream.
From S2P Require Import State.
From S2P Require Import Access.
From S2P Require Import Proxy.
From S2P Require Import ApiError.
From S2P Require Import Tunnel.
From S2P Require Import UpstreamSession.
From S2P Require Import Views.
From S2P Require Import Accounts.
From S2P Require Import Enroll.
From S2P Require Import Devices.
From S2P Require Import Console.
From S2P Require Import Api.
From S2P Require Import Server.
From S2P Require Import Startup.
From S2P Require Import Conformance.
From S2P Require Import AddressTests.
From S2P Require Import StateTests.
From S2P Require Import UpstreamTests.
From S2P Require Import AuthTests.

(** ** Bodies: a line for each field of the JSON object *)

Definition json (fields : list (string * string)) : string :=
  str_join (String newline EmptyString) ((fun '(name, value) => name +:+ "=" +:+ value) <$> fields).

Definition json_field (body name : string) : option string :=
  head (omap (fun line =>
    '(key, value) ← split_once equals line; if String.eqb key name then Some value else None)
    (split newline body)).

Definition required (body name : string) : result JsonRejection string :=
  ok_or JsonRejection_JsonDataError (json_field body name).

Definition json_kind (text : string) : result JsonRejection DeviceKind :=
  if String.eqb text "desktop" then Ok DeviceKind_Desktop
  else if String.eqb text "relay" then Ok DeviceKind_Relay else Err JsonRejection_JsonDataError.

Definition json_role (text : string) : result JsonRejection UserRole :=
  if String.eqb text "admin" then Ok UserRole_Admin
  else if String.eqb text "user" then Ok UserRole_User else Err JsonRejection_JsonDataError.

#[export] Instance test_requests : RequestCodec := {|
  login_request _ body :=
    username ← required body "username"; password ← required body "password";
    Ok (mkLoginRequest username password);
  password_request _ body :=
    current ← required body "currentPassword"; new ← required body "newPassword";
    Ok (mkPasswordChangeRequest current new);
  enroll_request _ body :=
    method ← required body "method"; name ← required body "name";
    if String.eqb method "code" then code ← required body "code"; Ok (EnrollRequest_Code code name)
    else if String.eqb method "password" then
      username ← required body "username"; password ← required body "password";
      Ok (EnrollRequest_Password username password name)
    else Err JsonRejection_JsonDataError;
  create_user_request _ body :=
    username ← required body "username"; password ← required body "password";
    role ← required body "role" ≫= json_role;
    Ok (mkCreateUserRequest username password role);
  update_user_request _ body :=
    role ← transpose (json_role <$> json_field body "role");
    Ok (mkUpdateUserRequest (String.eqb "true" <$> json_field body "disabled") role (json_field body "password"));
  device_update_request _ body :=
    Ok (mkDeviceUpdateRequest (json_field body "name") (json_field body "note") (json_field body "access"));
  create_enrollment_request _ body :=
    kind ← required body "kind" ≫= json_kind;
    Ok (mkCreateEnrollmentRequest kind (json_field body "ownerUserId") None (json_field body "note"));
  upstream_request _ body :=
    url ← required body "url"; code ← required body "code";
    Ok (mkUpstreamRequest url code (json_field body "certificateFingerprint"));
  audit_parameters _ := Some (mkAuditParameters None None None);
  path_segment id := Some id;
|}.

Definition enroll_request_json (request : EnrollRequest) : string :=
  match request with
  | EnrollRequest_Code code name => json [("method", "code"); ("code", code); ("name", name)]
  | EnrollRequest_Password username password name =>
      json [("method", "password"); ("username", username); ("password", password); ("name", name)]
  end.

Definition enroll_response_json (response : EnrollResponse) : string :=
  json [("credential", er_credential response); ("deviceId", er_device_id response);
        ("relayId", er_relay_id response)].

(** The client of [enroll.rs], reading those bodies. *)
#[export] Instance relay_client : ClientCrate := {|
  into_client_request url :=
    rest ← ok_or "no scheme" (after_scheme url);
    Ok [(HOST, default rest (head (split slash rest))); (CONNECTION, "Upgrade"); (UPGRADE, WEBSOCKET_UPGRADE)];
  http_error_to_string status := pretty status;
  decode_error text := text;
  enroll_response_from_json text :=
    ok_or "not json"
      (credential ← json_field text "credential"; device_id ← json_field text "deviceId";
       relay_id ← json_field text "relayId"; Some (mkEnrollResponse credential device_id relay_id));
  upstream_failure_from_json text := ok_or "not json" (json_field text "error");
|}.

#[export] Instance test_bundle : ConsoleBundle := {| bundle_file _ := None |}.

(** ** The relay *)

Definition TEST_ADMIN_USERNAME : string := "tester".
Definition TEST_ADMIN_PASSWORD : string := "relay-test-password".

(** The browser and the device are on this machine. *)
Definition CLIENT : SocketAddr := mkSocketAddr "127.0.0.1" 50000.

Record RelayOptions : Type := mkRelayOptions {
  op_subdomain_base : option string;
  op_trusted_proxies : list string;
  op_public_url : option string;
}.

Definition RelayOptions_default : RelayOptions := mkRelayOptions None [] None.

(** Every draw and every credential of a relay is another one; the clock stands. *)
Definition test_random (i n : nat) : result string string :=
  Ok (str_take n (pretty (N.of_nat i) +:+ "-abcdefghijklmnopqrstuvwxyz-abcdefghijklmnopqrstuvwxyz")).

(** What a relay starts from; [name] keeps the device ids it hands out apart from another relay's. *)
Definition blank_state (name : string) : RelayState :=
  mkRelayState empty_database (Registry.new "") UpstreamLink_new FailureThrottle_default ""
    (mkDeviceAddressing (mkPublicUrl "" "" false) None) [] false ∅ (fun _ => 1000%Z) 0 test_random 0
    (fun i => Ok (mkDeviceCredential (name +:+ "-" +:+ pretty (N.of_nat i)) "secret")).

(** [server::bind] gave the listener a port of the system's choice. *)
Definition listen_address (port : Z) : SocketAddr := mkSocketAddr "127.0.0.1" port.

Definition origin (port : Z) : string := "http://" +:+ socket_addr_to_string (listen_address port).

Abbreviation RelayTest := (Test RelayState).

Definition serve_args (port : Z) (options : RelayOptions) : RelayTest ServeArgs :=
  public_url ← expect_ok (PublicUrl_from_str (default (origin port) (op_public_url options)));
  base ← expect_ok (transpose (SubdomainBase_from_str <$> op_subdomain_base options));
  mret (mkServeArgs "data" (listen_address port) (Some public_url) TlsMode_Disabled base (op_trusted_proxies options)).

(** [create_user] of the tests: an account straight in the database, and its id. *)
Definition create_test_user (username password : string) (role : UserRole) : RelayTest string :=
  salt ← draw;
  salt ← expect_ok (salt SALT_BYTES);
  hash ← expect_ok (hash_password salt password);
  random ← draw;
  now ← now_millis;
  user ← must (database (create_user (random IDENTIFIER_BYTES) now username hash role));
  mret (us_id user).

(** [TestRelay::start_with] up to [serve_on]: [relay_id] is what [DeviceId::generate] answers. *)
Definition start_with (port : Z) (relay_id : string) (options : RelayOptions) : RelayTest unit :=
  args ← serve_args port options;
  must (prepare args (Ok relay_id)) ;;
  create_test_user TEST_ADMIN_USERNAME TEST_ADMIN_PASSWORD UserRole_Admin ;;
  mret tt.

(** ** Browsers *)

(** What a client sends with every request. *)
Record Client : Type := mkClient {
  cl_version : Version;
  cl_authority : option string;
  cl_headers : list (string * string);
}.

(** An HTTP/1.1 client that reaches the relay as [host]. *)
Definition client_for_host (host : string) : Client := mkClient Version_HTTP_11 None [(HOST, host)].

Definition anonymous_client (port : Z) : Client := client_for_host (socket_addr_to_string (listen_address port)).

(** With prior knowledge of HTTP/2 the host is in [:authority]. *)
Definition http2_client (port : Z) : Client :=
  mkClient Version_HTTP_2 (Some (socket_addr_to_string (listen_address port))) [].

Definition with_header (name value : string) (client : Client) : Client :=
  mkClient (cl_version client) (cl_authority client) (cl_headers client ++ [(name, value)]).

Definition incoming (client : Client) (method : Method) (path body : string) : Incoming :=
  mkIncoming (mkRequest method (cl_authority client) path None (cl_version client) (cl_headers client) body) CLIENT.

(** The router of a fake desktop app: its answer to a request a stream carries. *)
Definition device_router (outbound : Outbound) : option (Z * HeaderMap) :=
  let path := snd (ob_uri outbound : string * string) in
  if String.eqb path "/hello" then Some (OK, header_map_empty)
  else if String.eqb path "/ws" then
    Some (if is_websocket_upgrade (ob_headers outbound)
          then (SWITCHING_PROTOCOLS, header_insert UPGRADE WEBSOCKET_UPGRADE header_map_empty)
          else (BAD_REQUEST, header_map_empty))
  else Some (NOT_FOUND, header_map_empty).

(** Streams open as [open] says, and what is behind them is a fake desktop. *)
Definition desktops (open : TunnelHandle -> StreamPreface -> result TunnelError unit) : Network :=
  mkNetwork open (fun _ => None) (fun _ => true) (fun _ => device_router).

Definition no_exchange : Exchange := mkExchange (mkCryptoProvider (fun _ _ _ => Ok tt) (fun _ _ _ => Ok tt) [])
  (fun _ => Ok tt) (fun _ _ _ => Err "offline").

(** axum's [WebSocketUpgrade], as far as the tests meet it: a client of [/tunnel] that asks for one. *)
Definition world_of (exchange : Exchange) (open : TunnelHandle -> StreamPreface -> result TunnelError unit) : World :=
  mkWorld exchange (desktops open) (fun _ headers =>
    if is_websocket_upgrade headers then None else Some (text_response BAD_REQUEST "")).

Definition anywhere (link : TunnelHandle) (preface : StreamPreface) : result TunnelError unit := Ok tt.

Definition local_world : World := world_of no_exchange anywhere.

Definition send_in (world : World) (client : Client) (method : Method) (path body : string) : RelayTest Served :=
  serve_request world (incoming client method path body).

Definition send (client : Client) (method : Method) (path : string) (fields : list (string * string))
    : RelayTest Served := send_in local_world client method path (json fields).

Definition get (client : Client) (path : string) : RelayTest Served := send client Method_GET path [].

(** [connect_async]: a GET that asks for the upgrade. *)
Definition upgrading (client : Client) : Client :=
  with_header CONNECTION "Upgrade" (with_header UPGRADE WEBSOCKET_UPGRADE client).

Definition answers_with (status : Z) (served : Served) : RelayTest unit := assert_eq (served_status served) status.

(** The page of an answer. *)
Definition page (served : Served) : string :=
  match served with
  | Served_Response response _ => match rsp_body response with Body_Text text => text | _ => EmptyString end
  | Served_Api _ (Err error) => ae_message error
  | _ => EmptyString
  end.

Definition redirect_location (served : Served) : string :=
  match served with
  | Served_Response response _ => default EmptyString (header_str (rsp_headers response) LOCATION)
  | _ => EmptyString
  end.

(** The base the device was told: what [hello] echoes. *)
Definition told_base (served : Served) : option string :=
  match served with
  | Served_Response _ (Some (_, outbound)) => header_str (ob_headers outbound) HEADER_TERMEXO_BASE
  | _ => None
  end.

(** 设备已应答 [base=...]. *)
Definition answered_by_device (base : string) (served : Served) : RelayTest unit :=
  answers_with OK served ;; assert_eq (told_base served) (Some base).

(** What an endpoint answered, read by the constructor a test expects. *)
Definition answer_of {A} (pick : ApiAnswer -> option A) (served : Served) : RelayTest A :=
  expect (match served with Served_Api _ (Ok answer) => pick answer | _ => None end).

(** ** Signing in, codes and enrollment *)

(** [reqwest]'s cookie store: the pair at the front of [Set-Cookie] goes out with every request. *)
Definition keep_cookie (cookie : string) (client : Client) : Client :=
  with_header COOKIE (default cookie (head (split semicolon cookie))) client.

Definition console_request (client : Client) (method : Method) (path : string) (fields : list (string * string))
    : RelayTest Served := send (with_header CSRF_HEADER CSRF_HEADER_VALUE client) method path fields.

Definition sign_in (client : Client) (username password : string) : RelayTest Client :=
  response ← console_request client Method_POST "/api/auth/login" [("username", username); ("password", password)];
  answers_with OK response ;;
  cookie ← answer_of (fun answer => match answer with ApiAnswer_LoggedIn a => ca_cookie a | _ => None end) response;
  mret (keep_cookie cookie client).

Definition login_admin (client : Client) : RelayTest Client := sign_in client TEST_ADMIN_USERNAME TEST_ADMIN_PASSWORD.

Definition issue_code_for (console : Client) (kind : string) (owner_user_id : option string) : RelayTest string :=
  response ← console_request console Method_POST "/api/admin/enrollments"
    (("kind", kind) :: option_list ((fun owner => ("ownerUserId", owner)) <$> owner_user_id));
  answers_with CREATED response ;;
  answer_of (fun answer => match answer with ApiAnswer_Issued issued => Some (ie_code issued) | _ => None end) response.

Definition issue_code (console : Client) (kind : string) : RelayTest string := issue_code_for console kind None.

Definition enroll_device (client : Client) (code name : string) : RelayTest (string * string) :=
  response ← send client Method_POST ENROLL_PATH [("method", "code"); ("code", code); ("name", name)];
  answers_with CREATED response ;;
  answer_of (fun answer =>
    match answer with
    | ApiAnswer_Enrolled enrolled => Some (er_credential enrolled, er_device_id enrolled)
    | _ => None
    end) response.

(** ** Fake devices *)

Inductive DeviceEvent : Type :=
| DeviceEvent_Welcome (device_id relay_id : string) (addresses : list RelayAddress) (chain : list string)
| DeviceEvent_Addresses (addresses : list RelayAddress)
| DeviceEvent_Revoked (reason : string)
| DeviceEvent_Closed (code : option Z).

#[export] Instance DeviceEvent_eq_dec : EqDecision DeviceEvent.
Proof. solve_decision. Defined.

Definition urls (event : DeviceEvent) : list string :=
  match event with
  | DeviceEvent_Welcome _ _ addresses _ | DeviceEvent_Addresses addresses => ra_url <$> addresses
  | _ => []
  end.

(** What [run_device] reports of one message. *)
Definition device_event (message : Message) : option DeviceEvent :=
  match message with
  | Message_Text text =>
      frame ← ControlFrame_decode text;
      match frame with
      | ControlFrame_Welcome device_id relay_id addresses chain =>
          Some (DeviceEvent_Welcome device_id relay_id addresses chain)
      | ControlFrame_Addresses addresses => Some (DeviceEvent_Addresses addresses)
      | ControlFrame_Revoked reason => Some (DeviceEvent_Revoked reason)
      | _ => None
      end
  | Message_Close frame => Some (DeviceEvent_Closed (fst <$> frame))
  | _ => None
  end.

(** The session of the relay a fake device is the far end of. *)
Record FakeDevice : Type := mkFakeDevice {
  fd_device : DeviceRecord;
  fd_peer : string;
  fd_kind : DeviceKind;
  fd_handle : TunnelHandle;
  fd_registration : Registration;
}.

(** [GET /tunnel] with a credential. *)
Definition dial (client : Client) (credential : string) : RelayTest Served :=
  get (with_header AUTHORIZATION ("Bearer " +:+ credential) (upgrading client)) TUNNEL_PATH.

Definition tunnel_of (served : Served) : RelayTest (DeviceRecord * string) :=
  expect (match served with Served_Tunnel (Ok admitted) => Some admitted | _ => None end).

Definition text_frame (frame : ControlFrame) : Message := Message_Text (ControlFrame_encode frame).

(** The handshake of an admitted peer: what it is sent, and the session that was opened. *)
Definition greet (admitted : DeviceRecord * string) (hello : Message) : RelayTest (list Message * FakeDevice) :=
  let '(device, peer) := admitted in
  handshake ← se_get (fun s => accept_hello s device (Some hello) true);
  hello ← expect (snd handshake);
  channel ← se_get rs_reads;
  opened ← open_session device peer hello channel;
  mret (fst handshake, mkFakeDevice device peer (he_kind hello) (fst opened) (snd opened)).

(** [FakeDevice::connect]: the device, and the first event it reports. *)
Definition connect_device (client : Client) (credential : string) (kind : DeviceKind) (relay_id : option string)
    : RelayTest (FakeDevice * DeviceEvent) :=
  served ← dial client credential;
  admitted ← tunnel_of served;
  greeted ← greet admitted (text_frame (ControlFrame_Hello PROTOCOL_VERSION kind "0.9.0-test" "测试设备" relay_id));
  welcome ← expect (head (omap device_event (fst greeted)));
  mret (snd greeted, welcome).

(** A control frame from the device. *)
Definition device_sends (device : FakeDevice) (frame : ControlFrame) : RelayTest unit :=
  cause ← read_frames (fd_handle device) (fd_kind device) [ReaderEvent_Message (text_frame frame) true];
  assert (bool_decide (cause = None)).

(** The session ends as the reader's last event says. *)
Definition hang_up (device : FakeDevice) (event : ReaderEvent) : RelayTest unit :=
  cause ← read_frames (fd_handle device) (fd_kind device) [event];
  cause ← expect cause;
  close_session (fd_device device) (fd_peer device) (fd_handle device) (fd_registration device) cause.

(** The device is switched off: the socket stops existing. *)
Definition power_off (device : FakeDevice) : RelayTest unit := hang_up device ReaderEvent_Error.

(** The writer sends what is queued; when that closes the tunnel the session ends. *)
Definition messages_to (device : FakeDevice) : RelayTest (list Message) :=
  queue ← se_get (fun s => queued (rs_channels s) (th_channel (fd_handle device)));
  let '(messages, ended) :=
    write_frames ((fun command => (WriterEvent_Outgoing (Some command), true)) <$> queue) in
  on_channels (alter (fun _ => []) (th_channel (fd_handle device))) ;;
  (if ended : bool then hang_up device ReaderEvent_Shutdown else mret tt) ;;
  mret messages.

Definition device_hears (device : FakeDevice) : RelayTest (list DeviceEvent) :=
  messages ← messages_to device; mret (omap device_event messages).

Definition wait_until_online (device_id : string) : RelayTest unit :=
  online ← se_get (fun s => is_online (rs_registry s) device_id); assert online.

Definition wait_until_offline (device_id : string) : RelayTest unit :=
  online ← se_get (fun s => is_online (rs_registry s) device_id); assert (negb online).

Record ConnectedDevice : Type := mkConnectedDevice {
  cd_device : FakeDevice;
  cd_device_id : string;
  cd_welcome : DeviceEvent;
}.

Definition connect_desktop (client console : Client) (name : string) (owner_user_id : option string)
    : RelayTest ConnectedDevice :=
  code ← issue_code_for console "desktop" owner_user_id;
  enrolled ← enroll_device client code name;
  let '(credential, device_id) := enrolled in
  connected ← connect_device client credential DeviceKind_Desktop None;
  wait_until_online device_id ;;
  mret (mkConnectedDevice (fst connected) device_id (snd connected)).

(** ** What the console shows *)

Definition set_device_access (console : Client) (device_id access : string) : RelayTest unit :=
  response ← console_request console Method_PATCH ("/api/admin/devices/" +:+ device_id) [("access", access)];
  answers_with OK response.

Definition admin_devices (console : Client) : RelayTest (list DeviceView) :=
  response ← get console "/api/admin/devices";
  answer_of (fun answer => match answer with ApiAnswer_Devices devices => Some devices | _ => None end) response.

Definition listed_device (console : Client) (device_id : string) : RelayTest DeviceView :=
  devices ← admin_devices console;
  expect (head (List.filter (fun device => String.eqb (vd_id device) device_id) devices)).

Definition relay_overview (console : Client) : RelayTest RelayOverview :=
  response ← get console "/api/admin/relays";
  answer_of (fun answer => match answer with ApiAnswer_Relays overview => Some overview | _ => None end) response.

Definition audit_trail : RelayTest (list AuditRecord) :=
  must (database (list_audit (mkAuditQuery 100 None None))).

Definition audited (action : string) : RelayTest bool :=
  events ← audit_trail; mret (existsb (fun event => String.eqb (ar_action event) action) events).
