(* ===== verification/EndToEndTests.v ===== *)
(** * [src/tests/relay_end_to_end.rs]: a relay, a tunnel and a fake device, on the model

    What travels inside a stream after the heads of the request and of the answer - the echo of a WebSocket -
    is not in the model. *)

From stdpp Require Import pretty.
From S2P Require Import Prelude.
From S2P Require Import RustStr.
From S2P Require Import Protocol.
From S2P Require Import Handle.
From S2P Require Import Registry.
From S2P Require Import Config.
From S2P Require Import Database.
From S2P Require Import Auth.
From S2P Require Import Address.
From S2P Require Import Http.
From S2P Require Import Upstream.
From S2P Require Import State.
From S2P Require Import Access.
From S2P Require Import Proxy.
From S2P Require Import ApiError.
From S2P Require Import Tunnel.
From S2P Require Import UpstreamSession.
From S2P Require Import Views.
From S2P Require Import Accounts.
From S2P Require Import Enroll.
From S2P Require Import Devices.
From S2P Require Import Console.
From S2P Require Import Api.
From S2P Require Import Server.
From S2P Require Import Startup.
From S2P Require Import Conformance.
From S2P Require Import AddressTests.
From S2P Require Import StateTests.
From S2P Require Import UpstreamTests.
From S2P Require Import AuthTests.
From S2P Require Import Integration.

Definition PORT : Z := 8000.

Definition browser : Client := anonymous_client PORT.

Definition start_plain : RelayTest unit := start_with PORT "relay-a" RelayOptions_default.

Definition device_path_of (device_id rest : string) : string := "/d/" +:+ device_id +:+ "/" +:+ rest.

Definition connected_device : RelayTest (FakeDevice * string) :=
  console ← login_admin browser;
  connected ← connect_desktop browser console "书房台式机" None;
  match cd_welcome connected with
  | DeviceEvent_Welcome welcomed _ _ chain =>
      assert_eq welcomed (cd_device_id connected) ;;
      assert_eq (urls (cd_welcome connected)) [origin PORT +:+ device_path_of (cd_device_id connected) ""] ;;
      assert_eq chain []
  | _ => se_fail "the first frame should be the welcome"
  end ;;
  mret (cd_device connected, cd_device_id connected).

Definition a_test_relay_is_ready : RelayTest unit :=
  start_plain ;;
  health ← get browser HEALTH_PATH;
  answers_with OK health.

Definition a_browser_on_http2_reaches_its_device_through_the_relay : RelayTest unit :=
  start_plain ;;
  '(_, device_id) ← connected_device;
  response ← get (http2_client PORT) (device_path_of device_id "hello");
  answered_by_device (device_path_of device_id "") response.

Definition a_browser_reaches_its_device_through_the_relay : RelayTest unit :=
  start_plain ;;
  '(_, device_id) ← connected_device;
  response ← get browser (device_path_of device_id "hello");
  answered_by_device (device_path_of device_id "") response ;;
  redirect ← get browser ("/d/" +:+ device_id);
  answers_with FOUND redirect ;;
  assert_eq (redirect_location redirect) (device_path_of device_id "").

Definition a_websocket_is_upgraded_through_the_relay : RelayTest unit :=
  start_plain ;;
  '(_, device_id) ← connected_device;
  response ← get (upgrading browser) (device_path_of device_id "ws");
  answers_with SWITCHING_PROTOCOLS response.

Definition revoking_a_device_closes_the_tunnel_and_takes_the_address_offline : RelayTest unit :=
  start_plain ;;
  '(device, device_id) ← connected_device;
  console ← login_admin browser;
  revoked ← console_request console Method_POST ("/api/admin/devices/" +:+ device_id +:+ "/revoke") [];
  answers_with OK revoked ;;
  events ← device_hears device;
  reason ← expect (head events);
  assert (match reason with DeviceEvent_Revoked text => contains text "撤销" | _ => false end) ;;
  assert_eq (tail events) [DeviceEvent_Closed (Some CLOSE_REVOKED)] ;;
  offline ← get browser (device_path_of device_id "");
  answers_with SERVICE_UNAVAILABLE offline ;;
  assert (contains (page offline) "设备离线").

Definition repeated_bad_credentials_lock_the_source_out : RelayTest unit :=
  start_plain ;;
  let bogus := DeviceCredential_to_string (mkDeviceCredential "unknown" "bogus") in
  se_for (replicate 5 bogus) (fun credential =>
    refused ← dial browser credential; answers_with UNAUTHORIZED refused) ;;
  refused ← dial browser bogus;
  answers_with UNAUTHORIZED refused ;;
  events ← audit_trail;
  assert_eq (length (List.filter (fun event => String.eqb (ar_action event) action.TUNNEL_REJECTED) events)) 5.

Definition DOWNSTREAM_RELAY_ID : string := "relay-b".
Definition ANNOUNCED_DEVICE_ID : string := "announced-office-desktop".

(** [StreamHandling::Forward]: a stream the downstream relay did not expect is not carried on. *)
Definition downstream_relay (link : TunnelHandle) (preface : StreamPreface) : result TunnelError unit :=
  if String.eqb (sp_target preface) ANNOUNCED_DEVICE_ID && bool_decide (sp_hops preface = ["relay-a"])
  then Ok tt else Err (TunnelError_Preface "unexpected").

Definition a_device_behind_a_downstream_relay_is_reachable : RelayTest unit :=
  start_plain ;;
  console ← login_admin browser;
  code ← issue_code console "relay";
  '(credential, link_device_id) ← enroll_device browser code "办公室中继";
  '(link, welcome) ← connect_device browser credential DeviceKind_Relay (Some DOWNSTREAM_RELAY_ID);
  assert (match welcome with DeviceEvent_Welcome _ _ _ _ => true | _ => false end) ;;
  wait_until_online link_device_id ;;
  device_sends link (ControlFrame_Announce
    [mkAnnouncedDevice ANNOUNCED_DEVICE_ID "办公室电脑" true [DOWNSTREAM_RELAY_ID]]) ;;
  wait_until_online ANNOUNCED_DEVICE_ID ;;
  response ← send_in (world_of no_exchange downstream_relay) browser Method_GET
    (device_path_of ANNOUNCED_DEVICE_ID "hello") "";
  answered_by_device (device_path_of ANNOUNCED_DEVICE_ID "") response ;;
  announced ← listed_device console ANNOUNCED_DEVICE_ID;
  assert_eq (head (vd_via announced)) (Some DOWNSTREAM_RELAY_ID) ;;
  assert_eq (head (vd_via_names announced)) (Some "办公室中继") ;;
  assert (vd_online announced).

Definition end_to_end_tests : list (RelayTest unit) :=
  [a_test_relay_is_ready;
   a_browser_on_http2_reaches_its_device_through_the_relay;
   a_browser_reaches_its_device_through_the_relay;
   a_websocket_is_upgraded_through_the_relay;
   revoking_a_device_closes_the_tunnel_and_takes_the_address_offline;
   repeated_bad_credentials_lock_the_source_out;
   a_device_behind_a_downstream_relay_is_reachable].

Lemma end_to_end_tests_pass : forallb (fun test => passes test (blank_state "device")) end_to_end_tests = true.
Proof. evaluate. Qed.
