(* ===== verification/RelayAccessTests.v ===== *)
(** * [src/tests/relay_access.rs]: how a device address is reached and gated, on the model *)

From stdpp Require Import pretty.
From S2P Require Import Prelude.
From S2P Require Import RustStr.
From S2P Require Import Protocol.
From S2P Require Import Handle.
From S2P Require Import Registry.
From S2P Require Import Config.
From S2P Require Import Database.
From S2P Require Import Auth.
From S2P Require Import Address.
From S2P Require Import Http.
From S2P Require Import Upstream.
From S2P Require Import State.
From S2P Require Import Access.
From S2P Require Import Proxy.
From S2P Require Import ApiError.
From S2P Require Import Tunnel.
From S2P Require Import UpstreamSession.
From S2P Require Import Views.
From S2P Require Import Accounts.
From S2P Require Import Enroll.
From S2P Require Import Devices.
From S2P Require Import Console.
From S2P Require Import Api.
From S2P Require Import Server.
From S2P Require Import Startup.
From S2P Require Import Conformance.
From S2P Require Import AddressTests.
From S2P Require Import StateTests.
From S2P Require Import UpstreamTests.
From S2P Require Import AuthTests.
From S2P Require Import Integration.
From S2P Require Import EndToEndTests.

Definition SUBDOMAIN_BASE : string := "relay.test".
Definition OWNER_USERNAME : string := "ada".
Definition STRANGER_USERNAME : string := "mallory".
Definition ACCOUNT_PASSWORD : string := "relay-test-password".

Definition PORT_TEXT : string := "8000".

Definition start_with_subdomain_base : RelayTest unit :=
  start_with PORT "relay-a" (mkRelayOptions (Some SUBDOMAIN_BASE) [] None).

Definition start_behind_proxy (public_url : string) : RelayTest unit :=
  start_with PORT "relay-a" (mkRelayOptions None ["127.0.0.1/32"] (Some public_url)).

Definition ordinary_account (username : string) : RelayTest string :=
  create_test_user username ACCOUNT_PASSWORD UserRole_User.

Definition a_restricted_device_turns_a_stranger_away_and_lets_its_owner_through : RelayTest unit :=
  start_plain ;;
  console ← login_admin browser;
  owner ← ordinary_account OWNER_USERNAME;
  stranger ← ordinary_account STRANGER_USERNAME;
  connected ← connect_desktop browser console "书房台式机" (Some owner);
  let device_id := cd_device_id connected in
  set_device_access console device_id "relay-login" ;;
  anonymous ← get browser (device_path_of device_id "hello");
  answers_with FOUND anonymous ;;
  assert_eq (redirect_location anonymous) ("/console/login?next=%2Fd%2F" +:+ device_id +:+ "%2Fhello") ;;
  assert (negb (String.eqb stranger owner)) ;;
  signed_in ← sign_in browser STRANGER_USERNAME ACCOUNT_PASSWORD;
  refused ← get signed_in (device_path_of device_id "hello");
  answers_with FORBIDDEN refused ;;
  assert (contains (page refused) "所有者") ;;
  owner ← sign_in browser OWNER_USERNAME ACCOUNT_PASSWORD;
  administrator ← login_admin browser;
  se_for [owner; administrator] (fun client =>
    allowed ← get client (device_path_of device_id "hello");
    answered_by_device (device_path_of device_id "") allowed) ;;
  changed ← audited action.DEVICE_ACCESS_CHANGED;
  assert changed.

Definition a_restricted_device_refuses_a_websocket_upgrade_from_a_stranger : RelayTest unit :=
  start_plain ;;
  console ← login_admin browser;
  owner ← ordinary_account OWNER_USERNAME;
  connected ← connect_desktop browser console "书房台式机" (Some owner);
  let device_id := cd_device_id connected in
  upgraded ← get (upgrading browser) (device_path_of device_id "ws");
  answers_with SWITCHING_PROTOCOLS upgraded ;;
  set_device_access console device_id "relay-login" ;;
  refused ← get (upgrading browser) (device_path_of device_id "ws");
  answers_with FOUND refused.

Definition a_devices_policy_cannot_be_set_through_a_relay_that_only_routes_to_it : RelayTest unit :=
  start_plain ;;
  console ← login_admin browser;
  response ← console_request console Method_PATCH "/api/admin/devices/announced-device" [("access", "relay-login")];
  answers_with NOT_FOUND response.

Definition an_unknown_access_policy_is_refused_by_name : RelayTest unit :=
  start_plain ;;
  console ← login_admin browser;
  connected ← connect_desktop browser console "书房台式机" None;
  response ← console_request console Method_PATCH ("/api/admin/devices/" +:+ cd_device_id connected)
    [("access", "everyone")];
  answers_with BAD_REQUEST response ;;
  assert (contains (page response) "relay-login").

Definition device_host_of (device_id : string) : string := device_id +:+ "." +:+ SUBDOMAIN_BASE.

(** A URL's port goes into the [Host] field with its host. *)
Definition host_client (host : string) : Client := client_for_host (host +:+ ":" +:+ PORT_TEXT).

Definition a_device_subdomain_reaches_the_device_while_the_path_form_keeps_working : RelayTest unit :=
  start_with_subdomain_base ;;
  console ← login_admin browser;
  connected ← connect_desktop browser console "书房台式机" None;
  let device_id := cd_device_id connected in
  response ← get (host_client (device_host_of device_id)) "/hello";
  answered_by_device "/" response ;;
  by_path ← get browser (device_path_of device_id "hello");
  answered_by_device (device_path_of device_id "") by_path.

Definition the_base_host_still_serves_the_relay_itself : RelayTest unit :=
  start_with_subdomain_base ;;
  health ← get (host_client SUBDOMAIN_BASE) "/api/health";
  answers_with OK health ;;
  relay_id ← answer_of (fun answer =>
    match answer with ApiAnswer_Health response => Some (hr_relay_id response) | _ => None end) health;
  assert_eq relay_id "relay-a" ;;
  root ← get (host_client SUBDOMAIN_BASE) "/";
  answers_with FOUND root ;;
  assert_eq (redirect_location root) "/console/".

Definition every_address_the_relay_hands_out_uses_the_subdomain_form : RelayTest unit :=
  start_with_subdomain_base ;;
  console ← login_admin browser;
  connected ← connect_desktop browser console "书房台式机" None;
  let expected := "http://" +:+ cd_device_id connected +:+ "." +:+ SUBDOMAIN_BASE +:+ ":" +:+ PORT_TEXT +:+ "/" in
  assert_eq (urls (cd_welcome connected)) [expected] ;;
  listed ← listed_device console (cd_device_id connected);
  assert_eq (vd_access_url listed) expected ;;
  assert_eq (vd_access listed) DeviceAccess_Public.

Definition PUBLIC_ORIGIN : string := "https://relay.example.com".

Definition a_relay_behind_a_reverse_proxy_serves_the_proxys_origin : RelayTest unit :=
  start_behind_proxy PUBLIC_ORIGIN ;;
  console ← login_admin browser;
  connected ← connect_desktop browser console "书房台式机" None;
  let device_id := cd_device_id connected in
  assert_eq (urls (cd_welcome connected)) [PUBLIC_ORIGIN +:+ device_path_of device_id ""] ;;
  let proxied := with_header HEADER_FORWARDED_FOR "203.0.113.5, 127.0.0.1"
    (with_header HEADER_FORWARDED_PROTO "https" (with_header HEADER_FORWARDED_HOST "relay.example.com" browser)) in
  response ← get proxied (device_path_of device_id "hello");
  answers_with OK response ;;
  listed ← listed_device console device_id;
  assert_eq (vd_access_url listed) (PUBLIC_ORIGIN +:+ device_path_of device_id "") ;;
  upgraded ← get (upgrading browser) (device_path_of device_id "ws");
  answers_with SWITCHING_PROTOCOLS upgraded.

Definition a_subdomain_restricted_device_is_sent_to_the_path_form : RelayTest unit :=
  start_with_subdomain_base ;;
  console ← login_admin browser;
  connected ← connect_desktop browser console "书房台式机" None;
  let device_id := cd_device_id connected in
  set_device_access console device_id "relay-login" ;;
  response ← get (host_client (device_host_of device_id)) "/hello";
  answers_with FOUND response ;;
  assert_eq (redirect_location response) (origin PORT +:+ device_path_of device_id "hello").

(** The same request over HTTP/2, where the client names the host in [:authority]: the relay takes it for a
    path of its own. *)
Definition a_device_subdomain_is_not_read_from_an_authority : RelayTest unit :=
  start_with_subdomain_base ;;
  console ← login_admin browser;
  connected ← connect_desktop browser console "书房台式机" None;
  let authority := device_host_of (cd_device_id connected) +:+ ":" +:+ PORT_TEXT in
  response ← get (mkClient Version_HTTP_2 (Some authority) []) "/hello";
  answers_with NOT_FOUND response ;;
  assert_eq (told_base response) None.

Definition relay_access_tests : list (RelayTest unit) :=
  [a_restricted_device_turns_a_stranger_away_and_lets_its_owner_through;
   a_restricted_device_refuses_a_websocket_upgrade_from_a_stranger;
   a_devices_policy_cannot_be_set_through_a_relay_that_only_routes_to_it;
   an_unknown_access_policy_is_refused_by_name;
   a_device_subdomain_reaches_the_device_while_the_path_form_keeps_working;
   the_base_host_still_serves_the_relay_itself;
   every_address_the_relay_hands_out_uses_the_subdomain_form;
   a_relay_behind_a_reverse_proxy_serves_the_proxys_origin;
   a_subdomain_restricted_device_is_sent_to_the_path_form;
   a_device_subdomain_is_not_read_from_an_authority].

Lemma relay_access_tests_pass : forallb (fun test => passes test (blank_state "device")) relay_access_tests = true.
Proof. evaluate. Qed.
