(* ===== verification/RelayCascadeTests.v ===== *)
(** * [src/tests/relay_cascade.rs]: two relays with a tunnel between them, on the model

    [entry] is the relay a browser opens, [edge] the one the desktop joined.  The supervisor of a link moves
    by [advance]; what its pump sends is read by the session at the other end, and what that session queues
    is read by the pump. *)

From stdpp Require Import pretty.
From S2P Require Import Prelude.
From S2P Require Import RustStr.
From S2P Require Import Protocol.
From S2P Require Import Handle.
From S2P Require Import Registry.
From S2P Require Import Config.
From S2P Require Import Database.
From S2P Require Import Auth.
From S2P Require Import Address.
From S2P Require Import Http.
From S2P Require Import Upstream.
From S2P Require Import State.
From S2P Require Import Access.
From S2P Require Import Proxy.
From S2P Require Import ApiError.
From S2P Require Import Tunnel.
From S2P Require Import UpstreamSession.
From S2P Require Import Lifecycle.
From S2P Require Import Views.
From S2P Require Import Accounts.
From S2P Require Import Enroll.
From S2P Require Import Devices.
From S2P Require Import Console.
From S2P Require Import Api.
From S2P Require Import Server.
From S2P Require Import Startup.
From S2P Require Import Conformance.
From S2P Require Import AddressTests.
From S2P Require Import StateTests.
From S2P Require Import UpstreamTests.
From S2P Require Import AuthTests.
From S2P Require Import Integration.
From S2P Require Import EndToEndTests.

(** ** Two relays *)

Inductive Side : Type := Entry | Edge.

Record Cascade : Type := mkCascade {
  cs_entry : RelayState;
  cs_edge : RelayState;
}.

Abbreviation CascadeTest := (Test Cascade).

Definition relay_at (side : Side) (c : Cascade) : RelayState :=
  match side with Entry => cs_entry c | Edge => cs_edge c end.

Definition put_relay (side : Side) (s : RelayState) (c : Cascade) : Cascade :=
  match side with Entry => mkCascade s (cs_edge c) | Edge => mkCascade (cs_entry c) s end.

Definition at_relay {A} (side : Side) (m : RelayTest A) : CascadeTest A := se_zoom (relay_at side) (put_relay side) m.

Definition port_of (side : Side) : Z := match side with Entry => 8001 | Edge => 8002 end.

Definition id_of (side : Side) : string := match side with Entry => "relay-entry" | Edge => "relay-edge" end.

Definition browser_of (side : Side) : Client := anonymous_client (port_of side).

Definition start_relay (side : Side) : CascadeTest Client :=
  at_relay side (start_with (port_of side) (id_of side) RelayOptions_default ;; login_admin (browser_of side)).

(** ** Joining *)

(** The body of an answer of [/api/enroll]. *)
Definition enroll_body (served : Served) : string :=
  match served with
  | Served_Api _ (Ok (ApiAnswer_Enrolled response)) => enroll_response_json response
  | Served_Api _ (Err error) => json [("error", ae_message error)]
  | _ => EmptyString
  end.

(** The request [downstream] makes of [upstream] while it answers its console, and its own answer. *)
Definition join_upstream (downstream : Side) (console : Client) (upstream : Side) (code : string)
    : CascadeTest Served :=
  name ← at_relay downstream (se_get (fun s => pu_host (public_url s)));
  let request := enroll_request_json (EnrollRequest_Code code name) in
  enrolled ← at_relay upstream (send_in local_world (browser_of upstream) Method_POST ENROLL_PATH request);
  let exchange := mkExchange (ex_provider no_exchange) (fun _ => Ok tt) (fun _ url asked =>
    if String.eqb url (origin (port_of upstream) +:+ ENROLL_PATH) && String.eqb (enroll_request_json asked) request
    then Ok (served_status enrolled, Ok (enroll_body enrolled)) else Err "another request") in
  at_relay downstream
    (send_in (world_of exchange anywhere) (with_header CSRF_HEADER CSRF_HEADER_VALUE console) Method_POST
       "/api/admin/relays/upstream" (json [("url", origin (port_of upstream)); ("code", code)])).

Definition leave_upstream (side : Side) (console : Client) : CascadeTest Served :=
  at_relay side (console_request console Method_DELETE "/api/admin/relays/upstream" []).

(** ** The link *)

(** A session that is up: who is below and above, the two ends, and the changes already announced. *)
Record Link : Type := mkLink {
  lk_downstream : Side;
  lk_upstream : Side;
  lk_welcome : Welcome;
  lk_tunnel : FakeDevice;
  lk_announced : nat;
}.

Definition move (settings : UpstreamSettings) (state : TaskState) (next : Move) : RelayTest TaskState :=
  fun s => match advance settings false state next s with
           | Some (state, s) => (Ok state, s)
           | None => (Err "the supervisor is not waiting for this", s)
           end.

(** The supervisor [start] spawned dials; where it waits afterwards, and the link if it joined. *)
Definition dial_upstream (downstream upstream : Side) : CascadeTest (TaskState * option Link) :=
  running ← at_relay downstream (se_get (fun s => ul_running (rs_upstream s)));
  settings ← expect running;
  dialling ← at_relay downstream (move settings (TaskState_Spawned Backoff_new) Move_Poll);
  headers ← expect_ok (tunnel_request settings);
  served ← at_relay upstream (get (mkClient Version_HTTP_11 None headers) TUNNEL_PATH);
  admitted ← at_relay upstream (tunnel_of served);
  hello ← at_relay downstream (se_get hello_frame);
  '(handshake, tunnel) ← at_relay upstream (greet admitted (text_frame hello));
  let attempt := mkAttempt (ex_provider no_exchange) (fun _ => Ok tt) (Ok tt) (Some (Ok <$> handshake)) (Ok tt) [] in
  state ← at_relay downstream (move settings dialling (Move_Handshake attempt));
  match state with
  | TaskState_Adopted _ welcome =>
      announced ← at_relay downstream (se_get (fun s => length (reg_changes (rs_registry s))));
      frame ← at_relay downstream (se_get (fun s => snapshot_frame s (we_relay_id welcome)));
      serving ← at_relay downstream (move settings state (Move_Snapshot (Ok tt)));
      at_relay upstream (device_sends tunnel frame) ;;
      mret (serving, Some (mkLink downstream upstream welcome tunnel announced))
  | _ => at_relay upstream (hang_up tunnel ReaderEvent_End) ;; mret (state, None)
  end.

Definition pump_to (link : Link) (event : PumpEvent) : CascadeTest unit :=
  '(sent, ended) ← at_relay (lk_downstream link) (pump_event (lk_welcome link) event);
  assert (bool_decide (ended = None)) ;;
  cause ← at_relay (lk_upstream link)
    (read_frames (fd_handle (lk_tunnel link)) (fd_kind (lk_tunnel link))
       ((fun message => ReaderEvent_Message message true) <$> sent));
  assert (bool_decide (cause = None)).

(** Everything either end has to say crosses. *)
Definition synchronize (link : Link) : CascadeTest Link :=
  changes ← at_relay (lk_downstream link) (se_get (fun s => reg_changes (rs_registry s)));
  se_for (drop (lk_announced link) changes) (fun change => pump_to link (PumpEvent_Change change (Ok tt))) ;;
  messages ← at_relay (lk_upstream link) (messages_to (lk_tunnel link));
  se_for messages (fun message => pump_to link (PumpEvent_Message message true (Ok tt))) ;;
  mret (mkLink (lk_downstream link) (lk_upstream link) (lk_welcome link) (lk_tunnel link) (length changes)).

(** ** The pair every test starts from *)

Record Consoles : Type := mkConsoles {
  co_entry : Client;
  co_edge : Client;
}.

Definition wait_until_linked (console : Client) : CascadeTest unit :=
  overview ← at_relay Edge (relay_overview console);
  upstream ← expect (ro_upstream overview);
  assert_eq (uv_state upstream) UpstreamState_Connected ;;
  assert_eq (uv_url upstream) (origin (port_of Entry)) ;;
  assert_eq (uv_relay_id upstream) (Some (id_of Entry)) ;;
  assert_eq (uv_chain upstream) [id_of Entry] ;;
  assert_eq (uv_error upstream) None.

(** [Cascade::start]: [edge] becomes a downstream of [entry]. *)
Definition start_cascade : CascadeTest (Consoles * Link) :=
  entry_console ← start_relay Entry;
  edge_console ← start_relay Edge;
  code ← at_relay Entry (issue_code entry_console "relay");
  response ← join_upstream Edge edge_console Entry code;
  assert_eq (served_status response) CREATED ;;
  dialled ← dial_upstream Edge Entry;
  link ← expect (snd dialled);
  wait_until_linked edge_console ;;
  mret (mkConsoles entry_console edge_console, link).

Record Attached : Type := mkAttached {
  at_device : FakeDevice;
  at_device_id : string;
  at_first : DeviceEvent;
  at_link : Link;
}.

Definition attach_desktop (consoles : Consoles) (link : Link) : CascadeTest Attached :=
  code ← at_relay Edge (issue_code (co_edge consoles) "desktop");
  '(credential, device_id) ← at_relay Edge (enroll_device (browser_of Edge) code "办公室电脑");
  '(device, welcome) ← at_relay Edge (connect_device (browser_of Edge) credential DeviceKind_Desktop None);
  at_relay Edge (wait_until_online device_id) ;;
  link ← synchronize link;
  at_relay Entry (wait_until_online device_id) ;;
  mret (mkAttached device device_id welcome link).

(** A stream [entry] opens on a downstream's tunnel is carried by [edge]. *)
Definition carried_by (edge : RelayState) (link : TunnelHandle) (preface : StreamPreface) : result TunnelError unit :=
  match carry (rs_relay_id edge) (rs_registry edge) (Ok preface) (fun _ _ => Ok tt) (Ok tt) with
  | Ok _ => Ok tt
  | Err _ => Err (TunnelError_Preface "refused")
  end.

(** A browser's request to [entry]. *)
Definition get_through (client : Client) (path : string) : CascadeTest Served :=
  edge ← se_get cs_edge;
  at_relay Entry (send_in (world_of no_exchange (carried_by edge)) client Method_GET path "").

(** ** The tests *)

Definition device_url_at (side : Side) (device_id : string) : string :=
  origin (port_of side) +:+ device_path_of device_id "".

Definition a_desktop_behind_a_cascaded_relay_answers_at_the_top_of_the_chain : CascadeTest unit :=
  '(consoles, link) ← start_cascade;
  attached ← attach_desktop consoles link;
  let device_id := at_device_id attached in
  match at_first attached with
  | DeviceEvent_Welcome _ _ addresses chain =>
      assert_eq (urls (at_first attached)) [device_url_at Edge device_id; device_url_at Entry device_id] ;;
      assert_eq (ra_hops <$> addresses) [0; 1]%Z ;;
      assert_eq chain [id_of Entry]
  | _ => se_fail "the first frame should be the welcome"
  end ;;
  response ← get_through (browser_of Entry) (device_path_of device_id "hello");
  at_relay Entry (answered_by_device (device_path_of device_id "") response) ;;
  announced ← at_relay Entry (listed_device (co_entry consoles) device_id);
  assert (vd_online announced) ;;
  assert_eq (vd_via announced) [id_of Edge] ;;
  assert_eq (head (vd_via_names announced)) (Some (socket_addr_to_string (listen_address (port_of Edge)))).

Definition a_websocket_survives_both_hops : CascadeTest unit :=
  '(consoles, link) ← start_cascade;
  attached ← attach_desktop consoles link;
  response ← get_through (upgrading (browser_of Entry)) (device_path_of (at_device_id attached) "ws");
  at_relay Entry (answers_with SWITCHING_PROTOCOLS response).

Definition a_desktop_that_goes_offline_is_withdrawn_all_the_way_up : CascadeTest unit :=
  '(consoles, link) ← start_cascade;
  attached ← attach_desktop consoles link;
  let device_id := at_device_id attached in
  at_relay Edge (power_off (at_device attached)) ;;
  at_relay Edge (wait_until_offline device_id) ;;
  synchronize (at_link attached) ;;
  at_relay Entry (wait_until_offline device_id) ;;
  response ← get_through (browser_of Entry) (device_path_of device_id "");
  at_relay Entry (answers_with SERVICE_UNAVAILABLE response) ;;
  assert (contains (page response) "设备离线") ;;
  assert (contains (page response) "办公室电脑").

Definition leaving_the_upstream_pushes_a_shorter_address_list_to_every_device : CascadeTest unit :=
  '(consoles, link) ← start_cascade;
  attached ← attach_desktop consoles link;
  response ← leave_upstream Edge (co_edge consoles);
  at_relay Edge (answers_with NO_CONTENT response) ;;
  events ← at_relay Edge (device_hears (at_device attached));
  pushed ← expect (head (List.filter
    (fun event => match event with DeviceEvent_Addresses _ => true | _ => false end) events));
  assert_eq (urls pushed) [device_url_at Edge (at_device_id attached)] ;;
  overview ← at_relay Edge (relay_overview (co_edge consoles));
  assert (match ro_upstream overview with None => true | Some _ => false end) ;;
  unlinked ← at_relay Edge (audited action.UPSTREAM_UNLINKED);
  assert unlinked ;;
  connected ← at_relay Edge (audited action.UPSTREAM_CONNECTED);
  assert connected.

Definition a_link_that_would_close_the_ring_is_refused_and_not_retried : CascadeTest unit :=
  '(consoles, link) ← start_cascade;
  code ← at_relay Edge (issue_code (co_edge consoles) "relay");
  response ← join_upstream Entry (co_entry consoles) Edge code;
  at_relay Entry (answers_with CREATED response) ;;
  '(state, joined) ← dial_upstream Entry Edge;
  assert (match joined with None => true | Some _ => false end) ;;
  overview ← at_relay Entry (relay_overview (co_entry consoles));
  upstream ← expect (ro_upstream overview);
  assert_eq (uv_state upstream) UpstreamState_Error ;;
  assert (contains (default "" (uv_error upstream)) "环路") ;;
  refused ← at_relay Entry (audited action.UPSTREAM_LOOP_REFUSED);
  assert refused ;;
  (* the supervisor has ended: nothing dials again *)
  assert (match state with TaskState_Done => true | _ => false end).

Definition relay_cascade_tests : list (CascadeTest unit) :=
  [a_desktop_behind_a_cascaded_relay_answers_at_the_top_of_the_chain;
   a_websocket_survives_both_hops;
   a_desktop_that_goes_offline_is_withdrawn_all_the_way_up;
   leaving_the_upstream_pushes_a_shorter_address_list_to_every_device;
   a_link_that_would_close_the_ring_is_refused_and_not_retried].

Lemma relay_cascade_tests_pass :
  forallb (fun test => passes test (mkCascade (blank_state "home") (blank_state "office"))) relay_cascade_tests = true.
Proof. evaluate. Qed.
